(* ===== verification/_CoqProject ===== *)
-Q . S2P
Prelude.v
GoStd.v
Runes.v
Api.v
Effects.v
Interp.v
Net.v
Ssrf.v
Kube.v
KObjects.v
FlowCtl.v
IntegrationCtl.v
Steps.v
Publish.v
FlowRun.v
Frames.v
StepOrder.v
Store.v
FlowRunSafety.v
Progress.v
FlowRunProps.v
Instances.v
Gc.v
StepProps.v
PublishProps.v
Executor.v
SecretIndex.v
Webhook.v
WebhookProps.v
AccessLog.v
WebhookWatcher.v
Crl.v
Admission.v
Delivery.v
DeliveryProps.v
BrokerWatcher.v
Scram.v
KafkaWatcher.v
IntegrationProps.v
NatsWatcher.v
AmqpWatcher.v
BrokerProps.v
AmqpProps.v
ResourceWatcher.v
ResourceProps.v
AwsPlugin.v
AwsSubscriber.v
AwsProps.v
AwsContract.v
AwsDeployment.v
CertUtil.v
CertProps.v
WebhookCerts.v
WebhookCertsProps.v
ClusterSpec.v
ExecutorCtl.v
ExecutorCtlProps.v
ExecutorChannel.v
GatewayDeploy.v
GatewayDeployProps.v
Cron.v
TriggerCtl.v
TriggerProps.v
BrokerReport.v
Cli.v
CliProps.v
Flags.v
ServeMux.v
Startup.v
StartupProps.v
Telemetry.v
Metrics.v
OperatorMain.v
OperatorProps.v
EndToEnd.v
Witnesses.v
GatewayWitnesses.v
OperatorWitnesses.v
CliWitnesses.v
StartupWitnesses.v
