(* ===== verification/Prelude.v ===== *)
(** * A verification development for the KubeZap operator

    KubeZap runs automation flows on Kubernetes.  A Flow is a graph of steps
    (HTTP call, publish, wait, transform); a Trigger says what starts it (a
    webhook, a cron schedule, a broker message, a changed resource, a plugin);
    a FlowRun is one execution; an Integration holds connection settings.  The
    controllers ([src/internal/controller]) drive these objects through the API
    server, the HTTP executor ([src/internal/executor/http]) makes the outbound
    calls of HTTP steps, the gateways ([src/internal/gateway]) and the AWS plugin
    ([src/internal/plugin/awsmessaging]) turn events from outside into FlowRuns,
    and the command line client ([src/internal/cli]) shows them.

    ** How the code is modelled

    Pure functions are Gallina functions under their Go names.  A function that
    talks to the API server, the network, the clock, a broker or a shared cache
    is a [Prog]: a tree of requests and of continuations for every answer
    (file Effects).  No environment is built in: a theorem either holds for all
    answers ([any_spec]), or for those of a stated specification with a ghost
    state, such as the stored object with its resource version, stale reads,
    failed writes that may have been applied and concurrent writers (file
    Store).  Long Go functions are split into their blocks, each a definition,
    composed in the order of the code.  Errors are values of [result] with the
    kinds the code tells apart; a loop with early return is [pfold_ret].
    Strings are byte strings; times and durations are nanoseconds in [Z], with
    the 64-bit wrap-around written out where the code multiplies.

    Libraries outside the repository are classes of operations ([GoLib],
    [NetLib], [KubeLib], [CelLib], [HttpLib], [SortLib], [WebLib], [ExecLib],
    [CronLib], [ScramLib], [SelectorLib], [CrlLib], [AdmissionLib], [AwsLib],
    [PluginWire], [Crypto], [X509Lib], [CliLib], [LogLib], [FloatLib]); what the
    proofs rely on is stated as separate classes of laws or as hypotheses, and
    the files Instances and those named Witnesses show that they can hold, by
    concrete instances on which the code is run.
    Inside the repository, the class [Broker] is what a broker gateway gives to
    the watcher the three gateways share (three copies of one text in the
    source): its client theorems are proved from [BrokerLaws], which the Kafka,
    AMQP and NATS code is proved to satisfy.

    Left out of every definition: log lines (the access log of the webhook gateway
    apart), metrics (the collector of active runs apart), spans, and the rounding
    of stored times to seconds.  A context deadline is an error the environment
    may answer with.  The goroutines of a wave of steps are run one after the
    other (see file FlowRun for why this loses no behaviour the theorems are
    about), and so are the callbacks of the informers of a broker gateway, which
    Go may run in parallel: its theorems are about callbacks that do not
    overlap.

    ** Files

    - Prelude, GoStd, Runes, Net, Effects: errors, tactics, hint database, list
      lemmas; the Go strings, JSON values and durations; UTF-8 runes, object
      names and base64; addresses and CIDR ranges; programs and weakest
      preconditions.
    - Api, Kube, KObjects: the API types ([api/v1alpha1]), keeping the fields the
      modelled code reads; the requests of the FlowRun controller and its
      libraries; Deployments, Services, RBAC objects and [CreateOrUpdate].
    - Interp: templates, secret references and parameters
      ([flowrun_controller.go]: [interpolateTemplate], [resolveFlowParams]).
    - Ssrf, Executor: the two copies of the SSRF protection
      ([internal/controller/ssrf.go], [internal/executor/http/ssrf.go]) and the
      executor ([handler.go]).
    - FlowCtl: [flow_controller.go].
    - Steps, Publish, FlowRun: step execution and [Reconcile] of
      [flowrun_controller.go]; Scram: its SASL client.
    - Store, Frames, StepOrder, FlowRunSafety, FlowRunProps, Progress, Gc,
      StepProps, PublishProps: specifications and proofs about them.
    - SecretIndex ([internal/gateway/secretindex]); Webhook, WebhookWatcher
      ([internal/gateway/webhook], [internal/gateway/redact]), with
      WebhookProps; AccessLog ([accesslog.go]): the middleware and what its
      lines say; Crl ([crl.go]): client certificate revocation.
    - Admission: the two validators of [internal/webhook].
    - Delivery, DeliveryProps: the message handlers of the Kafka, AMQP and NATS
      gateways ([handler.go] of each).
    - BrokerWatcher: the state and callbacks their watchers share
      ([kafka/watcher.go], and the same text in [amqp] and [nats]);
      KafkaWatcher, AmqpWatcher, NatsWatcher: credentials, connections and
      consuming loops of each, and their [Broker] instances; BrokerProps,
      AmqpProps, BrokerReport: the proofs, the last across the gateway and the
      Trigger controller.
    - IntegrationCtl ([integration_controller.go], [plugin_mtls.go]), with
      IntegrationProps.
    - ResourceWatcher ([resource_watcher.go]), with ResourceProps.
    - Cron ([cron_scheduler.go]); TriggerCtl ([trigger_controller.go],
      [trigger_plugin.go], [trigger_credential_condition.go]), with TriggerProps.
    - AwsPlugin, AwsSubscriber: the AWS messaging plugin (configuration, health,
      publisher, TLS reload; the SQS subscriber), with AwsProps; AwsContract: the
      publish step against the plugin; AwsDeployment: the Deployment of the
      Integration controller against the plugin's configuration.
    - CertUtil: [certutil], [executor_mtls.go], the store of [plugin_mtls.go],
      with CertProps; WebhookCerts: [internal/webhookcerts], with
      WebhookCertsProps.
    - ClusterSpec: an API server for objects written with [CreateOrUpdate];
      ExecutorCtl ([executor_reconciler.go]), with ExecutorCtlProps;
      ExecutorChannel: the rotation of [cmd/main.go], the client of
      [callExecutor] and the TLS set-up of [cmd/http-executor/main.go] as one
      transition system; GatewayDeploy ([gateway_deployment.go] and
      [ensureWebhookGateway]), with GatewayDeployProps.
    - Cli ([internal/cli], [cmd/kubezap]), with CliProps.
    - Flags, ServeMux: the packages [flag] and [http.ServeMux] for what the
      programs use of them, with the routes of the servers.
    - Startup: the main programs of the gateways, the executor and the AWS plugin
      ([cmd]), the goroutines they start, and [NewWatcher] and [Start] of the
      watchers, with StartupProps: the arguments of the Deployments against the
      programs that parse them.
    - OperatorMain: [cmd/main.go] with the [SetupWithManager] functions, with
      OperatorProps; Telemetry ([internal/telemetry]); Metrics
      ([internal/metrics]): the collector of active runs.
    - EndToEnd: the sources of FlowRuns composed with the FlowRun controller.
    - Instances, Witnesses, GatewayWitnesses, OperatorWitnesses, CliWitnesses,
      StartupWitnesses: concrete environments; each property with hypotheses
      applied at an input where they hold.

    ** What is proved

    - FlowRun: final phases stay, success and cancellation come only from
      Running, times are kept (how a run starts and what cancels it is where the
      code departs from [flowrun-state-model.md] and is left open), outcomes of
      finished steps never change, steps wait for their dependencies, a run of an
      acyclic Flow succeeds only when complete, any sequence of reconciles
      without other writers refines an abstract run machine, a reconcile never
      stalls, and a run of a Flow of [n] steps ends within [2 n + 1] reconciles.
    - Templates: the displayed text is independent of the secrets, data cannot
      inject a secret reference, interpolation terminates.
    - SSRF: what the controller lets through resolved to allowed addresses only;
      every forwarded URL was checked; the executor dials exactly what it
      validated.
    - Webhook gateway: authentication is exactly the configured scheme, FlowRuns
      come only from authorized requests, routes are never downgraded, client
      addresses cannot be forged through a prefix, rate limits hold, redaction
      hides the listed headers; the access log states the reply, the FlowRun and
      the refusal of each request truly; its Deployment, Role, probes and
      autoscaler are those of its configuration, with least privilege.
    - Triggers: registrations are always backed by finalizers, deletion releases
      them, the status is exact, the gateway is removed only when unused; the
      cron table refines a map and the persisted cooldown bounds the runs.
    - Broker gateways: live consumers are exactly the subscriptions held, of
      enabled Triggers, for callbacks in any order that do not overlap; rotated
      Kafka credentials replace the consumer, and a credential change reaches
      every dependent Trigger; the condition the controller publishes is the
      state of the gateway while the Events reflect it; AMQP and JetStream
      messages are settled one by one and acknowledged only after their FlowRun
      is stored, and so are Kafka messages while FlowRuns can be created; names
      are unique per message while they fit, and payloads round-trip; AMQP requests
      come in protocol order and connections are closed.
    - Resource Triggers: FlowRuns only for the events asked for, at the rate the
      cooldown (of at most an hour) allows.
    - Integrations: validation is exact, reconciling touches only the objects of
      the Integration by name, with Roles that change nothing but FlowRuns and
      Events, autoscaling follows the consumers.
    - Revocation: the callback of a full handshake accepts exactly under the last
      good, fresh list.
    - SCRAM: the client completes the exchange with a server written from
      RFC 5802, and succeeds only against one that knows the salted password.
    - AWS plugin: messages are deleted only after their FlowRun is stored, live
      pollers are the subscriptions held; what a publish request sends is what
      SNS gets; the Deployment the controller writes is one the plugin accepts.
    - Certificates: a generated bundle authenticates both ends for its lifetime;
      the webhook certificate, its files and the CA of the webhook configurations
      agree after every start and rotation; the channel to the executor works
      while both ends stem from one bundle.
    - Executor: its objects are exactly those prescribed, without privileges, and
      its network policy excepts the private ranges of both address families.
    - Processes: with the arguments it is deployed with, the executor and the
      webhook gateway open exactly the servers their configuration asks for, never
      with less transport security, and the probes reach them (those of a gateway
      that requires client certificates do not); the operator starts its manager
      only with its certificates in place and every controller set up, watches
      exactly the configured namespaces, and calls the executors where they
      listen.
    - The whole way: whatever run any source creates is a new run of the
      Trigger's Flow, which the controller brings to an end if nobody else writes
      it.
    - Client: the history command shows exactly what was asked for of one
      namespace, in order; the
      live tail shows each completion once.
    - Garbage collection, retries, waits, the producer cache, [when] conditions,
      parameter priority, Flow validation, the Secret index.

    ** Fuel and bounds

    [interp_loop] takes [S (slen s)] fuel for the template [s]: every iteration
    consumes a character of it, and [interp_loop_fuel] proves that more fuel
    changes nothing.  [parse_groups] ([time.ParseDuration]) takes the length of the text,
    each number and unit consuming at least two characters.  [v6_loop] has the
    8 rounds a 16-byte address can hold.  [scramHi_loop] runs the iteration
    count as a [nat].  The consuming loops
    of the gateways ([consumeLoop], [retry091]) run until their context is
    cancelled, so they take the number of rounds to run and say whether they
    returned; the theorems hold for every number.  So do the polling loop of the
    SQS subscriber ([poll]), the ticks of the certificate rotator
    ([Rotator_Start]) and the loops of the client ([watchPolls], [watchLoop]).
    The retry on conflict takes the five attempts of [retry.DefaultRetry].  All
    other loops recurse on their lists.

    ** Not modelled

    Log lines, the increments of counters and histograms and the spans are left
    out of every definition.  The informers, work queues, leader election and the
    manager are of client-go and controller-runtime: the model starts at the
    callbacks and the calls of [Reconcile] they make, in any order the theorems
    allow.  The validation markers of the custom resources are enforced by the API
    server from generated manifests, so the definitions take any field values;
    cobra parses the command line of the client.  [zz_generated.deepcopy.go] is
    generated.  A request whose path needs percent-encoding is outside [route]. *)

From Stdlib Require Export ZArith Lia Ascii String.
From stdpp Require Export base gmap strings list fin_maps pretty.

(** ** Scopes and the error type *)

Declare Scope go_scope.
Delimit Scope go_scope with go.

(** The kinds of Go error values the code distinguishes: [apierrors.IsNotFound],
    [apierrors.IsAlreadyExists], [errors.As] on [executorTransportError], and
    everything else.  [fmt.Errorf] with [%w] keeps the kind, as [errors.As]
    looks through wrapping. *)
Inductive ekind := EKNotFound | EKAlreadyExists | EKConflict | EKTransport | EKOther.

#[global] Instance ekind_eq_dec : EqDecision ekind.
Proof. solve_decision. Defined.

Record gerr := GErr { ekind_of : ekind; emsg : string }.

#[global] Instance gerr_eq_dec : EqDecision gerr.
Proof. solve_decision. Defined.

(** [errorf msg] is [fmt.Errorf] without a wrapped error, [wrapf p e] is
    [fmt.Errorf("p%w", e)]. *)
Definition errorf (msg : string) : gerr := GErr EKOther msg.
Definition wrapf (prefix : string) (e : gerr) : gerr :=
  GErr (ekind_of e) (prefix +:+ emsg e).

Inductive result (A : Type) := Ok (a : A) | Err (e : gerr).
Arguments Ok {_} _.
Arguments Err {_} _.

Definition is_ok {A} (r : result A) : bool :=
  match r with Ok _ => true | Err _ => false end.

Definition res_bind {A B} (r : result A) (f : A → result B) : result B :=
  match r with Ok a => f a | Err e => Err e end.

Notation "'let?' x ':=' r 'in' k" := (res_bind r (λ x, k))
  (at level 10, x pattern, r at level 100, k at level 200)
  : go_scope.

Lemma res_bind_Ok {A B} (r : result A) (f : A → result B) b :
  res_bind r f = Ok b ↔ ∃ a, r = Ok a ∧ f a = Ok b.
Proof. destruct r; naive_solver. Qed.

(** ** Tactics and hint databases *)

Create HintDb kz discriminated.
Create Rewrite HintDb kz.

(** Case analysis on the scrutinee of every [match]/[if] of the goal. *)
Ltac break_match :=
  match goal with
  | |- context [match ?x with _ => _ end] =>
      lazymatch x with
      | context [match _ with _ => _ end] => fail
      | _ => destruct x eqn:?
      end
  end.

Ltac break_match_hyp H :=
  match type of H with
  | context [match ?x with _ => _ end] =>
      lazymatch x with
      | context [match _ with _ => _ end] => fail
      | _ => destruct x eqn:?
      end
  end.

Ltac crush_match := repeat (break_match; simplify_eq/=); try done.

(** Turn boolean hypotheses into propositions. *)
Ltac bool_hyps :=
  repeat match goal with
  | H : (_ && _) = true |- _ => apply andb_true_iff in H as [? ?]
  | H : (_ || _) = false |- _ => apply orb_false_iff in H as [? ?]
  | H : negb _ = true |- _ => apply negb_true_iff in H
  | H : negb _ = false |- _ => apply negb_false_iff in H
  | H : bool_decide _ = true |- _ => apply bool_decide_eq_true in H
  | H : bool_decide _ = false |- _ => apply bool_decide_eq_false in H
  | H : (_ =? _)%string = true |- _ => apply String.eqb_eq in H
  | H : (_ =? _)%string = false |- _ => apply String.eqb_neq in H
  | H : (_ =? _)%Z = true |- _ => apply Z.eqb_eq in H
  | H : (_ =? _)%Z = false |- _ => apply Z.eqb_neq in H
  | H : (_ <? _)%Z = true |- _ => apply Z.ltb_lt in H
  | H : (_ <? _)%Z = false |- _ => apply Z.ltb_ge in H
  | H : (_ <=? _)%Z = true |- _ => apply Z.leb_le in H
  | H : (_ <=? _)%Z = false |- _ => apply Z.leb_gt in H
  end.

(** ** Generic list lemmas *)

Fixpoint find_by {A} (p : A → bool) (l : list A) : option A :=
  match l with
  | [] => None
  | x :: l => if p x then Some x else find_by p l
  end.

Lemma find_by_Some {A} (p : A → bool) l x :
  find_by p l = Some x → x ∈ l ∧ p x = true.
Proof.
  induction l as [|y l IH]; simpl; [done|].
  destruct (p y) eqn:E; intros; simplify_eq.
  - by split; [left|].
  - destruct IH; [done|]. split; [by right|done].
Qed.

Lemma find_by_None {A} (p : A → bool) l :
  find_by p l = None ↔ ∀ x, x ∈ l → p x = false.
Proof.
  induction l as [|y l IH]; simpl.
  { split; [intros _ x Hx; by apply not_elem_of_nil in Hx|done]. }
  destruct (p y) eqn:E; split; intros H.
  - done.
  - specialize (H y ltac:(by left)). congruence.
  - intros x Hx. apply elem_of_cons in Hx as [->|Hx]; [done|]. by apply IH.
  - apply IH. intros x Hx. apply H. by right.
Qed.

Lemma find_by_ext {A} (p q : A → bool) l :
  (∀ x, x ∈ l → p x = q x) → find_by p l = find_by q l.
Proof.
  induction l as [|y l IH]; simpl; intros H; [done|].
  rewrite (H y) by (by left). destruct (q y); [done|].
  apply IH. intros x Hx. apply H. by right.
Qed.

Lemma find_by_app {A} (p : A → bool) l1 l2 :
  find_by p (l1 ++ l2) = match find_by p l1 with Some x => Some x | None => find_by p l2 end.
Proof. induction l1 as [|x l1 IH]; simpl; [done|]. by destruct (p x). Qed.

#[export] Hint Resolve find_by_Some : kz.
