(* ===== verification/GoStd.v ===== *)
(** * The parts of the Go language and standard library the operator uses

    Strings are byte strings ([String.string], one [ascii] per byte, as a Go
    string is a byte sequence).  Case folding and white space are the ASCII
    ones.  [time.Time] and [time.Duration] are nanosecond counts in [Z]; the
    64-bit wrap-around of [Duration] arithmetic is written out ([wrap64])
    where the code multiplies. *)

From S2P Require Import Prelude.

(** ** Slicing: [s[n:]] and [s[:n]] *)

Fixpoint sdrop (n : nat) (s : string) : string :=
  match n, s with
  | 0, _ => s
  | S n, String _ s => sdrop n s
  | S _, EmptyString => EmptyString
  end.

Fixpoint stake (n : nat) (s : string) : string :=
  match n, s with
  | 0, _ => EmptyString
  | S n, String c s => String c (stake n s)
  | S _, EmptyString => EmptyString
  end.

Abbreviation slen := String.length.

(** ** package strings *)

Definition HasPrefix (s p : string) : bool := String.prefix p s.

Definition TrimPrefix (s p : string) : string :=
  if HasPrefix s p then sdrop (slen p) s else s.

Definition HasSuffix (s suf : string) : bool :=
  (slen suf <=? slen s)%nat && (sdrop (slen s - slen suf) s =? suf)%string.

(** [strings.Index]: [None] is the Go result [-1]. *)
Fixpoint Index (s sub : string) : option nat :=
  if HasPrefix s sub then Some 0
  else match s with
       | EmptyString => None
       | String _ s' => S <$> Index s' sub
       end.

Definition Contains (s sub : string) : bool :=
  match Index s sub with Some _ => true | None => false end.

(** [strings.ReplaceAll s old new] for a non-empty [old]: non-overlapping
    occurrences from left to right; [skip] counts the bytes of the current
    occurrence still to be dropped. *)
Fixpoint replace_go (old new : string) (skip : nat) (s : string) : string :=
  match s with
  | EmptyString => EmptyString
  | String c s' =>
      match skip with
      | S k => replace_go old new k s'
      | 0 => if HasPrefix s old then new +:+ replace_go old new (slen old - 1) s'
             else String c (replace_go old new 0 s')
      end
  end.

Definition ReplaceAll (s old new : string) : string := replace_go old new 0 s.

(** [strings.Split] on a one-byte separator. *)
Fixpoint split_char (c : ascii) (s : string) : list string :=
  match s with
  | EmptyString => [EmptyString]
  | String a s' =>
      if (a =? c)%char then EmptyString :: split_char c s'
      else match split_char c s' with
           | [] => [String a EmptyString]
           | w :: ws => String a w :: ws
           end
  end.

Fixpoint Join (l : list string) (sep : string) : string :=
  match l with
  | [] => EmptyString
  | [x] => x
  | x :: l => x +:+ sep +:+ Join l sep
  end.

Fixpoint smap (f : ascii → ascii) (s : string) : string :=
  match s with
  | EmptyString => EmptyString
  | String c s => String (f c) (smap f s)
  end.

Definition lower_char (c : ascii) : ascii :=
  let n := nat_of_ascii c in
  if (65 <=? n)%nat && (n <=? 90)%nat then ascii_of_nat (n + 32) else c.

Definition upper_char (c : ascii) : ascii :=
  let n := nat_of_ascii c in
  if (97 <=? n)%nat && (n <=? 122)%nat then ascii_of_nat (n - 32) else c.

Definition ToLower (s : string) : string := smap lower_char s.
Definition ToUpper (s : string) : string := smap upper_char s.

Definition EqualFold (s t : string) : bool := (ToLower s =? ToLower t)%string.

Definition is_space (c : ascii) : bool :=
  let n := nat_of_ascii c in
  (n =? 32)%nat || ((9 <=? n)%nat && (n <=? 13)%nat).

Fixpoint trim_left_by (p : ascii → bool) (s : string) : string :=
  match s with
  | EmptyString => EmptyString
  | String c s' => if p c then trim_left_by p s' else s
  end.

Fixpoint trim_right_by (p : ascii → bool) (s : string) : string :=
  match s with
  | EmptyString => EmptyString
  | String c s' =>
      match trim_right_by p s' with
      | EmptyString => if p c then EmptyString else String c EmptyString
      | t => String c t
      end
  end.

Definition TrimSpace (s : string) : string :=
  trim_right_by is_space (trim_left_by is_space s).

(** [strings.TrimLeft], [TrimRight] and [Trim] with a one-byte cutset. *)
Definition TrimLeft (s : string) (c : ascii) : string := trim_left_by (Ascii.eqb c) s.
Definition TrimRight (s : string) (c : ascii) : string := trim_right_by (Ascii.eqb c) s.
Definition Trim (s : string) (c : ascii) : string := TrimRight (TrimLeft s c) c.

(** [strings.Repeat] *)
Fixpoint srepeat (s : string) (n : nat) : string :=
  match n with 0 => EmptyString | S n => s +:+ srepeat s n end.

(** ** Numbers *)

Definition wrap (w x : Z) : Z := ((x + 2 ^ (w - 1)) mod 2 ^ w - 2 ^ (w - 1))%Z.
Definition wrap32 (x : Z) : Z := wrap 32 x.
Definition wrap64 (x : Z) : Z := wrap 64 x.

Definition min_int64 : Z := (- 2 ^ 63)%Z.
Definition max_int64 : Z := (2 ^ 63 - 1)%Z.

(** [fmt.Sprintf] with the [%d] verb. *)
Definition Itoa (z : Z) : string := pretty z.

Definition digit_val (c : ascii) : option Z :=
  let n := nat_of_ascii c in
  if (48 <=? n)%nat && (n <=? 57)%nat then Some (Z.of_nat n - 48)%Z else None.

Fixpoint parse_digits (acc : Z) (s : string) : option Z :=
  match s with
  | EmptyString => Some acc
  | String c s => match digit_val c with
                  | Some d => parse_digits (acc * 10 + d)%Z s
                  | None => None
                  end
  end.

(** [strconv.ParseInt(s, 10, 64)] (and [strconv.Atoi] on a 64-bit platform);
    [None] is a syntax or range error. *)
Definition ParseInt (s : string) : option Z :=
  let '(neg, body) :=
    match s with
    | String "-" r => (true, r)
    | String "+" r => (false, r)
    | _ => (false, s)
    end in
  match body with
  | EmptyString => None
  | _ => match parse_digits 0 body with
         | None => None
         | Some v => let v := if neg then (- v)%Z else v in
                     if (min_int64 <=? v)%Z && (v <=? max_int64)%Z then Some v else None
         end
  end.

(** ** Quoting: [fmt.Sprintf] with the [%q] verb (ASCII escapes) *)

Definition dq : string := String (ascii_of_nat 34) EmptyString.
Definition backslash : ascii := ascii_of_nat 92.

Definition hexdigit (n : nat) : ascii :=
  ascii_of_nat (if (n <? 10)%nat then 48 + n else 87 + n).

Definition quote_char (c : ascii) : string :=
  let n := nat_of_ascii c in
  let esc (m : nat) := String backslash (String (ascii_of_nat m) EmptyString) in
  if (n =? 34)%nat then esc 34
  else if (n =? 92)%nat then esc 92
  else if (n =? 7)%nat then esc 97
  else if (n =? 8)%nat then esc 98
  else if (n =? 9)%nat then esc 116
  else if (n =? 10)%nat then esc 110
  else if (n =? 11)%nat then esc 118
  else if (n =? 12)%nat then esc 102
  else if (n =? 13)%nat then esc 114
  else if (n <? 32)%nat || (n =? 127)%nat then
    String backslash (String "x" (String (hexdigit (n / 16)) (String (hexdigit (n mod 16)) EmptyString)))
  else String c EmptyString.

Fixpoint quote_body (s : string) : string :=
  match s with
  | EmptyString => EmptyString
  | String c s => quote_char c +:+ quote_body s
  end.

Definition Quote (s : string) : string := dq +:+ quote_body s +:+ dq.

(** ** Durations *)

Definition Nanosecond : Z := 1.
Definition Microsecond : Z := 1000.
Definition Millisecond : Z := 1000000.
Definition Second : Z := 1000000000.
Definition Minute : Z := 60 * Second.
Definition Hour : Z := 60 * Minute.

(** [Duration.Milliseconds] truncates toward zero. *)
Definition Milliseconds (d : Z) : Z := Z.quot d Millisecond.

(** The leading [[0-9]*] of a string: value, number of digits, rest.  A value
    over 2^63 is an error in Go ([leadingInt]); it is caught below. *)
Fixpoint leading_int (acc : Z) (cnt : nat) (s : string) : Z * nat * string :=
  match s with
  | String c s' => match digit_val c with
                   | Some d => leading_int (acc * 10 + d)%Z (S cnt) s'
                   | None => (acc, cnt, s)
                   end
  | EmptyString => (acc, cnt, s)
  end.

(** The unit: the longest run of bytes that are neither a dot nor a digit. *)
Fixpoint leading_unit (s : string) : string * string :=
  match s with
  | String c s' =>
      if (c =? ".")%char then (EmptyString, s)
      else match digit_val c with
           | Some _ => (EmptyString, s)
           | None => let '(u, r) := leading_unit s' in (String c u, r)
           end
  | EmptyString => (EmptyString, EmptyString)
  end.

Definition unit_value (u : string) : option Z :=
  if (u =? "ns")%string then Some Nanosecond
  else if (u =? "us")%string then Some Microsecond
  else if (u =? "µs")%string then Some Microsecond
  else if (u =? "μs")%string then Some Microsecond
  else if (u =? "ms")%string then Some Millisecond
  else if (u =? "s")%string then Some Second
  else if (u =? "m")%string then Some Minute
  else if (u =? "h")%string then Some Hour
  else None.

(** One [number unit] group per round; every round consumes a byte, so
    [slen s] rounds are enough.  The fraction is scaled with integer
    arithmetic where Go uses [float64]. *)
Fixpoint parse_groups (fuel : nat) (acc : Z) (s : string) : option Z :=
  match s with
  | EmptyString => Some acc
  | _ =>
    match fuel with
    | 0 => None
    | S fuel =>
      let '(v, pre, s1) := leading_int 0 0 s in
      let '(f, post, s2) :=
        match s1 with
        | String "." r => leading_int 0 0 r
        | _ => (0%Z, 0, s1)
        end in
      if (pre =? 0)%nat && (post =? 0)%nat then None
      else
        let '(u, s3) := leading_unit s2 in
        match unit_value u with
        | None => None
        | Some unit =>
            let acc' := (acc + v * unit + f * unit / 10 ^ Z.of_nat post)%Z in
            if (2 ^ 63 <? acc')%Z then None else parse_groups fuel acc' s3
        end
    end
  end.

(** [time.ParseDuration] *)
Definition ParseDuration (s : string) : option Z :=
  let '(neg, r) :=
    match s with
    | String "-" r => (true, r)
    | String "+" r => (false, r)
    | _ => (false, s)
    end in
  if (r =? "0")%string then Some 0%Z
  else match r with
       | EmptyString => None
       | _ => match parse_groups (slen r) 0 r with
              | None => None
              | Some d => if neg then Some (- d)%Z
                          else if (max_int64 <? d)%Z then None else Some d
              end
       end.

Example ParseDuration_1h30m : ParseDuration "1h30m" = Some (90 * Minute)%Z.
Proof. vm_compute. reflexivity. Qed.
Example ParseDuration_bad : ParseDuration "10" = None.
Proof. vm_compute. reflexivity. Qed.

(** [Duration.String]: the fraction digits of [fmtFrac] without trailing
    zeros, then hours, minutes and seconds. *)
Fixpoint zero_pad (n : nat) (s : string) : string :=
  match n with 0 => s | S n => zero_pad n (if (slen s <=? n)%nat then String "0" s else s) end.

Definition frac_string (prec : nat) (f : Z) : string :=
  match TrimRight (zero_pad prec (Itoa f)) "0" with
  | EmptyString => EmptyString
  | s => String "." s
  end.

Definition Duration_String (d : Z) : string :=
  let u := Z.abs d in
  let sub (prec : nat) (unit : string) :=
    Itoa (u / 10 ^ Z.of_nat prec) +:+ frac_string prec (u mod 10 ^ Z.of_nat prec) +:+ unit in
  let body :=
    if (u =? 0)%Z then "0s"%string
    else if (u <? Second)%Z then
      if (u <? Microsecond)%Z then sub 0 "ns"%string
      else if (u <? Millisecond)%Z then sub 3 "µs"%string
      else sub 6 "ms"%string
    else
      let secs := (u / Second)%Z in
      let mins := (secs / 60)%Z in
      let hours := (mins / 60)%Z in
      (if (0 <? hours)%Z then Itoa hours +:+ "h" else EmptyString)
      +:+ (if (0 <? mins)%Z then Itoa (mins mod 60) +:+ "m" else EmptyString)
      +:+ Itoa (secs mod 60) +:+ frac_string 9 (u mod Second) +:+ "s" in
  if (d <? 0)%Z then String "-" body else body.

(** [Duration.Truncate] rounds toward zero to a multiple. *)
Definition Truncate (d m : Z) : Z := if (m <=? 0)%Z then d else (d - Z.rem d m)%Z.

Example Duration_String_1h : Duration_String (Hour + 30 * Second) = "1h0m30s"%string.
Proof. vm_compute. reflexivity. Qed.
Example Duration_String_ms : Duration_String 1500000 = "1.5ms"%string.
Proof. vm_compute. reflexivity. Qed.
Example Duration_String_us : Duration_String (2 * Second + 50 * Millisecond) = "2.05s"%string.
Proof. vm_compute. reflexivity. Qed.

(** ** Lemmas *)

Lemma string_app_nil_r s : s +:+ "" = s.
Proof. induction s as [|c s IH]; [done|]. change (String c (s +:+ "") = String c s). by rewrite IH. Qed.

Lemma slen_sdrop n s : slen (sdrop n s) = slen s - n.
Proof. revert s; induction n as [|n IH]; intros [|c s]; simpl; auto with lia. Qed.

Lemma stake_sdrop n s : stake n s +:+ sdrop n s = s.
Proof.
  revert s; induction n as [|n IH]; intros [|c s]; simpl; try done.
  change (String c (stake n s +:+ sdrop n s) = String c s). by rewrite IH.
Qed.

Lemma HasPrefix_spec s p : HasPrefix s p = true ↔ ∃ r, s = p +:+ r.
Proof.
  unfold HasPrefix. revert s; induction p as [|c p IH]; intros [|d s]; simpl.
  - split; [by exists ""|done].
  - split; [by exists (String d s)|done].
  - split; [done|]. by intros [r Hr].
  - destruct (ascii_dec c d) as [->|Hne].
    + rewrite IH. split; intros [r Hr]; exists r; simpl.
      * by rewrite Hr.
      * change (String d s = String d (p +:+ r)) in Hr. by injection Hr.
    + split; [done|]. intros [r Hr].
      change (String d s = String c (p +:+ r)) in Hr. by injection Hr.
Qed.


Lemma sdrop_app p r : sdrop (slen p) (p +:+ r) = r.
Proof. induction p as [|c p IH]; simpl; [done|exact IH]. Qed.

Lemma slen_append a b : slen (a +:+ b) = slen a + slen b.
Proof. induction a as [|c a IH]; [done|]. change (S (slen (a +:+ b)) = S (slen a + slen b)). by rewrite IH. Qed.

Lemma HasSuffix_spec s suf : HasSuffix s suf = true ↔ ∃ r, s = r +:+ suf.
Proof.
  unfold HasSuffix. split.
  - intros [_ He%String.eqb_eq]%andb_prop. exists (stake (slen s - slen suf) s).
    rewrite <- He at 2. by rewrite stake_sdrop.
  - intros [r ->]. rewrite slen_append. replace (slen r + slen suf - slen suf) with (slen r) by lia.
    rewrite sdrop_app, String.eqb_refl, andb_true_r. apply Nat.leb_le. lia.
Qed.

Lemma TrimPrefix_app p r : TrimPrefix (p +:+ r) p = r.
Proof.
  unfold TrimPrefix. assert (HasPrefix (p +:+ r) p = true) as ->.
  { apply HasPrefix_spec. eauto. }
  apply sdrop_app.
Qed.

Lemma Index_Some s sub n :
  Index s sub = Some n → n + slen sub ≤ slen s ∧ HasPrefix (sdrop n s) sub = true.
Proof.
  revert n; induction s as [|c s IH]; cbn [Index]; intros n.
  - destruct (HasPrefix "" sub) eqn:E; intros; simplify_eq. split; [|done].
    apply HasPrefix_spec in E as [r Hr]. by destruct sub.
  - destruct (HasPrefix (String c s) sub) eqn:E.
    + intros [= <-]. split; [|done]. apply HasPrefix_spec in E as [r Hr].
      change (slen sub ≤ slen (String c s)). rewrite Hr.
      clear. induction sub; simpl; lia.
    + destruct (Index s sub) as [m|] eqn:E2; simpl; [|done]. intros [= <-].
      destruct (IH m eq_refl) as [? ?]. split; [cbn; lia|done].
Qed.

Lemma Index_infix p sub r : is_Some (Index (p +:+ sub +:+ r) sub).
Proof.
  induction p as [|c p IH].
  - assert (HasPrefix (sub +:+ r) sub = true) as Hp by (apply HasPrefix_spec; eauto).
    change ("" +:+ sub +:+ r) with (sub +:+ r). destruct (sub +:+ r); cbn [Index]; rewrite Hp; eauto.
  - change (String c p +:+ sub +:+ r) with (String c (p +:+ sub +:+ r)). cbn [Index].
    destruct (HasPrefix _ _); [eauto|]. destruct IH as [n ->]. simpl. eauto.
Qed.

Lemma Index_pos_sub s c sub :
  Index s (String c sub) = Some (slen s) → False.
Proof. intros [H _]%Index_Some. simpl in H. lia. Qed.

Lemma split_char_app c a b :
  split_char c (a +:+ String c b) = split_char c a ++ split_char c b.
Proof.
  induction a as [|d a IH].
  - change (EmptyString +:+ String c b) with (String c b). simpl. by rewrite Ascii.eqb_refl.
  - change (String d a +:+ String c b) with (String d (a +:+ String c b)). simpl.
    destruct (d =? c)%char; [by rewrite IH|]. rewrite IH.
    destruct (split_char c a) eqn:Ha; [|done]. exfalso. clear -Ha. destruct a as [|e a]; [done|].
    simpl in Ha. destruct (e =? c)%char; [done|]. by destruct (split_char c a).
Qed.

(** Whether a byte occurs in a string. *)
Fixpoint has_char (c : ascii) (s : string) : bool :=
  match s with EmptyString => false | String a s => (a =? c)%char || has_char c s end.

Lemma split_char_one c s : has_char c s = false → split_char c s = [s].
Proof.
  induction s as [|a s IH]; simpl; [done|]. intros [Ha Hs]%orb_false_iff. rewrite Ha. by rewrite IH.
Qed.

Lemma has_char_app c a b : has_char c (a +:+ b) = has_char c a || has_char c b.
Proof.
  induction a as [|d a IH]; [done|]. change (String d a +:+ b) with (String d (a +:+ b)). simpl.
  by rewrite IH, orb_assoc.
Qed.

Lemma slen_smap f s : slen (smap f s) = slen s.
Proof. induction s; simpl; auto. Qed.

Lemma ToLower_idemp s : ToLower (ToLower s) = ToLower s.
Proof.
  unfold ToLower. induction s as [|c s IH]; simpl; [done|]. f_equal; [|done].
  clear IH s. destruct c as [[] [] [] [] [] [] [] []]; vm_compute; reflexivity.
Qed.

#[global] Instance string_app_assoc : Assoc (=) String.append.
Proof.
  intros a b c. induction a as [|x a IH]; [done|].
  change (String x (a +:+ (b +:+ c)) = String x ((a +:+ b) +:+ c)). by rewrite IH.
Qed.

Lemma wrap_range w x : (0 < w → - 2 ^ (w - 1) ≤ wrap w x < 2 ^ (w - 1))%Z.
Proof.
  intros Hw. unfold wrap.
  assert (2 ^ w = 2 * 2 ^ (w - 1))%Z as Hp.
  { replace w with (Z.succ (w - 1))%Z at 1 by lia. apply Z.pow_succ_r. lia. }
  pose proof (Z.pow_pos_nonneg 2 (w - 1) ltac:(lia) ltac:(lia)).
  pose proof (Z.mod_pos_bound (x + 2 ^ (w - 1)) (2 ^ w) ltac:(lia)). lia.
Qed.

Lemma wrap_id w x : (0 < w → - 2 ^ (w - 1) ≤ x < 2 ^ (w - 1) → wrap w x = x)%Z.
Proof.
  intros Hw Hx. unfold wrap.
  assert (2 ^ w = 2 * 2 ^ (w - 1))%Z as Hp.
  { replace w with (Z.succ (w - 1))%Z at 1 by lia. apply Z.pow_succ_r. lia. }
  rewrite Z.mod_small by lia. lia.
Qed.

Lemma wrap64_range x : (min_int64 ≤ wrap64 x ≤ max_int64)%Z.
Proof. pose proof (wrap_range 64 x ltac:(lia)). unfold wrap64, min_int64, max_int64. lia. Qed.

Lemma wrap64_id x : (min_int64 ≤ x ≤ max_int64 → wrap64 x = x)%Z.
Proof. unfold min_int64, max_int64. intros. apply wrap_id; lia. Qed.

#[export] Hint Rewrite slen_sdrop slen_smap TrimPrefix_app : kz.
