(* ===== verification/Runes.v ===== *)
(** * UTF-8, base64 and the names derived from untrusted text

    Go ranges over a string rune by rune ([unicode/utf8]); the sanitizers of the
    gateways ([sanitizeFlowRunName] of [internal/gateway/kafka/handler.go],
    copied in the amqp and nats handlers) and of the resource watcher
    ([sanitizeName] of [internal/controller/resource_watcher.go]) map each rune
    to a byte.  [base64.StdEncoding] is defined here with its decoder, for the
    round trip of binary payloads. *)

From S2P Require Import Prelude GoStd.

Local Open Scope string_scope.
Local Open Scope list_scope.
Local Open Scope Z_scope.

Definition byte (c : ascii) : Z := Z.of_nat (nat_of_ascii c).

Definition in_range (lo hi x : Z) : bool := (lo <=? x) && (x <=? hi).

(** ** [utf8.DecodeRuneInString] *)

Definition RuneError : Z := 65533.

Definition byte_at (i : nat) (s : string) : Z :=
  match String.get i s with Some c => byte c | None => -1 end.

Definition cont (x : Z) : bool := in_range 128 191 x.

(** The rune at the head of a non-empty string and its width; an invalid
    encoding is [RuneError] of width 1. *)
Definition decode_rune (s : string) : Z * nat :=
  let b0 := byte_at 0 s in
  let b1 := byte_at 1 s in
  let b2 := byte_at 2 s in
  let b3 := byte_at 3 s in
  if b0 <? 128 then (b0, 1%nat)
  else if in_range 194 223 b0 && cont b1 then ((b0 - 192) * 64 + (b1 - 128), 2%nat)
  else if in_range 224 239 b0
          && in_range (if b0 =? 224 then 160 else 128) (if b0 =? 237 then 159 else 191) b1 && cont b2
  then ((b0 - 224) * 4096 + (b1 - 128) * 64 + (b2 - 128), 3%nat)
  else if in_range 240 244 b0
          && in_range (if b0 =? 240 then 144 else 128) (if b0 =? 244 then 143 else 191) b1 && cont b2 && cont b3
  then ((b0 - 240) * 262144 + (b1 - 128) * 4096 + (b2 - 128) * 64 + (b3 - 128), 4%nat)
  else (RuneError, 1%nat).

(** The runes of a string; [skip] counts the bytes of the current rune that
    are still to be passed over. *)
Fixpoint runes_go (skip : nat) (s : string) : list (Z * nat) :=
  match s with
  | EmptyString => []
  | String _ s' =>
      match skip with
      | S k => runes_go k s'
      | O => decode_rune s :: runes_go (snd (decode_rune s) - 1) s'
      end
  end.

Definition runes (s : string) : list (Z * nat) := runes_go 0 s.

(** [utf8.Valid] *)
Definition utf8_valid (s : string) : bool :=
  forallb (λ '(r, n), negb ((r =? RuneError) && (n =? 1)%nat)) (runes s).

(** ** Sanitizing *)

(** [unicode.ToLower], as far as a result in ASCII goes: the Kelvin sign and the
    dotted capital I are the only other runes with an ASCII lower case. *)
Definition lower_rune (r : Z) : Z :=
  if in_range 65 90 r then r + 32
  else if r =? 8490 then 107
  else if r =? 304 then 105
  else r.

Definition name_rune (r : Z) : bool := in_range 97 122 r || in_range 48 57 r || (r =? 45).

Definition name_char (c : ascii) : bool := name_rune (byte c).

Definition sanitize_rune (r : Z) : ascii :=
  let r := lower_rune r in
  if name_rune r then ascii_of_nat (Z.to_nat r) else "-"%char.

Fixpoint of_chars (l : list ascii) : string :=
  match l with [] => EmptyString | c :: l => String c (of_chars l) end.

Definition sanitize_runes (s : string) : string := of_chars ((λ '(r, _), sanitize_rune r) <$> runes s).

(** [strings.ToLower], the replacement of every other rune by a dash, and the
    cut at 253 bytes. *)
Definition sanitizeFlowRunName (name : string) : string := stake 253 (sanitize_runes name).

Definition sanitizeName (s : string) : string := Trim (stake 32 (sanitize_runes s)) "-"%char.

(** ** Lemmas *)

Fixpoint name_chars (s : string) : bool :=
  match s with EmptyString => true | String c s => name_char c && name_chars s end.

Lemma byte_bounds c : 0 <= byte c < 256.
Proof. unfold byte. pose proof (nat_ascii_bounded c). lia. Qed.

Lemma byte_ascii n : (n < 256)%nat → byte (ascii_of_nat n) = Z.of_nat n.
Proof. intros Hn. unfold byte. by rewrite nat_ascii_embedding. Qed.

Lemma sanitize_rune_name r : name_char (sanitize_rune r) = true.
Proof.
  unfold sanitize_rune. cbv zeta. destruct (name_rune (lower_rune r)) eqn:Hr; [|done].
  unfold name_char. rewrite byte_ascii, Z2Nat.id; [done|..];
    unfold name_rune, in_range in Hr; lia.
Qed.

Lemma sanitize_runes_name s : name_chars (sanitize_runes s) = true.
Proof.
  unfold sanitize_runes. induction (runes s) as [|[r n] l IH]; [done|]. cbn. by rewrite sanitize_rune_name.
Qed.

Lemma name_chars_stake n s : name_chars s = true → name_chars (stake n s) = true.
Proof.
  revert n. induction s as [|c s IH]; intros [|n] Hs; try done. cbn in *.
  apply andb_true_iff in Hs as [-> Hs]. by apply IH.
Qed.

Lemma stake_length n s : (slen (stake n s) <= n)%nat.
Proof. revert s. induction n as [|n IH]; intros [|c s]; cbn; try lia. specialize (IH s). lia. Qed.

Lemma stake_all n s : (slen s <= n)%nat → stake n s = s.
Proof.
  revert s. induction n as [|n IH]; intros [|c s] Hs; cbn in *; try done; [lia|]. f_equal. apply IH. lia.
Qed.

Lemma slen_app s t : slen (s +:+ t) = (slen s + slen t)%nat.
Proof. induction s as [|c s IH]; [done|]. change (String c s +:+ t) with (String c (s +:+ t)). cbn. by rewrite IH. Qed.

Lemma name_char_ascii c : name_char c = true → byte c < 128.
Proof. unfold name_char, name_rune, in_range. lia. Qed.

Lemma runes_cons_ascii c s : byte c < 128 → runes (String c s) = (byte c, 1%nat) :: runes s.
Proof.
  intros Hc. unfold runes. cbn [runes_go].
  assert (decode_rune (String c s) = (byte c, 1%nat)) as ->; [|done].
  unfold decode_rune, byte_at. cbn [String.get]. by apply Z.ltb_lt in Hc as ->.
Qed.

Lemma sanitize_cons_ascii c s :
  byte c < 128 → sanitize_runes (String c s) = String (sanitize_rune (byte c)) (sanitize_runes s).
Proof. intros Hc. unfold sanitize_runes. by rewrite runes_cons_ascii. Qed.

Lemma sanitize_rune_keep c : name_char c = true → sanitize_rune (byte c) = c.
Proof.
  intros Hc. unfold sanitize_rune. cbv zeta. unfold name_char, name_rune, in_range in Hc.
  assert (lower_rune (byte c) = byte c) as ->.
  { unfold lower_rune, in_range. repeat case_match; lia. }
  unfold name_rune, in_range. rewrite Hc. unfold byte. by rewrite Nat2Z.id, ascii_nat_embedding.
Qed.

Lemma sanitize_keep s : name_chars s = true → sanitize_runes s = s.
Proof.
  induction s as [|c s IH]; [done|]. cbn [name_chars]. intros [Hc Hs]%andb_true_iff.
  rewrite sanitize_cons_ascii by by apply name_char_ascii. by rewrite sanitize_rune_keep, IH.
Qed.

Fixpoint ascii_only (s : string) : bool :=
  match s with EmptyString => true | String c s => (byte c <? 128) && ascii_only s end.

Lemma sanitize_app s t : ascii_only s = true → sanitize_runes (s +:+ t) = sanitize_runes s +:+ sanitize_runes t.
Proof.
  induction s as [|c s IH]; [done|]. cbn [ascii_only]. intros [Hc%Z.ltb_lt Hs]%andb_true_iff.
  change (String c s +:+ t) with (String c (s +:+ t)). rewrite !sanitize_cons_ascii by done. by rewrite IH.
Qed.

Lemma sanitize_ascii_length s : ascii_only s = true → slen (sanitize_runes s) = slen s.
Proof.
  induction s as [|c s IH]; [done|]. cbn [ascii_only]. intros [Hc%Z.ltb_lt Hs]%andb_true_iff.
  rewrite sanitize_cons_ascii by done. cbn. by rewrite IH.
Qed.

(** A sanitized name is a legal object name of at most 253 bytes, a legal name
    is left alone, and sanitizing twice changes nothing. *)
Lemma sanitizeFlowRunName_legal name :
  name_chars (sanitizeFlowRunName name) = true ∧ (slen (sanitizeFlowRunName name) <= 253)%nat.
Proof. split; [apply name_chars_stake, sanitize_runes_name|apply stake_length]. Qed.

Lemma sanitizeFlowRunName_id name :
  name_chars name = true → (slen name <= 253)%nat → sanitizeFlowRunName name = name.
Proof. intros Hn Hl. unfold sanitizeFlowRunName. by rewrite sanitize_keep, stake_all. Qed.

(** ** [base64.StdEncoding] *)

Definition b64_alphabet : string := "ABCDEFGHIJKLMNOPQRSTUVWXYZabcdefghijklmnopqrstuvwxyz0123456789+/".

Definition b64_char (x : Z) : ascii := default "="%char (String.get (Z.to_nat x) b64_alphabet).

Definition b64_val (c : ascii) : option Z :=
  let b := byte c in
  if in_range 65 90 b then Some (b - 65)
  else if in_range 97 122 b then Some (b - 71)
  else if in_range 48 57 b then Some (b + 4)
  else if b =? 43 then Some 62
  else if b =? 47 then Some 63
  else None.

(** The 6-bit group of the 24-bit value [v] that starts at bit [k]. *)
Definition sextet (v k : Z) : ascii := b64_char (Z.shiftr v k mod 64).

Fixpoint base64_EncodeStd (s : string) : string :=
  match s with
  | EmptyString => EmptyString
  | String a EmptyString =>
      let v := byte a * 65536 in
      String (sextet v 18) (String (sextet v 12) "==")
  | String a (String b EmptyString) =>
      let v := byte a * 65536 + byte b * 256 in
      String (sextet v 18) (String (sextet v 12) (String (sextet v 6) "="))
  | String a (String b (String c s)) =>
      let v := byte a * 65536 + byte b * 256 + byte c in
      String (sextet v 18) (String (sextet v 12) (String (sextet v 6) (String (sextet v 0) (base64_EncodeStd s))))
  end.

Definition chr (x : Z) : ascii := ascii_of_nat (Z.to_nat x).

(** The decoder a reader of the stored text uses. *)
Fixpoint base64_DecodeStd (s : string) : option string :=
  match s with
  | EmptyString => Some EmptyString
  | String p (String q (String r (String t rest))) =>
      match b64_val p, b64_val q with
      | Some x, Some y =>
          match b64_val r, b64_val t with
          | Some z, Some w =>
              let v := x * 262144 + y * 4096 + z * 64 + w in
              tail ← base64_DecodeStd rest;
              Some (String (chr (Z.shiftr v 16)) (String (chr (Z.shiftr v 8 mod 256)) (String (chr (v mod 256)) tail)))
          | Some z, None =>
              let v := x * 262144 + y * 4096 + z * 64 in
              if (t =? "=")%char && (rest =? "")%string
              then Some (String (chr (Z.shiftr v 16)) (String (chr (Z.shiftr v 8 mod 256)) EmptyString)) else None
          | None, _ =>
              let v := x * 262144 + y * 4096 in
              if (r =? "=")%char && (t =? "=")%char && (rest =? "")%string
              then Some (String (chr (Z.shiftr v 16)) EmptyString) else None
          end
      | _, _ => None
      end
  | _ => None
  end.

Lemma b64_val_char x : 0 <= x < 64 → b64_val (b64_char x) = Some x.
Proof.
  intros Hx. assert (forallb (λ n, bool_decide (b64_val (b64_char (Z.of_nat n)) = Some (Z.of_nat n))) (seq 0 64) = true)
    as Hall by (vm_compute; reflexivity).
  rewrite forallb_forall in Hall. specialize (Hall (Z.to_nat x)). rewrite Z2Nat.id in Hall by lia.
  eapply bool_decide_eq_true_1, Hall, in_seq. lia.
Qed.

Lemma b64_val_sextet v k : b64_val (sextet v k) = Some (Z.shiftr v k mod 64).
Proof. apply b64_val_char. pose proof (Z.mod_pos_bound (Z.shiftr v k) 64). lia. Qed.

Lemma chr_byte c x : x = byte c → chr x = c.
Proof. intros ->. unfold chr, byte. by rewrite Nat2Z.id, ascii_nat_embedding. Qed.

Ltac shifts := rewrite ?Z.shiftr_div_pow2, ?Z.shiftr_0_r by lia; change (2 ^ 18) with 262144; change (2 ^ 12) with 4096;
  change (2 ^ 6) with 64; change (2 ^ 16) with 65536; change (2 ^ 8) with 256;
  Z.to_euclidean_division_equations; lia.

Lemma base64_round_trip s : base64_DecodeStd (base64_EncodeStd s) = Some s.
Proof.
  enough (∀ n s, (slen s <= n)%nat → base64_DecodeStd (base64_EncodeStd s) = Some s) as Hn by by apply (Hn (slen s)).
  clear s. induction n as [|n IH]; intros [|a [|b [|c s]]] Hs; cbn [slen] in Hs; try done; try lia.
  - pose proof (byte_bounds a). cbn [base64_EncodeStd base64_DecodeStd]. rewrite !b64_val_sextet.
    change (b64_val "=") with (@None Z). cbv iota. cbn [Ascii.eqb andb String.eqb Bool.eqb].
    do 2 f_equal. apply chr_byte. shifts.
  - pose proof (byte_bounds a). pose proof (byte_bounds b). cbn [base64_EncodeStd base64_DecodeStd].
    rewrite !b64_val_sextet. change (b64_val "=") with (@None Z). cbv iota. cbn [Ascii.eqb andb String.eqb Bool.eqb].
    f_equal. f_equal; [apply chr_byte; shifts|]. f_equal. apply chr_byte. shifts.
  - pose proof (byte_bounds a). pose proof (byte_bounds b). pose proof (byte_bounds c).
    cbn [base64_EncodeStd base64_DecodeStd]. rewrite !b64_val_sextet, IH by lia. cbn [mbind option_bind].
    f_equal. f_equal; [apply chr_byte; shifts|]. f_equal; [apply chr_byte; shifts|]. f_equal. apply chr_byte. shifts.
Qed.
