(* ===== verification/Api.v ===== *)
(** * The API types of [api/v1alpha1]

    One record per Go struct and one inductive type per enumerated string type
    (with a constructor for the empty value Go starts from).  A pointer field
    is an [option]; a Go map is a [gmap] (a nil map and an empty map read the
    same); times and durations are nanoseconds in [Z].  A record keeps the fields
    that modelled functions read or write; the others are left out. *)

From S2P Require Import Prelude GoStd.

(** ** Object metadata (the fields of [metav1.ObjectMeta] the code reads) *)

Record ObjectMeta := MkMeta {
  m_Name : string;
  m_Namespace : string;
  m_UID : string;
  m_ResourceVersion : Z;
  m_Generation : Z;
  m_Labels : gmap string string;
  m_Annotations : gmap string string;
  m_Finalizers : list string;
  m_CreationTimestamp : Z;
  m_DeletionTimestamp : option Z
}.

Definition set_Labels (l : gmap string string) (m : ObjectMeta) : ObjectMeta :=
  MkMeta (m_Name m) (m_Namespace m) (m_UID m) (m_ResourceVersion m) (m_Generation m)
    l (m_Annotations m) (m_Finalizers m) (m_CreationTimestamp m) (m_DeletionTimestamp m).

Definition set_Finalizers (f : list string) (m : ObjectMeta) : ObjectMeta :=
  MkMeta (m_Name m) (m_Namespace m) (m_UID m) (m_ResourceVersion m) (m_Generation m)
    (m_Labels m) (m_Annotations m) f (m_CreationTimestamp m) (m_DeletionTimestamp m).

Definition set_ResourceVersion (v : Z) (m : ObjectMeta) : ObjectMeta :=
  MkMeta (m_Name m) (m_Namespace m) (m_UID m) v (m_Generation m)
    (m_Labels m) (m_Annotations m) (m_Finalizers m) (m_CreationTimestamp m) (m_DeletionTimestamp m).

Inductive ConditionStatus := ConditionTrue | ConditionFalse | ConditionUnknown.

#[global] Instance ConditionStatus_eq_dec : EqDecision ConditionStatus.
Proof. solve_decision. Defined.

Record Condition := MkCondition {
  c_Type : string;
  c_Status : ConditionStatus;
  c_Reason : string;
  c_Message : string;
  c_LastTransitionTime : option Z;
  c_ObservedGeneration : Z
}.

#[global] Instance Condition_eq_dec : EqDecision Condition.
Proof. solve_decision. Defined.

Record SecretKeySelector := MkSecretRef { sr_Name : string; sr_Key : string }.

(** ** Flow *)

Inductive FailurePolicy := FailurePolicyUnset | FailurePolicyFail | FailurePolicyContinue.

#[global] Instance FailurePolicy_eq_dec : EqDecision FailurePolicy.
Proof. solve_decision. Defined.

Inductive OnFailureAction :=
  OnFailureUnset | OnFailureActionFail | OnFailureActionContinue | OnFailureActionSkip.

#[global] Instance OnFailureAction_eq_dec : EqDecision OnFailureAction.
Proof. solve_decision. Defined.

Record ParamDeclaration := MkParamDecl {
  pd_Name : string; pd_Required : bool; pd_Default : string }.

Record ParamValue := MkParamValue { pv_Name : string; pv_Value : string }.

Record HTTPAction := MkHTTPAction {
  h_URL : string;
  h_Method : string;
  h_Headers : gmap string string;
  h_Body : string;
  h_TimeoutSeconds : Z;
  h_ResultMappings : gmap string string;
  h_IntegrationRef : option string
}.

Record TransformAction := MkTransform { t_Mappings : gmap string string }.

Record PublishAction := MkPublish {
  p_IntegrationRef : string;
  p_Topic : string;
  p_Body : string;
  p_Headers : gmap string string
}.

Record WaitAction := MkWait { w_Duration : string }.

Record StepAction := MkAction {
  a_Type : string;
  a_HTTP : option HTTPAction;
  a_Transform : option TransformAction;
  a_Publish : option PublishAction;
  a_Wait : option WaitAction
}.

Record RetryPolicy := MkRetry {
  rp_MaxRetries : Z;
  rp_BackoffType : string;
  rp_InitialDelay : option Z;
  rp_MaxDelay : option Z
}.

Record FlowStep := MkStep {
  st_Name : string;
  st_RunAfter : list string;
  st_When : list string;
  st_Action : StepAction;
  st_RetryPolicy : option RetryPolicy;
  st_Timeout : option Z;
  st_OnFailure : OnFailureAction
}.

Record FlowSpec := MkFlowSpec {
  fs_Timeout : option Z;
  fs_FailurePolicy : FailurePolicy;
  fs_Params : list ParamDeclaration;
  fs_Steps : list FlowStep
}.

Record Flow := MkFlow {
  fl_Meta : ObjectMeta;
  fl_Spec : FlowSpec;
  fl_Conditions : list Condition
}.

(** ** FlowRun *)

Record TriggerData := MkTriggerData {
  td_EventType : string;
  td_ResourceName : string;
  td_ResourceNamespace : string;
  td_ResourceAPIVersion : string;
  td_ResourceKind : string;
  td_Source : string;
  td_Method : string;
  td_Path : string;
  td_Headers : gmap string string;
  td_Topic : string;
  td_Partition : Z;
  td_Offset : Z;
  td_Key : string;
  td_KeyEncoding : string;
  td_ScheduledTime : option Z;
  td_Body : string;
  td_BodyTruncated : bool;
  td_BodyEncoding : string;
  td_ContentType : string
}.

Definition emptyTriggerData : TriggerData :=
  MkTriggerData "" "" "" "" "" "" "" "" ∅ "" 0 0 "" "" None "" false "" "".

Record TriggerReference := MkTriggerRef { tr_Name : string; tr_Type : string }.

Record FlowRunSpec := MkFlowRunSpec {
  frs_FlowRef : string;
  frs_Params : list ParamValue;
  frs_TriggerRef : option TriggerReference;
  frs_TriggerData : option TriggerData;
  frs_TTLAfterFinished : option Z
}.

Record ResultValue := MkResult { rv_Name : string; rv_Value : string }.

Inductive StepPhase :=
  | StepPhaseEmpty | StepPhasePending | StepPhaseRunning | StepPhaseSucceeded
  | StepPhaseFailed | StepPhaseSkipped | StepPhaseWaiting.

#[global] Instance StepPhase_eq_dec : EqDecision StepPhase.
Proof. solve_decision. Defined.

Record StepRunStatus := MkStepStatus {
  ss_Name : string;
  ss_Phase : StepPhase;
  ss_StartTime : option Z;
  ss_CompletionTime : option Z;
  ss_Attempts : Z;
  ss_Message : string;
  ss_Results : list ResultValue;
  ss_DurationMillis : option Z;
  ss_ResumeAfter : option Z
}.

Inductive FlowRunPhase :=
  | PhaseEmpty | FlowRunPhasePending | FlowRunPhaseRunning | FlowRunPhaseSucceeded
  | FlowRunPhaseFailed | FlowRunPhaseCancelled.

#[global] Instance FlowRunPhase_eq_dec : EqDecision FlowRunPhase.
Proof. solve_decision. Defined.

Definition phase_string (p : FlowRunPhase) : string :=
  match p with
  | PhaseEmpty => ""
  | FlowRunPhasePending => "Pending"
  | FlowRunPhaseRunning => "Running"
  | FlowRunPhaseSucceeded => "Succeeded"
  | FlowRunPhaseFailed => "Failed"
  | FlowRunPhaseCancelled => "Cancelled"
  end.

Record FlowRunStatus := MkFlowRunStatus {
  fst_ObservedGeneration : Z;
  fst_Phase : FlowRunPhase;
  fst_Conditions : list Condition;
  fst_StartTime : option Z;
  fst_CompletionTime : option Z;
  fst_Steps : list StepRunStatus;
  fst_Message : string;
  fst_DurationMillis : option Z
}.

Record FlowRun := MkFlowRun {
  fr_Meta : ObjectMeta;
  fr_Spec : FlowRunSpec;
  fr_Status : FlowRunStatus
}.

Abbreviation fr_Phase fr := (fst_Phase (fr_Status fr)).
Abbreviation fr_Steps fr := (fst_Steps (fr_Status fr)).
Abbreviation fr_Namespace fr := (m_Namespace (fr_Meta fr)).
Abbreviation fr_Name fr := (m_Name (fr_Meta fr)).

Definition set_Meta (m : ObjectMeta) (fr : FlowRun) : FlowRun :=
  MkFlowRun m (fr_Spec fr) (fr_Status fr).
Definition set_Status (s : FlowRunStatus) (fr : FlowRun) : FlowRun :=
  MkFlowRun (fr_Meta fr) (fr_Spec fr) s.

Definition with_steps (l : list StepRunStatus) (fr : FlowRun) : FlowRun :=
  let s := fr_Status fr in
  set_Status (MkFlowRunStatus (fst_ObservedGeneration s) (fst_Phase s) (fst_Conditions s)
    (fst_StartTime s) (fst_CompletionTime s) l (fst_Message s) (fst_DurationMillis s)) fr.

(** ** Trigger *)

Record FlowRunGCPolicy := MkGC {
  gc_MaxSucceeded : option Z;
  gc_MaxFailed : option Z;
  gc_TTLAfterSucceeded : option Z;
  gc_TTLAfterFailed : option Z
}.

Record CooldownPolicy := MkCooldown { cd_MaxInvocations : Z; cd_Window : option Z }.

Record CronTrigger := MkCron { cr_Schedule : string; cr_Timezone : string }.

Record HMACConfig := MkHMAC {
  hm_SecretRef : SecretKeySelector; hm_Provider : string; hm_TimestampToleranceSeconds : Z }.
Record BearerConfig := MkBearer { be_TokenSecretRef : SecretKeySelector }.
Record OIDCConfig := MkOIDC { oi_Issuer : string; oi_Audience : string }.
Record WebhookBasicAuth := MkBasic {
  ba_SecretRef : string; ba_UsernameKey : string; ba_PasswordKey : string }.
Record APIKeyConfig := MkAPIKey { ak_SecretRef : SecretKeySelector; ak_Header : string }.
Record HeaderEqualsConfig := MkHeaderEquals { he_Header : string; he_SecretRef : SecretKeySelector }.

Record WebhookAuth := MkAuth {
  au_Type : string;
  au_HMAC : option HMACConfig;
  au_Bearer : option BearerConfig;
  au_OIDC : option OIDCConfig;
  au_Basic : option WebhookBasicAuth;
  au_APIKey : option APIKeyConfig;
  au_IPAllowlist : option (list string);
  au_HeaderEquals : option HeaderEqualsConfig
}.

Record WebhookRateLimit := MkRateLimit { rl_MaxRequests : Z; rl_Window : Z }.

Record WebhookTrigger := MkWebhook {
  wh_Path : string;
  wh_Method : string;
  wh_Auth : option WebhookAuth;
  wh_RateLimit : option WebhookRateLimit;
  wh_RedactHeaders : list string;
  wh_RedactBody : bool
}.

Record KafkaTrigger := MkKafkaTrigger {
  kt_IntegrationRef : string; kt_Topic : string; kt_ConsumerGroup : string }.

(** [ae_Type] is the kind of exchange. *)
Record AmqpExchangeSpec := MkAmqpExchange { ae_Name : string; ae_Type : string }.

Record AmqpTrigger := MkAmqpTrigger {
  at_IntegrationRef : string;
  at_Topic : string;
  at_RoutingKey : string;
  at_Exchange : option AmqpExchangeSpec
}.

Record NatsTrigger := MkNatsTrigger { nt_IntegrationRef : string; nt_Subject : string }.

Record PluginTrigger := MkPluginTrigger { pt_IntegrationRef : string; pt_Config : gmap string string }.

(** [metav1.LabelSelector]. *)
Record LabelSelectorRequirement := MkRequirement {
  lr_Key : string; lr_Operator : string; lr_Values : list string }.
Record LabelSelector := MkLabelSelector {
  ls_MatchLabels : gmap string string;
  ls_MatchExpressions : list LabelSelectorRequirement
}.

Record ResourceTrigger := MkResourceTrigger {
  rt_APIVersion : string;
  rt_Kind : string;
  rt_Namespace : string;
  rt_LabelSelector : option LabelSelector;
  rt_Events : list string;
  rt_WatchFields : list string;
  rt_Cooldown : option Z
}.

Record TriggerSpec := MkTriggerSpec {
  ts_Type : string;
  ts_Enabled : bool;
  ts_Webhook : option WebhookTrigger;
  ts_Cron : option CronTrigger;
  ts_Kafka : option KafkaTrigger;
  ts_Amqp : option AmqpTrigger;
  ts_Nats : option NatsTrigger;
  ts_Plugin : option PluginTrigger;
  ts_Resource : option ResourceTrigger;
  ts_FlowRef : string;
  ts_Cooldown : option CooldownPolicy;
  ts_FlowRunGC : option FlowRunGCPolicy
}.

Record TriggerStatus := MkTriggerStatus {
  tst_Conditions : list Condition;
  tst_LastTriggeredTime : option Z;
  tst_LastResult : string;
  tst_CurrentInvocationCount : Z
}.

Record Trigger := MkTrigger {
  tg_Meta : ObjectMeta;
  tg_Spec : TriggerSpec;
  tg_Status : TriggerStatus
}.

(** ** Integration *)

Record KafkaTLSConfig := MkKafkaTLS {
  ktls_Enabled : bool; ktls_InsecureSkipVerify : bool; ktls_CASecretRef : option SecretKeySelector }.
Record KafkaSASLConfig := MkKafkaSASL {
  ksasl_Mechanism : string;
  ksasl_UsernameSecretRef : SecretKeySelector;
  ksasl_PasswordSecretRef : SecretKeySelector }.
Record KafkaIntegrationSpec := MkKafkaInteg {
  ki_BootstrapServers : list string;
  ki_TLS : option KafkaTLSConfig;
  ki_SASL : option KafkaSASLConfig }.

Record AmqpTLSConfig := MkAmqpTLS {
  atls_Enabled : bool; atls_InsecureSkipVerify : bool; atls_CASecretRef : option SecretKeySelector }.
Record AmqpIntegrationSpec := MkAmqpInteg {
  ai_URL : string;
  ai_Version : string;
  ai_TLS : option AmqpTLSConfig;
  ai_UsernameSecretRef : option SecretKeySelector;
  ai_PasswordSecretRef : option SecretKeySelector }.

Record NatsTLSConfig := MkNatsTLS {
  ntls_InsecureSkipVerify : bool; ntls_CASecretRef : option SecretKeySelector }.
Record NatsIntegrationSpec := MkNatsInteg {
  ni_Servers : list string;
  ni_TLS : option NatsTLSConfig;
  ni_CredentialsSecretRef : option string;
  ni_UsernameSecretRef : option SecretKeySelector;
  ni_PasswordSecretRef : option SecretKeySelector;
  ni_JetStream : bool }.

(** [corev1.EnvVar] with a literal value or a key of a Secret. *)
Record EnvVar := MkEnvVar { ev_name : string; ev_value : string; ev_secret : option SecretKeySelector }.

Record PluginSecretRef := MkPluginSecretRef {
  ps_SecretName : string; ps_EnvVarMappings : gmap string string }.
Record PluginMTLSSpec := MkPluginMTLS { pm_Enabled : bool }.
Record PluginIntegrationSpec := MkPluginInteg {
  pi_Image : string;
  pi_ImageDigest : string;
  pi_PublisherPort : Z;
  pi_SecretRefs : list PluginSecretRef;
  pi_Env : list EnvVar;
  pi_Mtls : option PluginMTLSSpec }.

Inductive HttpAuthType :=
  HttpAuthUnset | HttpAuthBearer | HttpAuthBasic | HttpAuthAPIKey | HttpAuthSecretURL.

Record HttpBasicAuth := MkHttpBasic {
  hb_UsernameSecretRef : SecretKeySelector; hb_PasswordSecretRef : SecretKeySelector }.
Record HttpAPIKeyAuth := MkHttpAPIKey {
  ha_HeaderName : string; ha_ValueSecretRef : SecretKeySelector }.

Record HttpAuthSpec := MkHttpAuth {
  hau_Type : HttpAuthType;
  hau_Bearer : option SecretKeySelector;
  hau_Basic : option HttpBasicAuth;
  hau_APIKey : option HttpAPIKeyAuth;
  hau_SecretURL : option SecretKeySelector
}.

Record HttpTLSSpec := MkHttpTLS {
  htls_CABundleConfigMapRef : option SecretKeySelector;
  htls_ClientCertSecretRef : option string
}.

Record HttpIntegrationSpec := MkHttpInteg {
  hi_BaseURL : string;
  hi_Auth : option HttpAuthSpec;
  hi_DefaultHeaders : gmap string string;
  hi_TLS : option HttpTLSSpec
}.

Record IntegrationSpec := MkIntegSpec {
  is_Type : string;
  is_Kafka : option KafkaIntegrationSpec;
  is_Amqp : option AmqpIntegrationSpec;
  is_Nats : option NatsIntegrationSpec;
  is_Plugin : option PluginIntegrationSpec;
  is_HTTP : option HttpIntegrationSpec
}.

Record IntegrationStatus := MkIntegStatus {
  ist_Conditions : list Condition;
  ist_GatewayDeploymentName : string;
  ist_LastReconciledTime : option Z
}.

Record Integration := MkIntegration {
  in_Meta : ObjectMeta;
  in_Spec : IntegrationSpec;
  in_Status : IntegrationStatus
}.

(** ** The http-executor RPC ([internal/executor/http/types.go]) *)

Record ExecuteRequest := MkExecReq {
  er_Method : string;
  er_URL : string;
  er_Headers : gmap string string;
  er_Body : string;
  er_TimeoutSeconds : Z;
  er_TLSSkipVerify : bool;
  er_TLSCABundle : string;
  er_TLSClientCert : string;
  er_TLSClientKey : string
}.

Record ExecuteResponse := MkExecResp {
  ex_StatusCode : Z;
  ex_Headers : gmap string string;
  ex_Body : string;
  ex_Truncated : bool;
  ex_Error : string
}.

(** ** JSON values as [encoding/json] decodes them into [interface{}]

    [F] is the type of [float64] values. *)
Inductive jval (F : Type) :=
  | JNull
  | JBool (b : bool)
  | JNum (x : F)
  | JStr (s : string)
  | JArr (l : list (jval F))
  | JObj (m : gmap string (jval F)).
Arguments JNull {_}.
Arguments JBool {_} _.
Arguments JNum {_} _.
Arguments JStr {_} _.
Arguments JArr {_} _.
Arguments JObj {_} _.
