(* ===== verification/Effects.v ===== *)
(** * Effectful code as programs over events

    A handler that talks to the Kubernetes API, the network or the clock is a
    [Prog E A]: a tree whose nodes are the requests ([E X] is a request whose
    response is an [X]) and whose branches are the possible responses.  The
    environment is never fixed by the model: a theorem about a program
    quantifies over the responses, through

    - [wp], the weakest precondition under a specification of the requests
      (which may carry a ghost state, for instance the stored object);
    - [run], the execution under a concrete handler, used by the witnesses;
    - [calls], the requests issued under a stateless handler. *)

From S2P Require Import Prelude.

Section prog.
  Context {E : Type → Type}.

Inductive Prog (A : Type) : Type :=
  | Ret (a : A)
  | Vis (X : Type) (e : E X) (k : X → Prog A).
Arguments Ret {_} _.
Arguments Vis {_ _} _ _.

Fixpoint pbind {A B} (p : Prog A) (f : A → Prog B) : Prog B :=
  match p with
  | Ret a => f a
  | Vis e k => Vis e (λ x, pbind (k x) f)
  end.

Definition emit {X} (e : E X) : Prog X := Vis e Ret.

(** [for _, x := range l { acc = body(acc, x) }] *)
Fixpoint pfold {A S} (body : S → A → Prog S) (l : list A) (s : S) : Prog S :=
  match l with
  | [] => Ret s
  | x :: l => pbind (body s x) (pfold body l)
  end.

(** A loop whose body may return from the enclosing function: [inl r] is the
    early return, [inr s] falls out of the loop. *)
Fixpoint pfold_ret {A S R} (body : S → A → Prog (R + S)) (l : list A) (s : S) : Prog (R + S) :=
  match l with
  | [] => Ret (inr s)
  | x :: l => pbind (body s x)
                (λ r, match r with
                      | inl r => Ret (inl r)
                      | inr s => pfold_ret body l s
                      end)
  end.

Fixpoint pmap {A B} (f : A → Prog B) (l : list A) : Prog (list B) :=
  match l with
  | [] => Ret []
  | x :: l => pbind (f x) (λ y, pbind (pmap f l) (λ ys, Ret (y :: ys)))
  end.

(** ** Weakest preconditions *)

Definition Spec (S : Type) := ∀ X, E X → S → (X → S → Prop) → Prop.

Class MonoSpec {S} (sp : Spec S) : Prop :=
  mono_spec X (e : E X) s (P Q : X → S → Prop) :
    (∀ x s', P x s' → Q x s') → sp X e s P → sp X e s Q.

Fixpoint wp {S A} (sp : Spec S) (p : Prog A) (s : S) (Q : A → S → Prop) : Prop :=
  match p with
  | Ret a => Q a s
  | Vis e k => sp _ e s (λ x s', wp sp (k x) s' Q)
  end.

Lemma wp_mono {S A} (sp : Spec S) `{!MonoSpec sp} (p : Prog A) s (P Q : A → S → Prop) :
  (∀ a s', P a s' → Q a s') → wp sp p s P → wp sp p s Q.
Proof.
  intros HPQ. revert s. induction p as [a|X e k IH]; simpl; intros s; [auto|].
  apply mono_spec. intros x s' Hx. eauto.
Qed.

Lemma wp_bind {S A B} (sp : Spec S) `{!MonoSpec sp} (p : Prog A) (f : A → Prog B) s Q :
  wp sp p s (λ a s', wp sp (f a) s' Q) → wp sp (pbind p f) s Q.
Proof.
  revert s. induction p as [a|X e k IH]; simpl; intros s; [auto|].
  apply mono_spec. intros x s' Hx. eauto.
Qed.

Lemma wp_fold {S A T} (sp : Spec S) `{!MonoSpec sp} (body : T → A → Prog T) l
    (I : T → S → Prop) t s :
  (∀ t s x, x ∈ l → I t s → wp sp (body t x) s I) →
  I t s → wp sp (pfold body l t) s I.
Proof.
  revert t s. induction l as [|x l IH]; simpl; intros t s Hb HI; [done|].
  apply wp_bind; [done|]. eapply wp_mono; [done| |apply Hb; [by left|done]].
  intros t' s' HI'. apply IH; [|done]. intros; apply Hb; [by right|done].
Qed.

Lemma wp_fold_ret {S A T R} (sp : Spec S) `{!MonoSpec sp} (body : T → A → Prog (R + T)) l
    (I : T → S → Prop) (Q : R → S → Prop) t s :
  (∀ t s x, x ∈ l → I t s →
     wp sp (body t x) s (λ r s', match r with inl r => Q r s' | inr t' => I t' s' end)) →
  I t s →
  wp sp (pfold_ret body l t) s (λ r s', match r with inl r => Q r s' | inr t' => I t' s' end).
Proof.
  revert t s. induction l as [|x l IH]; simpl; intros t s Hb HI; [done|].
  apply wp_bind; [done|]. eapply wp_mono; [done| |apply Hb; [by left|done]].
  intros [r|t'] s' H; simpl in *; [done|]. apply IH; [|done].
  intros; apply Hb; [by right|done].
Qed.

Lemma wp_map {S A B} (sp : Spec S) `{!MonoSpec sp} (f : A → Prog B) l
    (I : S → Prop) (R : A → B → Prop) s :
  (∀ x s, x ∈ l → I s → wp sp (f x) s (λ y s', I s' ∧ R x y)) →
  I s → wp sp (pmap f l) s (λ ys s', I s' ∧ Forall2 R l ys).
Proof.
  revert s. induction l as [|x l IH]; simpl; intros s Hf HI; [done|].
  apply wp_bind; [done|]. eapply wp_mono; [done| |apply Hf; [by left|done]].
  intros y s' [HI' HR]. apply wp_bind; [done|].
  eapply wp_mono; [done| |apply IH; [|done]].
  - intros ys s'' [? ?]. simpl. split; [done|by constructor].
  - intros; apply Hf; [by right|done].
Qed.

(** A relation every request respects is respected by the whole program. *)
Lemma wp_evolves {S A} (sp : Spec S) `{!MonoSpec sp} (R : S → S → Prop) (p : Prog A) s Q :
  (∀ s, R s s) → (∀ a b c, R a b → R b c → R a c) →
  (∀ X (e : E X) s Q, sp X e s Q → sp X e s (λ x s', Q x s' ∧ R s s')) →
  wp sp p s Q → wp sp p s (λ a s', Q a s' ∧ R s s').
Proof.
  intros Hrefl Htrans Hsp. revert s. induction p as [a|X e k IH]; simpl; intros s H; [done|].
  apply Hsp in H. revert H. apply mono_spec. intros x s' [Hk HR]. apply IH in Hk.
  eapply wp_mono; [done| |exact Hk]. intros a s'' [HQ HR']. split; [done|]. eauto.
Qed.

(** ** Execution under a concrete handler *)

Fixpoint run {S A} (h : ∀ X, E X → S → X * S) (p : Prog A) (s : S) : A * S :=
  match p with
  | Ret a => (a, s)
  | Vis e k => let '(x, s') := h _ e s in run h (k x) s'
  end.

Lemma run_bind {S A B} (h : ∀ X, E X → S → X * S) (p : Prog A) (f : A → Prog B) s :
  run h (pbind p f) s = let '(a, s') := run h p s in run h (f a) s'.
Proof.
  revert s. induction p as [a|X e k IH]; simpl; intros s; [done|].
  destruct (h X e s) as [x s']. apply IH.
Qed.

(** A handler that only answers what a specification allows runs every
    program to a result its [wp] promises. *)
Lemma wp_run {S A} (sp : Spec S) (h : ∀ X, E X → S → X * S) (p : Prog A) s Q :
  (∀ X (e : E X) s P, sp X e s P → P (h X e s).1 (h X e s).2) →
  wp sp p s Q → Q (run h p s).1 (run h p s).2.
Proof.
  intros Hh. revert s. induction p as [a|X e k IH]; simpl; intros s H; [done|].
  apply Hh in H. destruct (h X e s) as [x s']. by apply IH.
Qed.

Fixpoint run_pure {A} (h : ∀ X, E X → X) (p : Prog A) : A :=
  match p with
  | Ret a => a
  | Vis e k => run_pure h (k (h _ e))
  end.

Lemma run_pure_bind {A B} h (p : Prog A) (f : A → Prog B) :
  run_pure h (pbind p f) = run_pure h (f (run_pure h p)).
Proof. induction p as [a|X e k IH]; simpl; [done|apply IH]. Qed.

(** Some run issues a request with a property, the responses being possible. *)
Fixpoint emits {A} (may : ∀ X, E X → X → Prop) (P : ∀ X, E X → Prop) (p : Prog A) : Prop :=
  match p with
  | Ret _ => False
  | Vis e k => P _ e ∨ ∃ x, may _ e x ∧ emits may P (k x)
  end.

Lemma emits_bind {A B} may P (p : Prog A) (f : A → Prog B) :
  emits may P (pbind p f) → emits may P p ∨ ∃ a, emits may P (f a).
Proof.
  induction p as [a|X e k IH]; cbn; [eauto|]. intros [He|(x & Hm & Hx)]; [eauto|].
  apply IH in Hx as [Hx|Hx]; eauto 6.
Qed.

Fixpoint calls {A} (h : ∀ X, E X → X) (p : Prog A) : list { X & E X } :=
  match p with
  | Ret _ => []
  | Vis e k => existT _ e :: calls h (k (h _ e))
  end.

Lemma calls_bind {A B} h (p : Prog A) (f : A → Prog B) :
  calls h (pbind p f) = calls h p ++ calls h (f (run_pure h p)).
Proof. induction p as [a|X e k IH]; simpl; [done|]. by rewrite IH. Qed.

End prog.

Arguments Prog : clear implicits.
Arguments Ret {_ _} _.
Arguments Vis {_ _ _} _ _.
Arguments Spec : clear implicits.

Notation "'let!' x ':=' p 'in' k" := (pbind p (λ x, k))
  (at level 10, x pattern, p at level 100, k at level 200) : go_scope.

(** ** Programs that issue no request *)

Inductive NoEv : Type → Type := .

Definition prog_val {A} (p : Prog NoEv A) : A :=
  match p with
  | Ret a => a
  | Vis e _ => match e with end
  end.

Lemma prog_val_bind {A B} (p : Prog NoEv A) (f : A → Prog NoEv B) :
  prog_val (pbind p f) = prog_val (f (prog_val p)).
Proof. by destruct p as [a|X []]. Qed.

(** The specification under which the environment may answer anything: a
    property proved with it holds whatever the API server, the network and
    the clock do.  [chk] is what must hold of every request issued. *)
Definition any_spec {E : Type → Type} (chk : ∀ X, E X → Prop) : Spec E unit :=
  λ X e s Q, chk X e ∧ ∀ x, Q x s.

#[global] Instance any_spec_mono {E} (chk : ∀ X, E X → Prop) : MonoSpec (any_spec chk).
Proof. intros X e s P Q H [? ?]. split; [done|]. intros x. by apply H. Qed.

(** The steps of a weakest-precondition proof: sequencing, returning, and case
    analysis on what the program branches on. *)
Ltac wp_step :=
  lazymatch goal with
  | |- wp _ (pbind _ _) _ _ => apply wp_bind; [apply _|]
  | |- wp _ (Ret _) _ _ => cbn [wp]
  | |- wp _ (Vis _ _) _ _ => cbn [wp]
  | |- wp _ (match ?x with _ => _ end) _ _ => destruct x eqn:?
  | |- any_spec _ _ _ _ _ => split; [|intros ?]
  | |- wp _ (emit _) _ _ => unfold emit; cbn [wp]
  end.
