(* ===== verification/Interp.v ===== *)
(** * Template interpolation and Flow parameters

    [internal/controller/flowrun_controller.go]: [substituteVars],
    [substituteVarsWithSecrets], [interpolateTemplate],
    [resolveInterpolationToken], [resolveTriggerScalarToken],
    [parseTriggerBody], [parseFormURLEncodedBody], [resolveFlowParams],
    [resolveBodyPath], [renderBodyLeaf], [extractSimpleJSONPath],
    [resultsToMap], [mapsToResults], [truncate]. *)

From S2P Require Import Prelude GoStd Api Effects.

Local Open Scope string_scope.
Local Open Scope stdpp_scope.
Local Open Scope list_scope.
Local Open Scope go_scope.

(** ** Library functions the code calls and this development does not define

    JSON decoding and encoding, [float64] formatting, [%v] formatting, media
    types and RFC 3339 formatting.  No law is assumed of them. *)
Class GoLib := {
  f64 : Type;
  FormatFloat : f64 → string;
  json_Unmarshal : string → option (jval f64);
  json_Marshal : jval f64 → option string;
  Sprintv : jval f64 → string;
  ParseMediaType : string → option string;
  FormatRFC3339 : Z → string
}.

(** ** [url.ParseQuery] *)

Definition cut_char (c : ascii) (s : string) : string * string :=
  match Index s (String c "") with
  | Some n => (stake n s, sdrop (S n) s)
  | None => (s, "")
  end.

Definition hex_val (c : ascii) : option nat :=
  let n := nat_of_ascii c in
  if (48 <=? n)%nat && (n <=? 57)%nat then Some (n - 48)
  else if (97 <=? n)%nat && (n <=? 102)%nat then Some (n - 87)
  else if (65 <=? n)%nat && (n <=? 70)%nat then Some (n - 55)
  else None.

Fixpoint QueryUnescape (s : string) : option string :=
  match s with
  | EmptyString => Some ""
  | String c r =>
      if (c =? "%")%char then
        match r with
        | String a (String b r') =>
            match hex_val a, hex_val b with
            | Some x, Some y => String (ascii_of_nat (16 * x + y)) <$> QueryUnescape r'
            | _, _ => None
            end
        | _ => None
        end
      else if (c =? "+")%char then String " " <$> QueryUnescape r
      else String c <$> QueryUnescape r
  end.

Fixpoint parse_pairs (l : list string) (m : gmap string (list string))
    : option (gmap string (list string)) :=
  match l with
  | [] => Some m
  | kv :: l =>
      if Contains kv ";" then None
      else if (kv =? "") then parse_pairs l m
      else
        let '(k, v) := cut_char "=" kv in
        match QueryUnescape k, QueryUnescape v with
        | Some k, Some v => parse_pairs l (<[k := default [] (m !! k) ++ [v]]> m)
        | _, _ => None
        end
  end.

(** [None] when [url.ParseQuery] reports an error. *)
Definition ParseQuery (s : string) : option (gmap string (list string)) :=
  parse_pairs (split_char "&" s) ∅.

(** ** Result lists *)

Definition resultsToMap (results : list ResultValue) : gmap string string :=
  fold_left (λ m r, <[rv_Name r := rv_Value r]> m) results ∅.

Definition mapsToResults (m : gmap string string) : list ResultValue :=
  map (λ '(k, v), MkResult k v) (map_to_list m).

Definition truncate (s : string) (n : nat) : string :=
  if (slen s <=? n)%nat then s else stake n s +:+ "...".

Definition redactedText : string := "[REDACTED]".

Section interp.
  Context `{GoLib}.

Definition renderBodyLeaf (v : jval f64) : string :=
  match v with
  | JNull => ""
  | JStr s => s
  | JNum x => FormatFloat x
  | JObj _ | JArr _ => match json_Marshal v with Some b => b | None => Sprintv v end
  | JBool _ => Sprintv v
  end.

Fixpoint resolveBodyPath (parts : list string) (v : jval f64) : string :=
  match parts with
  | [] => renderBodyLeaf v
  | key :: rest =>
      match v with
      | JObj node => match node !! key with
                     | Some child => resolveBodyPath rest child
                     | None => ""
                     end
      | JArr node =>
          match ParseInt key with
          | Some idx =>
              if (idx <? 0)%Z then ""
              else match node !! Z.to_nat idx with
                   | Some child => resolveBodyPath rest child
                   | None => ""
                   end
          | None => ""
          end
      | _ => ""
      end
  end.

Definition extractSimpleJSONPath (path : string) (obj : gmap string (jval f64)) : string :=
  match obj !! TrimPrefix path "$." with
  | None => ""
  | Some (JStr s) => s
  | Some v => Sprintv v
  end.

Definition isFormURLEncodedContentType (contentType : string) : bool :=
  let mediaType :=
    match ParseMediaType contentType with
    | Some m => m
    | None => TrimSpace (cut_char ";" contentType).1
    end in
  EqualFold mediaType "application/x-www-form-urlencoded".

Definition parseFormURLEncodedBody (body : string) : option (gmap string (jval f64)) :=
  match ParseQuery body with
  | None => None
  | Some values => Some (omap (λ vals : list string, JStr <$> head vals) values)
  end.

(** The Go result [nil] is [JNull] (as is a JSON [null] body). *)
Definition parseTriggerBody (triggerData : option TriggerData) : jval f64 :=
  match triggerData with
  | None => JNull
  | Some td =>
      if (td_Body td =? "") then JNull
      else if isFormURLEncodedContentType (td_ContentType td) then
        match parseFormURLEncodedBody (td_Body td) with
        | Some m => JObj m
        | None => JNull
        end
      else match json_Unmarshal (td_Body td) with
           | Some v => v
           | None => JNull
           end
  end.

(** ** Tokens *)

(** value, matched, isSecret *)
Definition TokenValue : Type := string * bool * bool.
Definition unmatched : TokenValue := ("", false, false).

(** The loop over [stepResults]: the first entry, in iteration order, whose
    name with hyphens turned into underscores is [stepName] decides. *)
Fixpoint findStepResult (entries : list (string * gmap string string)) (stepName key : string)
    : option string :=
  match entries with
  | [] => None
  | (name, results) :: l =>
      if (ReplaceAll name "-" "_" =? stepName) then results !! key
      else findStepResult l stepName key
  end.

Definition resolveTriggerScalarToken (token : string) (triggerData : option TriggerData) : TokenValue :=
  match triggerData with
  | None => unmatched
  | Some td =>
      if (token =? "trigger.topic") then (td_Topic td, true, false)
      else if (token =? "trigger.partition") then (Itoa (td_Partition td), true, false)
      else if (token =? "trigger.offset") then (Itoa (td_Offset td), true, false)
      else if (token =? "trigger.key") then (td_Key td, true, false)
      else if (token =? "trigger.scheduledTime") then
        (match td_ScheduledTime td with Some t => FormatRFC3339 t | None => "" end, true, false)
      else unmatched
  end.

Definition is_nil (v : jval f64) : bool := match v with JNull => true | _ => false end.

Section tokens.
  Context {E : Type → Type}.

Definition resolveInterpolationToken
    (token : string) (stepResults : gmap string (gmap string string))
    (triggerData : option TriggerData) (params : gmap string string)
    (bodyRoot : jval f64) (lowerHeaders : gmap string string)
    (resolveSecret : option (string → string → Prog E (result string)))
    : Prog E (result TokenValue) :=
  if HasPrefix token "steps." then
    let rest := TrimPrefix token "steps." in
    match Index rest ".results." with
    | None => Ret (Ok unmatched)
    | Some idx =>
        match findStepResult (map_to_list stepResults) (stake idx rest)
                (sdrop (idx + slen ".results.") rest) with
        | Some v => Ret (Ok (v, true, false))
        | None => Ret (Ok unmatched)
        end
    end
  else if HasPrefix token "params." then
    match params !! TrimPrefix token "params." with
    | Some v => Ret (Ok (v, true, false))
    | None => Ret (Ok unmatched)
    end
  else if (token =? "trigger.body") then
    match triggerData with
    | None => Ret (Ok unmatched)
    | Some td => Ret (Ok (td_Body td, true, false))
    end
  else if HasPrefix token "trigger.body." then
    match triggerData with
    | None => Ret (Ok unmatched)
    | Some td =>
        if (td_Body td =? "") || is_nil bodyRoot then Ret (Ok unmatched)
        else Ret (Ok (resolveBodyPath (split_char "." (TrimPrefix token "trigger.body.")) bodyRoot,
                      true, false))
    end
  else if HasPrefix token "trigger.headers." then
    match triggerData with
    | None => Ret (Ok unmatched)
    | Some td =>
        Ret (Ok (default "" (lowerHeaders !! ToLower (TrimPrefix token "trigger.headers.")),
                 true, false))
    end
  else if (token =? "trigger.topic") || (token =? "trigger.partition") || (token =? "trigger.offset")
       || (token =? "trigger.key") || (token =? "trigger.scheduledTime") then
    Ret (Ok (resolveTriggerScalarToken token triggerData))
  else if HasPrefix token "secrets." then
    match resolveSecret with
    | None => Ret (Ok unmatched)
    | Some resolveSecret =>
        let inner := TrimPrefix token "secrets." in
        match Index inner "." with
        | None => Ret (Ok unmatched)
        | Some dotIdx =>
            let! v := resolveSecret (stake dotIdx inner) (sdrop (dotIdx + 1) inner) in
            match v with
            | Err e => Ret (Err (wrapf ("resolving $(" +:+ token +:+ "): ") e))
            | Ok v => Ret (Ok (v, true, true))
            end
        end
    end
  else Ret (Ok unmatched).

Definition lowerHeadersOf (triggerData : option TriggerData) : gmap string string :=
  match triggerData with
  | None => ∅
  | Some td => fold_left (λ m '(k, v), <[ToLower k := v]> m) (map_to_list (td_Headers td)) ∅
  end.

(** The scan loop on the rest [s] of the template.  Every round consumes at
    least the three bytes of a placeholder, so [S (slen s)] rounds are enough
    ([interp_loop_fuel] below). *)
Fixpoint interp_loop (fuel : nat) (s : string)
    (stepResults : gmap string (gmap string string)) (triggerData : option TriggerData)
    (params : gmap string string) (lowerHeaders : gmap string string)
    (resolveSecret : option (string → string → Prog E (result string)))
    (bodyRoot : jval f64) (bodyParsed : bool) (actualBuf displayBuf : string)
    : Prog E (result (string * string)) :=
  match fuel with
  | 0 => Ret (Err (errorf "out of fuel"))
  | S fuel =>
      match Index s "$(" with
      | None => Ret (Ok (actualBuf +:+ s, displayBuf +:+ s))
      | Some start =>
          let pre := stake start s in
          let rest := sdrop start s in
          match Index rest ")" with
          | None => Ret (Ok (actualBuf +:+ pre +:+ rest, displayBuf +:+ pre +:+ rest))
          | Some closeIdx =>
              let token := sdrop 2 (stake closeIdx rest) in
              let full := stake (closeIdx + 1) rest in
              let '(bodyRoot, bodyParsed) :=
                if negb bodyParsed && HasPrefix token "trigger.body."
                then (parseTriggerBody triggerData, true) else (bodyRoot, bodyParsed) in
              let! r := resolveInterpolationToken token stepResults triggerData params
                          bodyRoot lowerHeaders resolveSecret in
              match r with
              | Err e => Ret (Err e)
              | Ok (value, matched, isSecret) =>
                  let a := if matched then value else full in
                  let d := if matched then (if isSecret then redactedText else value) else full in
                  interp_loop fuel (sdrop (closeIdx + 1) rest) stepResults triggerData params
                    lowerHeaders resolveSecret bodyRoot bodyParsed
                    (actualBuf +:+ pre +:+ a) (displayBuf +:+ pre +:+ d)
              end
          end
      end
  end.

Definition interpolateTemplate (s : string)
    (stepResults : gmap string (gmap string string)) (triggerData : option TriggerData)
    (params : gmap string string)
    (resolveSecret : option (string → string → Prog E (result string)))
    : Prog E (result (string * string)) :=
  interp_loop (S (slen s)) s stepResults triggerData params (lowerHeadersOf triggerData)
    resolveSecret JNull false "" "".

End tokens.

(** [substituteVars] discards the display string and the error. *)
Definition substituteVars (s : string) (stepResults : gmap string (gmap string string))
    (triggerData : option TriggerData) (params : gmap string string) : string :=
  match prog_val (interpolateTemplate (E := NoEv) s stepResults triggerData params None) with
  | Ok (actual, _) => actual
  | Err _ => ""
  end.

(** ** Flow parameters *)

Definition suppliedParams (flowRunParams : list ParamValue) : gmap string string :=
  fold_left (λ m pv, <[pv_Name pv := pv_Value pv]> m) flowRunParams ∅.

Definition bodyFieldsOf (triggerData : option TriggerData) : option (gmap string (jval f64)) :=
  match parseTriggerBody triggerData with JObj m => Some m | _ => None end.

(** One declaration: the value it resolves to, or the error of step 4. *)
Definition resolveParam (supplied : gmap string string) (bodyFields : option (gmap string (jval f64)))
    (stepResults : gmap string (gmap string string)) (triggerData : option TriggerData)
    (decl : ParamDeclaration) : result string :=
  match supplied !! pd_Name decl with
  | Some raw => Ok (substituteVars raw stepResults triggerData ∅)
  | None =>
      match bodyFields ≫= (λ m, m !! pd_Name decl) with
      | Some v => Ok (resolveBodyPath [] v)
      | None =>
          if negb (pd_Default decl =? "") then Ok (pd_Default decl)
          else if pd_Required decl then
            Err (errorf ("required parameter " +:+ Quote (pd_Name decl)
                         +:+ " not supplied and has no default"))
          else Ok ""
      end
  end.

Fixpoint resolveParams (supplied : gmap string string) (bodyFields : option (gmap string (jval f64)))
    (stepResults : gmap string (gmap string string)) (triggerData : option TriggerData)
    (decls : list ParamDeclaration) (resolved : gmap string string) : result (gmap string string) :=
  match decls with
  | [] => Ok resolved
  | decl :: decls =>
      let? v := resolveParam supplied bodyFields stepResults triggerData decl in
      resolveParams supplied bodyFields stepResults triggerData decls (<[pd_Name decl := v]> resolved)
  end.

Definition resolveFlowParams (paramDecls : list ParamDeclaration) (flowRunParams : list ParamValue)
    (stepResults : gmap string (gmap string string)) (triggerData : option TriggerData)
    : result (gmap string string) :=
  match paramDecls with
  | [] => Ok ∅
  | _ => resolveParams (suppliedParams flowRunParams) (bodyFieldsOf triggerData)
           stepResults triggerData paramDecls ∅
  end.

(** ** Properties *)

(** Every branch that does not consult the resolver returns at once. *)
Ltac token_branches :=
  unfold resolveInterpolationToken; cbv zeta;
  repeat match goal with
  | |- context [if ?b then _ else _] =>
      lazymatch type of b with bool => destruct b eqn:?; simpl end
  | |- context [match Index ?a ?b with _ => _ end] => destruct (Index a b) eqn:?; simpl
  | |- context [match findStepResult ?a ?b ?c with _ => _ end] =>
      destruct (findStepResult a b c) eqn:?; simpl
  | |- context [match ?m !! ?k with _ => _ end] =>
      destruct (m !! k) eqn:?; simpl
  | |- context [match ?o with Some _ => _ | None => _ end] => is_var o; destruct o; simpl
  end.

Lemma resolveTriggerScalarToken_plain token td :
  ∃ v m, resolveTriggerScalarToken token td = (v, m, false).
Proof. unfold resolveTriggerScalarToken, unmatched. destruct td; repeat case_match; eauto. Qed.

Lemma resolve_token_no_resolver {E} token sr td ps root lh :
  ∃ v m, resolveInterpolationToken (E := E) token sr td ps root lh None
         = Ret (Ok (v, m, false)).
Proof.
  unfold unmatched; token_branches; eauto.
  all: match goal with |- context [resolveTriggerScalarToken ?a ?b] =>
         destruct (resolveTriggerScalarToken_plain a b) as (v & m & ->) end; eauto.
Qed.

(** What a token does depends on the token alone as far as the resolver is
    concerned: the requests it issues, and whether it fails, are the same for
    all step results, trigger data, parameters and parsed bodies. *)
Lemma resolve_token_calls {E} (h : ∀ X, E X → X) token R
    sr1 td1 ps1 root1 lh1 sr2 td2 ps2 root2 lh2 :
  let p1 := resolveInterpolationToken token sr1 td1 ps1 root1 lh1 R in
  let p2 := resolveInterpolationToken token sr2 td2 ps2 root2 lh2 R in
  calls h p1 = calls h p2 ∧ is_ok (run_pure h p1) = is_ok (run_pure h p2).
Proof.
  cbv zeta. token_branches; try done.
Qed.

(** Two environments that resolve the same secrets give values that differ
    only where the token is marked secret. *)
Lemma resolve_token_rel {E} (h1 h2 : ∀ X, E X → X) R token sr td ps root lh :
  (∀ n k, is_ok (run_pure h1 (R n k)) = is_ok (run_pure h2 (R n k))) →
  match run_pure h1 (resolveInterpolationToken token sr td ps root lh (Some R)),
        run_pure h2 (resolveInterpolationToken token sr td ps root lh (Some R)) with
  | Ok (v1, m1, s1), Ok (v2, m2, s2) => m1 = m2 ∧ s1 = s2 ∧ (s1 = false → v1 = v2)
  | Err _, Err _ => True
  | _, _ => False
  end.
Proof.
  intros HR. token_branches; try done.
  all: try by destruct (resolveTriggerScalarToken _ _) as [[??] ?].
  rewrite !run_pure_bind.
  match goal with |- context [R ?n ?k] => specialize (HR n k) end.
  destruct (run_pure h1 _), (run_pure h2 _); simpl in *; done.
Qed.

(** Name the parsed body and the parse flag of a round. *)
Tactic Notation "name_body" ident(root) ident(bp) :=
  match goal with
  | |- context [if negb ?b && ?c then ?x else ?y] =>
      destruct (if negb b && c then x else y) as [root bp]
  end.

(** The rest of the template left after a round is shorter. *)
Lemma interp_round_shrinks s start closeIdx :
  Index s "$(" = Some start → Index (sdrop start s) ")" = Some closeIdx →
  slen (sdrop (closeIdx + 1) (sdrop start s)) < slen s.
Proof.
  intros [H1 _]%Index_Some [H2 _]%Index_Some. rewrite !slen_sdrop in *. simpl in *. lia.
Qed.

Lemma interp_loop_total {E} fuel s sr td ps lh root bp a d :
  slen s < fuel →
  a = d →
  ∃ out, interp_loop (E := E) fuel s sr td ps lh None root bp a d = Ret (Ok (out, out)).
Proof.
  revert s root bp a d. induction fuel as [|fuel IH]; intros s root bp a d Hf <-; [lia|].
  cbn [interp_loop]. destruct (Index s "$(") as [start|] eqn:Hs; [|eauto].
  cbv zeta. destruct (Index (sdrop start s) ")") as [ci|] eqn:Hc; [|eauto].
  pose proof (interp_round_shrinks _ _ _ Hs Hc) as Hlt.
  name_body root' bp'.
  destruct (resolve_token_no_resolver (E := E) (sdrop 2 (stake ci (sdrop start s))) sr td ps root' lh)
    as (v & m & ->).
  cbn [pbind]. apply IH; [lia|done].
Qed.

(** More fuel than the template is long changes nothing. *)
Lemma interp_loop_fuel {E} f1 f2 s sr td ps lh (R : option (string → string → Prog E (result string)))
    root bp a d :
  slen s < f1 → slen s < f2 →
  ∀ h, run_pure h (interp_loop f1 s sr td ps lh R root bp a d)
     = run_pure h (interp_loop f2 s sr td ps lh R root bp a d).
Proof.
  intros H1 H2 h. revert f2 s root bp a d H1 H2.
  induction f1 as [|f1 IH]; intros [|f2] s root bp a d H1 H2; try lia.
  cbn [interp_loop]. destruct (Index s "$(") as [start|] eqn:Hs; [|done].
  cbv zeta. destruct (Index (sdrop start s) ")") as [ci|] eqn:Hc; [|done].
  pose proof (interp_round_shrinks _ _ _ Hs Hc) as Hlt.
  name_body root' bp'.
  rewrite !run_pure_bind. destruct (run_pure h (resolveInterpolationToken _ _ _ _ _ _ _)) as [[[v m] sec]|]; [|done].
  apply IH; lia.
Qed.

Lemma interp_loop_rel {E} (h1 h2 : ∀ X, E X → X) R fuel s sr td ps lh root bp a1 a2 d :
  (∀ n k, is_ok (run_pure h1 (R n k)) = is_ok (run_pure h2 (R n k))) →
  match run_pure h1 (interp_loop fuel s sr td ps lh (Some R) root bp a1 d),
        run_pure h2 (interp_loop fuel s sr td ps lh (Some R) root bp a2 d) with
  | Ok (_, d1), Ok (_, d2) => d1 = d2
  | Err _, Err _ => True
  | _, _ => False
  end.
Proof.
  intros HR. revert s root bp a1 a2 d.
  induction fuel as [|fuel IH]; intros s root bp a1 a2 d; [done|].
  cbn [interp_loop]. destruct (Index s "$(") as [start|] eqn:Hs; [|done].
  cbv zeta. destruct (Index (sdrop start s) ")") as [ci|] eqn:Hc; [|done].
  name_body root' bp'.
  rewrite !run_pure_bind.
  set (tok := sdrop 2 (stake ci (sdrop start s))).
  pose proof (resolve_token_rel h1 h2 R tok sr td ps root' lh HR) as Ht.
  destruct (run_pure h1 (resolveInterpolationToken tok _ _ _ _ _ _)) as [[[v1 m1] s1]|];
    destruct (run_pure h2 (resolveInterpolationToken tok _ _ _ _ _ _)) as [[[v2 m2] s2]|]; try done.
  destruct Ht as (-> & -> & Hv).
  destruct m2, s2; try rewrite (Hv eq_refl); apply IH.
Qed.

Lemma interp_loop_calls {E} (h : ∀ X, E X → X) R fuel s
    sr1 td1 ps1 lh1 root1 bp1 a1 d1 sr2 td2 ps2 lh2 root2 bp2 a2 d2 :
  calls h (interp_loop fuel s sr1 td1 ps1 lh1 R root1 bp1 a1 d1)
  = calls h (interp_loop fuel s sr2 td2 ps2 lh2 R root2 bp2 a2 d2).
Proof.
  revert s root1 bp1 a1 d1 root2 bp2 a2 d2.
  induction fuel as [|fuel IH]; intros s root1 bp1 a1 d1 root2 bp2 a2 d2; [done|].
  cbn [interp_loop]. destruct (Index s "$(") as [start|] eqn:Hs; [|done].
  cbv zeta. destruct (Index (sdrop start s) ")") as [ci|] eqn:Hc; [|done].
  name_body root1' bp1'. name_body root2' bp2'.
  rewrite !calls_bind.
  set (tok := sdrop 2 (stake ci (sdrop start s))).
  destruct (resolve_token_calls h tok R sr1 td1 ps1 root1' lh1 sr2 td2 ps2 root2' lh2) as [Hc1 Hok].
  rewrite Hc1. f_equal.
  destruct (run_pure h (resolveInterpolationToken tok sr1 _ _ _ _ _)) as [[[v1 m1] s1]|];
    destruct (run_pure h (resolveInterpolationToken tok sr2 _ _ _ _ _)) as [[[v2 m2] s2]|];
    first [done | apply IH].
Qed.

(** The interpolation always terminates with a result when no secret
    resolver is given, and the display string is then the actual string. *)
Theorem interpolateTemplate_total s sr td ps :
  ∃ out, interpolateTemplate (E := NoEv) s sr td ps None = Ret (Ok (out, out))
         ∧ substituteVars s sr td ps = out.
Proof.
  destruct (interp_loop_total (E := NoEv) (S (slen s)) s sr td ps (lowerHeadersOf td) JNull false "" "")
    as [out Hout]; [lia|done|].
  exists out. unfold substituteVars, interpolateTemplate. rewrite Hout. done.
Qed.

(** C33: the display string carries no secret: any two environments in which the
    same secret reads succeed produce the same display string (and fail
    together). *)
Theorem interpolateTemplate_display_noninterference {E} (h1 h2 : ∀ X, E X → X) R s sr td ps :
  (∀ n k, is_ok (run_pure h1 (R n k)) = is_ok (run_pure h2 (R n k))) →
  match run_pure h1 (interpolateTemplate s sr td ps (Some R)),
        run_pure h2 (interpolateTemplate s sr td ps (Some R)) with
  | Ok (_, display1), Ok (_, display2) => display1 = display2
  | Err _, Err _ => True
  | _, _ => False
  end.
Proof. apply interp_loop_rel. Qed.

(** Which secrets are read is fixed by the template text: step results,
    trigger data and parameters cannot add, remove or change a read. *)
Theorem interpolateTemplate_no_injection {E} (h : ∀ X, E X → X) R s sr1 td1 ps1 sr2 td2 ps2 :
  calls h (interpolateTemplate s sr1 td1 ps1 R) = calls h (interpolateTemplate s sr2 td2 ps2 R).
Proof. apply interp_loop_calls. Qed.

(** ** Step results *)

Lemma findStepResult_spec l n k v :
  NoDup (map (λ e, ReplaceAll e.1 "-" "_") l) →
  findStepResult l n k = Some v ↔
  ∃ name res, (name, res) ∈ l ∧ ReplaceAll name "-" "_" = n ∧ res !! k = Some v.
Proof.
  induction l as [|[name res] l IH]; simpl; intros Hnd.
  { split; [done|]. intros (? & ? & Hin & _). by apply not_elem_of_nil in Hin. }
  apply NoDup_cons in Hnd as [Hni Hnd].
  destruct (String.eqb_spec (ReplaceAll name "-" "_") n) as [<-|Hne].
  - split; [by exists name, res; split; [left|]|].
    intros (name' & res' & [[= -> ->]|Hin]%elem_of_cons & Heq & Hk); [done|].
    destruct Hni. rewrite <- Heq. apply list_elem_of_fmap. by exists (name', res').
  - rewrite (IH Hnd). split; intros (name' & res' & Hin & Heq & Hk).
    + exists name', res'. by split; [right|].
    + apply elem_of_cons in Hin as [[= -> ->]|Hin]; [done|]. by exists name', res'.
Qed.

(** A step result reference does not depend on the map iteration order of Go
    when no two step names agree up to hyphens and underscores. *)
Theorem findStepResult_order_independent (l1 l2 : list (string * gmap string string)) n k :
  NoDup (map (λ e, ReplaceAll e.1 "-" "_") l1) →
  l1 ≡ₚ l2 →
  findStepResult l1 n k = findStepResult l2 n k.
Proof.
  intros Hnd Hp. apply option_eq. intros v.
  rewrite findStepResult_spec by done.
  rewrite findStepResult_spec by (by rewrite <- Hp).
  by setoid_rewrite Hp.
Qed.

(** ** Parameters *)

(** The documented resolution order, as a relation. *)
Inductive param_resolves (given : list ParamValue) (sr : gmap string (gmap string string))
    (td : option TriggerData) (d : ParamDeclaration) : string → Prop :=
  | param_supplied raw :
      suppliedParams given !! pd_Name d = Some raw →
      param_resolves given sr td d (substituteVars raw sr td ∅)
  | param_from_body m v :
      suppliedParams given !! pd_Name d = None →
      parseTriggerBody td = JObj m → m !! pd_Name d = Some v →
      param_resolves given sr td d (renderBodyLeaf v)
  | param_default :
      suppliedParams given !! pd_Name d = None →
      (∀ m, parseTriggerBody td = JObj m → m !! pd_Name d = None) →
      pd_Default d ≠ "" →
      param_resolves given sr td d (pd_Default d)
  | param_optional :
      suppliedParams given !! pd_Name d = None →
      (∀ m, parseTriggerBody td = JObj m → m !! pd_Name d = None) →
      pd_Default d = "" → pd_Required d = false →
      param_resolves given sr td d "".

Lemma resolveParam_spec given sr td d :
  match resolveParam (suppliedParams given) (bodyFieldsOf td) sr td d with
  | Ok v => param_resolves given sr td d v
  | Err e => pd_Required d = true ∧ ∀ v, ¬ param_resolves given sr td d v
  end.
Proof.
  unfold resolveParam, bodyFieldsOf.
  destruct (suppliedParams given !! pd_Name d) as [raw|] eqn:Hs; [by constructor|].
  assert (∀ m v, parseTriggerBody td = JObj m → m !! pd_Name d = Some v →
          param_resolves given sr td d (renderBodyLeaf v)) as Hbody.
  { intros. by eapply param_from_body. }
  set (body := parseTriggerBody td) in *.
  assert ((∃ m v, body = JObj m ∧ m !! pd_Name d = Some v) ∨
          ((∀ m, body = JObj m → m !! pd_Name d = None) ∧
           (match body with JObj m => Some m | _ => None end ≫= (λ m, m !! pd_Name d)) = None))
    as [(m & v & Hm & Hv)|[Hno ->]].
  { destruct body as [| | | | |m]; try (by right; split; [intros|]).
    destruct (m !! pd_Name d) eqn:Hm; [left; eauto|]. right. simpl. split; [|done]. by intros ? [= <-]. }
  - rewrite Hm. simpl. rewrite Hv. eauto.
  - destruct (String.eqb_spec (pd_Default d) "") as [Hd|Hd]; simpl.
    + destruct (pd_Required d) eqn:Hr; [|by apply param_optional].
      split; [done|]. intros v [raw ?|m v' ? Hm Hv'|? ? ?|? ? ? ?]; [congruence| |done|congruence].
      by rewrite (Hno m Hm) in Hv'.
    + by apply param_default.
Qed.

Lemma resolveParams_spec given sr td decls acc :
  NoDup (pd_Name <$> decls) →
  match resolveParams (suppliedParams given) (bodyFieldsOf td) sr td decls acc with
  | Ok m => (∀ d, d ∈ decls → ∃ v, m !! pd_Name d = Some v ∧ param_resolves given sr td d v) ∧
            (∀ k, k ∉ pd_Name <$> decls → m !! k = acc !! k)
  | Err _ => ∃ d, d ∈ decls ∧ pd_Required d = true ∧ ∀ v, ¬ param_resolves given sr td d v
  end.
Proof.
  revert acc. induction decls as [|d decls IH]; intros acc Hnd; simpl.
  { split; [|done]. intros d Hd. by apply not_elem_of_nil in Hd. }
  apply NoDup_cons in Hnd as [Hni Hnd].
  pose proof (resolveParam_spec given sr td d) as Hd.
  destruct (resolveParam _ _ _ _ d) as [v|e]; simpl.
  2: { destruct Hd. exists d. split; [by left|done]. }
  specialize (IH (<[pd_Name d := v]> acc) Hnd).
  destruct (resolveParams _ _ _ _ decls _) as [m|e].
  - destruct IH as [IH1 IH2]. split.
    + intros d' [->|Hd']%elem_of_cons; [|by apply IH1].
      exists v. split; [|done]. rewrite IH2 by done. by rewrite lookup_insert_eq.
    + intros k [Hk1 Hk2]%not_elem_of_cons. rewrite IH2 by done. by rewrite lookup_insert_ne.
  - destruct IH as (d' & ? & ?). exists d'. split; [by right|done].
Qed.

(** Parameter resolution follows the documented order for every declared
    parameter, resolves nothing else, and fails exactly when a required
    parameter has no source. *)
Theorem resolveFlowParams_spec decls given sr td :
  NoDup (pd_Name <$> decls) →
  match resolveFlowParams decls given sr td with
  | Ok m => (∀ d, d ∈ decls → ∃ v, m !! pd_Name d = Some v ∧ param_resolves given sr td d v) ∧
            (∀ k, is_Some (m !! k) → k ∈ pd_Name <$> decls)
  | Err _ => ∃ d, d ∈ decls ∧ pd_Required d = true ∧ ∀ v, ¬ param_resolves given sr td d v
  end.
Proof.
  intros Hnd. unfold resolveFlowParams.
  pose proof (resolveParams_spec given sr td decls ∅ Hnd) as Hsp.
  destruct decls as [|d decls].
  - split; [intros d Hd; by apply not_elem_of_nil in Hd|]. intros k [? Hk]. by rewrite lookup_empty in Hk.
  - destruct (resolveParams _ _ _ _ _ _) as [m|e]; [|done].
    destruct Hsp as [H1 H2]. split; [done|]. intros k Hk.
    destruct (decide (k ∈ pd_Name <$> d :: decls)) as [|Hn]; [done|].
    rewrite H2 in Hk by done. by destruct Hk.
Qed.

End interp.

Lemma fold_insert_results (l : list (string * string)) (m : gmap string string) :
  fold_left (λ m r, <[rv_Name r := rv_Value r]> m) (map (λ '(k, v), MkResult k v) l) m
  = fold_left (λ m '(k, v), <[k := v]> m) l m.
Proof. revert m. induction l as [|[k v] l IH]; simpl; auto. Qed.

Lemma fold_insert_lookup (l : list (string * string)) (m : gmap string string) k :
  NoDup l.*1 →
  fold_left (λ m '(k, v), <[k := v]> m) l m !! k =
  match (list_to_map l : gmap string string) !! k with Some v => Some v | None => m !! k end.
Proof.
  revert m. induction l as [|[k' v'] l IH]; simpl; intros m Hnd; [done|].
  apply NoDup_cons in Hnd as [Hni Hnd]. rewrite IH by done.
  destruct (decide (k = k')) as [->|Hne].
  - rewrite lookup_insert_eq. rewrite not_elem_of_list_to_map_1 by done.
    by rewrite lookup_insert_eq.
  - rewrite lookup_insert_ne by done. by rewrite lookup_insert_ne.
Qed.

(** Results written to a step status and read back for later steps are the
    results the step produced. *)
Theorem resultsToMap_mapsToResults m : resultsToMap (mapsToResults m) = m.
Proof.
  unfold resultsToMap, mapsToResults. rewrite fold_insert_results. apply map_eq. intros k.
  rewrite fold_insert_lookup by apply NoDup_fst_map_to_list.
  rewrite list_to_map_to_list. destruct (m !! k); [done|]. apply lookup_empty.
Qed.
