(* ===== verification/Net.v ===== *)
(** * The parts of Go's package [net] the SSRF and allow-list checks use

    [net.IP] values are byte lists of length 4 or 16; [ParseIP] yields the
    16-byte form, as in Go. *)

From S2P Require Import Prelude GoStd.

Local Open Scope string_scope.
Local Open Scope list_scope.
Local Open Scope Z_scope.

Definition IP := list Z.

(** The string functions and comparisons below are on [string]. *)
Definition v4InV6Prefix : list Z := [0;0;0;0;0;0;0;0;0;0;255;255].

Definition To4 (ip : IP) : option IP :=
  if (length ip =? 4)%nat then Some ip
  else if (length ip =? 16)%nat && bool_decide (firstn 12 ip = v4InV6Prefix) then Some (skipn 12 ip)
  else None.

Definition To16 (ip : IP) : IP :=
  if (length ip =? 4)%nat then v4InV6Prefix ++ ip else ip.

(** [IP.Equal]: an IPv4 address and its IPv4-mapped form are the same. *)
Definition IP_Equal (a b : option IP) : bool :=
  match a, b with
  | Some a, Some b => bool_decide (To16 a = To16 b)
  | None, None => true
  | _, _ => false
  end.

(** ** [netip.ParseAddr] *)

Definition v4_field (s : string) : option Z :=
  match parse_digits 0 s with
  | Some v =>
      if ((slen s =? 0)%nat || (3 <? slen s)%nat)%bool then None
      else if ((1 <? slen s)%nat && HasPrefix s "0")%bool then None
      else if 255 <? v then None else Some v
  | None => None
  end.

Definition parseIPv4 (s : string) : option (list Z) :=
  match split_char "." s with
  | [a; b; c; d] =>
      match v4_field a, v4_field b, v4_field c, v4_field d with
      | Some a, Some b, Some c, Some d => Some [a; b; c; d]
      | _, _, _, _ => None
      end
  | _ => None
  end.

Definition hexval (c : ascii) : option Z :=
  let n := Z.of_nat (nat_of_ascii c) in
  if (48 <=? n) && (n <=? 57) then Some (n - 48)
  else if (97 <=? n) && (n <=? 102) then Some (n - 87)
  else if (65 <=? n) && (n <=? 70) then Some (n - 55)
  else None.

(** The hexadecimal digits at the head of [s]: value, count, rest. *)
Fixpoint hex_group (acc : Z) (cnt : nat) (s : string) : Z * nat * string :=
  match s with
  | String c r => match hexval c with
                  | Some d => hex_group (acc * 16 + d) (S cnt) r
                  | None => (acc, cnt, s)
                  end
  | EmptyString => (acc, cnt, s)
  end.

(** The bytes before and after the ellipsis; one 16-bit group per round. *)
Fixpoint v6_loop (rounds : nat) (s : string) (pre : list Z) (ell : option (list Z))
    : option (list Z * option (list Z)) :=
  match rounds with
  | O => if (s =? "")%string then Some (pre, ell) else None
  | S rounds =>
      let '(acc, off, rest) := hex_group 0 0 s in
      let cur := match ell with Some t => t | None => pre end in
      if ((off =? 0)%nat || (4 <? off)%nat)%bool then None
      else if HasPrefix rest "." then
        let i := (length pre + match ell with Some t => length t | None => 0 end)%nat in
        if ((match ell with None => negb (i =? 12)%nat | Some _ => false end)
            || (16 <? i + 4)%nat)%bool then None
        else match parseIPv4 s with
             | Some v4 => match ell with
                          | Some t => Some (pre, Some (t ++ v4))
                          | None => Some (pre ++ v4, None)
                          end
             | None => None
             end
      else
        let cur := cur ++ [Z.shiftr acc 8; Z.land acc 255] in
        let '(pre, ell) := match ell with Some _ => (pre, Some cur) | None => (cur, None) end in
        match rest with
        | EmptyString => Some (pre, ell)
        | String c r1 =>
            if negb (Ascii.eqb c ":") then None
            else match r1 with
                 | EmptyString => None
                 | String c2 r2 =>
                     if Ascii.eqb c2 ":" then
                       match ell with
                       | Some _ => None
                       | None => if (r2 =? "")%string then Some (pre, Some [])
                                 else v6_loop rounds r2 pre (Some [])
                       end
                     else v6_loop rounds r1 pre ell
                 end
        end
  end.

Definition v6_expand (r : option (list Z * option (list Z))) : option IP :=
  match r with
  | Some (pre, None) => if (length pre =? 16)%nat then Some pre else None
  | Some (pre, Some t) =>
      if (length pre + length t <? 16)%nat
      then Some (pre ++ repeat 0 (16 - length pre - length t)%nat ++ t) else None
  | None => None
  end.

Definition parseIPv6 (s : string) : option IP :=
  if HasPrefix s "::" then
    let s := sdrop 2 s in
    if (s =? "")%string then Some (repeat 0 16)
    else v6_expand (v6_loop 8 s [] (Some []))
  else v6_expand (v6_loop 8 s [] None).

(** The address and whether it was written in IPv4 form. *)
Definition ParseAddr (s : string) : option (IP * bool) :=
  match Index s ".", Index s ":" with
  | Some d, Some c => if (d <? c)%nat then (λ v, (v, true)) <$> parseIPv4 s
                      else (λ v, (v, false)) <$> parseIPv6 s
  | Some _, None => (λ v, (v, true)) <$> parseIPv4 s
  | None, Some _ => (λ v, (v, false)) <$> parseIPv6 s
  | None, None => None
  end.

(** [net.ParseIP] (an address with a zone does not parse). *)
Definition ParseIP (s : string) : option IP :=
  (λ '(ip, _), To16 ip) <$> ParseAddr s.

(** ** [net.IPNet] *)

Record IPNet := MkIPNet { net_IP : list Z; net_Mask : list Z }.

Definition CIDRMask (ones : Z) (nbytes : nat) : list Z :=
  map (λ i : nat, let n := ones - 8 * Z.of_nat i in
        if 8 <=? n then 255 else if n <=? 0 then 0 else 256 - 2 ^ (8 - n))
    (seq 0 nbytes).

(** [dtoi] over the whole mask text. *)
Definition mask_len (s : string) : option Z :=
  match s with
  | EmptyString => None
  | _ => match parse_digits 0 s with
         | Some n => if 16777215 <=? n then None else Some n
         | None => None
         end
  end.

Fixpoint mask_bytes (ip m : list Z) : list Z :=
  match ip, m with
  | a :: ip, b :: m => Z.land a b :: mask_bytes ip m
  | _, _ => []
  end.

Definition ParseCIDR (s : string) : option IPNet :=
  match Index s "/" with
  | None => None
  | Some i =>
      match ParseAddr (stake i s), mask_len (sdrop (S i) s) with
      | Some (ip, is4), Some n =>
          let iplen := if is4 : bool then 4%nat else 16%nat in
          if 8 * Z.of_nat iplen <? n then None
          else let m := CIDRMask n iplen in Some (MkIPNet (mask_bytes ip m) m)
      | _, _ => None
      end
  end.

(** [networkNumberAndMask] *)
Definition networkNumberAndMask (n : IPNet) : option (list Z * list Z) :=
  let ip := match To4 (net_IP n) with Some v => v | None => net_IP n end in
  let m := net_Mask n in
  if negb ((length ip =? 4)%nat || (length ip =? 16)%nat) then None
  else if (length m =? length ip)%nat then Some (ip, m)
  else if (length m =? 16)%nat && (length ip =? 4)%nat then Some (ip, skipn 12 m)
  else None.

Definition IPNet_Contains (n : IPNet) (ip : IP) : bool :=
  match networkNumberAndMask n with
  | None => false
  | Some (nn, m) =>
      let ip := match To4 ip with Some x => x | None => ip end in
      (length ip =? length nn)%nat && bool_decide (mask_bytes nn m = mask_bytes ip m)
  end.

Example parse_v4 : ParseIP "10.1.2.3" = Some (v4InV6Prefix ++ [10;1;2;3]).
Proof. vm_compute. reflexivity. Qed.
Example parse_v6 : ParseIP "fe80::1" = Some [254;128;0;0;0;0;0;0;0;0;0;0;0;0;0;1].
Proof. vm_compute. reflexivity. Qed.
Example parse_mapped : ParseIP "::ffff:10.0.0.1" = Some (v4InV6Prefix ++ [10;0;0;1]).
Proof. vm_compute. reflexivity. Qed.
Example parse_bad : ParseIP "1.2.3.04" = None ∧ ParseIP "1::2::3" = None ∧ ParseIP "host" = None.
Proof. vm_compute. done. Qed.
Example parse_cidr : ParseCIDR "172.16.0.0/12" = Some (MkIPNet [172;16;0;0] [255;240;0;0]).
Proof. vm_compute. reflexivity. Qed.

(** ** Membership, stated on bits

    An address belongs to a network when both are of the same family (an
    IPv4-mapped address counting as IPv4) and they agree on every bit that is
    set in the mask. *)

Inductive canonical : IP → IP → Prop :=
  | can_v4 a b c d : canonical [a; b; c; d] [a; b; c; d]
  | can_mapped a b c d : canonical (v4InV6Prefix ++ [a; b; c; d]) [a; b; c; d]
  | can_v6 ip : length ip = 16%nat → take 12 ip ≠ v4InV6Prefix → canonical ip ip.

Definition agree_on (m x y : Z) : Prop := ∀ b, Z.testbit m b = true → Z.testbit x b = Z.testbit y b.

(** The last bytes of a mask, as many as the address has. *)
Definition mask_for (nn m : list Z) : list Z := drop (length m - length nn) m.

Definition in_net (n : IPNet) (ip : IP) : Prop :=
  ∃ a nn, canonical ip a ∧ canonical (net_IP n) nn ∧ length a = length nn ∧
    (length (net_Mask n) = length nn ∨ length (net_Mask n) = 16%nat) ∧
    ∀ (i : nat) x y m, a !! i = Some x → nn !! i = Some y → mask_for nn (net_Mask n) !! i = Some m →
      agree_on m x y.

Lemma canonical_To4 ip a :
  canonical ip a ↔
  (length ip = 4%nat ∨ length ip = 16%nat) ∧ a = match To4 ip with Some x => x | None => ip end.
Proof.
  split.
  - intros [| |ip' Hl Hp]; [by auto..|]. split; [by right|]. unfold To4. rewrite Hl. simpl.
    by rewrite bool_decide_false.
  - unfold To4. intros [[Hl|Hl] ->]; rewrite Hl; simpl.
    + destruct ip as [|? [|? [|? [|? [|]]]]]; try done. apply can_v4.
    + case_bool_decide as Hp; [|by apply can_v6].
      pose proof (take_drop 12 ip) as Hip. assert (length (drop 12 ip) = 4%nat) as Hd by (rewrite length_drop; lia).
      unfold firstn in Hp. change (take 12 ip = v4InV6Prefix) in Hp. rewrite <- Hip, Hp.
      change (skipn 12 (v4InV6Prefix ++ drop 12 ip)) with (drop 12 ip).
      destruct (drop 12 ip) as [|? [|? [|? [|? [|]]]]]; try done. apply can_mapped.
Qed.

Lemma land_agree m x y : Z.land x m = Z.land y m ↔ agree_on m x y.
Proof.
  split.
  - intros He b Hb. assert (Z.testbit (Z.land x m) b = Z.testbit (Z.land y m) b) as H by (by rewrite He).
    rewrite !Z.land_spec, Hb, !andb_true_r in H. done.
  - intros Ha. apply Z.bits_inj'. intros b _. rewrite !Z.land_spec.
    destruct (Z.testbit m b) eqn:Hb; [by rewrite (Ha b)|by rewrite !andb_false_r].
Qed.

Lemma mask_bytes_agree a nn m :
  length a = length nn → length m = length nn →
  mask_bytes nn m = mask_bytes a m ↔
  ∀ (i : nat) x y k, a !! i = Some x → nn !! i = Some y → m !! i = Some k → agree_on k x y.
Proof.
  revert nn m. induction a as [|x a IH]; intros [|y nn] [|k m]; simpl; try done.
  intros [= Ha] [= Hm]. split.
  - intros [= He Hr] [|i] x' y' k'; simpl.
    + intros [= ->] [= ->] [= ->]. by apply land_agree.
    + by apply IH.
  - intros Hi. f_equal; [by apply eq_sym, land_agree, (Hi 0%nat)|]. apply IH; [done..|].
    intros i. apply (Hi (S i)).
Qed.

Lemma canonical_length ip a : canonical ip a → length a = 4%nat ∨ length a = 16%nat.
Proof. destruct 1; auto. Qed.

Lemma To4_length ip :
  length (match To4 ip with Some x => x | None => ip end) = 4%nat ∨
  length (match To4 ip with Some x => x | None => ip end) = 16%nat →
  length ip = 4%nat ∨ length ip = 16%nat.
Proof.
  unfold To4. destruct (Nat.eqb_spec (length ip) 4); [by left|].
  destruct (Nat.eqb_spec (length ip) 16); [by right|]. done.
Qed.

Lemma networkNumberAndMask_spec n nn m :
  networkNumberAndMask n = Some (nn, m) ↔
  canonical (net_IP n) nn ∧ (length (net_Mask n) = length nn ∨ length (net_Mask n) = 16%nat) ∧
  m = mask_for nn (net_Mask n).
Proof.
  unfold networkNumberAndMask, mask_for. rewrite canonical_To4.
  pose proof (To4_length (net_IP n)) as Hl. set (v := match To4 (net_IP n) with Some _ => _ | None => _ end) in *.
  destruct (Nat.eqb_spec (length v) 4) as [H4|H4], (Nat.eqb_spec (length v) 16) as [H16|H16]; simpl; try lia.
  - destruct (Nat.eqb_spec (length (net_Mask n)) (length v)) as [Hm|Hm];
      [|destruct (Nat.eqb_spec (length (net_Mask n)) 16) as [Hm'|Hm']]; simpl; split; try done.
    + intros [= <- <-]. rewrite Hm, Nat.sub_diag. naive_solver.
    + intros ([_ ->] & _ & ->). by rewrite Hm, Nat.sub_diag.
    + intros [= <- <-]. rewrite Hm', H4. naive_solver.
    + intros ([_ ->] & _ & ->). by rewrite Hm', H4.
    + intros ([_ ->] & [?|?] & ->); done.
  - destruct (Nat.eqb_spec (length (net_Mask n)) (length v)) as [Hm|Hm]; simpl.
    + split.
      * intros [= <- <-]. rewrite Hm, Nat.sub_diag. naive_solver.
      * intros ([_ ->] & _ & ->). by rewrite Hm, Nat.sub_diag.
    + rewrite andb_false_r. split; [done|]. intros ([_ ->] & [?|?] & ->); congruence.
  - split; [done|]. intros ([[Hi|Hi] ->] & _); exfalso; revert H4 H16; unfold v, To4; rewrite Hi; simpl.
    + by rewrite Hi.
    + case_bool_decide; [rewrite length_skipn; lia|lia].
Qed.

(** [IPNet.Contains] decides membership. *)
Lemma IPNet_Contains_spec n ip : IPNet_Contains n ip = true ↔ in_net n ip.
Proof.
  unfold IPNet_Contains, in_net. split.
  - destruct (networkNumberAndMask n) as [[nn m]|] eqn:Hn; [|done].
    apply networkNumberAndMask_spec in Hn as (Hc & Hm & ->).
    intros [Ha%Nat.eqb_eq Hb%bool_decide_eq_true]%andb_prop. eexists _, nn.
    assert (length nn = 4%nat ∨ length nn = 16%nat) as Hnn by by eapply canonical_length.
    split; [apply canonical_To4; split; [apply To4_length; destruct Hnn as [Hnn|Hnn]; rewrite Hnn in Ha; [left|right]; exact Ha|done]|]. split_and!; [done..|].
    apply mask_bytes_agree; [done|unfold mask_for; rewrite length_drop; lia|done].
  - intros (a & nn & Ha & Hn & Hl & Hm & Hag).
    assert (length nn = 4%nat ∨ length nn = 16%nat) as Hnn by by eapply canonical_length.
    rewrite (proj2 (networkNumberAndMask_spec n nn _) (conj Hn (conj Hm eq_refl))).
    apply canonical_To4 in Ha as [_ <-]. rewrite Hl, Nat.eqb_refl. simpl. apply bool_decide_eq_true.
    apply mask_bytes_agree; [done|unfold mask_for; rewrite length_drop; lia|done].
Qed.

Lemma IPNet_Contains_false n ip : IPNet_Contains n ip = false ↔ ¬ in_net n ip.
Proof. rewrite <- IPNet_Contains_spec. by rewrite not_true_iff_false. Qed.
