(* ===== verification/Ssrf.v ===== *)
(** * SSRF protection

    [internal/controller/ssrf.go], the pre-check before a request is forwarded;
    the executor's copy ([internal/executor/http/ssrf.go]) shares the blocked
    range test defined here and is in file Executor.  DNS is a program argument:
    every theorem holds for all of its answers. *)

From S2P Require Import Prelude GoStd Net Effects.

Local Open Scope string_scope.
Local Open Scope list_scope.
Local Open Scope go_scope.

(** [url.Parse] followed by [Hostname], and the textual forms of addresses
    that only appear in messages. *)
Class NetLib := {
  URLHostname : string → result string;
  IP_String : IP → string;
  IPNet_String : IPNet → string
}.

(** ** Blocked ranges *)

Fixpoint parseCIDRs (l : list string) : option (list IPNet) :=
  match l with
  | [] => Some []
  | c :: l => match ParseCIDR c, parseCIDRs l with
              | Some n, Some ns => Some (n :: ns)
              | _, _ => None
              end
  end.

(** [mustParseCIDRs] panics on a bad entry; the lists it is applied to parse
    ([ctl_default_list_parses], [exe_default_list_parses] in Executor). *)
Definition mustParseCIDRs (l : list string) : list IPNet := default [] (parseCIDRs l).

Section blocked.
  Context `{NetLib}.

Fixpoint isBlockedIP (ip : IP) (blockedCIDRs : list IPNet) : bool * string :=
  match blockedCIDRs with
  | [] => (false, "")
  | cidr :: l => if IPNet_Contains cidr ip then (true, IPNet_String cidr) else isBlockedIP ip l
  end.

(** The loop of [ParseCIDRList] over the comma-separated extra ranges. *)
Fixpoint parseExtra (flag : string) (parts : list string) (acc : list IPNet) : result (list IPNet) :=
  match parts with
  | [] => Ok acc
  | raw :: parts =>
      let cidr := TrimSpace raw in
      if (cidr =? "") then parseExtra flag parts acc
      else match ParseCIDR cidr with
           | None => Err (errorf ("invalid CIDR " +:+ Quote cidr +:+ " in " +:+ flag))
           | Some n => parseExtra flag parts (acc ++ [n])
           end
  end.

Definition isClusterInternal (hostname : string) : bool :=
  HasSuffix hostname ".svc.cluster.local" || HasSuffix hostname ".svc.cluster.local.".

Definition clusterInternalMsg : string :=
  "requests to in-cluster service endpoints (.svc.cluster.local) are not permitted from HTTP steps; use a plugin Integration instead".

Lemma isBlockedIP_false ip l :
  (isBlockedIP ip l).1 = false ↔ ∀ n, n ∈ l → IPNet_Contains n ip = false.
Proof.
  induction l as [|c l IH]; simpl.
  - split; [intros _ n Hn; by apply not_elem_of_nil in Hn|done].
  - destruct (IPNet_Contains c ip) eqn:Hc; simpl; split; intros Hl.
    + done.
    + rewrite (Hl c) in Hc by (by left). done.
    + intros n [->|Hn]%elem_of_cons; [done|]. by apply IH.
    + apply IH. intros n Hn. apply Hl. by right.
Qed.

Lemma isBlockedIP_app ip l1 l2 :
  (isBlockedIP ip (l1 ++ l2)).1 = (isBlockedIP ip l1).1 || (isBlockedIP ip l2).1.
Proof. induction l1 as [|c l IH]; simpl; [done|]. by destruct (IPNet_Contains c ip). Qed.

Lemma isBlockedIP_perm ip l1 l2 :
  l1 ≡ₚ l2 → (isBlockedIP ip l1).1 = (isBlockedIP ip l2).1.
Proof.
  intros Hp. destruct (isBlockedIP ip l2).1 eqn:H2.
  - apply not_false_iff_true. rewrite isBlockedIP_false. intros H1.
    assert ((isBlockedIP ip l2).1 = false); [|congruence].
    apply isBlockedIP_false. intros n. rewrite <- Hp. apply H1.
  - rewrite isBlockedIP_false in *. intros n. rewrite Hp. apply H2.
Qed.

(** Membership looks at the IPv4 form of an address. *)
Lemma IPNet_Contains_mapped n a b c d :
  IPNet_Contains n (v4InV6Prefix ++ [a; b; c; d]) = IPNet_Contains n [a; b; c; d].
Proof. reflexivity. Qed.

Lemma isBlockedIP_mapped l a b c d :
  isBlockedIP (v4InV6Prefix ++ [a; b; c; d]) l = isBlockedIP [a; b; c; d] l.
Proof.
  induction l as [|n l IH]; simpl; [done|].
  change (0%Z :: _) with (v4InV6Prefix ++ [a; b; c; d]).
  rewrite IPNet_Contains_mapped. by rewrite IH.
Qed.

Lemma parseExtra_extends flag parts acc l :
  parseExtra flag parts acc = Ok l → ∃ l', l = acc ++ l'.
Proof.
  revert acc. induction parts as [|p parts IH]; simpl; intros acc Hl.
  - exists []. rewrite app_nil_r. by simplify_eq.
  - destruct (TrimSpace p =? ""); [by apply IH|].
    destruct (ParseCIDR (TrimSpace p)); [|done].
    destruct (IH _ Hl) as [l' ->]. exists (i :: l'). by rewrite <- app_assoc.
Qed.

End blocked.

(** ** The controller's check *)
Definition SSRFBlockedCIDRs : list string :=
  [ "10.0.0.0/8"; "172.16.0.0/12"; "192.168.0.0/16"; "127.0.0.0/8"; "169.254.0.0/16";
    "0.0.0.0/8"; "::1/128"; "fe80::/10"; "fc00::/7"; "100.64.0.0/10" ].

Definition defaultSSRFBlockedCIDRs : list IPNet :=
  Eval vm_compute in mustParseCIDRs SSRFBlockedCIDRs.

Section ctl.
  Context `{NetLib} {E : Type → Type}.

Definition ParseCIDRList (extraCIDRs : string) : result (list IPNet) :=
  if (TrimSpace extraCIDRs =? "") then Ok defaultSSRFBlockedCIDRs
  else parseExtra "--http-step-blocked-cidrs" (split_char "," extraCIDRs) defaultSSRFBlockedCIDRs.

(** The loop over the resolved addresses. *)
Fixpoint checkAddrs (hostname : string) (addrs : list IP) (blockedCIDRs : list IPNet) : result unit :=
  match addrs with
  | [] => Ok tt
  | ip :: addrs =>
      let '(blocked, cidr) := isBlockedIP ip blockedCIDRs in
      if blocked : bool then
        Err (errorf ("SSRF check: hostname " +:+ Quote hostname +:+ " resolves to blocked IP "
                     +:+ IP_String ip +:+ " (range " +:+ cidr +:+ ")"))
      else checkAddrs hostname addrs blockedCIDRs
  end.

(** [blockedCIDRs = None] is the Go [nil] slice. *)
Definition checkSSRF (lookupIPAddr : string → Prog E (result (list IP))) (rawURL : string)
    (blockedCIDRs : option (list IPNet)) (allowClusterInternal : bool) : Prog E (result unit) :=
  let blockedCIDRs := default defaultSSRFBlockedCIDRs blockedCIDRs in
  match URLHostname rawURL with
  | Err e => Ret (Err (wrapf "SSRF check: invalid URL: " e))
  | Ok hostname =>
      if (hostname =? "") then Ret (Err (errorf "SSRF check: URL has no hostname"))
      else if isClusterInternal hostname then
        if allowClusterInternal then Ret (Ok tt)
        else Ret (Err (errorf ("SSRF check: " +:+ clusterInternalMsg)))
      else match ParseIP hostname with
           | Some ip =>
               let '(blocked, cidr) := isBlockedIP ip blockedCIDRs in
               if blocked : bool then
                 Ret (Err (errorf ("SSRF check: target IP " +:+ IP_String ip
                                   +:+ " is in blocked range " +:+ cidr)))
               else Ret (Ok tt)
           | None =>
               let! addrs := lookupIPAddr hostname in
               match addrs with
               | Err e => Ret (Err (wrapf ("SSRF check: DNS resolution failed for "
                                           +:+ Quote hostname +:+ ": ") e))
               | Ok addrs => Ret (checkAddrs hostname addrs blockedCIDRs)
               end
           end
  end.

Lemma checkAddrs_ok hostname addrs l :
  checkAddrs hostname addrs l = Ok tt ↔ ∀ ip, ip ∈ addrs → (isBlockedIP ip l).1 = false.
Proof.
  induction addrs as [|ip addrs IH]; simpl.
  - split; [intros _ x Hx; by apply not_elem_of_nil in Hx|done].
  - destruct (isBlockedIP ip l) as [[] c] eqn:Hb; simpl; split; intros Ha.
    + done.
    + specialize (Ha ip ltac:(by left)). by rewrite Hb in Ha.
    + intros x [->|Hx]%elem_of_cons; [by rewrite Hb|]. by apply IH.
    + apply IH. intros x Hx. apply Ha. by right.
Qed.

End ctl.

Lemma ctl_default_list_parses : parseCIDRs SSRFBlockedCIDRs = Some defaultSSRFBlockedCIDRs.
Proof. vm_compute. reflexivity. Qed.


(** ** Properties *)

(** The IPv4 ranges the default list stands for. *)
Definition v4_blocked (a b : Z) : bool :=
  ((a =? 10) || ((a =? 172) && (16 <=? b) && (b <=? 31)) || ((a =? 192) && (b =? 168))
   || (a =? 127) || ((a =? 169) && (b =? 254)) || (a =? 0)
   || ((a =? 100) && (64 <=? b) && (b <=? 127)))%Z.

(** The IPv6 ranges: loopback, link-local (fe80::/10) and unique local (fc00::/7). *)
Definition v6_blocked (ip : IP) : Prop :=
  ip = [0;0;0;0;0;0;0;0;0;0;0;0;0;0;0;1]%Z ∨
  ∃ a b l, ip = a :: b :: l ∧ ((a = 252 ∨ a = 253) ∨ a = 254 ∧ 128 ≤ b < 192)%Z.

(** An address no HTTP step may reach, in whichever form it is written. *)
Definition reserved (ip : IP) : Prop :=
  (∃ a b c d, canonical ip [a; b; c; d] ∧ v4_blocked a b = true) ∨
  (length ip = 16 ∧ v6_blocked ip).

Definition octets (ip : IP) : Prop := Forall (λ x, 0 ≤ x < 256)%Z ip.

(** A name inside the cluster. *)
Definition cluster_name (host : string) : Prop :=
  ∃ p, host = p +:+ ".svc.cluster.local" ∨ host = p +:+ ".svc.cluster.local.".

Section ctl_props.
  Context `{NetLib}.

Lemma default_v4_low_bytes a b c d :
  (isBlockedIP [a; b; c; d] defaultSSRFBlockedCIDRs).1
  = (isBlockedIP [a; b; 0%Z; 0%Z] defaultSSRFBlockedCIDRs).1.
Proof.
  unfold isBlockedIP, defaultSSRFBlockedCIDRs, IPNet_Contains. cbn -[Z.land].
  by rewrite !Z.land_0_r.
Qed.

Lemma default_v4_table :
  forallb (λ a, forallb (λ b,
    eqb (isBlockedIP [a; b; 0%Z; 0%Z] defaultSSRFBlockedCIDRs).1 (v4_blocked a b))
    (seqZ 0 256)) (seqZ 0 256) = true.
Proof. vm_compute. reflexivity. Qed.

Lemma byte_in_seqZ x : (0 ≤ x < 256)%Z → In x (seqZ 0 256).
Proof. intros Hx. apply list_elem_of_In, elem_of_seqZ. lia. Qed.

(** The default list blocks exactly the private, loopback, link-local,
    unspecified and shared IPv4 ranges, whether the address is given in its
    4-byte or in its IPv4-mapped 16-byte form. *)
Theorem default_blocklist_v4 a b c d :
  (0 ≤ a < 256)%Z → (0 ≤ b < 256)%Z →
  (isBlockedIP [a; b; c; d] defaultSSRFBlockedCIDRs).1 = v4_blocked a b ∧
  (isBlockedIP (v4InV6Prefix ++ [a; b; c; d]) defaultSSRFBlockedCIDRs).1 = v4_blocked a b.
Proof.
  intros Ha Hb. rewrite isBlockedIP_mapped.
  assert ((isBlockedIP [a; b; c; d] defaultSSRFBlockedCIDRs).1 = v4_blocked a b); [|done].
  rewrite default_v4_low_bytes. pose proof default_v4_table as Ht.
  rewrite forallb_forall in Ht. specialize (Ht a (byte_in_seqZ a Ha)).
  rewrite forallb_forall in Ht. specialize (Ht b (byte_in_seqZ b Hb)).
  by apply eqb_prop in Ht.
Qed.

Lemma default_v6_loopback : ∃ n, n ∈ defaultSSRFBlockedCIDRs ∧ IPNet_Contains n [0;0;0;0;0;0;0;0;0;0;0;0;0;0;0;1]%Z = true.
Proof. eexists. split; [do 6 right; by left|]. reflexivity. Qed.

Lemma link_local_byte b : (128 ≤ b < 192)%Z → Z.land b 192 = 128%Z.
Proof.
  intros Hb. assert (forallb (λ x, Z.land x 192 =? 128)%Z (seqZ 128 64) = true) as Ht by done.
  rewrite forallb_forall in Ht. apply Z.eqb_eq, Ht, list_elem_of_In, elem_of_seqZ. lia.
Qed.

Lemma Contains_v6 x ip y nn m :
  length ip = 15 → length nn = 15 → length m = 16 → x ≠ 0%Z → y ≠ 0%Z →
  IPNet_Contains (MkIPNet (y :: nn) m) (x :: ip) = bool_decide (mask_bytes (y :: nn) m = mask_bytes (x :: ip) m).
Proof.
  intros Hip Hnn Hm Hx Hy.
  assert (∀ z l, length l = 15 → z ≠ 0%Z → To4 (z :: l) = None) as Hto.
  { intros z l Hl Hz. unfold To4. cbn [length]. rewrite Hl. cbn -[v4InV6Prefix].
    rewrite bool_decide_false; [done|]. by intros [=]. }
  unfold IPNet_Contains, networkNumberAndMask. cbn [net_IP net_Mask]. rewrite !Hto by done.
  cbn [length]. rewrite Hnn, Hm. change (S 15 =? 4)%nat with false. change (S 15 =? 16)%nat with true.
  change (16 =? S 15)%nat with true. cbn [negb orb length]. rewrite Hip, Hnn. reflexivity.
Qed.

Lemma default_blocks_v6 ip :
  length ip = 16 → v6_blocked ip → ∃ n, n ∈ defaultSSRFBlockedCIDRs ∧ IPNet_Contains n ip = true.
Proof.
  intros Hl [->|(a & b & l & -> & Hab)]; [apply default_v6_loopback|].
  do 14 (destruct l as [|? l]; [done|]). destruct l; [|done]. destruct Hab as [[->| ->]|[-> Hb]].
  - eexists. split; [do 8 right; by left|]. rewrite Contains_v6 by done. apply bool_decide_eq_true. cbn -[Z.land]. by rewrite ?Z.land_0_r.
  - eexists. split; [do 8 right; by left|]. rewrite Contains_v6 by done. apply bool_decide_eq_true. cbn -[Z.land]. by rewrite ?Z.land_0_r.
  - eexists. split; [do 7 right; by left|]. rewrite Contains_v6 by done. apply bool_decide_eq_true. cbn -[Z.land].
    rewrite (link_local_byte b Hb). by rewrite ?Z.land_0_r.
Qed.

(** Whatever list extends the default one keeps the reserved ranges out. *)
Lemma outside_reserved (l : list IPNet) ip :
  (∀ n, n ∈ defaultSSRFBlockedCIDRs → n ∈ l) → (∀ n, n ∈ l → IPNet_Contains n ip = false) →
  octets ip → ¬ reserved ip.
Proof.
  intros Hsub Hout Ho [(a & b & c & d & Hc & Hv)|[Hl Hv]].
  - assert ((isBlockedIP ip defaultSSRFBlockedCIDRs).1 = false) as Hb by (apply isBlockedIP_false; auto).
    inversion Hc; subst; [| |done].
    + inversion Ho as [|? ? Ha Ho']; subst. inversion Ho' as [|? ? Hb' _]; subst.
      destruct (default_blocklist_v4 a b c d Ha Hb') as [H1 _]. congruence.
    + apply Forall_app in Ho as [_ Ho]. inversion Ho as [|? ? Ha Ho']; subst. inversion Ho' as [|? ? Hb' _]; subst.
      destruct (default_blocklist_v4 a b c d Ha Hb') as [_ H1]. congruence.
  - destruct (default_blocks_v6 ip Hl Hv) as (n & Hn & Hc). rewrite Hout in Hc by auto. done.
Qed.

Lemma parseExtra_entries flag parts acc l raw n :
  parseExtra flag parts acc = Ok l → raw ∈ parts → ParseCIDR (TrimSpace raw) = Some n → n ∈ l.
Proof.
  revert acc. induction parts as [|p parts IH]; simpl; intros acc Hl Hin Hn; [by apply not_elem_of_nil in Hin|].
  destruct (String.eqb_spec (TrimSpace p) "") as [He|He]; [|destruct (ParseCIDR (TrimSpace p)) as [m|] eqn:Hm; [|done]].
  - apply elem_of_cons in Hin as [->|Hin]; [|by eapply IH]. by rewrite He in Hn.
  - apply elem_of_cons in Hin as [->|Hin]; [|by eapply IH]. apply parseExtra_extends in Hl as [l' ->].
    rewrite Hm in Hn. simplify_eq. apply elem_of_app. left. apply elem_of_app. right. by left.
Qed.

(** The list in force: the defaults and every configured entry. *)
Definition in_force (extra : string) (blocked : option (list IPNet)) : Prop :=
  match blocked with None => extra = "" | Some l => ParseCIDRList extra = Ok l end.

Lemma in_force_default extra blocked n :
  in_force extra blocked → n ∈ defaultSSRFBlockedCIDRs → n ∈ default defaultSSRFBlockedCIDRs blocked.
Proof.
  destruct blocked as [l|]; simpl; [|done]. unfold ParseCIDRList. destruct (_ =? ""); [by intros [= ->]|].
  intros [l' ->]%parseExtra_extends Hn. apply elem_of_app. by left.
Qed.

Lemma blank_no_comma s : TrimSpace s = "" → split_char "," s = [s].
Proof.
  unfold TrimSpace. intros Ht.
  assert (trim_left_by is_space s = "") as Hl.
  { induction s as [|c s IH]; simpl in *; [done|]. destruct (is_space c) eqn:Hc; [by apply IH|]. simpl in Ht.
    destruct (trim_right_by is_space s); [by rewrite Hc in Ht|done]. }
  clear Ht. induction s as [|c s IH]; simpl in *; [done|]. destruct (is_space c) eqn:Hc; [|done].
  destruct (Ascii.eqb_spec c ",") as [->|_]; [done|]. by rewrite IH.
Qed.

Lemma in_force_entry extra blocked raw n :
  in_force extra blocked → raw ∈ split_char "," extra → ParseCIDR (TrimSpace raw) = Some n →
  n ∈ default defaultSSRFBlockedCIDRs blocked.
Proof.
  destruct blocked as [l|]; simpl; [|intros -> ->%list_elem_of_singleton; done]. unfold ParseCIDRList.
  destruct (String.eqb_spec (TrimSpace extra) "") as [He|He]; [|intros; by eapply parseExtra_entries].
  intros _. rewrite (blank_no_comma _ He). intros ->%list_elem_of_singleton Hn. by rewrite He in Hn.
Qed.

Lemma isClusterInternal_name host : isClusterInternal host = true ↔ cluster_name host.
Proof.
  unfold isClusterInternal, cluster_name. rewrite orb_true_iff, !HasSuffix_spec. naive_solver.
Qed.


(** The flag only adds ranges: what the default list blocks stays blocked. *)
Theorem ParseCIDRList_never_weakens extra l ip :
  ParseCIDRList extra = Ok l →
  (isBlockedIP ip defaultSSRFBlockedCIDRs).1 = true → (isBlockedIP ip l).1 = true.
Proof.
  unfold ParseCIDRList. destruct (_ =? ""); intros Hl Hb; [by simplify_eq|].
  apply parseExtra_extends in Hl as [l' ->]. by rewrite isBlockedIP_app, Hb.
Qed.

End ctl_props.
