(* ===== verification/Kube.v ===== *)
(** * The environment of the controllers

    The libraries the controllers call that are not part of the repository
    (classes [KubeLib], [CelLib], [HttpLib]) and the requests the FlowRun
    controller makes of the API server, the clock, the network, the message
    brokers and its own shared caches ([Ev]). *)

From S2P Require Import Prelude GoStd Api Net Effects Interp.

Local Open Scope string_scope.
Local Open Scope list_scope.

(** [k8s.io/apimachinery/pkg/api/meta.SetStatusCondition]; the first argument
    is the clock reading it takes for a status that changed. *)
Class KubeLib := {
  SetStatusCondition : Z → list Condition → Condition → list Condition
}.

Definition find_condition (t : string) (l : list Condition) : option Condition :=
  find_by (λ c, (c_Type c =? t)) l.

(** Its documented behaviour: afterwards the condition of that type is the new
    one (up to the transition time), and the others are unchanged. *)
Class KubeLibLaws `{KubeLib} : Prop := {
  SetStatusCondition_same now l c :
    ∃ t, find_condition (c_Type c) (SetStatusCondition now l c)
         = Some (MkCondition (c_Type c) (c_Status c) (c_Reason c) (c_Message c) t
                   (c_ObservedGeneration c));
  SetStatusCondition_other now l c t :
    t ≠ c_Type c → find_condition t (SetStatusCondition now l c) = find_condition t l
}.

(** ** CEL *)

(** The activation built by [evaluateWhen]: the variables [trigger], [steps]
    and [params]. *)
Record TriggerAct `{GoLib} := MkTriggerAct {
  ta_body : string;
  ta_bodyFields : jval f64;
  ta_topic : string;
  ta_partition : string;
  ta_offset : string;
  ta_key : string;
  ta_keyEncoding : string;
  ta_scheduledTime : string;
  ta_headers : gmap string string
}.
Arguments MkTriggerAct {_} _ _ _ _ _ _ _ _ _.

Record StepAct := MkStepAct { sa_results : gmap string string; sa_status : StepPhase }.

Record Activation `{GoLib} := MkActivation {
  act_trigger : TriggerAct;
  act_steps : gmap string StepAct;
  act_params : gmap string string
}.
Arguments MkActivation {_} _ _ _.

Inductive CelVal := CelBool (b : bool) | CelOther (shown : string).

Class CelLib `{GoLib} := {
  cel_Ast : Type;
  cel_Prog : Type;
  cel_Compile : string → result cel_Ast;
  cel_Program : cel_Ast → option Z → result cel_Prog;
  cel_Eval : cel_Prog → Activation → result CelVal
}.

(** ** JSON envelopes, request construction, hashing *)
Class HttpLib := {
  MarshalExecuteRequest : ExecuteRequest → result string;
  DecodeExecuteResponse : string → result ExecuteResponse;
  (** The error of [http.NewRequestWithContext] on a URL, if any. *)
  NewRequestError : string → option gerr;
  (** [failure.Error] and [success.MessageID] of a publish response body. *)
  DecodePublishFailure : string → option string;
  DecodePublishSuccess : string → option string;
  MarshalEnvelope : string → string → string → gmap string string → string → string → result string;
  sha256_hex : string → string;
  base64_std : string → string;
  AppendCertsFromPEM : string → bool
}.

(** ** Kafka producers *)

Definition Producer := nat.

Inductive SASLMechanism := SASLPlain | SASLScramSHA256 | SASLScramSHA512.

Record KafkaConfig := MkKafkaConfig {
  kc_TLS : option (bool * option string);
  kc_SASL : option (string * string * SASLMechanism)
}.

(** [None] is the nil map. *)
Record ProducerCache := MkProducerCache {
  kafkaProducers : option (gmap string Producer);
  kafkaProducerLastUsed : option (gmap string Z)
}.

Section ev.
  Context `{CelLib}.

(** ** Requests *)
Inductive Ev : Type → Type :=
  | EvNow : Ev Z
  | EvGetFlowRun (ns name : string) : Ev (result FlowRun)
  | EvGetFlow (ns name : string) : Ev (result Flow)
  | EvGetTrigger (ns name : string) : Ev (result Trigger)
  | EvGetIntegration (ns name : string) : Ev (result Integration)
  | EvGetSecret (ns name : string) : Ev (result (gmap string string))
  | EvGetConfigMap (ns name : string) : Ev (result (gmap string string))
  | EvListFlowRuns (ns : option string) (labels : gmap string string) : Ev (result (list FlowRun))
  (** A successful [Update] or [Status().Update] fills the argument with the
      object the server returns. *)
  | EvUpdateFlowRun (fr : FlowRun) : Ev (result FlowRun)
  | EvStatusUpdateFlowRun (fr : FlowRun) : Ev (result FlowRun)
  | EvDeleteFlowRun (fr : FlowRun) : Ev (result unit)
  | EvStatusUpdateFlow (fl : Flow) : Ev (result Flow)
  | EvLookupIP (host : string) : Ev (result (list IP))
  (** [select] on the context and [time.After(d)]: the context error when the
      context is done first. *)
  | EvSleep (d : Z) : Ev (option gerr)
  (** [httpClient.Do]: status code and response body. *)
  | EvExecutorDo (url body : string) (mtls : bool) : Ev (result (Z * string))
  | EvPluginDo (url body : string) (mtls : bool) : Ev (result (Z * string))
  (** [PluginMTLSStore.ClientTLSConfigFor(ns, name) != nil] *)
  | EvPluginTLS (ns name : string) : Ev bool
  (** The per-reconcile Integration cache shared by the step goroutines. *)
  | EvIntegCacheLoad (key : string) : Ev (option Integration)
  | EvIntegCacheStore (key : string) (i : Integration) : Ev unit
  | EvCelLoad (expr : string) : Ev (option cel_Prog)
  | EvCelStore (expr : string) (p : cel_Prog) : Ev unit
  (** Lock [kafkaProducersMu] and read, write and unlock. *)
  | EvProducersLock : Ev ProducerCache
  | EvProducersUnlock (c : ProducerCache) : Ev unit
  | EvNewSyncProducer (servers : list string) (cfg : KafkaConfig) : Ev (result Producer)
  | EvSendMessage (p : Producer) (topic body : string) (headers : gmap string string) : Ev (result (Z * Z))
  | EvCloseProducer (p : Producer) : Ev unit.

Definition ProgK := Prog Ev.

Definition now : Prog Ev Z := emit EvNow.

End ev.

(** ** [ctrl.Result] and the returned error *)
Record Result := MkResultR { Requeue : bool; RequeueAfter : Z }.

#[global] Instance Result_eq_dec : EqDecision Result.
Proof. solve_decision. Defined.

Definition done_ok : Result * option gerr := (MkResultR false 0, None).
Definition done_err (e : gerr) : Result * option gerr := (MkResultR false 0, Some e).
Definition requeue_now : Result * option gerr := (MkResultR true 0, None).
Definition requeue_after (d : Z) : Result * option gerr := (MkResultR false d, None).

(** [client.IgnoreNotFound] *)
Definition ignoreNotFound (e : gerr) : Result * option gerr :=
  match ekind_of e with EKNotFound => done_ok | _ => done_err e end.

Definition isNotFound (e : gerr) : bool := bool_decide (ekind_of e = EKNotFound).

(** ** String lists ([containsString], [removeString]) *)
Fixpoint containsString (slice : list string) (s : string) : bool :=
  match slice with
  | [] => false
  | item :: slice => if (item =? s) then true else containsString slice s
  end.

Fixpoint removeString (slice : list string) (s : string) : list string :=
  match slice with
  | [] => []
  | item :: slice => if negb (item =? s) then item :: removeString slice s else removeString slice s
  end.

Lemma containsString_spec l s : containsString l s = true ↔ s ∈ l.
Proof.
  induction l as [|x l IH]; simpl.
  - split; [done|]. intros Hs. by apply not_elem_of_nil in Hs.
  - destruct (String.eqb_spec x s) as [->|Hne]; split; intros Hs; try done.
    + by left.
    + right. by apply IH.
    + apply elem_of_cons in Hs as [->|Hs]; [done|]. by apply IH.
Qed.

Lemma removeString_spec l s x : x ∈ removeString l s ↔ x ∈ l ∧ x ≠ s.
Proof.
  induction l as [|y l IH]; simpl.
  - split; [intros Hx|intros [Hx _]]; by apply not_elem_of_nil in Hx.
  - destruct (String.eqb_spec y s) as [->|Hne]; simpl; rewrite ?elem_of_cons, IH; naive_solver.
Qed.
