(* ===== verification/KObjects.v ===== *)
(** * Cluster objects written by the controllers

    The fields of the Kubernetes objects that [internal/controller] sets, and
    controller-runtime's [CreateOrUpdate] and [SetControllerReference] over
    them.  [Obj K] is the type of objects of kind [K]. *)

From S2P Require Import Prelude GoStd Api Effects Kube.

Local Open Scope string_scope.
Local Open Scope list_scope.
Local Open Scope go_scope.

(** ** Metadata and kinds *)

(** [k_Owner] is the controller owner reference; an object that is not in the
    cluster has an empty resource version. *)
Record KMeta := MkKMeta {
  k_Name : string;
  k_Namespace : string;
  k_Labels : gmap string string;
  k_Owner : option string;
  k_ResourceVersion : string
}.

Record PolicyRule := MkRule { pr_APIGroups : list string; pr_Resources : list string; pr_Verbs : list string }.
Record RoleRef := MkRoleRef { rr_APIGroup : string; rr_Kind : string; rr_Name : string }.
Record Subject := MkSubject { sj_Kind : string; sj_Name : string; sj_Namespace : string }.
Record RoleBindingBody := MkBinding { rb_RoleRef : RoleRef; rb_Subjects : list Subject }.

Record ContainerPort := MkPort { cp_Name : string; cp_ContainerPort : Z }.
Record VolumeMount := MkMount { vm_Name : string; vm_MountPath : string; vm_ReadOnly : bool }.
(** A volume backed by a Secret. *)
Record Volume := MkVolume { vo_Name : string; vo_SecretName : string }.
(** [sc_DropAll] drops all capabilities, [sc_Seccomp] is the runtime's default
    profile. *)
Record SecurityContext := MkSecurity {
  sc_RunAsNonRoot : bool;
  sc_ReadOnlyRootFilesystem : bool;
  sc_AllowPrivilegeEscalation : bool;
  sc_RunAsUser : option Z;
  sc_DropAll : bool;
  sc_Seccomp : bool
}.
(** CPU and memory, as quantities. *)
Record Resources := MkResources {
  rq_RequestCPU : string; rq_RequestMemory : string; rq_LimitCPU : string; rq_LimitMemory : string }.
Record Probe := MkProbe {
  pb_Path : string; pb_Port : Z; pb_Scheme : string; pb_InitialDelay : Z; pb_Period : Z; pb_FailureThreshold : Z }.

Record Container := MkContainer {
  ct_Name : string;
  ct_Image : string;
  ct_ImagePullPolicy : string;
  ct_Args : list string;
  ct_Env : list EnvVar;
  ct_Ports : list ContainerPort;
  ct_VolumeMounts : list VolumeMount;
  ct_Security : SecurityContext;
  ct_Resources : option Resources;
  ct_Liveness : option Probe;
  ct_Readiness : option Probe
}.

Record PodSpec := MkPodSpec {
  po_ServiceAccountName : string;
  po_AutomountServiceAccountToken : option bool;
  po_RunAsNonRoot : bool;
  po_Volumes : list Volume;
  po_Containers : list Container
}.

(** [d_AvailableReplicas] is the status field. *)
Record DeploymentBody := MkDeployment {
  d_Replicas : Z;
  d_Selector : gmap string string;
  d_TemplateLabels : gmap string string;
  d_Pod : PodSpec;
  d_AvailableReplicas : Z
}.

Record ServicePort := MkServicePort { sp_Name : string; sp_Port : Z; sp_TargetPort : Z }.
Record ServiceBody := MkService {
  sv_Selector : gmap string string; sv_Ports : list ServicePort; sv_ClusterIP : string }.
Record SecretBody := MkSecretBody { se_Type : string; se_Data : gmap string string }.

(** A HorizontalPodAutoscaler on the CPU utilisation of a Deployment. *)
Record HPABody := MkHPA { hp_Target : string; hp_MinReplicas : Z; hp_MaxReplicas : Z; hp_CPUUtilization : Z }.

(** [intstr.IntOrString] *)
Inductive IntOrString := IntVal (n : Z) | StrVal (s : string).

Record PDBBody := MkPDB { pd_MinAvailable : IntOrString; pd_Selector : gmap string string }.

(** Peers of a NetworkPolicy: pods of selected namespaces, or addresses. *)
Inductive NetPeer :=
  | PeerPods (pods namespaces : gmap string string)
  | PeerIPBlock (cidr : string) (except : list string).
Record NetPort := MkNetPort { np_Protocol : string; np_Port : Z }.
(** No peers is any peer, no ports is any port. *)
Record NetRule := MkNetRule { nr_Peers : list NetPeer; nr_Ports : list NetPort }.
Record NetworkPolicyBody := MkNetworkPolicy {
  ny_PodSelector : gmap string string; ny_Ingress : list NetRule; ny_Egress : list NetRule; ny_PolicyTypes : list string }.

Inductive Kind := KSA | KRole | KRB | KDep | KSvc | KSec | KHPA | KPDB | KNet.

Definition Body (K : Kind) : Type :=
  match K with
  | KSA => unit
  | KRole => list PolicyRule
  | KRB => RoleBindingBody
  | KDep => DeploymentBody
  | KSvc => ServiceBody
  | KSec => SecretBody
  | KHPA => HPABody
  | KPDB => PDBBody
  | KNet => NetworkPolicyBody
  end.

Record Obj (K : Kind) := MkObj { o_Meta : KMeta; o_Body : Body K }.
Arguments MkObj {_} _ _.
Arguments o_Meta {_} _.
Arguments o_Body {_} _.

Definition newMeta (name ns : string) : KMeta := MkKMeta name ns ∅ None "".
Definition set_Body {K} (b : Body K) (o : Obj K) : Obj K := MkObj (o_Meta o) b.

(** [ctrl.SetControllerReference]: refused when another controller owns the
    object. *)
Definition SetControllerReference {K} (owner : string) (o : Obj K) : result (Obj K) :=
  let m := o_Meta o in
  match k_Owner m with
  | Some o' => if (o' =? owner) then Ok o
               else Err (errorf ("Object " +:+ k_Namespace m +:+ "/" +:+ k_Name m +:+ " is already owned by another controller"))
  | None => Ok (MkObj (MkKMeta (k_Name m) (k_Namespace m) (k_Labels m) (Some owner) (k_ResourceVersion m)) (o_Body o))
  end.

(** ** Requests on cluster objects *)

(** [CUnchanged] is the comparison of an object with what was read. *)
Inductive CEv : Type → Type :=
  | CGet (K : Kind) (ns name : string) : CEv (result (Obj K))
  | CCreate {K} (o : Obj K) : CEv (result unit)
  | CUpdate {K} (o : Obj K) : CEv (result unit)
  | CDelete (K : Kind) (ns name : string) : CEv (result unit)
  | CUnchanged {K} (live o : Obj K) : CEv bool.

(** An error of the mutate function is returned as it is. *)
Inductive CouErr := CouMutate (e : gerr) | CouApi (e : gerr).

Definition couErr (e : CouErr) : gerr := match e with CouMutate e => e | CouApi e => e end.

(** [controllerutil.CreateOrUpdate]: the mutate function works on the object
    given, or on the one in the cluster if there is one. *)
Definition CreateOrUpdate {K} (o : Obj K) (mutate : Obj K → result (Obj K)) : Prog CEv (option CouErr) :=
  let! r := emit (CGet K (k_Namespace (o_Meta o)) (k_Name (o_Meta o))) in
  match r with
  | Err e =>
      if negb (isNotFound e) then Ret (Some (CouApi e))
      else match mutate o with
           | Err e => Ret (Some (CouMutate e))
           | Ok o => let! c := emit (CCreate o) in
                     Ret (match c with Err e => Some (CouApi e) | Ok _ => None end)
           end
  | Ok live =>
      match mutate live with
      | Err e => Ret (Some (CouMutate e))
      | Ok o =>
          let! same := emit (CUnchanged live o) in
          if same : bool then Ret None
          else let! u := emit (CUpdate o) in
               Ret (match u with Err e => Some (CouApi e) | Ok _ => None end)
      end
  end.
