(* ===== verification/FlowCtl.v ===== *)
(** * The Flow controller ([internal/controller/flow_controller.go])

    [validateFlowSpec] and the reconcile loop that publishes its verdict as the
    Ready condition. *)

From S2P Require Import Prelude GoStd Api Effects Interp Kube.

Local Open Scope string_scope.
Local Open Scope list_scope.
Local Open Scope go_scope.

Definition stepActionHTTP : string := "http".
Definition stepActionTransform : string := "transform".
Definition stepActionPublish : string := "publish".
Definition stepActionWait : string := "wait".

Definition conditionTypeReady : string := "Ready".

(** The first loop: duplicate names. *)
Fixpoint checkUnique (steps : list FlowStep) (stepNames : gset string) : result (gset string) :=
  match steps with
  | [] => Ok stepNames
  | step :: steps =>
      if bool_decide (st_Name step ∈ stepNames) then
        Err (errorf ("duplicate step name " +:+ Quote (st_Name step) +:+ ": all step names must be unique"))
      else checkUnique steps ({[st_Name step]} ∪ stepNames)
  end.

Fixpoint checkRunAfter (step : FlowStep) (deps : list string) (stepNames : gset string) : result unit :=
  match deps with
  | [] => Ok tt
  | dep :: deps =>
      if bool_decide (dep ∈ stepNames) then checkRunAfter step deps stepNames
      else Err (errorf ("step " +:+ Quote (st_Name step) +:+ " has runAfter reference to unknown step "
                        +:+ Quote dep))
  end.

(** The [switch] on the action type. *)
Definition checkAction (step : FlowStep) : result unit :=
  let a := st_Action step in
  let err (msg : string) : result unit := Err (errorf ("step " +:+ Quote (st_Name step) +:+ msg)) in
  if (a_Type a =? stepActionHTTP) then
    match a_HTTP a with
    | None => err " has type=http but action.http is not set"
    | Some h => if (h_URL h =? "") && bool_decide (h_IntegrationRef h = None)
                then err " has type=http but action.http.url is empty" else Ok tt
    end
  else if (a_Type a =? stepActionTransform) then Ok tt
  else if (a_Type a =? stepActionPublish) then
    match a_Publish a with
    | None => err " has type=publish but action.publish is not set"
    | Some p =>
        if (p_IntegrationRef p =? "") then err " has type=publish but action.publish.integrationRef.name is empty"
        else if (p_Topic p =? "") then err " has type=publish but action.publish.topic is empty"
        else Ok tt
    end
  else if (a_Type a =? stepActionWait) then
    match a_Wait a with
    | None => err " has type=wait but action.wait is not set"
    | Some w =>
        if (w_Duration w =? "") then err " has type=wait but action.wait.duration is empty"
        else match ParseDuration (w_Duration w) with
             | None => err (" has type=wait but action.wait.duration " +:+ Quote (w_Duration w)
                            +:+ " is not a valid Go duration")
             | Some _ => Ok tt
             end
    end
  else err (" has unknown action type " +:+ Quote (a_Type a)
            +:+ ": must be one of http, transform, publish, wait").

Fixpoint checkSteps (steps : list FlowStep) (stepNames : gset string) : result unit :=
  match steps with
  | [] => Ok tt
  | step :: steps =>
      let? _ := checkRunAfter step (st_RunAfter step) stepNames in
      let? _ := checkAction step in
      checkSteps steps stepNames
  end.

Definition validateFlowSpec (spec : FlowSpec) : result unit :=
  match fs_Steps spec with
  | [] => Err (errorf "spec.steps must contain at least one step")
  | steps => let? stepNames := checkUnique steps ∅ in checkSteps steps stepNames
  end.

Section reconcile.
  Context `{CelLib} `{KubeLib}.

Definition set_Conditions (l : list Condition) (fl : Flow) : Flow :=
  MkFlow (fl_Meta fl) (fl_Spec fl) l.

(** [FlowReconciler.Reconcile] *)
Definition Flow_Reconcile (ns name : string) : Prog Ev (Result * option gerr) :=
  let! r := emit (EvGetFlow ns name) in
  match r with
  | Err e => Ret (ignoreNotFound e)
  | Ok flow =>
      let cond :=
        match validateFlowSpec (fl_Spec flow) with
        | Err err => MkCondition conditionTypeReady ConditionFalse "InvalidSpec" (emsg err) None
                       (m_Generation (fl_Meta flow))
        | Ok _ => MkCondition conditionTypeReady ConditionTrue "FlowReady" "Flow is valid and ready" None
                    (m_Generation (fl_Meta flow))
        end in
      let! t := now in
      let! u := emit (EvStatusUpdateFlow (set_Conditions (SetStatusCondition t (fl_Conditions flow) cond) flow)) in
      match u with
      | Err e => Ret (done_err e)
      | Ok _ => Ret done_ok
      end
  end.

End reconcile.

(** ** What a valid spec is *)

(** The action carries what its type needs. *)
Definition action_wf (a : StepAction) : Prop :=
  (a_Type a = "http" ∧ ∃ h, a_HTTP a = Some h ∧ (h_URL h ≠ "" ∨ h_IntegrationRef h ≠ None)) ∨
  (a_Type a = "transform") ∨
  (a_Type a = "publish" ∧ ∃ p, a_Publish a = Some p ∧ p_IntegrationRef p ≠ "" ∧ p_Topic p ≠ "") ∨
  (a_Type a = "wait" ∧ ∃ w d, a_Wait a = Some w ∧ ParseDuration (w_Duration w) = Some d).

Record flow_wf (spec : FlowSpec) : Prop := {
  wf_nonempty : fs_Steps spec ≠ [];
  wf_unique : NoDup (st_Name <$> fs_Steps spec);
  wf_deps : ∀ step dep, step ∈ fs_Steps spec → dep ∈ st_RunAfter step →
              dep ∈ st_Name <$> fs_Steps spec;
  wf_action : ∀ step, step ∈ fs_Steps spec → action_wf (st_Action step)
}.

Lemma checkUnique_spec steps seen :
  match checkUnique steps seen with
  | Ok names => NoDup (st_Name <$> steps) ∧ (∀ x, x ∈ st_Name <$> steps → x ∉ seen) ∧
                (∀ x, x ∈ names ↔ x ∈ seen ∨ x ∈ st_Name <$> steps)
  | Err _ => ¬ (NoDup (st_Name <$> steps) ∧ (∀ x, x ∈ st_Name <$> steps → x ∉ seen))
  end.
Proof.
  revert seen. induction steps as [|s steps IH]; intros seen; simpl.
  { split; [constructor|]. split; [intros x Hx; by apply not_elem_of_nil in Hx|].
    intros x. split; [by left|]. intros [?|Hx]; [done|]. by apply not_elem_of_nil in Hx. }
  case_bool_decide as Hin.
  { intros [_ Hn]. by eapply (Hn (st_Name s)); [left|]. }
  specialize (IH ({[st_Name s]} ∪ seen)). destruct (checkUnique _ _) as [names|e].
  - destruct IH as (Hnd & Hfr & Hn). split; [|split].
    + apply NoDup_cons. split; [|done]. intros Hx. specialize (Hfr _ Hx). set_solver.
    + intros x [->|Hx]%elem_of_cons; [done|]. specialize (Hfr _ Hx). set_solver.
    + intros x. rewrite Hn, elem_of_cons. set_solver.
  - intros [Hnd Hfr]. apply IH. apply NoDup_cons in Hnd as [Hni Hnd]. split; [done|].
    intros x Hx. specialize (Hfr x ltac:(by right)).
    assert (x ≠ st_Name s) by (intros ->; done). set_solver.
Qed.

Lemma checkRunAfter_spec step deps names :
  is_ok (checkRunAfter step deps names) = true ↔ ∀ d, d ∈ deps → d ∈ names.
Proof.
  induction deps as [|d deps IH]; simpl.
  - split; [|done]. intros _ d Hd. by apply not_elem_of_nil in Hd.
  - case_bool_decide as Hd; simpl.
    + rewrite IH. split; [|by intros Ha x Hx; apply Ha; right].
      intros Ha x [->|Hx]%elem_of_cons; [done|auto].
    + split; [done|]. intros Ha. destruct Hd. apply Ha. by left.
Qed.

Lemma checkAction_spec step : is_ok (checkAction step) = true ↔ action_wf (st_Action step).
Proof.
  unfold checkAction, action_wf, stepActionHTTP, stepActionTransform, stepActionPublish, stepActionWait.
  destruct (st_Action step) as [ty h t p w]; simpl.
  destruct (String.eqb_spec ty "http") as [->|]; [|
  destruct (String.eqb_spec ty "transform") as [->|]; [|
  destruct (String.eqb_spec ty "publish") as [->|]; [|
  destruct (String.eqb_spec ty "wait") as [->|]]]].
  - destruct h as [h|]; [|naive_solver]. destruct (String.eqb_spec (h_URL h) ""); simpl; [|naive_solver].
    case_bool_decide; simpl; naive_solver.
  - naive_solver.
  - destruct p as [p|]; [|naive_solver].
    destruct (String.eqb_spec (p_IntegrationRef p) ""); [naive_solver|].
    destruct (String.eqb_spec (p_Topic p) ""); naive_solver.
  - destruct w as [w|]; [|naive_solver].
    destruct (String.eqb_spec (w_Duration w) "") as [Hw|].
    + split; [done|]. intros [[? _]|[?|[[? _]|(_ & w' & d & [= <-] & Hd)]]]; try done.
      rewrite Hw in Hd. done.
    + destruct (ParseDuration (w_Duration w)) eqn:Hd; naive_solver.
  - naive_solver.
Qed.

Lemma is_ok_bind {A B} (r : result A) (f : A → result B) :
  is_ok (res_bind r f) = true ↔ ∃ a, r = Ok a ∧ is_ok (f a) = true.
Proof. destruct r; simpl; naive_solver. Qed.

Lemma checkSteps_spec steps names :
  is_ok (checkSteps steps names) = true ↔
  ∀ step, step ∈ steps → (∀ d, d ∈ st_RunAfter step → d ∈ names) ∧ action_wf (st_Action step).
Proof.
  induction steps as [|s steps IH]; simpl.
  { split; [|done]. intros _ s Hs. by apply not_elem_of_nil in Hs. }
  transitivity ((∀ d, d ∈ st_RunAfter s → d ∈ names) ∧ action_wf (st_Action s) ∧
    ∀ step, step ∈ steps → (∀ d, d ∈ st_RunAfter step → d ∈ names) ∧ action_wf (st_Action step)).
  - rewrite <- (checkRunAfter_spec s), <- (checkAction_spec s), <- IH.
    destruct (checkRunAfter _ _ _), (checkAction s); simpl; naive_solver.
  - split; [intros (? & ? & ?) x [->|]%elem_of_cons; auto|].
    intros Ha. destruct (Ha s ltac:(by left)). repeat split; auto; apply Ha; by right.
Qed.

Lemma validateFlowSpec_iff spec :
  is_ok (validateFlowSpec spec) = true ↔ flow_wf spec.
Proof.
  unfold validateFlowSpec. pose proof (checkUnique_spec (fs_Steps spec) ∅) as Hu.
  destruct (fs_Steps spec) as [|s l] eqn:Hs.
  { split; [done|]. intros []. congruence. }
  rewrite <- Hs in *. rewrite is_ok_bind.
  destruct (checkUnique (fs_Steps spec) ∅) as [names|e].
  - destruct Hu as (Hnd & _ & Hn). setoid_rewrite checkSteps_spec. split.
    + intros (? & [= <-] & Ha). split; [by rewrite Hs|done| |].
      * intros step dep Hin Hd. destruct (Ha step Hin) as [Hd' _].
        specialize (Hd' dep Hd). rewrite Hn in Hd'. set_solver.
      * intros step Hin. by apply Ha.
    + intros []. exists names. split; [done|]. intros step Hin. split; [|eauto].
      intros d Hd. apply Hn. right. eauto.
  - split; [intros (? & ? & _); done|]. intros []. destruct Hu. split; [done|]. set_solver.
Qed.

(** Validation accepts exactly the well-formed specs: at least one step,
    unique step names, [runAfter] references to declared steps, and an action
    with the fields its type needs. *)
Theorem validateFlowSpec_correct spec :
  is_ok (validateFlowSpec spec) = true ↔ flow_wf spec.
Proof. apply validateFlowSpec_iff. Qed.

Section ready.
  Context `{CelLib} `{KubeLibLaws}.

Definition ready_verdict (flow : Flow) (c : Condition) : Prop :=
  (c_Status c = ConditionTrue ↔ flow_wf (fl_Spec flow)) ∧
  (c_Status c = ConditionFalse ↔ ¬ flow_wf (fl_Spec flow)).

(** Environment: the Flow stored under the requested name is [flow]; the
    status update is checked.  The ghost state tells whether the Flow was read
    and whether a status was published since. *)
Inductive progress := NotRead | FlowRead | Published.

Definition flow_spec (flow : Flow) : Spec Ev progress := λ X e s Q,
  match e in Ev X return (X → progress → Prop) → Prop with
  | EvGetFlow _ _ => λ Q, Q (Ok flow) FlowRead ∧ ∀ err, Q (Err err) s
  | EvStatusUpdateFlow fl => λ Q,
      fl_Spec fl = fl_Spec flow ∧ fl_Meta fl = fl_Meta flow ∧
      (∃ c, find_condition "Ready" (fl_Conditions fl) = Some c ∧ ready_verdict flow c) ∧
      (∀ t, t ≠ "Ready" → find_condition t (fl_Conditions fl) = find_condition t (fl_Conditions flow)) ∧
      ∀ r, Q r Published
  | EvNow => λ Q, ∀ t, Q t s
  | _ => λ _, False
  end Q.

(** When a Flow exists, the reconciler publishes Ready=True exactly for the
    well-formed specs, on the object it read, and leaves every other condition
    alone. *)
Theorem Flow_Reconcile_ready flow ns name :
  wp (flow_spec flow) (Flow_Reconcile ns name) NotRead (λ _ s, s ≠ FlowRead).
Proof.
  unfold Flow_Reconcile. simpl. split.
  2: { intros err. unfold ignoreNotFound. by destruct (ekind_of err). }
  intros t. match goal with |- context [SetStatusCondition _ _ ?x] => set (c := x) end.
  assert (c_Type c = "Ready") as Hty by (subst c; by destruct (validateFlowSpec _)).
  pose proof (validateFlowSpec_iff (fl_Spec flow)) as Hv.
  destruct (SetStatusCondition_same t (fl_Conditions flow) c) as [t' Hc].
  repeat split; simpl.
  - rewrite Hty in Hc. eexists. split; [exact Hc|]. unfold ready_verdict. simpl.
    subst c. destruct (validateFlowSpec _); simpl in *; naive_solver.
  - intros ty Hne. apply SetStatusCondition_other. by rewrite Hty.
  - by intros [].
Qed.

End ready.
