(* ===== verification/IntegrationCtl.v ===== *)
(** * The Integration controller

    [internal/controller/integration_controller.go], with
    [otelPassthroughEnv] of [otel_env.go] and the plugin certificate store of
    [plugin_mtls.go].  The process environment is the argument [env]; the order
    in which Go visits a map is an answer of the environment ([IMapOrder],
    [IPairOrder]); certificate generation is [IGenerateCA] and [IIssueLeaf]. *)

From S2P Require Import Prelude GoStd Api Effects Interp Kube KObjects FlowCtl.

Local Open Scope string_scope.
Local Open Scope list_scope.
Local Open Scope go_scope.

(** ** Constants *)

Definition typeKafka : string := "kafka".
Definition typeHTTP : string := "http".
Definition typePlugin : string := "plugin".
Definition sharedGatewayServiceAccountName : string := "kubezap-gateway".
Definition apiGroupAutomation : string := "automation.kubezap.io".
Definition apiGroupRBAC : string := "rbac.authorization.k8s.io".
Definition kindRole : string := "Role".
Definition kindServiceAccount : string := "ServiceAccount".
Definition healthzPath : string := "/healthz".
Definition kafkaGatewayMetricsPort : Z := 9090.
Definition defaultPluginMTLSHealthPort : Z := 8091.
Definition pluginMTLSMountPath : string := "/etc/kubezap/mtls".
Definition pluginMTLSVolumeName : string := "mtls-certs".
Definition pluginMTLSRecheckInterval : Z := 5 * Minute.

(** ** Plugin certificates *)

(** A certificate and its key, in PEM; [ServerKeyPEM] is empty on failure. *)
Record Leaf := MkLeaf { lf_Cert : string; lf_Key : string }.

Record PluginMTLSBundle := MkPluginBundle {
  pmb_CACert : string;
  pmb_ServerCert : Leaf;
  pmb_ClientCert : Leaf;
  pmb_ExpiresAt : Z
}.

(** ** KEDA *)

Record kafkaTopicCGPair := MkPair { pp_topic : string; pp_cg : string }.

#[global] Instance kafkaTopicCGPair_eq_dec : EqDecision kafkaTopicCGPair.
Proof. solve_decision. Defined.
#[global] Instance kafkaTopicCGPair_countable : Countable kafkaTopicCGPair.
Proof.
  refine (inj_countable' (λ p, (pp_topic p, pp_cg p)) (λ x, MkPair x.1 x.2) _). by intros [].
Qed.

Record KedaTrigger := MkKeda {
  ke_bootstrapServers : string; ke_consumerGroup : string; ke_topic : string; ke_lagThreshold : string }.

Record ScaledObject := MkScaled {
  so_Name : string;
  so_Namespace : string;
  so_Owner : string;
  so_TargetName : string;
  so_Min : Z;
  so_Max : Z;
  so_Triggers : list KedaTrigger;
  so_ResourceVersion : string
}.

Inductive IEv : Type → Type :=
  | ICluster {X} (e : CEv X) : IEv X
  | INow : IEv Z
  | IGetIntegration (ns name : string) : IEv (result Integration)
  | IStatusUpdate (i : Integration) : IEv (result unit)
  | IListTriggers (ns : string) : IEv (result (list Trigger))
  | IMapOrder (m : gmap string string) : IEv (list (string * string))
  | IPairOrder (s : gset kafkaTopicCGPair) : IEv (list kafkaTopicCGPair)
  | IStoreLoad (key : string) : IEv (option PluginMTLSBundle)
  | IStoreSet (key : string) (b : PluginMTLSBundle) : IEv unit
  | IStoreRemove (key : string) : IEv unit
  (** The CA with its key; a certificate issued by it. *)
  | IGenerateCA (commonName : string) (notBefore notAfter : Z) : IEv (result Leaf)
  | IIssueLeaf (ca : Leaf) (commonName : string) (dnsNames : list string) (server : bool) (notBefore notAfter : Z)
      : IEv (result Leaf)
  (** The resource version of a ScaledObject. *)
  | IGetScaled (ns name : string) : IEv (result string)
  | ICreateScaled (o : ScaledObject) : IEv (result unit)
  | IUpdateScaled (o : ScaledObject) : IEv (result unit).

Fixpoint onCluster {A} (p : Prog CEv A) : Prog IEv A :=
  match p with
  | Ret a => Ret a
  | Vis e k => Vis (ICluster e) (λ x, onCluster (k x))
  end.

(** ** Validation *)

Definition validateIntegrationSpec (spec : IntegrationSpec) : option gerr :=
  let err (msg : string) := Some (errorf msg) in
  if (is_Type spec =? typeKafka) then
    match is_Kafka spec with
    | None => err "spec.kafka must be set when type=kafka"
    | Some k => match ki_BootstrapServers k with
                | [] => err "spec.kafka.bootstrapServers must be non-empty when type=kafka"
                | _ => None
                end
    end
  else if (is_Type spec =? "amqp") then
    match is_Amqp spec with
    | None => err "spec.amqp must be set when type=amqp"
    | Some a => if (ai_URL a =? "") then err "spec.amqp.url must be non-empty" else None
    end
  else if (is_Type spec =? "nats") then
    match is_Nats spec with
    | None => err "spec.nats must be set when type=nats"
    | Some n => match ni_Servers n with [] => err "spec.nats.servers must be non-empty" | _ => None end
    end
  else if (is_Type spec =? typeHTTP) then
    match is_HTTP spec with None => err "spec.http must be set when type=http" | Some _ => None end
  else if (is_Type spec =? typePlugin) then
    match is_Plugin spec with
    | None => err "spec.plugin must be set when type=plugin"
    | Some p => if (pi_Image p =? "") then err "spec.plugin.image must be non-empty when type=plugin" else None
    end
  else err ("unknown integration type " +:+ Quote (is_Type spec)).

(** ** Names and small helpers *)

Definition in_ns (i : Integration) : string := m_Namespace (in_Meta i).
Definition in_name (i : Integration) : string := m_Name (in_Meta i).
Definition in_owner (i : Integration) : string := m_UID (in_Meta i).

Definition pluginMTLSSecretName (integrationName : string) : string := "kubezap-plugin-" +:+ integrationName +:+ "-mtls".
Definition pluginMTLSStoreKey (ns name : string) : string := ns +:+ "/" +:+ name.

Definition pluginImageRef (plugin : PluginIntegrationSpec) : string :=
  if negb (pi_ImageDigest plugin =? "") then pi_Image plugin +:+ "@sha256:" +:+ pi_ImageDigest plugin else pi_Image plugin.

Definition otelPassthroughEnv (env : string → string) : list EnvVar :=
  let pass (n : string) := if negb (env n =? "") then [MkEnvVar n (env n) None] else [] in
  pass "OTEL_EXPORTER_OTLP_ENDPOINT" ++ pass "OTEL_TRACES_SAMPLER_ARG".

Definition hardened : SecurityContext := MkSecurity true true false None false false.

(** ** RBAC *)

Definition pluginRules : list PolicyRule :=
  [MkRule [apiGroupAutomation] ["triggers"] ["get"; "list"; "watch"];
   MkRule [apiGroupAutomation] ["flowruns"] ["get"; "list"; "create"; "update"; "patch"]].

(** The rules of the kafka, amqp and nats gateways. *)
Definition gatewayRules : list PolicyRule :=
  [MkRule [apiGroupAutomation] ["triggers"] ["get"; "list"; "watch"];
   MkRule [apiGroupAutomation] ["integrations"] ["get"; "list"; "watch"];
   MkRule [apiGroupAutomation] ["flowruns"] ["create"];
   MkRule [""] ["secrets"] ["get"; "list"; "watch"];
   MkRule [""] ["events"] ["create"]].

#[global] Instance RoleRef_eq_dec : EqDecision RoleRef.
Proof. solve_decision. Defined.

Definition errRoleRefChanged : gerr := errorf "rolebinding RoleRef has changed and must be recreated".

(** The binding of a Role to the ServiceAccount of the same name; [own] sets
    the owner reference, where there is one.  A binding to another Role is
    deleted and created again. *)
Definition upsertRoleBinding (what name ns : string) (own : Obj KRB → result (Obj KRB)) : Prog CEv (option gerr) :=
  let ref := MkRoleRef apiGroupRBAC kindRole name in
  let body := MkBinding ref [MkSubject kindServiceAccount name ns] in
  let fresh := MkObj (K := KRB) (newMeta name ns) (MkBinding (MkRoleRef "" "" "") []) in
  let! r := CreateOrUpdate fresh (λ rb,
    if negb (k_ResourceVersion (o_Meta rb) =? "") && negb (bool_decide (rb_RoleRef (o_Body rb) = ref))
    then Err errRoleRefChanged
    else own (set_Body (K := KRB) body rb)) in
  match r with
  | None => Ret None
  | Some (CouMutate e) =>
      if (emsg e =? emsg errRoleRefChanged) then
        let! d := emit (CDelete KRB ns name) in
        let recreate :=
          match own (MkObj (K := KRB) (newMeta name ns) body) with
          | Err e => Ret (Some (wrapf "setting owner reference on recreated RoleBinding: " e))
          | Ok rb =>
              let! c := emit (CCreate rb) in
              Ret (match c with
                   | Err e => if bool_decide (ekind_of e = EKAlreadyExists) then None
                              else Some (wrapf ("recreating " +:+ what +:+ " RoleBinding: ") e)
                   | Ok _ => None
                   end)
          end in
        match d with
        | Err e => if negb (isNotFound e) then Ret (Some (wrapf ("deleting stale " +:+ what +:+ " RoleBinding: ") e)) else recreate
        | Ok _ => recreate
        end
      else Ret (Some (wrapf ("upserting " +:+ what +:+ " RoleBinding: ") e))
  | Some (CouApi e) => Ret (Some (wrapf ("upserting " +:+ what +:+ " RoleBinding: ") e))
  end.

(** ServiceAccount, Role and RoleBinding, in this order. *)
Definition upsertRBAC (what name ns : string) (rules : list PolicyRule)
    (own : ∀ K, Obj K → result (Obj K)) : Prog CEv (option gerr) :=
  let! r := CreateOrUpdate (MkObj (K := KSA) (newMeta name ns) tt) (own KSA) in
  match r with
  | Some e => Ret (Some (wrapf ("upserting " +:+ what +:+ " ServiceAccount: ") (couErr e)))
  | None =>
      let! r := CreateOrUpdate (MkObj (K := KRole) (newMeta name ns) []) (λ role, own KRole (set_Body (K := KRole) rules role)) in
      match r with
      | Some e => Ret (Some (wrapf ("upserting " +:+ what +:+ " Role: ") (couErr e)))
      | None => upsertRoleBinding what name ns (own KRB)
      end
  end.

Definition reconcilePluginRBAC (i : Integration) : Prog CEv (option gerr) :=
  upsertRBAC "plugin" ("kubezap-plugin-" +:+ in_name i) (in_ns i) pluginRules
    (λ K o, SetControllerReference (in_owner i) o).

(** The account shared by the broker gateways of a namespace has no owner. *)
Definition gatewayRBAC (what : string) (i : Integration) : Prog CEv (option gerr) :=
  upsertRBAC (what +:+ " gateway") sharedGatewayServiceAccountName (in_ns i) gatewayRules (λ K o, Ok o).

(** ** Workloads *)

Definition gatewayProbe (delay period : Z) : Probe := MkProbe healthzPath 8090 "" delay period 3.

(** The Deployment of a broker gateway. *)
Definition gatewayDeployment (component image : string) (env : string → string) (extraEnv : list EnvVar)
    (ports : list ContainerPort) (i : Integration) : Obj KDep :=
  let name := "kubezap-" +:+ component +:+ "-" +:+ in_name i in
  let labels := <["app" := name]> {["kubezap.io/component" := component]} in
  MkObj (K := KDep) (MkKMeta name (in_ns i) labels None "")
    (MkDeployment 1 labels labels
       (MkPodSpec sharedGatewayServiceAccountName None true []
          [MkContainer component image "IfNotPresent" ["--namespace=" +:+ in_ns i]
             ([MkEnvVar "WATCH_NAMESPACES" (env "WATCH_NAMESPACES") None;
               MkEnvVar "KUBEZAP_NAMESPACE" (in_ns i) None;
               MkEnvVar "KUBEZAP_INTEGRATION_NAME" (in_name i) None;
               MkEnvVar "LOG_LEVEL" "info" None] ++ extraEnv)
             ports [] hardened (Some (MkResources "50m" "64Mi" "200m" "128Mi"))
             (Some (gatewayProbe 5 10)) (Some (gatewayProbe 3 5))])
       0).

Definition imageOr (env : string → string) (var dflt : string) : string := if (env var =? "") then dflt else env var.

Definition desiredKafkaGatewayDeployment (env : string → string) (i : Integration) : Obj KDep :=
  gatewayDeployment "kafka-gateway" (imageOr env "KAFKA_GATEWAY_IMAGE" "ghcr.io/kubezap/kafka-gateway:latest") env
    (otelPassthroughEnv env) [MkPort "metrics" kafkaGatewayMetricsPort] i.

Definition desiredAmqpGatewayDeployment (env : string → string) (i : Integration) : Obj KDep :=
  gatewayDeployment "amqp-gateway" (imageOr env "AMQP_GATEWAY_IMAGE" "ghcr.io/kubezap/amqp-gateway:latest") env [] [] i.

Definition desiredNatsGatewayDeployment (env : string → string) (i : Integration) : Obj KDep :=
  gatewayDeployment "nats-gateway" (imageOr env "NATS_GATEWAY_IMAGE" "ghcr.io/kubezap/nats-gateway:latest") env [] [] i.

Definition desiredKafkaGatewayService (i : Integration) : Obj KSvc :=
  let name := "kubezap-kafka-gateway-" +:+ in_name i in
  let selector := <["app" := name]> {["kubezap.io/component" := "kafka-gateway"]} in
  MkObj (K := KSvc) (MkKMeta name (in_ns i) selector None "")
    (MkService selector [MkServicePort "metrics" kafkaGatewayMetricsPort kafkaGatewayMetricsPort] "").

(** Overwrite the specification of the Deployment read, keeping its status. *)
Definition overwriteDeployment (want live : Obj KDep) : Obj KDep :=
  let w := o_Body want in
  set_Body (K := KDep) (MkDeployment (d_Replicas w) (d_Selector w) (d_TemplateLabels w) (d_Pod w)
                          (d_AvailableReplicas (o_Body live))) live.

Definition upsertDeployment (want : Obj KDep) : Prog CEv (option CouErr) :=
  CreateOrUpdate want (λ live, Ok (overwriteDeployment want live)).

Definition overwriteService (want live : Obj KSvc) : Obj KSvc :=
  set_Body (K := KSvc) (MkService (sv_Selector (o_Body want)) (sv_Ports (o_Body want)) (sv_ClusterIP (o_Body live))) live.

(** The environment of the plugin container, Secrets in map order. *)
Definition secretEnv (refs : list PluginSecretRef) : Prog IEv (list EnvVar) :=
  pfold (λ acc ref,
    let! kvs := emit (IMapOrder (ps_EnvVarMappings ref)) in
    Ret (acc ++ map (λ kv, MkEnvVar kv.2 "" (Some (MkSecretRef (ps_SecretName ref) kv.1))) kvs)) refs [].

Definition mtlsEnabled (plugin : PluginIntegrationSpec) : bool :=
  match pi_Mtls plugin with Some m => pm_Enabled m | None => false end.

Definition desiredPluginDeployment (plugin : PluginIntegrationSpec) (i : Integration) : Prog IEv (Obj KDep) :=
  let publisherPort := if (pi_PublisherPort plugin =? 0)%Z then 8090%Z else pi_PublisherPort plugin in
  let name := "kubezap-plugin-" +:+ in_name i in
  let labels : gmap string string := {["app" := name]} in
  let mtls := mtlsEnabled plugin in
  let healthPort := if mtls then defaultPluginMTLSHealthPort else publisherPort in
  let! secrets := secretEnv (pi_SecretRefs plugin) in
  let envVars :=
    [MkEnvVar "KUBEZAP_NAMESPACE" (in_ns i) None;
     MkEnvVar "KUBEZAP_INTEGRATION_NAME" (in_name i) None;
     MkEnvVar "KUBEZAP_PUBLISHER_PORT" (Itoa publisherPort) None;
     MkEnvVar "KUBEZAP_LOG_LEVEL" "info" None] ++ pi_Env plugin ++ secrets
    ++ (if mtls then
          [MkEnvVar "KUBEZAP_MTLS_ENABLED" "true" None;
           MkEnvVar "KUBEZAP_MTLS_CERT_FILE" (pluginMTLSMountPath +:+ "/tls.crt") None;
           MkEnvVar "KUBEZAP_MTLS_KEY_FILE" (pluginMTLSMountPath +:+ "/tls.key") None;
           MkEnvVar "KUBEZAP_MTLS_CA_FILE" (pluginMTLSMountPath +:+ "/ca.crt") None;
           MkEnvVar "KUBEZAP_MTLS_HEALTH_PORT" (Itoa healthPort) None]
        else []) in
  let ports := MkPort "publisher" publisherPort :: (if mtls then [MkPort "mtls-health" healthPort] else []) in
  let mounts := if mtls then [MkMount pluginMTLSVolumeName pluginMTLSMountPath true] else [] in
  let volumes := if mtls then [MkVolume pluginMTLSVolumeName (pluginMTLSSecretName (in_name i))] else [] in
  Ret (MkObj (K := KDep) (MkKMeta name (in_ns i) labels None "")
    (MkDeployment 1 labels labels
       (MkPodSpec name None true volumes
          [MkContainer "plugin" (pluginImageRef plugin) "" [] envVars ports mounts hardened None None
             (Some (MkProbe healthzPath healthPort "HTTP" 5 10 0))])
       0)).

(** ** The plugin certificate store *)

(** [GeneratePluginMTLSBundle]: a CA for one Integration and two certificates
    of it, valid for 24 hours. *)
Definition GeneratePluginMTLSBundle (name : string) (dnsNames : list string) : Prog IEv (result PluginMTLSBundle) :=
  let! now := emit INow in
  let expiry := (now + 24 * Hour)%Z in
  let! ca := emit (IGenerateCA ("kubezap-plugin-" +:+ name +:+ "-ca") now expiry) in
  match ca with
  | Err e => Ret (Err e)
  | Ok ca =>
      let! server := emit (IIssueLeaf ca ("kubezap-plugin-" +:+ name) dnsNames true now expiry) in
      match server with
      | Err e => Ret (Err e)
      | Ok server =>
          let! cl := emit (IIssueLeaf ca "kubezap-controller" [] false now expiry) in
          match cl with
          | Err e => Ret (Err e)
          | Ok cl => Ret (Ok (MkPluginBundle (lf_Cert ca) server cl expiry))
          end
      end
  end.

Definition NeedsRotation (now : Z) (b : PluginMTLSBundle) : bool := (pmb_ExpiresAt b <? now + Hour)%Z.

Definition GetOrGenerate (ns name : string) (dnsNames : list string) : Prog IEv (result PluginMTLSBundle) :=
  let key := pluginMTLSStoreKey ns name in
  let generate :=
    let! b := GeneratePluginMTLSBundle name dnsNames in
    match b with
    | Err e => Ret (Err e)
    | Ok b => let! _ := emit (IStoreSet key b) in Ret (Ok b)
    end in
  let! existing := emit (IStoreLoad key) in
  match existing with
  | Some b => let! now := emit INow in if negb (NeedsRotation now b) then Ret (Ok b) else generate
  | None => generate
  end.

Section reconcile.
  Context `{KubeLib}.

(** [apimeta.SetStatusCondition] on the status of the Integration. *)
Definition setIntegrationCondition (i : Integration) (type : string) (status : ConditionStatus) (reason msg : string)
    : Prog IEv Integration :=
  let! t := emit INow in
  let c := MkCondition type status reason msg None (m_Generation (in_Meta i)) in
  let s := in_Status i in
  Ret (MkIntegration (in_Meta i) (in_Spec i)
         (MkIntegStatus (SetStatusCondition t (ist_Conditions s) c) (ist_GatewayDeploymentName s) (ist_LastReconciledTime s))).

Definition setDeploymentName (name : string) (i : Integration) : Integration :=
  MkIntegration (in_Meta i) (in_Spec i)
    (MkIntegStatus (ist_Conditions (in_Status i)) name (ist_LastReconciledTime (in_Status i))).

Definition setReconciled (t : Z) (i : Integration) : Integration :=
  MkIntegration (in_Meta i) (in_Spec i)
    (MkIntegStatus (ist_Conditions (in_Status i)) (ist_GatewayDeploymentName (in_Status i)) (Some t)).

(** The Integration with its condition, and the recheck interval. *)
Definition reconcilePluginMTLS (formatTime : Z → string) (i : Integration) : Prog IEv (result (Integration * Z)) :=
  let enabled := match is_Plugin (in_Spec i) with Some p => mtlsEnabled p | None => false end in
  let secretName := pluginMTLSSecretName (in_name i) in
  if negb enabled then
    let! _ := emit (IStoreRemove (pluginMTLSStoreKey (in_ns i) (in_name i))) in
    let! d := emit (ICluster (CDelete KSec (in_ns i) secretName)) in
    match d with
    | Err e => if negb (isNotFound e) then Ret (Err (wrapf "deleting stale plugin mTLS secret: " e)) else Ret (Ok (i, 0%Z))
    | Ok _ => Ret (Ok (i, 0%Z))
    end
  else
    let svc := "kubezap-plugin-" +:+ in_name i +:+ "." +:+ in_ns i +:+ ".svc" in
    let! b := GetOrGenerate (in_ns i) (in_name i) [svc; svc +:+ ".cluster.local"] in
    match b with
    | Err e => Ret (Err (wrapf "generating plugin mTLS bundle: " e))
    | Ok bundle =>
        let! r := onCluster (CreateOrUpdate (MkObj (K := KSec) (newMeta secretName (in_ns i)) (MkSecretBody "" ∅)) (λ s,
          SetControllerReference (in_owner i) (set_Body (K := KSec)
            (MkSecretBody "Opaque"
               (<["tls.crt" := lf_Cert (pmb_ServerCert bundle)]>
                (<["tls.key" := lf_Key (pmb_ServerCert bundle)]> {["ca.crt" := pmb_CACert bundle]}))) s))) in
        match r with
        | Some e => Ret (Err (wrapf "upserting plugin mTLS secret: " (couErr e)))
        | None =>
            let! i := setIntegrationCondition i "PluginMTLSReady" ConditionTrue "CertBundleReconciled"
                        ("mTLS cert bundle reconciled, expires " +:+ formatTime (pmb_ExpiresAt bundle)) in
            Ret (Ok (i, pluginMTLSRecheckInterval))
        end
    end.

(** The desired Deployment is computed for the creation and for the overwrite. *)
Definition reconcilePluginDeployment (plugin : PluginIntegrationSpec) (i : Integration) : Prog IEv (result Integration) :=
  let! desired := desiredPluginDeployment plugin i in
  let! again := desiredPluginDeployment plugin i in
  let! r := onCluster (CreateOrUpdate desired (λ live, Ok (overwriteDeployment again live))) in
  match r with
  | Some e => Ret (Err (wrapf "failed to create/update plugin deployment: " (couErr e)))
  | None =>
      let! i := setIntegrationCondition i "PluginDeployed" ConditionTrue "DeploymentReconciled"
                  ("Plugin Deployment reconciled with image " +:+ pluginImageRef plugin) in
      Ret (Ok i)
  end.

(** ** Broker gateways *)

(** RBAC, then the owned Deployment. *)
Definition brokerGateway (what : string) (desired : Obj KDep) (i : Integration) : Prog CEv (result string) :=
  let! r := gatewayRBAC what i in
  match r with
  | Some e => Ret (Err e)
  | None =>
      match SetControllerReference (in_owner i) desired with
      | Err e => Ret (Err (wrapf ("setting owner reference on " +:+ what +:+ " gateway Deployment: ") e))
      | Ok d =>
          let! r := upsertDeployment d in
          match r with
          | Some e => Ret (Err (wrapf ("failed to create/update " +:+ what +:+ " gateway deployment: ") (couErr e)))
          | None => Ret (Ok (k_Name (o_Meta desired)))
          end
      end
  end.

Definition reconcileKafkaGateway (env : string → string) (i : Integration) : Prog CEv (result string) :=
  let! r := brokerGateway "kafka" (desiredKafkaGatewayDeployment env i) i in
  match r with
  | Err e => Ret (Err e)
  | Ok name =>
      let want := desiredKafkaGatewayService i in
      match SetControllerReference (in_owner i) want with
      | Err e => Ret (Err (wrapf "setting owner reference on kafka gateway Service: " e))
      | Ok svc =>
          let! r := CreateOrUpdate svc (λ live, Ok (overwriteService want live)) in
          match r with
          | Some e => Ret (Err (wrapf "failed to create/update kafka gateway service: " (couErr e)))
          | None => Ret (Ok name)
          end
      end
  end.

Definition reconcileAmqpGateway (env : string → string) (i : Integration) : Prog CEv (result string) :=
  brokerGateway "amqp" (desiredAmqpGatewayDeployment env i) i.

Definition reconcileNatsGateway (env : string → string) (i : Integration) : Prog CEv (result string) :=
  brokerGateway "nats" (desiredNatsGatewayDeployment env i) i.

(** ** KEDA *)

(** The topic and group of a Trigger of this Integration. *)
Definition triggerPair (i : Integration) (t : Trigger) : option kafkaTopicCGPair :=
  if negb (ts_Type (tg_Spec t) =? typeKafka) then None
  else match ts_Kafka (tg_Spec t) with
       | None => None
       | Some k =>
           if negb (kt_IntegrationRef k =? in_name i) then None
           else Some (MkPair (kt_Topic k)
                        (if (kt_ConsumerGroup k =? "") then "kubezap-" +:+ m_Name (tg_Meta t) else kt_ConsumerGroup k))
       end.

Definition pairSet (i : Integration) (l : list Trigger) : gset kafkaTopicCGPair := list_to_set (omap (triggerPair i) l).

Definition buildKafkaTriggers (servers : list string) (pairs : list kafkaTopicCGPair) : list KedaTrigger :=
  map (λ p, MkKeda (Join servers ",") (pp_cg p) (pp_topic p) "10") pairs.

(** [isNoMatch] is [apimeta.IsNoMatchError]. *)
Definition kedaMissing (isNoMatch : gerr → bool) (e : gerr) : bool :=
  isNoMatch e || Contains (emsg e) "no kind is registered".

Definition reconcileKafkaScaledObject (isNoMatch : gerr → bool) (servers : list string) (i : Integration)
    : Prog IEv (option gerr) :=
  let! l := emit (IListTriggers (in_ns i)) in
  match l with
  | Err e => Ret (Some (wrapf "listing triggers: " e))
  | Ok items =>
      let! pairs := emit (IPairOrder (pairSet i items)) in
      let name := "kubezap-kafka-gateway-" +:+ in_name i in
      let scaled rv := MkScaled name (in_ns i) (in_owner i) name 0 10 (buildKafkaTriggers servers pairs) rv in
      let! g := emit (IGetScaled (in_ns i) name) in
      match g with
      | Err e =>
          if negb (isNotFound e) then
            if kedaMissing isNoMatch e then Ret None else Ret (Some (wrapf "getting ScaledObject: " e))
          else
            let! c := emit (ICreateScaled (scaled "")) in
            match c with
            | Err e =>
                if kedaMissing isNoMatch e then Ret None
                else if bool_decide (ekind_of e = EKAlreadyExists) then Ret None
                else Ret (Some (wrapf "creating ScaledObject: " e))
            | Ok _ => Ret None
            end
      | Ok rv =>
          let! u := emit (IUpdateScaled (scaled rv)) in
          match u with
          | Err e => Ret (Some (wrapf "updating ScaledObject: " e))
          | Ok _ => Ret None
          end
      end
  end.

(** ** The reconcile loop *)

(** The GatewayAvailable condition of a gateway Deployment. *)
Definition gatewayAvailable (deploymentName gatewayType : string) (i : Integration) : Prog IEv Integration :=
  let! d := emit (ICluster (CGet KDep (in_ns i) deploymentName)) in
  let up := match d with Ok d => (0 <? d_AvailableReplicas (@o_Body KDep d))%Z | Err _ => false end in
  if up then setIntegrationCondition i "GatewayAvailable" ConditionTrue "DeploymentAvailable"
               (gatewayType +:+ " gateway Deployment has available replicas")
  else setIntegrationCondition i "GatewayAvailable" ConditionFalse "DeploymentUnavailable"
         (gatewayType +:+ " gateway Deployment has no available replicas yet").

(** What [Reconcile] is configured with. *)
Record IntegrationEnv := MkIntegrationEnv {
  ie_env : string → string; ie_formatTime : Z → string; ie_isNoMatch : gerr → bool }.

(** A broker case: the gateway, what follows it, the deployment name and the
    condition. *)
Definition reconcileBroker (label gatewayType : string) (gateway : Prog CEv (result string))
    (extra : Prog IEv (option gerr)) (i : Integration) : Prog IEv (result (Integration * Z)) :=
  let! g := onCluster gateway in
  match g with
  | Err e => Ret (Err (wrapf ("reconciling " +:+ label +:+ " gateway: ") e))
  | Ok name =>
      let! e := extra in
      match e with
      | Some e => Ret (Err (wrapf ("reconciling " +:+ label +:+ " scaledobject: ") e))
      | None => let! i := gatewayAvailable name gatewayType (setDeploymentName name i) in Ret (Ok (i, 0%Z))
      end
  end.

Definition reconcilePlugin (E : IntegrationEnv) (i : Integration) : Prog IEv (result (Integration * Z)) :=
  let! r := onCluster (reconcilePluginRBAC i) in
  match r with
  | Some e => Ret (Err (wrapf "reconciling plugin RBAC: " e))
  | None =>
      let! m := reconcilePluginMTLS (ie_formatTime E) i in
      match m with
      | Err e => Ret (Err (wrapf "reconciling plugin mTLS: " e))
      | Ok (i, requeueAfter) =>
          match is_Plugin (in_Spec i) with
          | None => Ret (Err (errorf "runtime error: invalid memory address or nil pointer dereference"))
          | Some plugin =>
              let! d := reconcilePluginDeployment plugin i in
              match d with
              | Err e => Ret (Err (wrapf "reconciling plugin deployment: " e))
              | Ok i => Ret (Ok (setDeploymentName ("kubezap-plugin-" +:+ in_name i) i, requeueAfter))
              end
          end
      end
  end.

(** The [switch] on the type. *)
Definition reconcileType (E : IntegrationEnv) (i : Integration) : Prog IEv (result (Integration * Z)) :=
  let type := is_Type (in_Spec i) in
  let servers := match is_Kafka (in_Spec i) with Some k => ki_BootstrapServers k | None => [] end in
  if (type =? typePlugin) then reconcilePlugin E i
  else if (type =? typeKafka) then
    reconcileBroker "kafka" "Kafka" (reconcileKafkaGateway (ie_env E) i)
      (reconcileKafkaScaledObject (ie_isNoMatch E) servers i) i
  else if (type =? "amqp") then reconcileBroker "amqp" "AMQP" (reconcileAmqpGateway (ie_env E) i) (Ret None) i
  else if (type =? "nats") then reconcileBroker "nats" "NATS" (reconcileNatsGateway (ie_env E) i) (Ret None) i
  else Ret (Ok (i, 0%Z)).

Definition Integration_Reconcile (E : IntegrationEnv) (ns name : string) : Prog IEv (Result * option gerr) :=
  let! g := emit (IGetIntegration ns name) in
  match g with
  | Err e => Ret (ignoreNotFound e)
  | Ok i =>
      match validateIntegrationSpec (in_Spec i) with
      | Some e =>
          let! i := setIntegrationCondition i conditionTypeReady ConditionFalse "InvalidSpec" (emsg e) in
          let! u := emit (IStatusUpdate i) in
          Ret (match u with Err e => done_err e | Ok _ => done_ok end)
      | None =>
          let! r := reconcileType E i in
          match r with
          | Err e => Ret (done_err e)
          | Ok (i, requeueAfter) =>
              let! now := emit INow in
              let! i := setIntegrationCondition i conditionTypeReady ConditionTrue "IntegrationReady" "Integration is configured and ready" in
              let! u := emit (IStatusUpdate (setReconciled now i)) in
              Ret (match u with Err e => done_err e | Ok _ => requeue_after requeueAfter end)
          end
      end
  end.

End reconcile.
