(* ===== verification/Steps.v ===== *)
(** * Step execution

    [internal/controller/flowrun_controller.go]: [retryDelay], and
    [executeHTTPStep] with the Integration, authentication and TLS resolution it
    calls and [callExecutor].  The other kinds of step are in file Publish. *)

From S2P Require Import Prelude GoStd Api Effects Interp Net Ssrf Kube FlowCtl.

Local Open Scope string_scope.
Local Open Scope list_scope.
Local Open Scope go_scope.

(** The configuration fields of [FlowRunReconciler] the code reads. *)
Record FlowRunReconciler := MkReconciler {
  TTLSucceeded : Z;
  TTLFailed : Z;
  ExecutionTimeout : Z;
  celEnvReady : bool;
  StepBlockedCIDRs : option (list IPNet);
  SSRFAllowClusterInternal : bool;
  ExecutorBaseURL : string;
  ExecutorTLSEnabled : bool;
  HasPluginMTLSStore : bool;
  DisableCELCache : bool;
  CELCostLimit : Z
}.

Definition executorTransportBackoff : Z := 5 * Second.
Definition kafkaProducerIdleTTL : Z := 10 * Minute.

(** ** Retry delays *)

(** [d *= 2], [n] times, on [int64]. *)
Fixpoint doubleN (n : nat) (d : Z) : Z :=
  match n with
  | 0 => d
  | S n => doubleN n (wrap64 (d * 2))
  end.

Definition capDelay (maxDelay : option Z) (d : Z) : Z :=
  match maxDelay with
  | Some m => if (m <? d)%Z then m else d
  | None => d
  end.

Definition retryDelay (policy : option RetryPolicy) (attempt : Z) : Z :=
  match policy with
  | None => Second
  | Some p =>
      let initial := match rp_InitialDelay p with Some d => d | None => Second end in
      if (rp_BackoffType p =? "Exponential") then
        capDelay (rp_MaxDelay p) (doubleN (Z.to_nat (attempt - 1)) initial)
      else if (rp_BackoffType p =? "Linear") then
        capDelay (rp_MaxDelay p) (wrap64 (initial * attempt))
      else initial
  end.

(** ** Step statuses *)

Definition findStepStatus (statuses : list StepRunStatus) (name : string) : option StepRunStatus :=
  find_by (λ s, (ss_Name s =? name)) statuses.

Fixpoint upsertStepStatus (statuses : list StepRunStatus) (s : StepRunStatus) : list StepRunStatus :=
  match statuses with
  | [] => [s]
  | x :: l => if (ss_Name x =? ss_Name s) then s :: l else x :: upsertStepStatus l s
  end.

Section steps.
  Context `{CelLib} `{HttpLib} `{NetLib} `{KubeLib}.

Implicit Types (sr : gmap string (gmap string string)) (td : option TriggerData)
  (ps : gmap string string).

(** ** Secrets and ConfigMaps *)

Definition fetchSecretValue (ns : string) (ref : SecretKeySelector) : Prog Ev (result string) :=
  let! r := emit (EvGetSecret ns (sr_Name ref)) in
  match r with
  | Err e => Ret (Err (wrapf ("secret " +:+ Quote (sr_Name ref) +:+ " not found: ") e))
  | Ok data =>
      match data !! sr_Key ref with
      | None => Ret (Err (errorf ("key " +:+ Quote (sr_Key ref) +:+ " not found in secret "
                                  +:+ Quote (sr_Name ref))))
      | Some v => Ret (Ok v)
      end
  end.

Definition fetchConfigMapValue (ns : string) (ref : SecretKeySelector) : Prog Ev (result string) :=
  let! r := emit (EvGetConfigMap ns (sr_Name ref)) in
  match r with
  | Err e => Ret (Err (wrapf ("configmap " +:+ Quote (sr_Name ref) +:+ " not found: ") e))
  | Ok data =>
      match data !! sr_Key ref with
      | None => Ret (Err (errorf ("key " +:+ Quote (sr_Key ref) +:+ " not found in configmap "
                                  +:+ Quote (sr_Name ref))))
      | Some v => Ret (Ok v)
      end
  end.

Definition substituteVarsWithSecrets (ns s : string) sr td ps : Prog Ev (result (string * string)) :=
  interpolateTemplate s sr td ps (Some (λ name key, fetchSecretValue ns (MkSecretRef name key))).

(** The loop that resolves the templates of a header map. *)
Definition substituteHeaders (ns : string) (errPrefix : string → string)
    (headers : gmap string string) sr td ps : Prog Ev (gerr + gmap string string) :=
  pfold_ret (λ m '(k, v),
      let! r := substituteVarsWithSecrets ns v sr td ps in
      match r with
      | Err e => Ret (inl (wrapf (errPrefix k) e))
      | Ok (actual, _) => Ret (inr (<[k := actual]> m))
      end) (map_to_list headers) ∅.

(** ** HTTP Integrations *)

Record httpTLSMaterial := MkTLSMaterial { CABundle : string; ClientCert : string; ClientKey : string }.
Definition noTLS : httpTLSMaterial := MkTLSMaterial "" "" "".

(** The Integration, from the per-reconcile cache or the API server. *)
Definition cachedIntegration (errPrefix ns name : string) : Prog Ev (result Integration) :=
  let cacheKey := ns +:+ "/" +:+ name in
  let! c := emit (EvIntegCacheLoad cacheKey) in
  match c with
  | Some i => Ret (Ok i)
  | None =>
      let! r := emit (EvGetIntegration ns name) in
      match r with
      | Err e => Ret (Err (wrapf (errPrefix +:+ Quote name +:+ ": ") e))
      | Ok i => let! _ := emit (EvIntegCacheStore cacheKey i) in Ret (Ok i)
      end
  end.

Definition fetchWrapped (prefix ns : string) (ref : SecretKeySelector) : Prog Ev (result string) :=
  let! r := fetchSecretValue ns ref in
  match r with
  | Err e => Ret (Err (wrapf prefix e))
  | Ok v => Ret (Ok v)
  end.

Definition applyHTTPAuth (auth : HttpAuthSpec) (integrationName ns resolvedURL : string)
    (headers : gmap string string) : Prog Ev (result (string * gmap string string)) :=
  let pre (what : string) := "fetching " +:+ what +:+ " for integration "
                             +:+ Quote integrationName +:+ ": " in
  match hau_Type auth with
  | HttpAuthBearer =>
      match hau_Bearer auth with
      | None => Ret (Ok (resolvedURL, headers))
      | Some ref =>
          let! r := fetchWrapped (pre "bearer token") ns ref in
          match r with
          | Err e => Ret (Err e)
          | Ok token => Ret (Ok (resolvedURL, <["Authorization" := "Bearer " +:+ token]> headers))
          end
      end
  | HttpAuthBasic =>
      match hau_Basic auth with
      | None => Ret (Ok (resolvedURL, headers))
      | Some b =>
          let! r := fetchWrapped (pre "basic auth username") ns (hb_UsernameSecretRef b) in
          match r with
          | Err e => Ret (Err e)
          | Ok username =>
              let! r := fetchWrapped (pre "basic auth password") ns (hb_PasswordSecretRef b) in
              match r with
              | Err e => Ret (Err e)
              | Ok password =>
                  Ret (Ok (resolvedURL,
                    <["Authorization" := "Basic " +:+ base64_std (username +:+ ":" +:+ password)]> headers))
              end
          end
      end
  | HttpAuthAPIKey =>
      match hau_APIKey auth with
      | None => Ret (Ok (resolvedURL, headers))
      | Some k =>
          let! r := fetchWrapped (pre "api key") ns (ha_ValueSecretRef k) in
          match r with
          | Err e => Ret (Err e)
          | Ok apiKey => Ret (Ok (resolvedURL, <[ha_HeaderName k := apiKey]> headers))
          end
      end
  | HttpAuthSecretURL =>
      match hau_SecretURL auth with
      | None => Ret (Ok (resolvedURL, headers))
      | Some ref =>
          let! r := fetchWrapped (pre "secret URL") ns ref in
          match r with
          | Err e => Ret (Err e)
          | Ok secretURL => Ret (Ok (secretURL, headers))
          end
      end
  | HttpAuthUnset => Ret (Ok (resolvedURL, headers))
  end.

Definition resolveHTTPTLS (tls : HttpTLSSpec) (integrationName ns : string)
    : Prog Ev (result httpTLSMaterial) :=
  let! ca :=
    match htls_CABundleConfigMapRef tls with
    | None => Ret (Ok "")
    | Some ref =>
        let! r := fetchConfigMapValue ns ref in
        match r with
        | Err e => Ret (Err (wrapf ("fetching CA bundle for integration " +:+ Quote integrationName +:+ ": ") e))
        | Ok b => Ret (Ok b)
        end
    end in
  match ca with
  | Err e => Ret (Err e)
  | Ok ca =>
      match htls_ClientCertSecretRef tls with
      | None => Ret (Ok (MkTLSMaterial ca "" ""))
      | Some name =>
          let! r := emit (EvGetSecret ns name) in
          match r with
          | Err e => Ret (Err (wrapf ("fetching client cert secret " +:+ Quote name +:+ " for integration "
                                      +:+ Quote integrationName +:+ ": ") e))
          | Ok data =>
              let missing (k : string) :=
                errorf ("key " +:+ Quote k +:+ " not found in client cert secret " +:+ Quote name
                        +:+ " for integration " +:+ Quote integrationName) in
              match data !! "tls.crt" with
              | None => Ret (Err (missing "tls.crt"))
              | Some cert =>
                  match data !! "tls.key" with
                  | None => Ret (Err (missing "tls.key"))
                  | Some key => Ret (Ok (MkTLSMaterial ca cert key))
                  end
              end
          end
      end
  end.

(** Default headers first; a header the step sets is kept. *)
Definition mergeDefaultHeaders (defaults headers : gmap string string) sr td ps : gmap string string :=
  fold_left (λ m '(k, v), match m !! k with
                          | Some _ => m
                          | None => <[k := substituteVars v sr td ps]> m
                          end) (map_to_list defaults) headers.

Definition joinBaseURL (base url : string) : string :=
  if negb (base =? "") && negb (HasPrefix url "http://") && negb (HasPrefix url "https://")
  then TrimRight base "/" +:+ "/" +:+ TrimLeft url "/" else url.

Definition applyHTTPIntegration (integrationName ns resolvedURL : string) (headers : gmap string string)
    sr td ps : Prog Ev (result (string * gmap string string * httpTLSMaterial)) :=
  let! i := cachedIntegration "fetching http integration " ns integrationName in
  match i with
  | Err e => Ret (Err e)
  | Ok integration =>
      match is_HTTP (in_Spec integration) with
      | None => Ret (Ok (resolvedURL, headers, noTLS))
      | Some httpInteg =>
          let headers := mergeDefaultHeaders (hi_DefaultHeaders httpInteg) headers sr td ps in
          let resolvedURL := joinBaseURL (hi_BaseURL httpInteg) resolvedURL in
          let! a :=
            match hi_Auth httpInteg with
            | None => Ret (Ok (resolvedURL, headers))
            | Some auth => applyHTTPAuth auth integrationName ns resolvedURL headers
            end in
          match a with
          | Err e => Ret (Err e)
          | Ok (resolvedURL, headers) =>
              match hi_TLS httpInteg with
              | None => Ret (Ok (resolvedURL, headers, noTLS))
              | Some tls =>
                  let! t := resolveHTTPTLS tls integrationName ns in
                  match t with
                  | Err e => Ret (Err e)
                  | Ok material => Ret (Ok (resolvedURL, headers, material))
                  end
              end
          end
      end
  end.

(** ** The executor RPC *)

Definition executorScheme (r : FlowRunReconciler) : string :=
  if ExecutorTLSEnabled r then "https" else "http".

(** A failure of [httpClient.Do] becomes an [executorTransportError]; every
    other failure is an ordinary error. *)
Definition callExecutor (r : FlowRunReconciler) (ns : string) (req : ExecuteRequest)
    : Prog Ev (result ExecuteResponse) :=
  let baseURL := if (ExecutorBaseURL r =? "")
                 then executorScheme r +:+ "://kubezap-http-executor.%s.svc.cluster.local:8091"
                 else ExecutorBaseURL r in
  let executorURL := ReplaceAll baseURL "%s" ns +:+ "/execute" in
  match MarshalExecuteRequest req with
  | Err e => Ret (Err (wrapf "marshalling executor request: " e))
  | Ok reqBody =>
      match NewRequestError executorURL with
      | Some e => Ret (Err (wrapf "building executor HTTP request: " e))
      | None =>
          let! d := emit (EvExecutorDo executorURL reqBody (ExecutorTLSEnabled r)) in
          match d with
          | Err e => Ret (Err (GErr EKTransport ("sending request to executor: " +:+ emsg e)))
          | Ok (code, body) =>
              if negb (code =? 200)%Z
              then Ret (Err (errorf ("executor returned HTTP " +:+ Itoa code +:+ ": " +:+ stake 1024 body)))
              else match DecodeExecuteResponse body with
                   | Err e => Ret (Err (wrapf "decoding executor response: " e))
                   | Ok resp => Ret (Ok resp)
                   end
          end
      end
  end.

(** ** HTTP steps *)

(** Results, message, attempts made, error: the four Go return values. *)
Definition HTTPOutcome : Type := gmap string string * string * Z * option gerr.

Definition isTransport (e : gerr) : bool := bool_decide (ekind_of e = EKTransport).

(** [int(retryPolicy.MaxRetries) + 1], or 1. *)
Definition maxAttemptsOf (policy : option RetryPolicy) : Z :=
  match policy with None => 1 | Some p => rp_MaxRetries p + 1 end.

(** [json.Unmarshal] into a [map[string]interface{}]. *)
Definition unmarshalObject (body : string) : option (gmap string (jval f64)) :=
  match json_Unmarshal body with
  | Some (JObj m) => Some m
  | Some JNull => Some ∅
  | _ => None
  end.

Definition httpResults (h : HTTPAction) (resp : ExecuteResponse) : gmap string string :=
  let results : gmap string string :=
    <["status" := Itoa (ex_StatusCode resp)]> (<["body" := ex_Body resp]> ∅) in
  if bool_decide (h_ResultMappings h = ∅) then results
  else match unmarshalObject (ex_Body resp) with
       | None => results
       | Some jsonBody =>
           fold_left (λ m '(resultKey, jsonPath),
             let val := extractSimpleJSONPath jsonPath jsonBody in
             if negb (val =? "") then <[resultKey := val]> m else m)
             (map_to_list (h_ResultMappings h)) results
       end.

(** The retry loop: [n] attempts are left, [attempt] is the loop variable. *)
Fixpoint httpAttempts (r : FlowRunReconciler) (step : FlowStep) (h : HTTPAction) (ns : string)
    (req : ExecuteRequest) (displayURL : string) (n : nat) (attempt attemptsMade : Z)
    (lastErr : option gerr) : Prog Ev HTTPOutcome :=
  match n with
  | 0 => Ret (∅, "", attemptsMade, lastErr)
  | S n =>
      let attemptsMade := (attempt + 1)%Z in
      let again (e : gerr) :=
        httpAttempts r step h ns req displayURL n (attempt + 1)%Z attemptsMade (Some e) in
      let! ctxErr :=
        if (0 <? attempt)%Z then emit (EvSleep (retryDelay (st_RetryPolicy step) attempt))
        else Ret None in
      match ctxErr with
      | Some e => Ret (∅, "", attemptsMade, Some e)
      | None =>
          let! x := callExecutor r ns req in
          match x with
          | Err err =>
              if isTransport err then Ret (∅, "", attemptsMade, Some err)
              else again (wrapf ("executor RPC for step " +:+ Quote (st_Name step) +:+ " (target: "
                                 +:+ displayURL +:+ "): ") err)
          | Ok resp =>
              if negb (ex_Error resp =? "") then
                again (errorf (if negb (er_URL req =? displayURL)
                               then ReplaceAll (ex_Error resp) (er_URL req) displayURL
                               else ex_Error resp))
              else if (200 <=? ex_StatusCode resp)%Z && (ex_StatusCode resp <? 300)%Z then
                Ret (httpResults h resp, "HTTP " +:+ Itoa (ex_StatusCode resp), attemptsMade, None)
              else again (errorf ("HTTP " +:+ Itoa (ex_StatusCode resp) +:+ ": "
                                  +:+ truncate (ex_Body resp) 256))
          end
      end
  end.

(** The part of [executeHTTPStep] that resolves the templates. *)
Definition resolveHTTPRequest (step : FlowStep) (h : HTTPAction) sr td ps (ns : string)
    : Prog Ev (result (string * string * string * gmap string string)) :=
  let name := Quote (st_Name step) in
  let! u := substituteVarsWithSecrets ns (h_URL h) sr td ps in
  match u with
  | Err e => Ret (Err (wrapf ("resolving secrets in URL for step " +:+ name +:+ ": ") e))
  | Ok (resolvedURL, displayURL) =>
      let! b := substituteVarsWithSecrets ns (h_Body h) sr td ps in
      match b with
      | Err e => Ret (Err (wrapf ("resolving secrets in body for step " +:+ name +:+ ": ") e))
      | Ok (body, _) =>
          let! hs := substituteHeaders ns
            (λ k, "resolving secrets in header " +:+ Quote k +:+ " for step " +:+ name +:+ ": ")
            (h_Headers h) sr td ps in
          match hs with
          | inl e => Ret (Err e)
          | inr headers => Ret (Ok (resolvedURL, displayURL, body, headers))
          end
      end
  end.

Definition failHTTP (e : gerr) : HTTPOutcome := (∅, "", 0%Z, Some e).

Definition executeHTTPStep (r : FlowRunReconciler) (step : FlowStep) sr td ps (ns : string)
    : Prog Ev HTTPOutcome :=
  match a_HTTP (st_Action step) with
  | None => Ret (failHTTP (errorf ("step " +:+ Quote (st_Name step) +:+ " has type=http but no http spec")))
  | Some h =>
      let! rq := resolveHTTPRequest step h sr td ps ns in
      match rq with
      | Err e => Ret (failHTTP e)
      | Ok (resolvedURL, displayURL, body, headers) =>
          let! ig :=
            match h_IntegrationRef h with
            | Some name => if negb (name =? "")
                           then applyHTTPIntegration name ns resolvedURL headers sr td ps
                           else Ret (Ok (resolvedURL, headers, noTLS))
            | None => Ret (Ok (resolvedURL, headers, noTLS))
            end in
          match ig with
          | Err e => Ret (failHTTP e)
          | Ok (resolvedURL, headers, tls) =>
              let! c := checkSSRF (λ host, emit (EvLookupIP host)) resolvedURL
                          (StepBlockedCIDRs r) (SSRFAllowClusterInternal r) in
              match c with
              | Err e => Ret (failHTTP (wrapf ("step " +:+ Quote (st_Name step)
                                               +:+ " blocked by SSRF protection: ") e))
              | Ok _ =>
                  let method := if (h_Method h =? "") then "POST" else h_Method h in
                  let timeoutSec := if (h_TimeoutSeconds h <=? 0)%Z then 30%Z else h_TimeoutSeconds h in
                  let execReq := MkExecReq method resolvedURL headers body timeoutSec false
                                   (CABundle tls) (ClientCert tls) (ClientKey tls) in
                  httpAttempts r step h ns execReq displayURL
                    (Z.to_nat (maxAttemptsOf (st_RetryPolicy step))) 0 0 None
              end
          end
      end
  end.

End steps.
