(* ===== verification/Publish.v ===== *)
(** * Publish, wait and transform steps

    [internal/controller/flowrun_controller.go]: [executePublishStep] with its
    two back ends ([doPluginPublish]; [publishToKafka] over the producer cache
    of [getOrCreateKafkaProducer]), [executeWaitStep], and the dispatch
    [executeStep]. *)

From S2P Require Import Prelude GoStd Api Effects Interp Net Ssrf Kube FlowCtl Steps.

Local Open Scope string_scope.
Local Open Scope list_scope.
Local Open Scope go_scope.

Section publish.
  Context `{CelLib} `{HttpLib} `{NetLib} `{KubeLib}.

Implicit Types (sr : gmap string (gmap string string)) (td : option TriggerData)
  (ps : gmap string string).

(** ** The plugin back end *)

Definition pluginPublishIdempotencyKeyPrefix : string := "kz1-".
Definition nul : string := String (ascii_of_nat 0) "".

Definition pluginPublishIdempotencyKey (uid stepName : string) : string :=
  pluginPublishIdempotencyKeyPrefix +:+ sha256_hex (uid +:+ nul +:+ stepName).

Definition doPluginPublish (r : FlowRunReconciler)
    (resolvedURL integrationName ns destination body : string) (headers : gmap string string)
    (idempotencyKey : string) : Prog Ev (result (gmap string string)) :=
  match MarshalEnvelope integrationName ns destination headers body idempotencyKey with
  | Err e => Ret (Err (wrapf "marshalling publish envelope: " e))
  | Ok envelope =>
      let! mtls := if HasPluginMTLSStore r then emit (EvPluginTLS ns integrationName) else Ret false in
      let resolvedURL := if mtls : bool then ReplaceAll resolvedURL "http://" "https://" else resolvedURL in
      match NewRequestError resolvedURL with
      | Some e => Ret (Err (wrapf "building publish request: " e))
      | None =>
          let! d := emit (EvPluginDo resolvedURL envelope mtls) in
          match d with
          | Err e => Ret (Err (wrapf "publish request failed: " e))
          | Ok (code, respBody) =>
              let respBytes := stake 1024 respBody in
              if (400 <=? code)%Z then
                let status := "publish endpoint returned status " +:+ Itoa code +:+ ": " in
                match DecodePublishFailure respBytes with
                | Some msg => if negb (msg =? "") then Ret (Err (errorf (status +:+ msg)))
                              else Ret (Err (errorf (status +:+ TrimSpace respBytes)))
                | None => Ret (Err (errorf (status +:+ TrimSpace respBytes)))
                end
              else
                match DecodePublishSuccess respBytes with
                | Some id => if negb (id =? "") then Ret (Ok {["messageId" := id]}) else Ret (Ok ∅)
                | None => Ret (Ok ∅)
                end
          end
      end
  end.

(** ** The Kafka back end *)

(** The TLS block of [getOrCreateKafkaProducer]. *)
Definition kafkaTLS (integration : Integration) (spec : KafkaIntegrationSpec)
    : Prog Ev (result (option (bool * option string))) :=
  match ki_TLS spec with
  | Some tls =>
      if ktls_Enabled tls then
        match ktls_CASecretRef tls with
        | None => Ret (Ok (Some (ktls_InsecureSkipVerify tls, None)))
        | Some ref =>
            let! r := fetchSecretValue (m_Namespace (in_Meta integration)) ref in
            match r with
            | Err e => Ret (Err (wrapf ("reading CA cert secret for integration "
                                        +:+ Quote (m_Name (in_Meta integration)) +:+ ": ") e))
            | Ok caPEM =>
                if AppendCertsFromPEM caPEM then Ret (Ok (Some (ktls_InsecureSkipVerify tls, Some caPEM)))
                else Ret (Err (errorf ("failed to parse CA certificate from secret " +:+ sr_Name ref
                                       +:+ " key " +:+ sr_Key ref)))
            end
        end
      else Ret (Ok None)
  | None => Ret (Ok None)
  end.

Definition saslMechanism (m : string) : option SASLMechanism :=
  if (m =? "PLAIN") then Some SASLPlain
  else if (m =? "SCRAM-SHA-256") then Some SASLScramSHA256
  else if (m =? "SCRAM-SHA-512") then Some SASLScramSHA512
  else None.

(** The SASL block. *)
Definition kafkaSASL (integration : Integration) (spec : KafkaIntegrationSpec)
    : Prog Ev (result (option (string * string * SASLMechanism))) :=
  let ns := m_Namespace (in_Meta integration) in
  let name := Quote (m_Name (in_Meta integration)) in
  match ki_SASL spec with
  | None => Ret (Ok None)
  | Some saslCfg =>
      let! u := fetchWrapped ("reading SASL username secret for integration " +:+ name +:+ ": ") ns
                  (ksasl_UsernameSecretRef saslCfg) in
      match u with
      | Err e => Ret (Err e)
      | Ok username =>
          let! p := fetchWrapped ("reading SASL password secret for integration " +:+ name +:+ ": ") ns
                      (ksasl_PasswordSecretRef saslCfg) in
          match p with
          | Err e => Ret (Err e)
          | Ok password =>
              match saslMechanism (ksasl_Mechanism saslCfg) with
              | Some m => Ret (Ok (Some (username, password, m)))
              | None => Ret (Err (errorf ("unsupported SASL mechanism " +:+ Quote (ksasl_Mechanism saslCfg)
                                          +:+ " for integration " +:+ name)))
              end
          end
      end
  end.

(** Build the configuration and the producer (after a cache miss). *)
Definition newKafkaProducer (integration : Integration) (spec : KafkaIntegrationSpec)
    : Prog Ev (result Producer) :=
  let! t := kafkaTLS integration spec in
  match t with
  | Err e => Ret (Err e)
  | Ok tls =>
      let! s := kafkaSASL integration spec in
      match s with
      | Err e => Ret (Err e)
      | Ok sasl =>
          let! p := emit (EvNewSyncProducer (ki_BootstrapServers spec) (MkKafkaConfig tls sasl)) in
          match p with
          | Err e => Ret (Err (wrapf ("creating kafka producer for integration "
                                      +:+ Quote (m_Name (in_Meta integration)) +:+ ": ") e))
          | Ok p => Ret (Ok p)
          end
      end
  end.

(** The lookup with idle eviction: the cached producer, or the maps without
    the evicted entry. *)
Definition lookupProducer (brokerKey : string) (producers : gmap string Producer)
    (lastUsed : gmap string Z) : Prog Ev (Producer + gmap string Producer * gmap string Z) :=
  match producers !! brokerKey with
  | None => Ret (inr (producers, lastUsed))
  | Some p =>
      let! t := now in
      (* the zero time of a missing entry is further back than any TTL *)
      let idle := match lastUsed !! brokerKey with
                  | Some u => (kafkaProducerIdleTTL <? t - u)%Z
                  | None => true
                  end in
      if idle : bool then
        let! _ := emit (EvCloseProducer p) in
        Ret (inr (delete brokerKey producers, delete brokerKey lastUsed))
      else Ret (inl p)
  end.

(** The mutex is held throughout; every return releases it. *)
Definition getOrCreateKafkaProducer (brokerKey : string) (integration : Integration)
    (spec : KafkaIntegrationSpec) : Prog Ev (result Producer) :=
  let! c := emit EvProducersLock in
  let producers := default ∅ (kafkaProducers c) in
  let lastUsed := default ∅ (kafkaProducerLastUsed c) in
  let! l := lookupProducer brokerKey producers lastUsed in
  match l with
  | inl p =>
      let! _ := emit (EvProducersUnlock (MkProducerCache (Some producers) (Some lastUsed))) in
      Ret (Ok p)
  | inr (producers, lastUsed) =>
      let! n := newKafkaProducer integration spec in
      match n with
      | Err e =>
          let! _ := emit (EvProducersUnlock (MkProducerCache (Some producers) (Some lastUsed))) in
          Ret (Err e)
      | Ok p =>
          let! t := now in
          let! _ := emit (EvProducersUnlock (MkProducerCache (Some (<[brokerKey := p]> producers))
                                               (Some (<[brokerKey := t]> lastUsed)))) in
          Ret (Ok p)
      end
  end.

Definition publishToKafka (integration : Integration) (spec : KafkaIntegrationSpec)
    (topic body : string) (headers : gmap string string) : Prog Ev (result (gmap string string)) :=
  let brokerKey := Join (ki_BootstrapServers spec) "," in
  let! p := getOrCreateKafkaProducer brokerKey integration spec in
  match p with
  | Err e => Ret (Err e)
  | Ok producer =>
      let! s := emit (EvSendMessage producer topic body headers) in
      match s with
      | Err e =>
          let! c := emit EvProducersLock in
          let! _ := emit (EvProducersUnlock
            (MkProducerCache (delete brokerKey <$> kafkaProducers c)
                             (delete brokerKey <$> kafkaProducerLastUsed c))) in
          let! _ := emit (EvCloseProducer producer) in
          Ret (Err (wrapf ("sending kafka message to topic " +:+ Quote topic +:+ ": ") e))
      | Ok (partition, offset) =>
          let! c := emit EvProducersLock in
          let! last :=
            match kafkaProducerLastUsed c with
            | None => Ret None
            | Some m => let! t := now in Ret (Some (<[brokerKey := t]> m))
            end in
          let! _ := emit (EvProducersUnlock (MkProducerCache (kafkaProducers c) last)) in
          Ret (Ok (<["offset" := Itoa offset]> {["partition" := Itoa partition]}))
      end
  end.

(** ** [executePublishStep] *)

Definition PublishOutcome : Type := gmap string string * Z * option gerr.
Definition failPublish (e : gerr) : PublishOutcome := (∅, 0%Z, Some e).

(** Both back ends retry the same way; [send] is one attempt. *)
Fixpoint publishAttempts (policy : option RetryPolicy) (send : Prog Ev (result (gmap string string)))
    (n : nat) (attempt : Z) (lastErr : option gerr) : Prog Ev PublishOutcome :=
  match n with
  | 0 => Ret (∅, maxAttemptsOf policy, lastErr)
  | S n =>
      let! ctxErr := if (0 <? attempt)%Z then emit (EvSleep (retryDelay policy attempt)) else Ret None in
      match ctxErr with
      | Some e => Ret (∅, attempt, Some e)
      | None =>
          let! x := send in
          match x with
          | Ok result => Ret (result, (attempt + 1)%Z, None)
          | Err e => publishAttempts policy send n (attempt + 1)%Z (Some e)
          end
      end
  end.

(** Topic, body and headers with their templates resolved. *)
Definition resolvePublish (step : FlowStep) (p : PublishAction) (ns : string) sr td ps
    : Prog Ev (result (string * string * gmap string string)) :=
  let topic := substituteVars (p_Topic p) sr td ps in
  let! b := substituteVarsWithSecrets ns (p_Body p) sr td ps in
  match b with
  | Err e => Ret (Err (wrapf ("resolving secrets in publish body for step "
                              +:+ Quote (st_Name step) +:+ ": ") e))
  | Ok (body, _) =>
      let! hs := substituteHeaders ns
        (λ k, "resolving secrets in publish header " +:+ Quote k +:+ " for step "
              +:+ Quote (st_Name step) +:+ ": ")
        (p_Headers p) sr td ps in
      match hs with
      | inl e => Ret (Err e)
      | inr headers => Ret (Ok (topic, body, headers))
      end
  end.

Definition pluginURL (integrationName ns : string) (port : Z) : string :=
  "http://kubezap-plugin-" +:+ integrationName +:+ "." +:+ ns +:+ ".svc.cluster.local:"
  +:+ Itoa port +:+ "/publish".

Definition executePublishStep (r : FlowRunReconciler) (flowRun : FlowRun) (step : FlowStep) td sr ps
    : Prog Ev PublishOutcome :=
  let noRef := failPublish (errorf ("step " +:+ Quote (st_Name step)
                                    +:+ " has type=publish but no integrationRef.name")) in
  match a_Publish (st_Action step) with
  | None => Ret noRef
  | Some p =>
      if (p_IntegrationRef p =? "") then Ret noRef else
      let ns := fr_Namespace flowRun in
      let policy := st_RetryPolicy step in
      let attempts := Z.to_nat (maxAttemptsOf policy) in
      let! i := cachedIntegration "fetching integration " ns (p_IntegrationRef p) in
      match i with
      | Err e => Ret (failPublish e)
      | Ok integration =>
          match is_Kafka (in_Spec integration) with
          | Some spec =>
              let! rp := resolvePublish step p ns sr td ps in
              match rp with
              | Err e => Ret (failPublish e)
              | Ok (topic, body, headers) =>
                  publishAttempts policy (publishToKafka integration spec topic body headers) attempts 0 None
              end
          | None =>
              match is_Plugin (in_Spec integration) with
              | None => Ret (failPublish (errorf ("integration " +:+ Quote (m_Name (in_Meta integration))
                                                  +:+ " is not a plugin type")))
              | Some pl =>
                  let port := if (pi_PublisherPort pl =? 0)%Z then 8090%Z else pi_PublisherPort pl in
                  let url := pluginURL (m_Name (in_Meta integration)) ns port in
                  let! rp := resolvePublish step p ns sr td ps in
                  match rp with
                  | Err e => Ret (failPublish e)
                  | Ok (destination, body, headers) =>
                      let key := pluginPublishIdempotencyKey (m_UID (fr_Meta flowRun)) (st_Name step) in
                      publishAttempts policy
                        (doPluginPublish r url (m_Name (in_Meta integration)) ns destination body headers key)
                        attempts 0 None
                  end
              end
          end
      end
  end.

(** ** [executeWaitStep] *)

(** The status is passed by pointer: the updated status, and the remaining
    time or the error (the text [time.ParseDuration] adds to its message is
    left out). *)
Definition executeWaitStep (flowRun : FlowRun) (step : FlowStep) (stepStatus : StepRunStatus)
    : Prog Ev (StepRunStatus * result Z) :=
  let waiting (at_ : Z) :=
    MkStepStatus (ss_Name stepStatus) StepPhaseWaiting (ss_StartTime stepStatus)
      (ss_CompletionTime stepStatus) (ss_Attempts stepStatus) (ss_Message stepStatus)
      (ss_Results stepStatus) (ss_DurationMillis stepStatus) (Some at_) in
  match a_Wait (st_Action step) with
  | None => Ret (stepStatus, Err (errorf ("wait step " +:+ Quote (st_Name step) +:+ " has no wait config")))
  | Some w =>
      match ParseDuration (w_Duration w) with
      | None => Ret (stepStatus, Err (errorf ("wait step " +:+ Quote (st_Name step) +:+ ": invalid duration "
                                              +:+ Quote (w_Duration w))))
      | Some duration =>
          match findStepStatus (fr_Steps flowRun) (st_Name step) ≫= ss_ResumeAfter with
          | Some resumeAfter =>
              let! t := now in
              if (t <? resumeAfter)%Z then
                let! t' := now in
                Ret (waiting resumeAfter, Ok (resumeAfter - t')%Z)
              else Ret (stepStatus, Ok 0%Z)
          | None =>
              let! t := now in
              Ret (waiting (t + duration)%Z, Ok duration)
          end
      end
  end.

(** ** [executeStep] *)

(** The status, and the error when the executor was unreachable. *)
Definition executeStep (r : FlowRunReconciler) (step : FlowStep) (flowRun : FlowRun) sr td ps
    : Prog Ev (StepRunStatus * option gerr) :=
  let! start := now in
  let status (phase : StepPhase) (completed : Z) (attempts : Z) (msg : string)
             (results : list ResultValue) :=
    MkStepStatus (st_Name step) phase (Some start) (Some completed) attempts msg results None None in
  let attemptsOf (n : Z) := if (0 <? n)%Z then wrap32 n else 1%Z in
  let type := a_Type (st_Action step) in
  if (type =? stepActionHTTP) then
    let! o := executeHTTPStep r step sr td ps (fr_Namespace flowRun) in
    let '(results, msg, attempts, err) := o in
    let! t := now in
    match err with
    | Some e =>
        if isTransport e then Ret (status StepPhaseRunning t (attemptsOf attempts) "" [], Some e)
        else Ret (status StepPhaseFailed t (attemptsOf attempts) (emsg e) [], None)
    | None => Ret (status StepPhaseSucceeded t (attemptsOf attempts) msg (mapsToResults results), None)
    end
  else if (type =? stepActionTransform) then
    let! t := now in
    match a_Transform (st_Action step) with
    | None => Ret (status StepPhaseFailed t 1%Z ("step " +:+ Quote (st_Name step)
                     +:+ " has type=transform but no transform spec") [], None)
    | Some tr =>
        let substituted := (λ v, substituteVars v sr td ps) <$> t_Mappings tr in
        Ret (status StepPhaseSucceeded t 1%Z "" (mapsToResults substituted), None)
    end
  else if (type =? stepActionPublish) then
    let! o := executePublishStep r flowRun step td sr ps in
    let '(result, attempts, err) := o in
    let! t := now in
    match err with
    | Some e => Ret (status StepPhaseFailed t (attemptsOf attempts) (emsg e) [], None)
    | None => Ret (status StepPhaseSucceeded t (attemptsOf attempts) "" (mapsToResults result), None)
    end
  else
    let! t := now in
    Ret (status StepPhaseFailed t 1%Z ("unknown step action type: " +:+ Quote type) [], None).

End publish.
