(* ===== verification/FlowRun.v ===== *)
(** * The FlowRun controller

    [internal/controller/flowrun_controller.go]: [Reconcile] and the functions
    it calls.  [Reconcile] is one Go function; here each of its blocks is a
    definition of its own, composed in the order of the code.

    The goroutines of a wave only share read-only data, the Integration cache
    and the mutex-protected producer cache; a wave is modelled as the list of
    its steps' programs, run one after the other.  Every theorem quantifies over
    all answers of the environment to each request, so the answers an
    interleaving would produce are among those considered.  Deadlines
    ([context.WithTimeout]) show as errors the environment may answer with.
    Spans, metrics and log lines are left out. *)

From stdpp Require Import sorting.
From S2P Require Import Prelude GoStd Api Effects Interp Net Ssrf Kube FlowCtl Steps Publish.

Local Open Scope string_scope.
Local Open Scope list_scope.
Local Open Scope go_scope.

Definition retainAnnotation : string := "kubezap.io/retain".
Definition cancelAnnotation : string := "kubezap.io/cancel".
Definition executingFinalizer : string := "kubezap.io/executing".
Definition annotationValueTrue : string := "true".
Definition labelTrigger : string := "kubezap.io/trigger".
Definition labelPhase : string := "kubezap.io/phase".

(** [m[k] == "true"] *)
Definition annotated (k : string) (m : ObjectMeta) : bool :=
  bool_decide (m_Annotations m !! k = Some annotationValueTrue).

(** [sort.Slice] by completion time, as [enforceMaxFlowRunsByPhase] calls it
    (the order of runs that finished together is the library's choice). *)
Class SortLib := { sortByCompletion : list FlowRun → list FlowRun }.

Class SortLibLaws `{SortLib} : Prop := {
  sort_perm l : sortByCompletion l ≡ₚ l;
  sort_sorted l :
    (∀ fr, fr ∈ l → is_Some (fst_CompletionTime (fr_Status fr))) →
    StronglySorted (λ a b, (default 0%Z (fst_CompletionTime (fr_Status a))
                            <= default 0%Z (fst_CompletionTime (fr_Status b)))%Z)
      (sortByCompletion l)
}.

(** ** Dependencies *)

Definition findFlowStep (steps : list FlowStep) (name : string) : option FlowStep :=
  find_by (λ s, (st_Name s =? name)) steps.

Definition stepContinues (step : FlowStep) : bool :=
  bool_decide (st_OnFailure step = OnFailureActionContinue).

Definition depSatisfied (statuses : list StepRunStatus) (allSteps : list FlowStep)
    (failurePolicyContinue : bool) (dep : string) : bool :=
  match findStepStatus statuses dep with
  | None => false
  | Some s =>
      match ss_Phase s with
      | StepPhaseSucceeded | StepPhaseSkipped => true
      | StepPhaseFailed =>
          failurePolicyContinue
          || match findFlowStep allSteps dep with Some d => stepContinues d | None => false end
      | _ => false
      end
  end.

Fixpoint dependenciesMet_loop (deps : list string) (statuses : list StepRunStatus)
    (allSteps : list FlowStep) (failurePolicyContinue : bool) : bool :=
  match deps with
  | [] => true
  | dep :: deps =>
      if depSatisfied statuses allSteps failurePolicyContinue dep
      then dependenciesMet_loop deps statuses allSteps failurePolicyContinue else false
  end.

Definition dependenciesMet (step : FlowStep) (statuses : list StepRunStatus)
    (allSteps : list FlowStep) (failurePolicyContinue : bool) : bool :=
  dependenciesMet_loop (st_RunAfter step) statuses allSteps failurePolicyContinue.

Definition allDepsSkipped (step : FlowStep) (statuses : list StepRunStatus) : bool :=
  match st_RunAfter step with
  | [] => false
  | deps => forallb (λ dep, match findStepStatus statuses dep with
                            | Some s => bool_decide (ss_Phase s = StepPhaseSkipped)
                            | None => false
                            end) deps
  end.

(** [existing != nil && existing.Phase != "" && existing.Phase != Pending] *)
Definition started (existing : option StepRunStatus) : bool :=
  match existing with
  | None => false
  | Some s => bool_decide (ss_Phase s ≠ StepPhaseEmpty) && bool_decide (ss_Phase s ≠ StepPhasePending)
  end.

Definition terminalStep (p : StepPhase) : bool :=
  match p with StepPhaseSucceeded | StepPhaseSkipped | StepPhaseFailed => true | _ => false end.

Definition terminalPhase (p : FlowRunPhase) : bool :=
  match p with
  | FlowRunPhaseSucceeded | FlowRunPhaseFailed | FlowRunPhaseCancelled => true
  | _ => false
  end.

(** The scan of the step statuses: [allTerminal] and [anyRunning]. *)
Definition scanStep (statuses : list StepRunStatus) '(allTerminal, anyRunning) (step : FlowStep)
    : bool * bool :=
  match findStepStatus statuses (st_Name step) with
  | None => (false, anyRunning)
  | Some s =>
      match ss_Phase s with
      | StepPhaseSucceeded | StepPhaseSkipped | StepPhaseFailed => (allTerminal, anyRunning)
      | StepPhaseRunning | StepPhaseWaiting => (false, true)
      | _ => (false, anyRunning)
      end
  end.

Definition scanSteps (steps : list FlowStep) (statuses : list StepRunStatus) : bool * bool :=
  fold_left (scanStep statuses) steps (true, false).

(** The steps ready for execution in this wave. *)
Definition ready (flow : Flow) (statuses : list StepRunStatus) (step : FlowStep) : bool :=
  let failurePolicyContinue := bool_decide (fs_FailurePolicy (fl_Spec flow) = FailurePolicyContinue) in
  if negb (dependenciesMet step statuses (fs_Steps (fl_Spec flow)) failurePolicyContinue) then false
  else
    let existing := findStepStatus statuses (st_Name step) in
    if started existing then
      match existing with
      | Some s => bool_decide (ss_Phase s = StepPhaseWaiting) && (a_Type (st_Action step) =? stepActionWait)
      | None => false
      end
    else true.

Definition collectWave (flow : Flow) (statuses : list StepRunStatus) : list FlowStep :=
  List.filter (ready flow statuses) (fs_Steps (fl_Spec flow)).

(** [step.OnFailure == Continue || flow.Spec.FailurePolicy == Continue] *)
Definition continues (flow : Flow) (step : FlowStep) : bool :=
  stepContinues step || bool_decide (fs_FailurePolicy (fl_Spec flow) = FailurePolicyContinue).

(** The results of the completed steps (no results is the nil slice). *)
Definition rebuildStepResults (statuses : list StepRunStatus) : gmap string (gmap string string) :=
  fold_left (λ m s,
    match ss_Phase s, ss_Results s with
    | (StepPhaseSucceeded | StepPhaseSkipped), (_ :: _) as l => <[ss_Name s := resultsToMap l]> m
    | _, _ => m
    end) statuses ∅.

(** The last check before success: the first failed step that is fatal. *)
Definition fatalFailure (flow : Flow) (statuses : list StepRunStatus) : option string :=
  match find_by (λ s,
    bool_decide (ss_Phase s = StepPhaseFailed)
    && existsb (λ step, (st_Name step =? ss_Name s) && negb (continues flow step)) (fs_Steps (fl_Spec flow)))
    statuses with
  | Some s => Some ("step " +:+ Quote (ss_Name s) +:+ " failed: " +:+ ss_Message s)
  | None => None
  end.

Section flowrun.
  Context `{CelLib} `{HttpLib} `{NetLib} `{KubeLib} `{SortLib}.

Implicit Types (sr : gmap string (gmap string string)) (td : option TriggerData)
  (ps : gmap string string).

(** ** Finishing a FlowRun *)

Definition setFlowRunCondition (flowRun : FlowRun) (condition : Condition) : Prog Ev FlowRun :=
  let! t := match c_LastTransitionTime condition with
            | Some t => Ret t
            | None => now
            end in
  let c := MkCondition (c_Type condition) (c_Status condition) (c_Reason condition)
             (c_Message condition) (Some t) (c_ObservedGeneration condition) in
  let s := fr_Status flowRun in
  Ret (set_Status (MkFlowRunStatus (m_Generation (fr_Meta flowRun)) (fst_Phase s)
         (SetStatusCondition t (fst_Conditions s) c) (fst_StartTime s) (fst_CompletionTime s)
         (fst_Steps s) (fst_Message s) (fst_DurationMillis s)) flowRun).

(** [DurationMillis], when the start time is known. *)
Definition setDuration (flowRun : FlowRun) : Prog Ev FlowRun :=
  let s := fr_Status flowRun in
  match fst_StartTime s with
  | None => Ret flowRun
  | Some start =>
      let! t := now in
      Ret (set_Status (MkFlowRunStatus (fst_ObservedGeneration s) (fst_Phase s) (fst_Conditions s)
             (fst_StartTime s) (fst_CompletionTime s) (fst_Steps s) (fst_Message s)
             (Some (Milliseconds (t - start)))) flowRun)
  end.

Definition setPhaseLabel (p : FlowRunPhase) (flowRun : FlowRun) : FlowRun :=
  set_Meta (set_Labels (<[labelPhase := phase_string p]> (m_Labels (fr_Meta flowRun))) (fr_Meta flowRun)) flowRun.

Definition dropFinalizer (flowRun : FlowRun) : FlowRun :=
  if containsString (m_Finalizers (fr_Meta flowRun)) executingFinalizer
  then set_Meta (set_Finalizers (removeString (m_Finalizers (fr_Meta flowRun)) executingFinalizer)
                   (fr_Meta flowRun)) flowRun
  else flowRun.

Definition setFinished (phase : FlowRunPhase) (t : Z) (msg : string) (flowRun : FlowRun) : FlowRun :=
  let s := fr_Status flowRun in
  set_Status (MkFlowRunStatus (fst_ObservedGeneration s) phase (fst_Conditions s) (fst_StartTime s)
                (Some t) (fst_Steps s) msg (fst_DurationMillis s)) flowRun.

Definition errOf {A} (r : result A) : option gerr := match r with Ok _ => None | Err e => Some e end.

Definition finishFlowRun (flowRun : FlowRun) (phase : FlowRunPhase) (reason msg : string)
    : Prog Ev (option gerr) :=
  let! t := now in
  let flowRun := setPhaseLabel phase flowRun in
  let flowRun := setFinished phase t msg flowRun in
  let! flowRun := setFlowRunCondition flowRun
    (MkCondition (phase_string phase) ConditionTrue reason msg (Some t) 0) in
  let! flowRun := setDuration flowRun in
  let! u := emit (EvStatusUpdateFlowRun flowRun) in
  match u with
  | Err e => Ret (Some e)
  | Ok flowRun =>
      let! u := emit (EvUpdateFlowRun (dropFinalizer flowRun)) in
      Ret (errOf u)
  end.

Definition failFlowRun (flowRun : FlowRun) (msg : string) : Prog Ev (option gerr) :=
  finishFlowRun flowRun FlowRunPhaseFailed "FlowRunFailed" msg.

Definition cancelFlowRun (flowRun : FlowRun) (msg : string) : Prog Ev (option gerr) :=
  finishFlowRun flowRun FlowRunPhaseCancelled "FlowRunCancelled" msg.

(** [return ctrl.Result{}, f(...)] *)
Definition returning (p : Prog Ev (option gerr)) : Prog Ev (Result * option gerr) :=
  let! e := p in Ret (MkResultR false 0, e).

(** ** [when] expressions *)

Definition triggerActivation td : TriggerAct :=
  match td with
  | None => MkTriggerAct "" (JObj ∅) "" "0" "0" "" "" "" ∅
  | Some d =>
      MkTriggerAct (td_Body d)
        (match parseTriggerBody td with JNull => JObj ∅ | v => v end)
        (td_Topic d) (Itoa (td_Partition d)) (Itoa (td_Offset d)) (td_Key d) (td_KeyEncoding d)
        (match td_ScheduledTime d with Some t => FormatRFC3339 t | None => "" end)
        (td_Headers d)
  end.

Definition stepsActivation sr (statuses : list StepRunStatus) : gmap string StepAct :=
  let m := fold_left (λ m '(name, results),
             <[ReplaceAll name "-" "_" := MkStepAct results StepPhaseEmpty]> m)
             (map_to_list sr) (∅ : gmap string StepAct) in
  fold_left (λ (m : gmap string StepAct) s,
    let u := ReplaceAll (ss_Name s) "-" "_" in
    match m !! u with
    | Some a => <[u := MkStepAct (sa_results a) (ss_Phase s)]> m
    | None => <[u := MkStepAct ∅ (ss_Phase s)]> m
    end) statuses m.

(** The program of an expression, from the cache or compiled. *)
Definition celProgram (r : FlowRunReconciler) (expr : string) : Prog Ev (result cel_Prog) :=
  let! cached := if DisableCELCache r then Ret None else emit (EvCelLoad expr) in
  match cached with
  | Some prog => Ret (Ok prog)
  | None =>
      match cel_Compile expr with
      | Err e => Ret (Err (wrapf "CEL compile error: " e))
      | Ok ast =>
          match cel_Program ast (if (0 <? CELCostLimit r)%Z then Some (CELCostLimit r) else None) with
          | Err e => Ret (Err (wrapf "CEL program error: " e))
          | Ok prog =>
              let! _ := if DisableCELCache r then Ret tt else emit (EvCelStore expr prog) in
              Ret (Ok prog)
          end
      end
  end.

Fixpoint evalWhenLoop (r : FlowRunReconciler) (activation : Activation) (when_ : list string)
    : Prog Ev (result bool) :=
  match when_ with
  | [] => Ret (Ok true)
  | expr :: when_ =>
      let! p := celProgram r expr in
      match p with
      | Err e => Ret (Err e)
      | Ok prog =>
          match cel_Eval prog activation with
          | Err e => Ret (Err (wrapf "CEL eval error: " e))
          | Ok (CelOther shown) => Ret (Err (errorf ("CEL expression did not return bool: " +:+ shown)))
          | Ok (CelBool b) => if b then evalWhenLoop r activation when_ else Ret (Ok false)
          end
      end
  end.

Definition evaluateWhen (r : FlowRunReconciler) (when_ : list string) sr
    (statuses : list StepRunStatus) td ps : Prog Ev (result bool) :=
  match when_ with
  | [] => Ret (Ok true)
  | _ =>
      if negb (celEnvReady r) then Ret (Err (errorf "CEL environment not initialized"))
      else evalWhenLoop r (MkActivation (triggerActivation td) (stepsActivation sr statuses) ps) when_
  end.

(** ** Garbage collection *)

(** The deletion loop: an error other than NotFound ends it. *)
Definition deleteAll (l : list FlowRun) : Prog Ev (gerr + unit) :=
  pfold_ret (λ _ fr,
    let! d := emit (EvDeleteFlowRun fr) in
    match d with
    | Err e => if isNotFound e then Ret (inr tt) else Ret (inl e)
    | Ok _ => Ret (inr tt)
    end) l tt.

Definition gcCandidate (phase : FlowRunPhase) (fr : FlowRun) : bool :=
  bool_decide (fr_Phase fr = phase) && negb (annotated retainAnnotation (fr_Meta fr)).

Definition enforceMaxFlowRunsByPhase (triggerName ns : string) (phase : FlowRunPhase) (max : Z)
    : Prog Ev (option gerr) :=
  let! l := emit (EvListFlowRuns (Some ns)
                    (<[labelPhase := phase_string phase]> {[labelTrigger := triggerName]})) in
  match l with
  | Err e => Ret (Some e)
  | Ok items =>
      let matching := List.filter (gcCandidate phase) items in
      let n := wrap32 (Z.of_nat (length matching)) in
      if (n <=? max)%Z then Ret None
      else
        let toDelete := wrap32 (n - max) in
        let! d := deleteAll (take (Z.to_nat toDelete) (sortByCompletion matching)) in
        match d with
        | inl e => Ret (Some e)
        | inr _ =>
            (* With a negative limit the loop runs past the slice; the manager
               recovers the panic and reports it as the error of the reconcile. *)
            if (Z.of_nat (length matching) <? toDelete)%Z
            then Ret (Some (errorf "panic: runtime error: index out of range [recovered]"))
            else Ret None
        end
  end.

Definition enforceFlowRunGCPolicy (triggerName ns : string) (policy : FlowRunGCPolicy)
    : Prog Ev (option gerr) :=
  let! e :=
    match gc_MaxSucceeded policy with
    | None => Ret None
    | Some m => enforceMaxFlowRunsByPhase triggerName ns FlowRunPhaseSucceeded m
    end in
  match e with
  | Some e => Ret (Some e)
  | None =>
      match gc_MaxFailed policy with
      | None => Ret None
      | Some m => enforceMaxFlowRunsByPhase triggerName ns FlowRunPhaseFailed m
      end
  end.

(** The Trigger named by the label, when it can be read and has a GC policy. *)
Definition triggerGCPolicy (flowRun : FlowRun) : Prog Ev (option (string * FlowRunGCPolicy)) :=
  match m_Labels (fr_Meta flowRun) !! labelTrigger with
  | None => Ret None
  | Some triggerName =>
      if (triggerName =? "") then Ret None
      else
        let! t := emit (EvGetTrigger (fr_Namespace flowRun) triggerName) in
        match t with
        | Err _ => Ret None
        | Ok trigger => Ret (pair triggerName <$> ts_FlowRunGC (tg_Spec trigger))
        end
  end.

(** Priority: the FlowRun's spec, the Trigger's policy, the operator flags. *)
Definition gcTTL (r : FlowRunReconciler) (flowRun : FlowRun) (gc : option FlowRunGCPolicy) : Z :=
  let ttl := if bool_decide (fr_Phase flowRun = FlowRunPhaseFailed) then TTLFailed r else TTLSucceeded r in
  let ttl :=
    match gc with
    | None => ttl
    | Some gc =>
        match fr_Phase flowRun with
        | FlowRunPhaseSucceeded => default ttl (gc_TTLAfterSucceeded gc)
        | FlowRunPhaseFailed => default ttl (gc_TTLAfterFailed gc)
        | _ => ttl
        end
    end in
  default ttl (frs_TTLAfterFinished (fr_Spec flowRun)).

Definition reconcileGC (r : FlowRunReconciler) (flowRun : FlowRun) : Prog Ev (result Z) :=
  if annotated retainAnnotation (fr_Meta flowRun) then Ret (Ok 0%Z)
  else
    let! p := triggerGCPolicy flowRun in
    let! e :=
      match p with
      | None => Ret None
      | Some (triggerName, gc) => enforceFlowRunGCPolicy triggerName (fr_Namespace flowRun) gc
      end in
    match e with
    | Some e => Ret (Err e)
    | None =>
        let! p := triggerGCPolicy flowRun in
        let ttl := gcTTL r flowRun (snd <$> p) in
        if (ttl =? 0)%Z then Ret (Ok 0%Z)
        else match fst_CompletionTime (fr_Status flowRun) with
             | None => Ret (Ok 0%Z)
             | Some completionTime =>
                 let expiry := (completionTime + ttl)%Z in
                 let! t := now in
                 if (t <? expiry)%Z then Ret (Ok (expiry - t)%Z)
                 else
                   let! d := emit (EvDeleteFlowRun flowRun) in
                   match d with
                   | Err e => if isNotFound e then Ret (Ok 0%Z) else Ret (Err e)
                   | Ok _ => Ret (Ok 0%Z)
                   end
             end
    end.

(** ** The blocks of [Reconcile] *)

(** Pending to Running: the finalizer first, then the status. *)
Definition startRunning (flowRun : FlowRun) : Prog Ev (result FlowRun) :=
  let! u :=
    if negb (containsString (m_Finalizers (fr_Meta flowRun)) executingFinalizer)
    then emit (EvUpdateFlowRun
           (set_Meta (set_Finalizers (m_Finalizers (fr_Meta flowRun) ++ [executingFinalizer])
                        (fr_Meta flowRun)) flowRun))
    else Ret (Ok flowRun) in
  match u with
  | Err e => Ret (Err e)
  | Ok flowRun =>
      let! t := now in
      let s := fr_Status flowRun in
      let flowRun := set_Status (MkFlowRunStatus (fst_ObservedGeneration s) FlowRunPhaseRunning
        (fst_Conditions s) (Some t) (fst_CompletionTime s) (fst_Steps s) (fst_Message s)
        (fst_DurationMillis s)) flowRun in
      let! flowRun := setFlowRunCondition flowRun
        (MkCondition "Running" ConditionTrue "FlowRunRunning" "FlowRun is running" (Some t) 0) in
      emit (EvStatusUpdateFlowRun flowRun)
  end.

Definition ensureRunning (flowRun : FlowRun) : Prog Ev (result FlowRun) :=
  match fr_Phase flowRun with
  | PhaseEmpty | FlowRunPhasePending => startRunning flowRun
  | _ => Ret (Ok flowRun)
  end.

(** Orphan recovery: the message when the execution timeout is exceeded. *)
Definition orphanCheck (r : FlowRunReconciler) (flowRun : FlowRun) : Prog Ev (option string) :=
  match fst_StartTime (fr_Status flowRun) with
  | None => Ret None
  | Some start =>
      if (0 <? ExecutionTimeout r)%Z then
        let! t := now in
        if (ExecutionTimeout r <? t - start)%Z then
          let! t' := now in
          Ret (Some ("execution timeout exceeded (running for " +:+ Duration_String (Truncate (t' - start) Second)
                     +:+ ", limit " +:+ Duration_String (ExecutionTimeout r) +:+ ")"))
        else Ret None
      else Ret None
  end.

Definition inlineStatus (name : string) (phase : StepPhase) (msg : string) (t : Z) : StepRunStatus :=
  MkStepStatus name phase None (Some t) 0 msg [] None None.

(** One round of the inline loop: cascade skips and [when] conditions. *)
Definition inlineStep (r : FlowRunReconciler) (flow : Flow) sr ps
    (st : FlowRun * bool) (step : FlowStep) : Prog Ev ((Result * option gerr) + FlowRun * bool) :=
  let '(flowRun, skippedAny) := st in
  let statuses := fr_Steps flowRun in
  let record (phase : StepPhase) (msg : string) (t : Z) :=
    with_steps (upsertStepStatus statuses (inlineStatus (st_Name step) phase msg t)) flowRun in
  if negb (dependenciesMet step statuses (fs_Steps (fl_Spec flow))
             (bool_decide (fs_FailurePolicy (fl_Spec flow) = FailurePolicyContinue)))
  then Ret (inr st)
  else if started (findStepStatus statuses (st_Name step)) then Ret (inr st)
  else if allDepsSkipped step statuses then
    let! t := now in
    Ret (inr (record StepPhaseSkipped "all runAfter dependencies were skipped" t, true))
  else match st_When step with
  | [] => Ret (inr st)
  | _ =>
      let! w := evaluateWhen r (st_When step) sr statuses (frs_TriggerData (fr_Spec flowRun)) ps in
      match w with
      | Err err =>
          let! t := now in
          let! u := emit (EvStatusUpdateFlowRun
                      (record StepPhaseFailed ("when expression error: " +:+ emsg err) t)) in
          match u with
          | Err e => Ret (inl (done_err e))
          | Ok flowRun =>
              if continues flow step then Ret (inr (flowRun, true))
              else
                let! res := returning (failFlowRun flowRun
                  ("step " +:+ Quote (st_Name step) +:+ " when expression error: " +:+ emsg err)) in
                Ret (inl res)
          end
      | Ok run =>
          if negb run then
            let! t := now in
            Ret (inr (record StepPhaseSkipped "when condition evaluated to false" t, true))
          else Ret (inr st)
      end
  end.

Definition failed_status (ss : StepRunStatus) (t : Z) (msg : string) : StepRunStatus :=
  MkStepStatus (ss_Name ss) StepPhaseFailed (ss_StartTime ss) (Some t) (ss_Attempts ss) msg
    (ss_Results ss) (ss_DurationMillis ss) (ss_ResumeAfter ss).

Definition succeeded_status (ss : StepRunStatus) (t : Z) : StepRunStatus :=
  MkStepStatus (ss_Name ss) StepPhaseSucceeded (ss_StartTime ss) (Some t) (ss_Attempts ss)
    (ss_Message ss) (ss_Results ss) (ss_DurationMillis ss) (ss_ResumeAfter ss).

Definition stepFailedMsg (name msg : string) : string :=
  "step " +:+ Quote name +:+ " failed: " +:+ msg.

(** A wait step is a barrier: its handling always returns. *)
Definition handleWait (flow : Flow) (flowRun : FlowRun) (step : FlowStep)
    : Prog Ev (Result * option gerr) :=
  let! t := now in
  let startTime := default t (findStepStatus (fr_Steps flowRun) (st_Name step) ≫= ss_StartTime) in
  let ss := MkStepStatus (st_Name step) StepPhaseEmpty (Some startTime) None 1 "" [] None None in
  let! w := executeWaitStep flowRun step ss in
  let '(ss, r) := w in
  let persist (ss : StepRunStatus) :=
    emit (EvStatusUpdateFlowRun (with_steps (upsertStepStatus (fr_Steps flowRun) ss) flowRun)) in
  match r with
  | Err err =>
      let! t := now in
      let! u := persist (failed_status ss t (emsg err)) in
      match u with
      | Err e => Ret (done_err e)
      | Ok flowRun =>
          if continues flow step then Ret requeue_now
          else returning (failFlowRun flowRun (stepFailedMsg (st_Name step) (emsg err)))
      end
  | Ok requeueAfter =>
      if (0 <? requeueAfter)%Z then
        let! u := persist ss in
        match u with
        | Err e => Ret (done_err e)
        | Ok _ => Ret (requeue_after requeueAfter)
        end
      else
        let! t := now in
        let! u := persist (succeeded_status ss t) in
        match u with
        | Err e => Ret (done_err e)
        | Ok _ => Ret requeue_now
        end
  end.

(** [stepResult] *)
Record WaveResult := MkWaveResult {
  wr_status : StepRunStatus;
  wr_failFatal : bool;
  wr_failMsg : string;
  wr_duration : Z;
  wr_requeueAfter : Z
}.

(** The body of a step's goroutine. *)
Definition executeWaveStep (r : FlowRunReconciler) (flow : Flow) (flowRun : FlowRun) sr ps
    (step : FlowStep) : Prog Ev WaveResult :=
  let! stepStart := now in
  let! x := executeStep r step flowRun sr (frs_TriggerData (fr_Spec flowRun)) ps in
  let '(ss, err) := x in
  let! t := now in
  let dur := (t - stepStart)%Z in
  match err with
  | Some e =>
      if isTransport e
      then Ret (MkWaveResult (MkStepStatus (st_Name step) StepPhaseRunning None None 0 "" [] None None)
                  false "" dur executorTransportBackoff)
      else Ret (MkWaveResult (MkStepStatus (st_Name step) StepPhaseFailed None None 0 (emsg e) [] None None)
                  false "" dur 0)
  | None =>
      if bool_decide (ss_Phase ss = StepPhaseFailed) && negb (continues flow step)
      then Ret (MkWaveResult ss true (stepFailedMsg (st_Name step) (ss_Message ss)) dur 0)
      else Ret (MkWaveResult ss false "" dur 0)
  end.

Definition transportRequeue (results : list WaveResult) : Z :=
  fold_left (λ d res, if (d <? wr_requeueAfter res)%Z then wr_requeueAfter res else d) results 0%Z.

Definition withDuration (res : WaveResult) : StepRunStatus :=
  let ss := wr_status res in
  if terminalStep (ss_Phase ss)
  then MkStepStatus (ss_Name ss) (ss_Phase ss) (ss_StartTime ss) (ss_CompletionTime ss) (ss_Attempts ss)
         (ss_Message ss) (ss_Results ss) (Some (Milliseconds (wr_duration res))) (ss_ResumeAfter ss)
  else ss.

(** Merge the results into the statuses; the first fatal message. *)
Definition mergeResult '(l, fatalMsg) (res : WaveResult) : list StepRunStatus * string :=
  (upsertStepStatus l (withDuration res),
   if wr_failFatal res && (fatalMsg =? "") then wr_failMsg res else fatalMsg).

Definition mergeResults (results : list WaveResult) (statuses : list StepRunStatus)
    : list StepRunStatus * string :=
  fold_left mergeResult results (statuses, "").

Definition executeWave (r : FlowRunReconciler) (flow : Flow) (flowRun : FlowRun) sr ps
    (wave : list FlowStep) : Prog Ev (Result * option gerr) :=
  let! results := pmap (executeWaveStep r flow flowRun sr ps) wave in
  let requeue := transportRequeue results in
  if (0 <? requeue)%Z then Ret (requeue_after requeue)
  else
    let '(statuses, fatalMsg) := mergeResults results (fr_Steps flowRun) in
    let! u := emit (EvStatusUpdateFlowRun (with_steps statuses flowRun)) in
    match u with
    | Err e => Ret (done_err e)
    | Ok flowRun =>
        if negb (fatalMsg =? "") then returning (failFlowRun flowRun fatalMsg)
        else Ret requeue_now
    end.

(** All steps done: fail on a fatal failed step, or succeed. *)
Definition finalize (flow : Flow) (flowRun : FlowRun) : Prog Ev (Result * option gerr) :=
  match fatalFailure flow (fr_Steps flowRun) with
  | Some msg => returning (failFlowRun flowRun msg)
  | None =>
      let! t := now in
      let flowRun := setFinished FlowRunPhaseSucceeded t (fst_Message (fr_Status flowRun)) flowRun in
      let! flowRun := setFlowRunCondition flowRun
        (MkCondition "Succeeded" ConditionTrue "FlowRunSucceeded" "FlowRun completed successfully" (Some t) 0) in
      let! flowRun := setDuration flowRun in
      let! u := emit (EvStatusUpdateFlowRun flowRun) in
      match u with
      | Err e => Ret (done_err e)
      | Ok flowRun =>
          let! u := emit (EvUpdateFlowRun (dropFinalizer (setPhaseLabel FlowRunPhaseSucceeded flowRun))) in
          Ret (MkResultR false 0, errOf u)
      end
  end.

(** The wave of this reconcile, once no inline transition is left. *)
Definition dispatchWave (r : FlowRunReconciler) (flow : Flow) (flowRun : FlowRun) sr ps
    (anyRunning : bool) : Prog Ev (Result * option gerr) :=
  match collectWave flow (fr_Steps flowRun) with
  | [] => if anyRunning then Ret (requeue_after (5 * Second)) else finalize flow flowRun
  | wave =>
      match find_by (λ s, (a_Type (st_Action s) =? stepActionWait)) wave with
      | Some step => handleWait flow flowRun step
      | None => executeWave r flow flowRun sr ps wave
      end
  end.

(** The body for a FlowRun that is Running. *)
Definition runSteps (r : FlowRunReconciler) (ns name : string) (flow : Flow) (flowRun : FlowRun)
    : Prog Ev (Result * option gerr) :=
  let stepResults := rebuildStepResults (fr_Steps flowRun) in
  match resolveFlowParams (fs_Params (fl_Spec flow)) (frs_Params (fr_Spec flowRun)) stepResults
          (frs_TriggerData (fr_Spec flowRun)) with
  | Err e => returning (failFlowRun flowRun (emsg e))
  | Ok params =>
      let '(allTerminal, anyRunning) := scanSteps (fs_Steps (fl_Spec flow)) (fr_Steps flowRun) in
      if allTerminal : bool then finalize flow flowRun
      else
        let! l := pfold_ret (inlineStep r flow stepResults params) (fs_Steps (fl_Spec flow)) (flowRun, false) in
        match l with
        | inl res => Ret res
        | inr (flowRun, skippedAny) =>
            if skippedAny : bool then
              let! u := emit (EvStatusUpdateFlowRun flowRun) in
              match u with
              | Err e => Ret (done_err e)
              | Ok _ =>
                  let! g := emit (EvGetFlowRun ns name) in
                  match g with
                  | Err e => Ret (ignoreNotFound e)
                  | Ok _ => Ret requeue_now
                  end
              end
            else dispatchWave r flow flowRun stepResults params anyRunning
        end
  end.

Definition cancelReason (flowRun : FlowRun) : option string :=
  if bool_decide (fr_Phase flowRun = FlowRunPhaseRunning) then
    match m_DeletionTimestamp (fr_Meta flowRun) with
    | Some _ => Some "FlowRun deleted while running"
    | None => if annotated cancelAnnotation (fr_Meta flowRun)
              then Some "FlowRun cancelled via kubezap.io/cancel annotation" else None
    end
  else None.

(** A FlowRun that is not terminal: fetch the Flow and go on. *)
Definition reconcileActive (r : FlowRunReconciler) (ns name : string) (flowRun : FlowRun)
    : Prog Ev (Result * option gerr) :=
  let! f := emit (EvGetFlow (fr_Namespace flowRun) (frs_FlowRef (fr_Spec flowRun))) in
  match f with
  | Err e =>
      if isNotFound e
      then returning (failFlowRun flowRun ("Flow not found: " +:+ frs_FlowRef (fr_Spec flowRun)))
      else Ret (done_err e)
  | Ok flow =>
      let! u := ensureRunning flowRun in
      match u with
      | Err e => Ret (done_err e)
      | Ok flowRun =>
          let! o := orphanCheck r flowRun in
          match o with
          | Some msg => returning (failFlowRun flowRun msg)
          | None => runSteps r ns name flow flowRun
          end
      end
  end.

Definition Reconcile (r : FlowRunReconciler) (ns name : string) : Prog Ev (Result * option gerr) :=
  let! g := emit (EvGetFlowRun ns name) in
  match g with
  | Err e => Ret (ignoreNotFound e)
  | Ok flowRun =>
      match cancelReason flowRun with
      | Some msg => returning (cancelFlowRun flowRun msg)
      | None =>
          if terminalPhase (fr_Phase flowRun) then
            let! g := reconcileGC r flowRun in
            match g with
            | Err e => Ret (done_err e)
            | Ok requeue => if (0 <? requeue)%Z then Ret (requeue_after requeue) else Ret done_ok
            end
          else reconcileActive r ns name flowRun
      end
  end.

(** ** The startup scan of [Start] *)
Definition startupScan (r : FlowRunReconciler) : Prog Ev unit :=
  if (0 <? ExecutionTimeout r)%Z then
    let! l := emit (EvListFlowRuns None ∅) in
    match l with
    | Err _ => Ret tt
    | Ok items =>
        pfold (λ _ fr,
          match fr_Phase fr, fst_StartTime (fr_Status fr) with
          | FlowRunPhaseRunning, Some start =>
              let! t := now in
              if (t - start <=? ExecutionTimeout r)%Z then Ret tt
              else
                let! t' := now in
                let! _ := failFlowRun fr
                  ("orphaned at startup: running for " +:+ Duration_String (Truncate (t' - start) Second)
                   +:+ " (limit " +:+ Duration_String (ExecutionTimeout r) +:+ ")") in
                Ret tt
          | _, _ => Ret tt
          end) items tt
    end
  else Ret tt.

(** Shutdown: every cached producer is closed and the maps become nil. *)
Definition closeProducers : Prog Ev unit :=
  let! c := emit EvProducersLock in
  let! _ := pfold (λ _ kp, emit (EvCloseProducer (snd kp))) (map_to_list (default ∅ (kafkaProducers c))) tt in
  emit (EvProducersUnlock (MkProducerCache None None)).

End flowrun.
