(* ===== verification/Frames.v ===== *)
(** * Which requests the step executors make

    Executing a step never writes a FlowRun: the requests of [executeStep] and
    of [evaluateWhen] are reads, sleeps, cache accesses, and (for [executeStep]
    only) calls to the executor, a plugin or a broker. *)

From S2P Require Import Prelude GoStd Api Effects Interp Net Ssrf Kube FlowCtl Steps Publish FlowRun.

Local Open Scope string_scope.
Local Open Scope list_scope.
Local Open Scope go_scope.

Section frames.
  Context `{CelLib} `{HttpLib} `{NetLib} `{KubeLib} `{SortLib}.

(** Requests that leave every FlowRun alone; [b] says whether calls with
    effects outside the cluster are allowed. *)
Definition quiet (b : bool) (X : Type) (e : Ev X) : Prop :=
  match e with
  | EvGetFlowRun _ _ | EvGetFlow _ _ | EvUpdateFlowRun _ | EvStatusUpdateFlowRun _
  | EvDeleteFlowRun _ | EvStatusUpdateFlow _ => False
  | EvExecutorDo _ _ _ | EvPluginDo _ _ _ | EvSendMessage _ _ _ _ => b = true
  | _ => True
  end.

Abbreviation quietly b p Q := (wp (any_spec (quiet b)) p tt (λ a _, Q a)).

Lemma quiet_bind {A B} b (p : Prog Ev A) (f : A → Prog Ev B) (Q : B → unit → Prop) :
  quietly b p (λ _, True) → (∀ a, wp (any_spec (quiet b)) (f a) tt Q) →
  wp (any_spec (quiet b)) (pbind p f) tt Q.
Proof.
  intros Hp Hf. apply wp_bind; [apply _|]. revert Hp. apply wp_mono; [apply _|]. intros a [] _. apply Hf.
Qed.

Lemma quiet_any {A} b (p : Prog Ev A) (Q : A → unit → Prop) :
  quietly b p (λ _, True) → (∀ a, Q a tt) → wp (any_spec (quiet b)) p tt Q.
Proof. intros Hp HQ. revert Hp. apply wp_mono; [apply _|]. intros a [] _. apply HQ. Qed.

Lemma quiet_emit {X} b (e : Ev X) : quiet b X e → quietly b (emit e) (λ _, True).
Proof. intros He. by split. Qed.

Lemma quiet_now b : quietly b now (λ _, True).
Proof. by apply quiet_emit. Qed.

Lemma quiet_fold_ret {A T R} b (body : T → A → Prog Ev (R + T)) l t :
  (∀ t x, quietly b (body t x) (λ _, True)) → quietly b (pfold_ret body l t) (λ _, True).
Proof.
  intros Hb. revert t. induction l as [|x l IH]; intros t; simpl; [done|].
  apply quiet_bind; [apply Hb|]. intros [|]; [done|]. apply IH.
Qed.

Create HintDb quiet discriminated.
Local Hint Resolve quiet_emit quiet_now : quiet.
Local Hint Extern 1 (quiet _ _ _) => exact I : quiet.
Local Hint Extern 1 (quiet true _ _) => reflexivity : quiet.

Ltac quiet_step :=
  lazymatch goal with
  | |- wp _ (pbind _ _) _ _ =>
      first [apply quiet_bind; [solve [eauto 3 with quiet]|intros ?] | apply wp_bind; [apply _|]]
  | |- wp _ (Ret _) _ _ => cbn [wp]
  | |- wp _ (match ?x with _ => _ end) _ _ => destruct x eqn:?
  | |- wp _ (emit _) _ _ => split; [try done|intros ?; cbn [wp]]
  | |- wp _ _ _ _ => apply quiet_any; [solve [eauto 3 with quiet]|intros ?]
  end.
Ltac quiet_go := repeat (cbv zeta; quiet_step; try done; eauto 3 with quiet).

(** ** Template resolution *)

Lemma resolve_token_quiet b token sr td ps root lh R :
  (∀ name key, quietly b (R name key) (λ _, True)) →
  quietly b (resolveInterpolationToken token sr td ps root lh (Some R)) (λ _, True).
Proof. intros HR. unfold resolveInterpolationToken. quiet_go. Qed.

Lemma interp_loop_quiet b fuel s sr td ps lh R root bp a d :
  (∀ name key, quietly b (R name key) (λ _, True)) →
  quietly b (interp_loop fuel s sr td ps lh (Some R) root bp a d) (λ _, True).
Proof.
  intros HR. revert s root bp a d. induction fuel as [|fuel IH]; intros s root bp a d; [done|].
  cbn [interp_loop]. quiet_step; [|done]. cbv zeta. quiet_step; [|done].
  destruct (if _ : bool then _ else _) as [root' bp'].
  apply quiet_bind; [by apply resolve_token_quiet|]. intros [[[v m] sec]|e]; [|done]. apply IH.
Qed.

Lemma fetchSecretValue_quiet b ns ref : quietly b (fetchSecretValue ns ref) (λ _, True).
Proof. unfold fetchSecretValue. quiet_go. Qed.
Lemma fetchConfigMapValue_quiet b ns ref : quietly b (fetchConfigMapValue ns ref) (λ _, True).
Proof. unfold fetchConfigMapValue. quiet_go. Qed.
Local Hint Resolve fetchSecretValue_quiet fetchConfigMapValue_quiet : quiet.

Lemma substituteVarsWithSecrets_quiet b ns s sr td ps :
  quietly b (substituteVarsWithSecrets ns s sr td ps) (λ _, True).
Proof. apply interp_loop_quiet. intros; apply fetchSecretValue_quiet. Qed.
Local Hint Resolve substituteVarsWithSecrets_quiet : quiet.

Lemma substituteHeaders_quiet b ns err hs sr td ps :
  quietly b (substituteHeaders ns err hs sr td ps) (λ _, True).
Proof. apply quiet_fold_ret. intros m [k v]. quiet_go. Qed.
Local Hint Resolve substituteHeaders_quiet : quiet.

(** ** HTTP steps *)

Lemma cachedIntegration_quiet b e ns name : quietly b (cachedIntegration e ns name) (λ _, True).
Proof. unfold cachedIntegration. quiet_go. Qed.
Lemma fetchWrapped_quiet b e ns ref : quietly b (fetchWrapped e ns ref) (λ _, True).
Proof. unfold fetchWrapped. quiet_go. Qed.
Local Hint Resolve cachedIntegration_quiet fetchWrapped_quiet : quiet.

Lemma applyHTTPAuth_quiet b a i ns u h : quietly b (applyHTTPAuth a i ns u h) (λ _, True).
Proof. unfold applyHTTPAuth. quiet_go. Qed.
Lemma resolveHTTPTLS_quiet b t i ns : quietly b (resolveHTTPTLS t i ns) (λ _, True).
Proof. unfold resolveHTTPTLS. quiet_go. Qed.
Local Hint Resolve applyHTTPAuth_quiet resolveHTTPTLS_quiet : quiet.

Lemma applyHTTPIntegration_quiet b i ns u h sr td ps :
  quietly b (applyHTTPIntegration i ns u h sr td ps) (λ _, True).
Proof. unfold applyHTTPIntegration. quiet_go. Qed.
Lemma resolveHTTPRequest_quiet b step h sr td ps ns :
  quietly b (resolveHTTPRequest step h sr td ps ns) (λ _, True).
Proof. unfold resolveHTTPRequest. quiet_go. Qed.
Lemma checkSSRF_quiet b u bl al :
  quietly b (checkSSRF (λ host, emit (EvLookupIP host)) u bl al) (λ _, True).
Proof. unfold checkSSRF. quiet_go. Qed.
Lemma callExecutor_quiet r ns req : quietly true (callExecutor r ns req) (λ _, True).
Proof. unfold callExecutor. quiet_go. Qed.
Local Hint Resolve applyHTTPIntegration_quiet resolveHTTPRequest_quiet checkSSRF_quiet callExecutor_quiet : quiet.

Lemma httpAttempts_quiet r step h ns req d n a m e :
  quietly true (httpAttempts r step h ns req d n a m e) (λ _, True).
Proof. revert a m e. induction n as [|n IH]; intros a m e; [done|]. cbn [httpAttempts]. quiet_go. Qed.
Local Hint Resolve httpAttempts_quiet : quiet.

Lemma executeHTTPStep_quiet r step sr td ps ns :
  quietly true (executeHTTPStep r step sr td ps ns) (λ _, True).
Proof. unfold executeHTTPStep. quiet_go. Qed.

(** ** Publish steps *)

Lemma doPluginPublish_quiet r u i ns d bd hs k :
  quietly true (doPluginPublish r u i ns d bd hs k) (λ _, True).
Proof. unfold doPluginPublish. quiet_go. Qed.
Lemma kafkaTLS_quiet b i spec : quietly b (kafkaTLS i spec) (λ _, True).
Proof. unfold kafkaTLS. quiet_go. Qed.
Lemma kafkaSASL_quiet b i spec : quietly b (kafkaSASL i spec) (λ _, True).
Proof. unfold kafkaSASL. quiet_go. Qed.
Local Hint Resolve kafkaTLS_quiet kafkaSASL_quiet : quiet.
Lemma newKafkaProducer_quiet b i spec : quietly b (newKafkaProducer i spec) (λ _, True).
Proof. unfold newKafkaProducer. quiet_go. Qed.
Lemma lookupProducer_quiet b k p l : quietly b (lookupProducer k p l) (λ _, True).
Proof. unfold lookupProducer. quiet_go. Qed.
Local Hint Resolve newKafkaProducer_quiet lookupProducer_quiet : quiet.
Lemma getOrCreateKafkaProducer_quiet b k i spec :
  quietly b (getOrCreateKafkaProducer k i spec) (λ _, True).
Proof. unfold getOrCreateKafkaProducer. quiet_go. Qed.
Local Hint Resolve getOrCreateKafkaProducer_quiet : quiet.
Lemma publishToKafka_quiet i spec t bd hs : quietly true (publishToKafka i spec t bd hs) (λ _, True).
Proof. unfold publishToKafka. quiet_go. Qed.
Lemma resolvePublish_quiet b step p ns sr td ps :
  quietly b (resolvePublish step p ns sr td ps) (λ _, True).
Proof. unfold resolvePublish. quiet_go. Qed.
Local Hint Resolve publishToKafka_quiet resolvePublish_quiet doPluginPublish_quiet : quiet.

Lemma publishAttempts_quiet policy send n a e :
  quietly true send (λ _, True) → quietly true (publishAttempts policy send n a e) (λ _, True).
Proof. intros Hs. revert a e. induction n as [|n IH]; intros a e; [done|]. cbn [publishAttempts]. quiet_go. Qed.
Local Hint Resolve publishAttempts_quiet : quiet.

Lemma executePublishStep_quiet r fr step td sr ps :
  quietly true (executePublishStep r fr step td sr ps) (λ _, True).
Proof. unfold executePublishStep. quiet_go. Qed.
Local Hint Resolve executeHTTPStep_quiet executePublishStep_quiet : quiet.

(** ** Whole steps *)

(** A step ends Succeeded or Failed under its own name, unless the executor
    was unreachable. *)
Definition step_outcome (step : FlowStep) (x : StepRunStatus * option gerr) : Prop :=
  match x with
  | (ss, None) => ss_Name ss = st_Name step ∧
                  (ss_Phase ss = StepPhaseSucceeded ∨ ss_Phase ss = StepPhaseFailed)
  | (_, Some e) => isTransport e = true
  end.

Lemma executeStep_quiet r step fr sr td ps :
  quietly true (executeStep r step fr sr td ps) (step_outcome step).
Proof.
  unfold executeStep. quiet_step. cbv zeta. repeat (quiet_step; try (simpl; by auto)).
Qed.

Lemma executeWaitStep_quiet b fr step ss :
  quietly b (executeWaitStep fr step ss)
    (λ '(ss', r), ss_Name ss' = ss_Name ss ∧
       ∀ d, r = Ok d → (0 < d)%Z → ss_Phase ss' = StepPhaseWaiting).
Proof.
  unfold executeWaitStep. cbv zeta. repeat (quiet_step; try (simpl; naive_solver)).
  split; [done|]. intros; simplify_eq. lia.
Qed.

Lemma celProgram_quiet b r expr : quietly b (celProgram r expr) (λ _, True).
Proof. unfold celProgram. quiet_go. Qed.
Local Hint Resolve celProgram_quiet : quiet.

Lemma evaluateWhen_quiet b r w sr st td ps : quietly b (evaluateWhen r w sr st td ps) (λ _, True).
Proof.
  unfold evaluateWhen. destruct w as [|x w]; [done|]. quiet_step; [done|].
  generalize (MkActivation (triggerActivation td) (stepsActivation sr st) ps). intros act.
  generalize (x :: w). clear x w. intros w. induction w as [|x w IH]; [done|]. cbn [evalWhenLoop]. quiet_go.
Qed.

End frames.
