(* ===== verification/StepOrder.v ===== *)
(** * Step statuses and their order

    Pure facts about the scheduling functions of the FlowRun controller: what
    an update of the step statuses may change, which steps a wave contains, and
    what "nothing left to run" means for an acyclic Flow. *)

From S2P Require Import Prelude GoStd Api Effects Interp Kube FlowCtl Steps Publish FlowRun.

Local Open Scope string_scope.
Local Open Scope list_scope.
Local Open Scope go_scope.

Definition flow_steps (fl : Flow) : list FlowStep := fs_Steps (fl_Spec fl).

Definition deps_met (fl : Flow) (statuses : list StepRunStatus) (step : FlowStep) : bool :=
  dependenciesMet step statuses (flow_steps fl)
    (bool_decide (fs_FailurePolicy (fl_Spec fl) = FailurePolicyContinue)).

(** ** Lookup after an update *)

Lemma find_upsert l x n :
  findStepStatus (upsertStepStatus l x) n
  = if decide (ss_Name x = n) then Some x else findStepStatus l n.
Proof.
  unfold findStepStatus. induction l as [|y l IH]; simpl.
  - case_decide as Hn; [by rewrite (proj2 (String.eqb_eq _ _) Hn)|].
    by rewrite (proj2 (String.eqb_neq _ _) Hn).
  - destruct (String.eqb_spec (ss_Name y) (ss_Name x)) as [Hyx|Hyx]; simpl.
    + rewrite Hyx. case_decide as Hn; [by rewrite (proj2 (String.eqb_eq _ _) Hn)|].
      by rewrite (proj2 (String.eqb_neq _ _) Hn).
    + destruct (String.eqb_spec (ss_Name y) n) as [Hy|Hy]; [|apply IH].
      rewrite decide_False by congruence. done.
Qed.

Definition upsertAll (l xs : list StepRunStatus) : list StepRunStatus := fold_left upsertStepStatus xs l.

Lemma find_upsertAll l xs n x :
  findStepStatus (upsertAll l xs) n = Some x →
  (findStepStatus l n = Some x ∧ n ∉ ss_Name <$> xs) ∨ (x ∈ xs ∧ ss_Name x = n).
Proof.
  unfold upsertAll. revert l. induction xs as [|y xs IH]; simpl; intros l Hf.
  - left. split; [done|]. by apply not_elem_of_nil.
  - apply IH in Hf as [[Hf Hn]|[Hx Hn]]; [|right; split; [by right|done]].
    rewrite find_upsert in Hf. case_decide as Hy; simplify_eq.
    + right. split; [by left|done].
    + left. split; [done|]. rewrite ?fmap_cons. apply not_elem_of_cons. by split.
Qed.

Lemma find_upsertAll_other l xs n :
  n ∉ ss_Name <$> xs → findStepStatus (upsertAll l xs) n = findStepStatus l n.
Proof.
  unfold upsertAll. revert l. induction xs as [|y xs IH]; simpl; intros l Hn; [done|].
  rewrite ?fmap_cons in Hn. apply not_elem_of_cons in Hn as [Hy Hn].
  rewrite IH by done. rewrite find_upsert, decide_False by congruence. done.
Qed.

(** ** What an update of the statuses may do *)

(** The outcome of a finished step is never changed. *)
Definition steps_kept (old new : list StepRunStatus) : Prop :=
  ∀ n x, findStepStatus old n = Some x → terminalStep (ss_Phase x) = true →
         findStepStatus new n = Some x.

(** The phases that are ever written. *)
Definition persistable (p : StepPhase) : Prop :=
  p = StepPhaseSucceeded ∨ p = StepPhaseFailed ∨ p = StepPhaseSkipped ∨ p = StepPhaseWaiting.

(** A status that changed is that of a step of the Flow whose dependencies are
    satisfied. *)
Definition steps_new (flow : option Flow) (old new : list StepRunStatus) : Prop :=
  ∀ n x, findStepStatus new n = Some x →
    findStepStatus old n = Some x ∨
    (persistable (ss_Phase x) ∧
     ∃ fl step, flow = Some fl ∧ step ∈ flow_steps fl ∧ st_Name step = n ∧ deps_met fl new step = true).

Definition steps_ok (flow : option Flow) (old new : list StepRunStatus) : Prop :=
  steps_kept old new ∧ steps_new flow old new.

Lemma depSatisfied_terminal l fl b dep :
  depSatisfied l fl b dep = true →
  ∃ x, findStepStatus l dep = Some x ∧ terminalStep (ss_Phase x) = true.
Proof.
  unfold depSatisfied. destruct (findStepStatus l dep) as [x|]; [|done].
  intros Hx. exists x. split; [done|]. by destruct (ss_Phase x).
Qed.

Lemma depSatisfied_kept old new fl b dep :
  steps_kept old new → depSatisfied old fl b dep = true → depSatisfied new fl b dep = true.
Proof.
  intros Hk Hd. pose proof (depSatisfied_terminal _ _ _ _ Hd) as (x & Hx & Ht).
  unfold depSatisfied in *. by rewrite (Hk _ _ Hx Ht), Hx in *.
Qed.

Lemma deps_loop_spec deps l fl b :
  dependenciesMet_loop deps l fl b = true ↔ ∀ dep, dep ∈ deps → depSatisfied l fl b dep = true.
Proof.
  induction deps as [|d deps IH]; simpl.
  - split; [intros _ dep Hd; by apply not_elem_of_nil in Hd|done].
  - destruct (depSatisfied l fl b d) eqn:Hd; split; intros Hx.
    + intros dep [->|Hin]%elem_of_cons; [done|]. by apply IH.
    + apply IH. intros; apply Hx. by right.
    + done.
    + rewrite Hx in Hd by (by left). done.
Qed.

Lemma deps_met_kept fl old new step :
  steps_kept old new → deps_met fl old step = true → deps_met fl new step = true.
Proof.
  unfold deps_met, dependenciesMet. rewrite !deps_loop_spec. eauto using depSatisfied_kept.
Qed.

Lemma steps_kept_refl l : steps_kept l l.
Proof. by intros n x. Qed.
Lemma steps_kept_trans a b c : steps_kept a b → steps_kept b c → steps_kept a c.
Proof. unfold steps_kept. eauto. Qed.

Lemma steps_ok_refl flow l : steps_ok flow l l.
Proof. split; [apply steps_kept_refl|]. intros n x Hx. by left. Qed.

Lemma steps_ok_trans flow a b c : steps_ok flow a b → steps_ok flow b c → steps_ok flow a c.
Proof.
  intros [Hk1 Hn1] [Hk2 Hn2]. split; [by eapply steps_kept_trans|].
  intros n x Hx. destruct (Hn2 _ _ Hx) as [Hb|]; [|by right].
  destruct (Hn1 _ _ Hb) as [Ha|(Hp & fl & step & ? & ? & ? & ?)]; [by left|]. right. split; [done|].
  exists fl, step. repeat split; try done. by eapply deps_met_kept.
Qed.

#[export] Instance steps_ok_preorder flow : PreOrder (steps_ok flow).
Proof. split; [intros l; apply steps_ok_refl|intros a b c; apply steps_ok_trans]. Qed.

(** ** The documented order of steps

    The same order, stated on its own (docs/architecture/flowrun-state-model.md,
    "Partial Failures"): the status recorded for a name is the first one of that
    name, and a dependency is satisfied by a step that succeeded or was skipped,
    or by one that failed where the Flow or the failed step says to continue. *)

(** [x] is the first element of [l] whose name is [n]. *)
Definition first_named {A} (name : A → string) (l : list A) (n : string) (x : A) : Prop :=
  ∃ l1 l2, l = l1 ++ x :: l2 ∧ name x = n ∧ ∀ y, y ∈ l1 → name y ≠ n.

Abbreviation recorded := (first_named ss_Name).

Inductive dep_satisfied (fl : Flow) (l : list StepRunStatus) (dep : string) : Prop :=
  | dep_succeeded x : recorded l dep x → ss_Phase x = StepPhaseSucceeded → dep_satisfied fl l dep
  | dep_skipped x : recorded l dep x → ss_Phase x = StepPhaseSkipped → dep_satisfied fl l dep
  | dep_failed_flow x : recorded l dep x → ss_Phase x = StepPhaseFailed →
      fs_FailurePolicy (fl_Spec fl) = FailurePolicyContinue → dep_satisfied fl l dep
  | dep_failed_step x d : recorded l dep x → ss_Phase x = StepPhaseFailed →
      first_named st_Name (flow_steps fl) dep d → st_OnFailure d = OnFailureActionContinue →
      dep_satisfied fl l dep.

Definition finished_step (x : StepRunStatus) : Prop :=
  ss_Phase x = StepPhaseSucceeded ∨ ss_Phase x = StepPhaseFailed ∨ ss_Phase x = StepPhaseSkipped.

Definition outcomes_kept (old new : list StepRunStatus) : Prop :=
  ∀ n x, recorded old n x → finished_step x → recorded new n x.

(** What is new in [new] belongs to steps whose dependencies are satisfied. *)
Definition dependencies_first (flow : Flow → Prop) (old new : list StepRunStatus) : Prop :=
  ∀ n x, recorded new n x →
    recorded old n x ∨
    ∃ fl step, flow fl ∧ step ∈ flow_steps fl ∧ st_Name step = n ∧
      ∀ dep, dep ∈ st_RunAfter step → dep_satisfied fl new dep.

Lemma first_named_find {A} (name : A → string) l n x :
  find_by (λ y, (name y =? n)) l = Some x ↔ first_named name l n x.
Proof.
  unfold first_named. induction l as [|y l IH]; simpl.
  - split; [done|]. intros (l1 & l2 & Hl & _). by destruct l1.
  - destruct (String.eqb_spec (name y) n) as [Hy|Hy].
    + split.
      * intros [= ->]. exists [], l. repeat split; [done|]. intros z Hz. by apply not_elem_of_nil in Hz.
      * intros ([|z l1] & l2 & [= -> ->] & Hn & Hl); [done|]. by destruct (Hl z); [left|].
    + rewrite IH. split.
      * intros (l1 & l2 & -> & Hn & Hl). exists (y :: l1), l2. repeat split; [done|].
        intros z [->|Hz]%elem_of_cons; [done|by apply Hl].
      * intros ([|z l1] & l2 & [= -> ->] & Hn & Hl); [done|]. exists l1, l2. repeat split; [done|].
        intros w Hw. apply Hl. by right.
Qed.

Lemma recorded_find l n x : findStepStatus l n = Some x ↔ recorded l n x.
Proof. apply (first_named_find ss_Name). Qed.

Lemma finished_terminal x : finished_step x ↔ terminalStep (ss_Phase x) = true.
Proof. unfold finished_step. destruct (ss_Phase x); simpl; naive_solver. Qed.

(** The controller's test is the documented rule. *)
Lemma depSatisfied_spec fl l dep :
  depSatisfied l (flow_steps fl)
    (bool_decide (fs_FailurePolicy (fl_Spec fl) = FailurePolicyContinue)) dep = true
  ↔ dep_satisfied fl l dep.
Proof.
  unfold depSatisfied. split.
  - destruct (findStepStatus l dep) as [x|] eqn:Hx; [|done]. apply recorded_find in Hx.
    destruct (ss_Phase x) eqn:Hp; try done; [by intros _; eapply dep_succeeded| |by intros _; eapply dep_skipped].
    intros [Hc|Hc]%orb_prop; [apply bool_decide_eq_true in Hc; by eapply dep_failed_flow|].
    destruct (findFlowStep _ _) as [d|] eqn:Hd; [|done]. apply bool_decide_eq_true in Hc.
    eapply dep_failed_step; [done..|by apply (first_named_find st_Name)|done].
  - intros [x Hx Hp|x Hx Hp|x Hx Hp Hc|x d Hx Hp Hd Hc]; apply recorded_find in Hx; rewrite Hx, Hp; try done.
    + by rewrite Hc.
    + apply (first_named_find st_Name) in Hd. unfold findFlowStep. rewrite Hd. unfold stepContinues.
      rewrite (bool_decide_true (st_OnFailure d = _)) by done. by rewrite orb_true_r.
Qed.

Lemma deps_met_spec fl l step :
  deps_met fl l step = true ↔ ∀ dep, dep ∈ st_RunAfter step → dep_satisfied fl l dep.
Proof.
  unfold deps_met, dependenciesMet. rewrite deps_loop_spec. by setoid_rewrite depSatisfied_spec.
Qed.

Lemma steps_kept_spec old new : steps_kept old new ↔ outcomes_kept old new.
Proof.
  unfold steps_kept, outcomes_kept. by setoid_rewrite recorded_find; setoid_rewrite finished_terminal.
Qed.

Lemma steps_new_spec flow old new :
  steps_new flow old new → dependencies_first (λ fl, flow = Some fl) old new.
Proof.
  intros Hn n x Hx%recorded_find. destruct (Hn n x Hx) as [Ho|(_ & fl & step & Hf & Hin & Hs & Hd)].
  - left. by apply recorded_find.
  - right. exists fl, step. by rewrite <- deps_met_spec.
Qed.

Lemma dep_satisfied_kept fl old new dep :
  outcomes_kept old new → dep_satisfied fl old dep → dep_satisfied fl new dep.
Proof. intros Hk. rewrite <- !depSatisfied_spec. by apply depSatisfied_kept, steps_kept_spec. Qed.

Lemma outcomes_kept_trans a b c : outcomes_kept a b → outcomes_kept b c → outcomes_kept a c.
Proof. unfold outcomes_kept. eauto. Qed.

Lemma dependencies_first_trans (P Q : Flow → Prop) a b c :
  (∀ fl, P fl → Q fl) → outcomes_kept b c →
  dependencies_first Q a b → dependencies_first P b c → dependencies_first Q a c.
Proof.
  intros HPQ Hk Hab Hbc n x Hx. destruct (Hbc n x Hx) as [Hb|(fl & step & ? & ? & ? & ?)].
  - destruct (Hab n x Hb) as [Ha|(fl & step & ? & ? & ? & Hd)]; [by left|].
    right. exists fl, step. repeat split; [done..|]. intros dep Hdep. eapply dep_satisfied_kept; [done|auto].
  - right. exists fl, step. repeat split; auto.
Qed.

(** The step may be written now: it has no final outcome yet and its
    dependencies are satisfied. *)
Definition writable (fl : Flow) (l : list StepRunStatus) (step : FlowStep) : Prop :=
  step ∈ flow_steps fl ∧ deps_met fl l step = true ∧
  ∀ x, findStepStatus l (st_Name step) = Some x → terminalStep (ss_Phase x) = false.

Lemma steps_ok_upsertAll fl l xs :
  (∀ x, x ∈ xs → persistable (ss_Phase x) ∧ ∃ step, st_Name step = ss_Name x ∧ writable fl l step) →
  steps_ok (Some fl) l (upsertAll l xs).
Proof.
  intros Hxs.
  assert (steps_kept l (upsertAll l xs)) as Hk.
  { intros n x Hx Ht. rewrite find_upsertAll_other; [done|].
    intros (y & -> & Hy)%list_elem_of_fmap. destruct (Hxs _ Hy) as (_ & step & Hn & _ & _ & Hnt).
    rewrite Hn in Hnt. rewrite (Hnt _ Hx) in Ht. done. }
  split; [done|]. intros n x Hx. apply find_upsertAll in Hx as [[Hx _]|[Hx Hn]]; [by left|]. right.
  destruct (Hxs _ Hx) as (Hp & step & Hname & Hin & Hd & _). split; [done|].
  exists fl, step. rewrite Hname. repeat split; try done. by eapply deps_met_kept.
Qed.

Lemma steps_ok_upsert fl l x step :
  persistable (ss_Phase x) → ss_Name x = st_Name step → writable fl l step →
  steps_ok (Some fl) l (upsertStepStatus l x).
Proof.
  intros Hp Hn Hw. apply (steps_ok_upsertAll fl l [x]).
  intros y ->%list_elem_of_singleton. eauto.
Qed.

(** ** The wave *)

Lemma not_started_writable fl l step :
  step ∈ flow_steps fl → deps_met fl l step = true →
  started (findStepStatus l (st_Name step)) = false → writable fl l step.
Proof.
  intros Hin Hd Hs. split; [done|]. split; [done|]. intros x Hx. rewrite Hx in Hs. by destruct x as [? [] ? ? ? ? ? ? ?].
Qed.

Lemma collectWave_writable fl l step : step ∈ collectWave fl l → writable fl l step.
Proof.
  unfold collectWave. rewrite list_elem_of_In, filter_In, <- list_elem_of_In.
  intros [Hin Hr]. unfold ready in Hr.
  destruct (dependenciesMet step l _ _) eqn:Hd; [|done]. simpl in Hr.
  destruct (started _) eqn:Hs; [|by apply not_started_writable].
  split; [done|]. split; [done|]. intros x Hx. rewrite Hx in Hr. apply andb_prop in Hr as [Hr _].
  apply bool_decide_eq_true in Hr. by rewrite Hr.
Qed.

(** ** Nothing left to run *)

Definition complete (fl : Flow) (l : list StepRunStatus) : Prop :=
  collectWave fl l = [] ∧
  (∀ step x, step ∈ flow_steps fl → findStepStatus l (st_Name step) = Some x →
     ss_Phase x ≠ StepPhaseRunning ∧ ss_Phase x ≠ StepPhaseWaiting) ∧
  (∀ x step, x ∈ l → ss_Phase x = StepPhaseFailed → step ∈ flow_steps fl → st_Name step = ss_Name x →
     continues fl step = true).

(** Every [runAfter] edge goes up: there is no cycle. *)
Definition acyclic (fl : Flow) : Prop :=
  ∃ rank : string → nat, ∀ step dep, step ∈ flow_steps fl → dep ∈ st_RunAfter step →
    (rank dep < rank (st_Name step))%nat.

Definition all_finished (fl : Flow) (l : list StepRunStatus) : Prop :=
  ∀ step, step ∈ flow_steps fl →
    ∃ x, findStepStatus l (st_Name step) = Some x ∧ terminalStep (ss_Phase x) = true.

Lemma not_ready_spec fl l step :
  collectWave fl l = [] → step ∈ flow_steps fl → ready fl l step = false.
Proof.
  intros Hw Hin. destruct (ready fl l step) eqn:Hr; [|done].
  assert (step ∈ collectWave fl l) as Hc; [|rewrite Hw in Hc; by apply not_elem_of_nil in Hc].
  unfold collectWave. rewrite list_elem_of_In, filter_In, <- list_elem_of_In. done.
Qed.

Lemma complete_step_finished fl l step :
  complete fl l → step ∈ flow_steps fl → deps_met fl l step = true →
  ∃ x, findStepStatus l (st_Name step) = Some x ∧ terminalStep (ss_Phase x) = true.
Proof.
  intros (Hw & Hrw & _) Hin Hd. pose proof (not_ready_spec _ _ _ Hw Hin) as Hr.
  unfold ready in Hr. unfold deps_met, flow_steps in Hd. rewrite Hd in Hr. simpl in Hr.
  destruct (findStepStatus l (st_Name step)) as [x|] eqn:Hx; [|done].
  destruct (Hrw _ _ Hin Hx) as [? ?]. exists x. split; [done|].
  unfold started in Hr. destruct (ss_Phase x); try done.
Qed.

Lemma complete_dep_satisfied fl l dep x :
  complete fl l → dep ∈ st_Name <$> flow_steps fl →
  findStepStatus l dep = Some x → terminalStep (ss_Phase x) = true →
  depSatisfied l (flow_steps fl)
    (bool_decide (fs_FailurePolicy (fl_Spec fl) = FailurePolicyContinue)) dep = true.
Proof.
  intros (_ & _ & Hf) Hdep Hx Ht. unfold depSatisfied. rewrite Hx.
  destruct (ss_Phase x) eqn:Hp; try done.
  unfold findStepStatus in Hx. apply find_by_Some in Hx as [Hin Hn]. bool_hyps.
  unfold findFlowStep. destruct (find_by _ (flow_steps fl)) as [d|] eqn:Hd.
  - apply find_by_Some in Hd as [Hdin Hdn]. bool_hyps.
    specialize (Hf x d Hin Hp Hdin ltac:(congruence)). unfold continues in Hf. by rewrite orb_comm.
  - apply list_elem_of_fmap in Hdep as (d & -> & Hd').
    apply (proj1 (find_by_None _ _) Hd) in Hd'. bool_hyps. done.
Qed.

Lemma complete_all_finished fl l :
  flow_wf (fl_Spec fl) → acyclic fl → complete fl l → all_finished fl l.
Proof.
  intros Hwf [rank Hrank] Hc step. remember (rank (st_Name step)) as n eqn:Hn.
  revert step Hn. induction (lt_wf n) as [n _ IH]. intros step -> Hin.
  apply (complete_step_finished fl l step Hc Hin). unfold deps_met, dependenciesMet. apply deps_loop_spec.
  intros dep Hdep. pose proof (wf_deps _ Hwf _ _ Hin Hdep) as Hname.
  pose proof Hname as (d & -> & Hd)%list_elem_of_fmap.
  edestruct (IH (rank (st_Name d))) as (x & Hx & Ht); [by eapply Hrank|done|done|].
  by eapply complete_dep_satisfied.
Qed.

(** ** The scan and the final check *)

Lemma scanSteps_spec steps l a b :
  fold_left (scanStep l) steps (a, b)
  = (a && forallb (λ s, match findStepStatus l (st_Name s) with
                        | Some x => terminalStep (ss_Phase x) | None => false end) steps,
     b || existsb (λ s, match findStepStatus l (st_Name s) with
                        | Some x => bool_decide (ss_Phase x = StepPhaseRunning)
                                    || bool_decide (ss_Phase x = StepPhaseWaiting)
                        | None => false end) steps).
Proof.
  revert a b. induction steps as [|s steps IH]; intros a b; cbn [fold_left forallb existsb].
  - by rewrite andb_true_r, orb_false_r.
  - unfold scanStep at 2. destruct (findStepStatus l (st_Name s)) as [x|]; [destruct (ss_Phase x)|];
      rewrite IH; simpl; rewrite ?andb_false_r, ?orb_true_r; simpl; try done.
Qed.

Lemma scanSteps_allTerminal fl l b :
  scanSteps (flow_steps fl) l = (true, b) → all_finished fl l.
Proof.
  unfold scanSteps. rewrite scanSteps_spec. simpl. intros [= Hall _] step Hin.
  rewrite forallb_forall in Hall. apply list_elem_of_In, Hall in Hin.
  destruct (findStepStatus l (st_Name step)) as [x|]; [by exists x|done].
Qed.

Lemma scanSteps_noneRunning fl l a step x :
  scanSteps (flow_steps fl) l = (a, false) → step ∈ flow_steps fl →
  findStepStatus l (st_Name step) = Some x →
  ss_Phase x ≠ StepPhaseRunning ∧ ss_Phase x ≠ StepPhaseWaiting.
Proof.
  unfold scanSteps. rewrite scanSteps_spec. simpl. intros [= _ Hex] Hin Hx.
  split; intros Hp; apply not_true_iff_false in Hex; apply Hex; apply existsb_exists; exists step;
    (split; [by apply list_elem_of_In|]); rewrite Hx, Hp; done.
Qed.

Lemma all_finished_wave fl l : all_finished fl l → collectWave fl l = [].
Proof.
  intros Hall. destruct (collectWave fl l) as [|step w] eqn:Hw; [done|].
  assert (step ∈ collectWave fl l) as Hin by (rewrite Hw; by left).
  apply collectWave_writable in Hin as (Hin & _ & Hnt).
  destruct (Hall _ Hin) as (x & Hx & Ht). by rewrite (Hnt _ Hx) in Ht.
Qed.

Lemma fatalFailure_None fl l :
  fatalFailure fl l = None →
  ∀ x step, x ∈ l → ss_Phase x = StepPhaseFailed → step ∈ flow_steps fl → st_Name step = ss_Name x →
    continues fl step = true.
Proof.
  unfold fatalFailure. destruct (find_by _ l) eqn:Hf; [done|]. intros _ x step Hx Hp Hs Hn.
  apply (proj1 (find_by_None _ _)) with (x := x) in Hf; [|done]. rewrite Hp in Hf. simpl in Hf.
  destruct (continues fl step) eqn:Hc; [done|]. apply not_true_iff_false in Hf. destruct Hf.
  apply existsb_exists. exists step. split; [by apply list_elem_of_In|].
  rewrite Hn, Hc. by rewrite String.eqb_refl.
Qed.
