(* ===== verification/Store.v ===== *)
(** * The API server as the FlowRun controller sees it

    A specification of the requests over a ghost copy of the stored FlowRun:
    its resource version, its status, the Flow last read and the phase last
    seen.  Reads may be stale; a write succeeds only against the current
    resource version; a failed write may or may not have been applied; between
    two requests another writer may replace the object ([interfere]).  Every
    status write must be [legal] with respect to the status it replaces, and a
    call with effects outside the cluster needs the phase Running to have been
    seen. *)

From S2P Require Import Prelude GoStd Api Effects Interp Net Ssrf Kube FlowCtl Steps Publish FlowRun Frames.

Local Open Scope string_scope.
Local Open Scope list_scope.
Local Open Scope go_scope.

Record Store := MkStore {
  s_rv : Z;
  s_status : FlowRunStatus;
  s_flow : option Flow;
  s_seen : option FlowRunPhase
}.

Abbreviation rv fr := (m_ResourceVersion (fr_Meta fr)).

Definition saw (p : option FlowRunPhase) (s : Store) : Store :=
  MkStore (s_rv s) (s_status s) (s_flow s) p.
Definition read_flow (fl : Flow) (s : Store) : Store :=
  MkStore (s_rv s) (s_status s) (Some fl) (s_seen s).

(** A copy of the object: possibly stale, but exact if its version is current. *)
Definition view (s : Store) (fr : FlowRun) : Prop :=
  (rv fr ≤ s_rv s)%Z ∧ (rv fr = s_rv s → fr_Status fr = s_status s).

(** An accepted write leaves the status [st]. *)
Definition accepted (fr : FlowRun) (st : FlowRunStatus) (s s' : Store) : Prop :=
  rv fr = s_rv s ∧ (s_rv s ≤ s_rv s')%Z ∧ s_status s' = st ∧ s_flow s' = s_flow s ∧ s_seen s' = s_seen s.

Section store.
  Context `{CelLib} `{HttpLib} `{NetLib} `{KubeLib} `{SortLib}.
  Context (interfere : bool).

Definition rely (s s' : Store) : Prop :=
  s' = s ∨ (interfere = true ∧ (s_rv s < s_rv s')%Z ∧ s_flow s' = s_flow s ∧ s_seen s' = s_seen s).

Definition answer (legal : option Flow → FlowRunStatus → FlowRunStatus → Prop)
    {X} (e : Ev X) (s : Store) : (X → Store → Prop) → Prop :=
  match e in Ev X' return (X' → Store → Prop) → Prop with
  | EvGetFlowRun _ _ => λ Q,
      (∀ fr, view s fr → Q (Ok fr) (saw (Some (fr_Phase fr)) s)) ∧ (∀ err, Q (Err err) (saw None s))
  | EvGetFlow _ _ => λ Q, (∀ fl, Q (Ok fl) (read_flow fl s)) ∧ (∀ err, Q (Err err) s)
  | EvUpdateFlowRun fr => λ Q,
      (∀ fr' s', accepted fr (s_status s) s s' → rv fr' = s_rv s' → fr_Status fr' = s_status s →
         Q (Ok fr') s') ∧
      (∀ err s', s' = s ∨ accepted fr (s_status s) s s' → Q (Err err) s')
  | EvStatusUpdateFlowRun fr => λ Q,
      (rv fr = s_rv s → legal (s_flow s) (s_status s) (fr_Status fr)) ∧
      (∀ fr' s', accepted fr (fr_Status fr) s s' → rv fr' = s_rv s' → fr_Status fr' = fr_Status fr →
         Q (Ok fr') (saw (Some (fr_Phase fr)) s')) ∧
      (∀ err s', s' = s ∨ accepted fr (fr_Status fr) s s' → Q (Err err) s')
  | EvExecutorDo _ _ _ => λ Q, s_seen s = Some FlowRunPhaseRunning ∧ ∀ x, Q x s
  | EvPluginDo _ _ _ => λ Q, s_seen s = Some FlowRunPhaseRunning ∧ ∀ x, Q x s
  | EvSendMessage _ _ _ _ => λ Q, s_seen s = Some FlowRunPhaseRunning ∧ ∀ x, Q x s
  | _ => λ Q, ∀ x, Q x s
  end.

Definition store_spec (legal : option Flow → FlowRunStatus → FlowRunStatus → Prop) : Spec Ev Store :=
  λ X e s Q, ∀ s1, rely s s1 → answer legal e s1 Q.

#[export] Instance store_spec_mono legal : MonoSpec (store_spec legal).
Proof.
  intros X e s P Q HPQ Hs s1 Hr. specialize (Hs s1 Hr).
  destruct e; simpl in *; try (by intros; apply HPQ, Hs);
    repeat match goal with Hs : _ ∧ _ |- _ => destruct Hs as [? Hs] end;
    repeat split; intros; eauto.
Qed.

(** A weaker demand on the writes is met whenever a stronger one is. *)
Lemma store_spec_weaken (l1 l2 : option Flow → FlowRunStatus → FlowRunStatus → Prop)
    {A} (p : Prog Ev A) s Q :
  (∀ fl a b, l1 fl a b → l2 fl a b) → wp (store_spec l1) p s Q → wp (store_spec l2) p s Q.
Proof.
  intros Hl. revert s. induction p as [a|X e k IH]; simpl; intros s Hp; [done|].
  intros s1 Hr. specialize (Hp s1 Hr). destruct e; simpl in *; try (intros; by apply IH, Hp);
    repeat match goal with Hs : _ ∧ _ |- _ => destruct Hs as [? Hs] end;
    repeat split; intros; eauto.
Qed.

Lemma rely_refl s : rely s s.
Proof. by left. Qed.
Lemma rely_trans a b c : rely a b → rely b c → rely a c.
Proof.
  intros [->|(Hi & Hab & ? & ?)] [->|(Hi2 & Hbc & ? & ?)]; unfold rely; [by left|by right|by right|].
  right. repeat split; [done|lia|congruence|congruence].
Qed.
Lemma rely_flow s s' : rely s s' → s_flow s' = s_flow s.
Proof. by intros [->|(_ & _ & ? & _)]. Qed.
Lemma rely_seen s s' : rely s s' → s_seen s' = s_seen s.
Proof. by intros [->|(_ & _ & _ & ?)]. Qed.
Lemma rely_view s s' fr : rely s s' → view s fr → view s' fr.
Proof. intros [->|(_ & Hlt & _)] [Hle He]; [done|]. split; [lia|]. intros. lia. Qed.

(** ** Proof rules *)

Lemma wp_store_quiet legal b {A} (p : Prog Ev A) s (P : A → Prop) Q :
  (b = true → s_seen s = Some FlowRunPhaseRunning) →
  wp (any_spec (quiet b)) p tt (λ a _, P a) →
  (∀ a s', rely s s' → P a → Q a s') →
  wp (store_spec legal) p s Q.
Proof.
  revert s. induction p as [a|X e k IH]; simpl; intros s Hb Hp HQ.
  - apply HQ; [apply rely_refl|done].
  - intros s1 Hr. destruct Hp as [He Hk].
    assert (∀ x, wp (store_spec legal) (k x) s1 Q) as Hnext.
    { intros x. apply IH; [|apply Hk|].
      - intros; rewrite (rely_seen _ _ Hr); auto.
      - intros a s2 Hr2. apply HQ. by eapply rely_trans. }
    destruct e; simpl in *; try done; split; try done; rewrite (rely_seen _ _ Hr); auto.
Qed.

(** Requests that neither read nor write the FlowRun at hand. *)
Definition neutral (X : Type) (e : Ev X) : Prop :=
  match e with
  | EvGetFlowRun _ _ | EvGetFlow _ _ | EvUpdateFlowRun _ | EvStatusUpdateFlowRun _
  | EvExecutorDo _ _ _ | EvPluginDo _ _ _ | EvSendMessage _ _ _ _ => False
  | _ => True
  end.

Lemma wp_store_neutral legal {A} (p : Prog Ev A) s Q :
  wp (any_spec neutral) p tt (λ _ _, True) →
  (∀ a s', rely s s' → Q a s') → wp (store_spec legal) p s Q.
Proof.
  revert s. induction p as [a|X e k IH]; simpl; intros s Hp HQ.
  - apply HQ, rely_refl.
  - intros s1 Hr. destruct Hp as [He Hk].
    assert (∀ x, wp (store_spec legal) (k x) s1 Q) as Hnext.
    { intros x. apply IH; [apply Hk|]. intros a s2 Hr2. apply HQ. by eapply rely_trans. }
    by destruct e.
Qed.

(** The local copy is a view of the store, and its phase is the one seen. *)
Definition local (s : Store) (fr : FlowRun) : Prop := view s fr ∧ s_seen s = Some (fr_Phase fr).

Lemma local_rely s s' fr : rely s s' → local s fr → local s' fr.
Proof. intros Hr [Hv Hs]. split; [by eapply rely_view|]. by rewrite (rely_seen _ _ Hr). Qed.

Lemma wp_status_update legal s fr fr1 Q :
  local s fr → rv fr1 = rv fr → legal (s_flow s) (fr_Status fr) (fr_Status fr1) →
  (∀ fr' s', local s' fr' → fr_Status fr' = fr_Status fr1 → s_flow s' = s_flow s → Q (Ok fr') s') →
  (∀ err s', Q (Err err) s') →
  wp (store_spec legal) (emit (EvStatusUpdateFlowRun fr1)) s Q.
Proof.
  intros [Hv Hseen] Hrv Hl HOk HErr s1 Hr. apply (rely_view _ _ _ Hr) in Hv.
  simpl. split; [|split].
  - intros Heq. rewrite Hrv in Heq. rewrite <- (proj2 Hv Heq), (rely_flow _ _ Hr). done.
  - intros fr' s' (_ & Hle & Hst & Hfl & Hse) Hrv' Hst'. apply HOk.
    + split; simpl; [|by rewrite Hst']. split; simpl; [lia|]. intros _. congruence.
    + done.
    + simpl. rewrite Hfl. by rewrite (rely_flow _ _ Hr).
  - intros; apply HErr.
Qed.

Lemma wp_update legal s fr fr1 Q :
  local s fr → rv fr1 = rv fr →
  (∀ fr' s', local s' fr' → fr_Status fr' = fr_Status fr → s_flow s' = s_flow s → Q (Ok fr') s') →
  (∀ err s', s_seen s' = s_seen s → Q (Err err) s') →
  wp (store_spec legal) (emit (EvUpdateFlowRun fr1)) s Q.
Proof.
  intros [Hv Hseen] Hrv HOk HErr s1 Hr. apply (rely_view _ _ _ Hr) in Hv. simpl. split.
  - intros fr' s' (Heq & Hle & Hst & Hfl & Hse) Hrv' Hst'. rewrite Hrv in Heq.
    pose proof (proj2 Hv Heq) as Hcur. apply HOk.
    + split; [split; [lia|congruence]|]. rewrite Hse, (rely_seen _ _ Hr), Hseen. congruence.
    + congruence.
    + by rewrite Hfl, (rely_flow _ _ Hr).
  - intros err s' [->|(_ & _ & _ & _ & Hse)]; apply HErr; [by apply rely_seen|].
    by rewrite Hse, (rely_seen _ _ Hr).
Qed.

Lemma wp_now legal s Q : (∀ t s', rely s s' → Q t s') → wp (store_spec legal) now s Q.
Proof. intros HQ s1 Hr t. by apply HQ. Qed.

End store.
