(* ===== verification/FlowRunSafety.v ===== *)
(** * Safety of the FlowRun controller

    Every status the controller writes is a legal successor of the status it
    replaces, whatever the API server, the executor, the brokers and the clock
    answer: the phases move forward, a finished step keeps its
    outcome, a step is only recorded once its dependencies are satisfied, and a
    run only succeeds when nothing is left to run.  [Reconcile_wp] is the
    invariant the properties are read off. *)

From stdpp Require Import relations.
From S2P Require Import Prelude GoStd Api Effects Interp Net Ssrf Kube FlowCtl Steps Publish FlowRun Frames StepOrder Store.

Local Open Scope string_scope.
Local Open Scope list_scope.
Local Open Scope go_scope.

(** ** The phase moves of the controller

    The moves the controller makes, read off its code for the induction below.
    This is not the documented machine (docs/architecture/flowrun-state-model.md
    has no move out of the empty phase but the one to Pending); the rules the
    two share are stated, independently, as [phase_rules] in FlowRunProps. *)

Inductive phase_move : FlowRunPhase → FlowRunPhase → Prop :=
  | ps_start_new : phase_move PhaseEmpty FlowRunPhaseRunning
  | ps_start_pending : phase_move FlowRunPhasePending FlowRunPhaseRunning
  | ps_run : phase_move FlowRunPhaseRunning FlowRunPhaseRunning
  | ps_succeed : phase_move FlowRunPhaseRunning FlowRunPhaseSucceeded
  | ps_fail : phase_move FlowRunPhaseRunning FlowRunPhaseFailed
  | ps_cancel : phase_move FlowRunPhaseRunning FlowRunPhaseCancelled
  (** The Flow does not exist. *)
  | ps_missing_new : phase_move PhaseEmpty FlowRunPhaseFailed
  | ps_missing_pending : phase_move FlowRunPhasePending FlowRunPhaseFailed.

Record legal (flow : option Flow) (old new : FlowRunStatus) : Prop := {
  lg_phase : phase_move (fst_Phase old) (fst_Phase new);
  lg_steps : steps_ok flow (fst_Steps old) (fst_Steps new);
  lg_completed : terminalPhase (fst_Phase new) = true → is_Some (fst_CompletionTime new);
  lg_started : fst_Phase new = FlowRunPhaseRunning → fst_Phase old ≠ FlowRunPhaseRunning →
               is_Some (fst_StartTime new);
  lg_start_kept : fst_Phase old = FlowRunPhaseRunning → fst_StartTime new = fst_StartTime old;
  lg_success : fst_Phase new = FlowRunPhaseSucceeded →
               ∃ fl, flow = Some fl ∧ complete fl (fst_Steps new)
}.

(** The last answer of the API server says that nothing is left to do. *)
Definition settled (s : Store) : Prop :=
  match s_seen s with None => True | Some p => terminalPhase p = true end.

(** A return that asks for no further reconcile leaves nothing to do. *)
Definition not_stalled (x : Result * option gerr) (s : Store) : Prop :=
  x.2 = None → Requeue x.1 = false → (RequeueAfter x.1 <= 0)%Z → settled s.

(** What the helpers that fill in the status leave alone. *)
Record same_core (a b : FlowRun) : Prop := {
  sc_rv : rv b = rv a;
  sc_phase : fr_Phase b = fr_Phase a;
  sc_steps : fr_Steps b = fr_Steps a;
  sc_start : fst_StartTime (fr_Status b) = fst_StartTime (fr_Status a);
  sc_completion : fst_CompletionTime (fr_Status b) = fst_CompletionTime (fr_Status a)
}.

Lemma same_core_trans a b c : same_core a b → same_core b c → same_core a c.
Proof. intros [] []. constructor; congruence. Qed.

Section safety.
  Context `{CelLib} `{HttpLib} `{NetLib} `{KubeLib} `{SortLib}.
  Context (interfere : bool).

Abbreviation rely := (Store.rely interfere).
Abbreviation sspec := (store_spec interfere legal).

(** ** Finishing *)

Lemma wp_setFlowRunCondition fr c s (Q : FlowRun → Store → Prop) :
  is_Some (c_LastTransitionTime c) →
  (∀ fr', same_core fr fr' → Q fr' s) → wp sspec (setFlowRunCondition fr c) s Q.
Proof. intros [t Ht] HQ. unfold setFlowRunCondition. rewrite Ht. simpl. apply HQ. by constructor. Qed.

Lemma wp_setDuration fr s (Q : FlowRun → Store → Prop) :
  (∀ fr' s', rely s s' → same_core fr fr' → Q fr' s') → wp sspec (setDuration fr) s Q.
Proof.
  intros HQ. unfold setDuration. destruct (fst_StartTime (fr_Status fr)) eqn:Hs.
  - apply wp_bind; [apply _|]. apply wp_now. intros t s' Hr. simpl. apply HQ; [done|by constructor; simpl].
  - apply HQ; [apply rely_refl|by constructor].
Qed.

Lemma dropFinalizer_rv fr : rv (dropFinalizer fr) = rv fr.
Proof. unfold dropFinalizer. by destruct (containsString _ _). Qed.

(** The status update and the metadata update that end a run. *)
Lemma wp_finish_updates (f : FlowRun → FlowRun) (g : result FlowRun → option gerr) fr fr1 s
    (Q : option gerr → Store → Prop) :
  local s fr → rv fr1 = rv fr → legal (s_flow s) (fr_Status fr) (fr_Status fr1) →
  terminalPhase (fr_Phase fr1) = true → (∀ x, rv (f x) = rv x) →
  (∀ e s', (e = None → settled s') → Q e s') →
  wp sspec (let! u := emit (EvStatusUpdateFlowRun fr1) in
            match u with
            | Err e => Ret (Some e)
            | Ok fr2 => let! u := emit (EvUpdateFlowRun (f fr2)) in Ret (g u)
            end) s Q.
Proof.
  intros Hloc Hrv Hl Ht Hf HQ. apply wp_bind; [apply _|].
  eapply wp_status_update; [done..| |].
  - intros fr2 s2 Hloc2 Hst _. apply wp_bind; [apply _|].
    assert (terminalPhase (fr_Phase fr2) = true) as Ht2 by (by rewrite Hst).
    eapply wp_update; [done|apply Hf| |].
    + intros fr3 s3 [_ Hs3] Hst3 _. apply HQ. intros _. unfold settled. by rewrite Hs3, Hst3.
    + intros e s3 Hs3. apply HQ. intros _. unfold settled. by rewrite Hs3, (proj2 Hloc2).
  - intros e s'. by apply HQ.
Qed.

Lemma wp_finish fr phase reason msg s (Q : option gerr → Store → Prop) :
  local s fr → phase_move (fr_Phase fr) phase → terminalPhase phase = true →
  phase ≠ FlowRunPhaseSucceeded →
  (∀ e s', (e = None → settled s') → Q e s') →
  wp sspec (finishFlowRun fr phase reason msg) s Q.
Proof.
  intros Hloc Hps Ht Hns HQ. unfold finishFlowRun. apply wp_bind; [apply _|]. apply wp_now.
  intros t s1 Hr1. cbv zeta. apply wp_bind; [apply _|]. apply wp_setFlowRunCondition; [by eexists|].
  intros fr1 Hc1. apply wp_bind; [apply _|]. apply wp_setDuration. intros fr2 s2 Hr2 Hc2.
  pose proof (same_core_trans _ _ _ Hc1 Hc2) as [Hrv Hph Hst Hsta Hco].
  simpl in Hrv, Hph, Hst, Hsta, Hco.
  eapply (wp_finish_updates dropFinalizer errOf).
  - by eapply local_rely; [|eapply local_rely].
  - done.
  - constructor; rewrite ?Hph, ?Hst, ?Hsta, ?Hco; try done.
    + by intros ->.
  - by rewrite Hph.
  - apply dropFinalizer_rv.
  - done.
Qed.

Lemma wp_fail fr msg s (Q : Result * option gerr → Store → Prop) :
  local s fr → phase_move (fr_Phase fr) FlowRunPhaseFailed →
  (∀ x s', not_stalled x s' → Q x s') →
  wp sspec (returning (failFlowRun fr msg)) s Q.
Proof.
  intros Hloc Hps HQ. apply wp_bind; [apply _|]. apply wp_finish; [done..|].
  intros e s' He. apply HQ. intros Hn _ _. by apply He.
Qed.

(** Returns that ask for another reconcile, or report an error. *)
Lemma not_stalled_err e s : not_stalled (done_err e) s.
Proof. by intros Hn. Qed.
Lemma not_stalled_now s : not_stalled requeue_now s.
Proof. by intros _ Hn. Qed.
Lemma not_stalled_after d s : (0 < d)%Z → not_stalled (requeue_after d) s.
Proof. intros Hd _ _ Hn. simpl in Hn. lia. Qed.
Lemma not_stalled_ignore e s : settled s → not_stalled (ignoreNotFound e) s.
Proof. intros Hs. unfold ignoreNotFound. destruct (ekind_of e); try apply not_stalled_err. by intros _ _ _. Qed.

Create HintDb safety discriminated.
Hint Resolve not_stalled_err not_stalled_now : safety.

(** A write that changes the steps of a Running FlowRun. *)
Lemma legal_steps fl fr l :
  fr_Phase fr = FlowRunPhaseRunning → steps_ok (Some fl) (fr_Steps fr) l →
  legal (Some fl) (fr_Status fr) (fr_Status (with_steps l fr)).
Proof.
  intros Hp Hs. constructor; simpl; rewrite ?Hp; try done. constructor.
Qed.

(** ** Success *)

Lemma wp_finalize fl fr s (Q : Result * option gerr → Store → Prop) :
  local s fr → s_flow s = Some fl → fr_Phase fr = FlowRunPhaseRunning →
  collectWave fl (fr_Steps fr) = [] →
  (∀ step x, step ∈ flow_steps fl → findStepStatus (fr_Steps fr) (st_Name step) = Some x →
     ss_Phase x ≠ StepPhaseRunning ∧ ss_Phase x ≠ StepPhaseWaiting) →
  (∀ x s', not_stalled x s' → Q x s') →
  wp sspec (finalize fl fr) s Q.
Proof.
  intros Hloc Hfl Hp Hw Hrw HQ. unfold finalize.
  destruct (fatalFailure fl (fr_Steps fr)) eqn:Hff.
  { apply wp_fail; [done| |done]. rewrite Hp. constructor. }
  apply wp_bind; [apply _|]. apply wp_now. intros t s1 Hr1. cbv zeta.
  apply wp_bind; [apply _|]. apply wp_setFlowRunCondition; [by eexists|]. intros fr1 Hc1.
  apply wp_bind; [apply _|]. apply wp_setDuration. intros fr2 s2 Hr2 Hc2.
  pose proof (same_core_trans _ _ _ Hc1 Hc2) as [Hrv Hph Hst Hsta Hco].
  simpl in Hrv, Hph, Hst, Hsta, Hco.
  assert (local s2 fr) as Hloc2 by (by eapply local_rely; [|eapply local_rely]).
  assert (s_flow s2 = Some fl) as Hfl2 by (by rewrite (rely_flow _ _ _ Hr2), (rely_flow _ _ _ Hr1)).
  apply wp_bind; [apply _|]. eapply wp_status_update; [done|done| | |].
  - rewrite Hfl2. constructor; rewrite ?Hph, ?Hst, ?Hsta, ?Hco, ?Hp; try done.
    + constructor.
    + intros _. exists fl. split; [done|]. split; [done|]. split; [done|].
      by apply fatalFailure_None.
  - intros fr3 s3 Hloc3 Hst3 _. apply wp_bind; [apply _|].
    assert (fr_Phase fr3 = FlowRunPhaseSucceeded) as Hp3 by (by rewrite Hst3).
    eapply wp_update; [done|by rewrite dropFinalizer_rv| |].
    + intros fr4 s4 [_ Hs4] Hst4 _. apply HQ. intros _ _ _. unfold settled. by rewrite Hs4, Hst4, Hp3.
    + intros e s4 Hs4. apply HQ. intros _ _ _. unfold settled. by rewrite Hs4, (proj2 Hloc3), Hp3.
  - intros e s3. apply HQ. apply not_stalled_err.
Qed.

(** ** The wave *)

(** What the goroutine of a step returns. *)
Lemma wp_executeWaveStep r fl fr sr ps step s (Q : WaveResult → Store → Prop) :
  local s fr → fr_Phase fr = FlowRunPhaseRunning →
  (∀ res s', rely s s' →
     (wr_requeueAfter res = executorTransportBackoff ∨
      (wr_requeueAfter res = 0%Z ∧ ss_Name (wr_status res) = st_Name step ∧
       persistable (ss_Phase (wr_status res)))) → Q res s') →
  wp sspec (executeWaveStep r fl fr sr ps step) s Q.
Proof.
  intros [_ Hseen] Hp HQ. unfold executeWaveStep. apply wp_bind; [apply _|]. apply wp_now.
  intros t s1 Hr1. apply wp_bind; [apply _|].
  eapply (wp_store_quiet _ _ true); [|apply executeStep_quiet|].
  { intros _. by rewrite (rely_seen _ _ _ Hr1), Hseen, Hp. }
  intros [ss [e|]] s2 Hr2 Ho; simpl in Ho.
  - apply wp_bind; [apply _|]. apply wp_now. intros t3 s3 Hr3. rewrite Ho. cbn [wp].
    apply HQ; [eauto using rely_trans|]. by left.
  - destruct Ho as [Hn Ho]. apply wp_bind; [apply _|]. apply wp_now. intros t3 s3 Hr3.
    assert (rely s s3) by eauto using rely_trans.
    destruct (bool_decide (ss_Phase ss = StepPhaseFailed) && _); cbn [wp]; apply HQ; try done;
      right; (split; [done|]); (split; [done|]); simpl; unfold persistable; naive_solver.
Qed.

Lemma withDuration_name res : ss_Name (withDuration res) = ss_Name (wr_status res).
Proof. unfold withDuration. by destruct (terminalStep _). Qed.
Lemma withDuration_phase res : ss_Phase (withDuration res) = ss_Phase (wr_status res).
Proof. unfold withDuration. by destruct (terminalStep _). Qed.

Lemma mergeResults_upsertAll results l :
  (mergeResults results l).1 = upsertAll l (withDuration <$> results).
Proof.
  unfold mergeResults, upsertAll. generalize "". revert l.
  induction results as [|res results IH]; intros l m; simpl; [done|]. by rewrite IH.
Qed.

Lemma transportRequeue_spec results d :
  (∀ res, res ∈ results → (0 ≤ wr_requeueAfter res)%Z) → (0 ≤ d)%Z →
  let m := fold_left (λ d res, if (d <? wr_requeueAfter res)%Z then wr_requeueAfter res else d) results d in
  (d ≤ m)%Z ∧ ∀ res, res ∈ results → (wr_requeueAfter res ≤ m)%Z.
Proof.
  revert d. induction results as [|x results IH]; simpl; intros d Hall Hd.
  - split; [lia|]. intros res Hx. by apply not_elem_of_nil in Hx.
  - assert (0 ≤ wr_requeueAfter x)%Z by (apply Hall; by left).
    edestruct (IH (if (d <? wr_requeueAfter x)%Z then wr_requeueAfter x else d)) as [Hm1 Hm2].
    + intros res Hr. apply Hall. by right.
    + by destruct (Z.ltb_spec d (wr_requeueAfter x)); lia.
    + destruct (Z.ltb_spec d (wr_requeueAfter x)); split; try lia;
        intros res [->|Hr]%elem_of_cons; auto; lia.
Qed.

Lemma wp_executeWave r fl fr sr ps wave s (Q : Result * option gerr → Store → Prop) :
  local s fr → s_flow s = Some fl → fr_Phase fr = FlowRunPhaseRunning →
  (∀ step, step ∈ wave → writable fl (fr_Steps fr) step) →
  (∀ x s', not_stalled x s' → Q x s') →
  wp sspec (executeWave r fl fr sr ps wave) s Q.
Proof.
  intros Hloc Hfl Hp Hw HQ. unfold executeWave. apply wp_bind; [apply _|].
  eapply wp_mono; [apply _| |apply (wp_map sspec _ wave (λ s', rely s s')
    (λ step res, wr_requeueAfter res = executorTransportBackoff ∨
      (wr_requeueAfter res = 0%Z ∧ ss_Name (wr_status res) = st_Name step ∧
       persistable (ss_Phase (wr_status res)))));
    [|apply rely_refl]].
  2: { intros step s1 _ Hr1. apply wp_executeWaveStep; [by eapply local_rely|done|].
       intros res s2 Hr2 Hres. split; [by eapply rely_trans|done]. }
  intros results s1 [Hr1 HF]. cbv zeta.
  destruct (Z.ltb_spec 0 (transportRequeue results)) as [Hlt|Hge].
  { apply HQ. by apply not_stalled_after. }
  destruct (mergeResults results (fr_Steps fr)) as [l fatalMsg] eqn:Hm.
  assert (l = upsertAll (fr_Steps fr) (withDuration <$> results)) as ->
    by (by rewrite <- mergeResults_upsertAll, Hm).
  assert (∀ res, res ∈ results → ∃ step, step ∈ wave ∧ wr_requeueAfter res = 0%Z ∧
            ss_Name (wr_status res) = st_Name step ∧ persistable (ss_Phase (wr_status res))) as Hall.
  { edestruct (transportRequeue_spec results 0) as [_ Hmax]; [|lia|].
    - intros res (i & Hi)%list_elem_of_lookup. destruct (Forall2_lookup_r _ _ _ _ _ HF Hi) as (step & _ & Hres).
      destruct Hres as [->|[-> _]]; [by vm_compute|lia].
    - intros res Hin. pose proof (Hmax _ Hin) as Hle. fold (transportRequeue results) in Hle.
      apply list_elem_of_lookup in Hin as (i & Hi).
      destruct (Forall2_lookup_r _ _ _ _ _ HF Hi) as (step & Hstep & [Heq|Hres]).
      + rewrite Heq in Hle. assert (0 < executorTransportBackoff)%Z by (by vm_compute). lia.
      + exists step. split; [by eapply list_elem_of_lookup_2|done]. }
  apply wp_bind; [apply _|]. eapply wp_status_update.
  - by eapply local_rely.
  - done.
  - rewrite (rely_flow _ _ _ Hr1), Hfl. apply legal_steps; [done|]. apply steps_ok_upsertAll.
    intros x (res & -> & Hin)%list_elem_of_fmap. destruct (Hall _ Hin) as (step & Hstep & _ & Hn & Hper).
    rewrite withDuration_phase, withDuration_name. split; [done|]. exists step. auto.
  - intros fr' s' Hloc' Hst' _. destruct (negb _).
    + apply wp_fail; [done| |done]. rewrite Hst'. simpl. rewrite Hp. constructor.
    + apply HQ. apply not_stalled_now.
  - intros e s'. apply HQ. apply not_stalled_err.
Qed.

(** ** Inline transitions *)

(** The local copy after some inline transitions: only its steps differ from
    a copy [base] the server has confirmed. *)
Definition inline_inv (fl : Flow) (fr0 : FlowRun) (x : FlowRun * bool) (s : Store) : Prop :=
  ∃ base, local s base ∧ s_flow s = Some fl ∧ fr_Phase base = FlowRunPhaseRunning ∧
    x.1 = with_steps (fr_Steps x.1) base ∧
    steps_ok (Some fl) (fr_Steps base) (fr_Steps x.1) ∧
    (x.2 = false → x.1 = fr0 ∧ base = fr0).

Lemma with_steps_id fr : with_steps (fr_Steps fr) fr = fr.
Proof. by destruct fr as [m sp []]. Qed.

Lemma inline_inv_rely fl fr0 x s s' : rely s s' → inline_inv fl fr0 x s → inline_inv fl fr0 x s'.
Proof.
  intros Hr (base & Hloc & Hfl & Hp & Hx & Hs & Hf). exists base.
  split; [by eapply local_rely|]. split; [by rewrite (rely_flow _ _ _ Hr)|done].
Qed.

Lemma inline_inv_record fl fr0 fr sk s step phase msg t :
  inline_inv fl fr0 (fr, sk) s → persistable phase → writable fl (fr_Steps fr) step →
  inline_inv fl fr0 (with_steps (upsertStepStatus (fr_Steps fr)
                       (inlineStatus (st_Name step) phase msg t)) fr, true) s.
Proof.
  intros (base & Hloc & Hfl & Hp & Hx & Hs & _) Hper Hw. simpl in *. exists base. simpl.
  do 3 (split; [done|]). split; [by rewrite Hx|]. split; [|done].
  transitivity (fr_Steps fr); [done|]. by eapply steps_ok_upsert.
Qed.

Lemma wp_inline_update fl fr0 fr sk s (Q : result FlowRun → Store → Prop) :
  inline_inv fl fr0 (fr, sk) s →
  (∀ fr' s', local s' fr' → fr_Status fr' = fr_Status fr → s_flow s' = Some fl → Q (Ok fr') s') →
  (∀ err s', Q (Err err) s') →
  wp sspec (emit (EvStatusUpdateFlowRun fr)) s Q.
Proof.
  intros (base & Hloc & Hfl & Hp & Hx & Hs & _) HOk HErr. simpl in *.
  eapply wp_status_update; [done|by rewrite Hx| |intros; apply HOk; try done; congruence|done].
  rewrite Hx, Hfl. apply legal_steps; [done|]. done.
Qed.

Lemma wp_inlineStep r fl sr ps fr0 step x s :
  step ∈ flow_steps fl → inline_inv fl fr0 x s →
  wp sspec (inlineStep r fl sr ps x step) s
    (λ y s', match y with inl res => not_stalled res s' | inr x' => inline_inv fl fr0 x' s' end).
Proof.
  intros Hin Hinv. destruct x as [fr sk]. unfold inlineStep. cbv zeta.
  destruct (dependenciesMet _ _ _ _) eqn:Hd; [|done].
  destruct (started _) eqn:Hst; [done|]. cbn [negb].
  assert (writable fl (fr_Steps fr) step) as Hw by (by apply not_started_writable).
  destruct (allDepsSkipped _ _).
  { apply wp_bind; [apply _|]. apply wp_now. intros t s1 Hr1. cbn [wp].
    apply inline_inv_record with (sk := sk); [by eapply inline_inv_rely|by unfold persistable; auto|done]. }
  destruct (st_When step) as [|w ws] eqn:Hwhen; [done|]. rewrite <- Hwhen. clear Hwhen w ws.
  apply wp_bind; [apply _|].
  eapply (wp_store_quiet _ _ false); [done|apply evaluateWhen_quiet|]. intros [run|err] s1 Hr1 _.
  - destruct run; [cbn [negb wp]; by eapply inline_inv_rely|]. cbn [negb].
    apply wp_bind; [apply _|]. apply wp_now. intros t s2 Hr2. cbn [wp].
    apply inline_inv_record with (sk := sk);
      [eapply inline_inv_rely; [|done]; eauto using rely_trans|by unfold persistable; auto|done].
  - apply wp_bind; [apply _|]. apply wp_now. intros t s2 Hr2. apply wp_bind; [apply _|].
    eapply wp_inline_update.
    + eapply (inline_inv_record fl fr0 fr sk); [|by unfold persistable; auto|done].
      eapply inline_inv_rely; [|done]; eauto using rely_trans.
    + intros fr' s' Hloc' Hst' Hfl'.
      assert (fr_Phase fr' = FlowRunPhaseRunning) as Hp'.
      { rewrite Hst'. destruct Hinv as (base & _ & _ & Hp & Hx & _). simpl in Hx. by rewrite Hx. }
      destruct (continues fl step).
      * cbn [wp]. exists fr'. simpl. rewrite with_steps_id. do 4 (split; [done|]).
        split; [apply steps_ok_refl|done].
      * apply wp_bind; [apply _|]. apply wp_fail; [done|rewrite Hp'; constructor|done].
    + intros e s'. apply not_stalled_err.
Qed.

(** ** Wait steps *)

Lemma wp_handleWait fl fr step s (Q : Result * option gerr → Store → Prop) :
  local s fr → s_flow s = Some fl → fr_Phase fr = FlowRunPhaseRunning →
  writable fl (fr_Steps fr) step →
  (∀ x s', not_stalled x s' → Q x s') →
  wp sspec (handleWait fl fr step) s Q.
Proof.
  intros Hloc Hfl Hp Hw HQ. unfold handleWait. apply wp_bind; [apply _|]. apply wp_now.
  intros t s1 Hr1. cbv zeta. apply wp_bind; [apply _|].
  eapply (wp_store_quiet _ _ false); [done|apply executeWaitStep_quiet|].
  intros [ss res] s2 Hr2 [Hn Hwait]. simpl in Hn.
  assert (∀ ss' s3 (K : result FlowRun → Prog Ev (Result * option gerr)),
    rely s s3 → ss_Name ss' = st_Name step → persistable (ss_Phase ss') →
    (∀ e s', wp sspec (K (Err e)) s' Q) →
    (∀ fr' s', local s' fr' → fr_Phase fr' = FlowRunPhaseRunning → wp sspec (K (Ok fr')) s' Q) →
    wp sspec (let! u := emit (EvStatusUpdateFlowRun
                          (with_steps (upsertStepStatus (fr_Steps fr) ss') fr)) in K u) s3 Q) as Hpersist.
  { intros ss' s3 K Hr3 Hn' Hper HErr HOk. apply wp_bind; [apply _|].
    eapply wp_status_update; [by eapply local_rely|done| | |done].
    - rewrite (rely_flow _ _ _ Hr3), Hfl. apply legal_steps; [done|]. by eapply steps_ok_upsert.
    - intros fr' s' Hloc' Hst' _. apply HOk; [done|]. by rewrite Hst'. }
  assert (rely s s2) as Hrs2 by eauto using rely_trans.
  destruct res as [d|err].
  - destruct (Z.ltb_spec 0 d) as [Hd|Hd].
    + apply Hpersist; [done|done| |intros; by apply HQ|intros; by apply HQ, not_stalled_after].
      rewrite (Hwait d eq_refl Hd). unfold persistable; auto.
    + apply wp_bind; [apply _|]. apply wp_now. intros t3 s3 Hr3.
      apply Hpersist; [eauto using rely_trans|done|by unfold persistable; auto| |];
        intros; apply HQ; eauto with safety.
  - apply wp_bind; [apply _|]. apply wp_now. intros t3 s3 Hr3.
    apply Hpersist; [eauto using rely_trans|done|by unfold persistable; auto| |].
    + intros; apply HQ; eauto with safety.
    + intros fr' s' Hloc' Hp'. destruct (continues fl step); [apply HQ; eauto with safety|].
      apply wp_fail; [done|rewrite Hp'; constructor|done].
Qed.

(** ** The whole reconcile *)

Lemma wp_dispatchWave r fl fr sr ps a anyRunning s (Q : Result * option gerr → Store → Prop) :
  local s fr → s_flow s = Some fl → fr_Phase fr = FlowRunPhaseRunning →
  scanSteps (flow_steps fl) (fr_Steps fr) = (a, anyRunning) →
  (∀ x s', not_stalled x s' → Q x s') →
  wp sspec (dispatchWave r fl fr sr ps anyRunning) s Q.
Proof.
  intros Hloc Hfl Hp Hscan HQ. unfold dispatchWave.
  destruct (collectWave fl (fr_Steps fr)) as [|st w] eqn:Hw.
  - destruct anyRunning; [apply HQ; by apply not_stalled_after|].
    apply wp_finalize; try done. intros step x. by eapply scanSteps_noneRunning.
  - rewrite <- Hw. destruct (find_by _ _) as [step|] eqn:Hf.
    + apply find_by_Some in Hf as [Hin _]. apply wp_handleWait; try done. by apply collectWave_writable.
    + apply wp_executeWave; try done. apply collectWave_writable.
Qed.

Lemma wp_runSteps r ns name fl fr s (Q : Result * option gerr → Store → Prop) :
  local s fr → s_flow s = Some fl → fr_Phase fr = FlowRunPhaseRunning →
  (∀ x s', not_stalled x s' → Q x s') →
  wp sspec (runSteps r ns name fl fr) s Q.
Proof.
  intros Hloc Hfl Hp HQ. unfold runSteps. cbv zeta.
  destruct (resolveFlowParams _ _ _ _) as [ps|e]; [|apply wp_fail; [done|rewrite Hp; constructor|done]].
  destruct (scanSteps _ _) as [a anyRunning] eqn:Hscan. destruct a.
  { pose proof (scanSteps_allTerminal _ _ _ Hscan) as Hall.
    apply wp_finalize; try done; [by apply all_finished_wave|].
    intros step x Hin Hx. destruct (Hall _ Hin) as (y & Hy & Ht).
    rewrite Hx in Hy. simplify_eq. split; intros Hph; by rewrite Hph in Ht. }
  apply wp_bind; [apply _|].
  eapply wp_mono; [apply _| |apply (wp_fold_ret sspec _ _ (inline_inv fl fr) not_stalled)].
  - intros [res|[fr' sk]] s1 Hx; [by apply HQ|]. destruct sk.
    + apply wp_bind; [apply _|]. eapply wp_inline_update; [done| |intros; apply HQ; eauto with safety].
      intros fr2 s2 _ _ _. apply wp_bind; [apply _|]. intros s3 Hr3. split.
      * intros fr3 _. apply HQ. eauto with safety.
      * intros e. apply HQ. by apply not_stalled_ignore.
    + destruct Hx as (base & Hloc1 & Hfl1 & _ & _ & _ & Heq). simpl in Heq.
      destruct (Heq eq_refl) as [-> ->]. by eapply wp_dispatchWave.
  - intros x s1 step Hin Hinv. by apply wp_inlineStep.
  - exists fr. simpl. rewrite with_steps_id. do 4 (split; [done|]). split; [apply steps_ok_refl|done].
Qed.

Lemma wp_ensureRunning fr s (Q : result FlowRun → Store → Prop) :
  local s fr → terminalPhase (fr_Phase fr) = false →
  (∀ fr' s', local s' fr' → s_flow s' = s_flow s → fr_Phase fr' = FlowRunPhaseRunning → Q (Ok fr') s') →
  (∀ err s', Q (Err err) s') →
  wp sspec (ensureRunning fr) s Q.
Proof.
  intros Hloc Ht HOk HErr. unfold ensureRunning.
  assert (fr_Phase fr = FlowRunPhaseRunning ∨
          ((fr_Phase fr = PhaseEmpty ∨ fr_Phase fr = FlowRunPhasePending) ∧
           ∀ T (a b : T), match fr_Phase fr with PhaseEmpty | FlowRunPhasePending => a | _ => b end = a))
    as [Hp|[Hp Hm]] by (destruct (fr_Phase fr); naive_solver).
  { rewrite Hp. by apply HOk. }
  rewrite Hm. unfold startRunning. apply wp_bind; [apply _|].
  assert (∀ fr1 s1, local s1 fr1 → s_flow s1 = s_flow s → fr_Phase fr1 = fr_Phase fr →
    wp sspec (let! t := now in
      let st := fr_Status fr1 in
      let flowRun := set_Status (MkFlowRunStatus (fst_ObservedGeneration st) FlowRunPhaseRunning
        (fst_Conditions st) (Some t) (fst_CompletionTime st) (fst_Steps st) (fst_Message st)
        (fst_DurationMillis st)) fr1 in
      let! flowRun := setFlowRunCondition flowRun
        (MkCondition "Running" ConditionTrue "FlowRunRunning" "FlowRun is running" (Some t) 0) in
      emit (EvStatusUpdateFlowRun flowRun)) s1 Q) as Hrest.
  { intros fr1 s1 Hloc1 Hfl1 Hp1. apply wp_bind; [apply _|]. apply wp_now. intros t s2 Hr2. cbv zeta.
    apply wp_bind; [apply _|]. apply wp_setFlowRunCondition; [by eexists|].
    intros fr2 [Hrv Hph Hst Hsta Hco]. simpl in Hrv, Hph, Hst, Hsta, Hco.
    eapply wp_status_update; [by eapply local_rely|done| | |intros; apply HErr].
    - constructor; rewrite ?Hph, ?Hst, ?Hsta, ?Hco, ?Hp1; try done.
      + destruct Hp as [-> | ->]; constructor.
      + destruct Hp as [-> | ->]; done.
    - intros fr3 s3 Hloc3 Hst3 Hfl3. apply HOk; [done| |by rewrite Hst3].
      by rewrite Hfl3, (rely_flow _ _ _ Hr2). }
  destruct (negb _).
  - eapply wp_update; [done|done| |intros; apply HErr]. intros fr1 s1 Hloc1 Hst1 Hfl1.
    apply Hrest; [done|done|by rewrite Hst1].
  - by apply Hrest.
Qed.

Lemma reconcileGC_neutral r fr : wp (any_spec neutral) (reconcileGC r fr) tt (λ _ _, True).
Proof.
  assert (∀ (l : list FlowRun) (Q : gerr + unit → unit → Prop), (∀ x, Q x tt) →
            wp (any_spec neutral) (deleteAll l) tt Q) as Hdel.
  { intros l Q HQ. unfold deleteAll. induction l as [|x l IH]; simpl; [apply HQ|].
    split; [done|]. intros [[]|e]; [done|]. destruct (isNotFound e); simpl; [done|apply HQ]. }
  assert (∀ t ns p m (Q : option gerr → unit → Prop), (∀ x, Q x tt) →
            wp (any_spec neutral) (enforceMaxFlowRunsByPhase t ns p m) tt Q) as Hmax.
  { intros t ns p m Q HQ. unfold enforceMaxFlowRunsByPhase.
    repeat (cbv zeta; wp_step; try done; try apply HQ). apply Hdel. intros [|]; [apply HQ|case_match; apply HQ]. }
  assert (∀ (Q : option (string * FlowRunGCPolicy) → unit → Prop), (∀ x, Q x tt) →
            wp (any_spec neutral) (triggerGCPolicy fr) tt Q) as Htr.
  { intros Q HQ. unfold triggerGCPolicy. repeat (wp_step; try done; try apply HQ). }
  unfold reconcileGC. wp_step; [done|]. wp_step. apply Htr. intros p. wp_step.
  eapply (wp_mono (any_spec neutral) _ _ (λ _ _, True)).
  - intros [e|] [] _; [done|]. wp_step. apply Htr. intros p'.
    repeat (cbv zeta; try unfold now; wp_step; try done).
  - destruct p as [[t gc]|]; [|done]. unfold enforceFlowRunGCPolicy. wp_step.
    assert (∀ (o : option Z) ph (Q : option gerr → unit → Prop), (∀ x, Q x tt) →
      wp (any_spec neutral) (match o with
        | None => Ret None | Some m => enforceMaxFlowRunsByPhase t (fr_Namespace fr) ph m end) tt Q) as Ho.
    { intros [m|] ph Q HQ; [by apply Hmax|apply HQ]. }
    apply Ho. intros [e|]; [done|]. by apply Ho.
Qed.

Lemma phase_step_fail p : terminalPhase p = false → phase_move p FlowRunPhaseFailed.
Proof. destruct p; try done; constructor. Qed.

Lemma wp_reconcileActive r ns name fr s :
  local s fr → terminalPhase (fr_Phase fr) = false →
  wp sspec (reconcileActive r ns name fr) s not_stalled.
Proof.
  intros Hloc Ht. unfold reconcileActive. apply wp_bind; [apply _|]. intros s1 Hr1.
  apply (local_rely _ _ _ _ Hr1) in Hloc. split; cbn [wp].
  - intros fl. apply wp_bind; [apply _|]. apply wp_ensureRunning; [done|done| |intros; apply not_stalled_err].
    intros fr' s' Hloc' Hfl' Hp'. simpl in Hfl'.
    apply wp_bind; [apply _|].
    eapply (wp_store_quiet _ _ false _ _ (λ _, True)); [done| |].
    { unfold orphanCheck. repeat (try unfold now; wp_step; try done). }
    intros [msg|] s2 Hr2 _.
    + apply wp_fail; [by eapply local_rely| |done]. rewrite Hp'. constructor.
    + apply wp_runSteps; [by eapply local_rely|by rewrite (rely_flow _ _ _ Hr2)|done|done].
  - intros e. destruct (isNotFound e); [|apply not_stalled_err].
    apply wp_fail; [done|by apply phase_step_fail|done].
Qed.

(** Every status [Reconcile] writes is legal, calls with outside effects only
    happen in phase Running, and a run that is not settled is requeued. *)
Lemma Reconcile_wp r ns name s : wp sspec (Reconcile r ns name) s not_stalled.
Proof.
  unfold Reconcile. apply wp_bind; [apply _|]. intros s1 Hr1. split.
  2: { intros e. by apply not_stalled_ignore. }
  intros fr Hv. cbn [wp]. set (s2 := saw _ s1). assert (local s2 fr) as Hloc by (by split).
  assert (∀ msg, cancelReason fr = Some msg → fr_Phase fr = FlowRunPhaseRunning) as Hc.
  { intros msg. unfold cancelReason. by case_bool_decide. }
  destruct (cancelReason fr) as [msg|].
  - specialize (Hc msg eq_refl). apply wp_bind; [apply _|].
    apply wp_finish; [done|rewrite Hc; constructor|done|done|]. intros e s' He Hn _ _. by apply He.
  - destruct (terminalPhase (fr_Phase fr)) eqn:Ht; [|by apply wp_reconcileActive].
    apply wp_bind; [apply _|]. eapply wp_store_neutral; [apply reconcileGC_neutral|].
    intros [d|e] s3 Hr3; [|apply not_stalled_err].
    assert (settled s3) by (unfold settled; rewrite (rely_seen _ _ _ Hr3); by simpl).
    destruct (Z.ltb_spec 0 d); [by apply not_stalled_after|]. by intros _ _ _.
Qed.

End safety.
