(* ===== verification/Progress.v ===== *)
(** * Progress of the FlowRun controller

    In an environment without other writers, where the API server accepts what
    is based on the current version and the clock never goes back, every
    reconcile of a live run brings it closer to its end unless the executor was
    unreachable.  The measure counts 2 for a step that has not started, 1 for a
    step that is waiting, 0 for a finished step. *)

From S2P Require Import Prelude GoStd Api Effects Interp Net Ssrf Kube FlowCtl Steps Publish FlowRun Frames StepOrder Store FlowRunSafety.

Local Open Scope string_scope.
Local Open Scope list_scope.
Local Open Scope go_scope.
Local Open Scope nat_scope.

(** ** The measure *)

Definition weight (l : list StepRunStatus) (step : FlowStep) : nat :=
  match findStepStatus l (st_Name step) with
  | None => 2
  | Some x => if terminalStep (ss_Phase x) then 0
              else if bool_decide (ss_Phase x = StepPhaseWaiting) then 1 else 2
  end.

Definition work_left (fl : Flow) (l : list StepRunStatus) : nat :=
  sum_list_with (weight l) (flow_steps fl).

(** No step of the Flow is further from its end, and one is closer. *)
Definition no_worse (fl : Flow) (l l' : list StepRunStatus) : Prop :=
  ∀ step, step ∈ flow_steps fl → weight l' step ≤ weight l step.
Definition better (fl : Flow) (l l' : list StepRunStatus) : Prop :=
  no_worse fl l l' ∧ ∃ step, step ∈ flow_steps fl ∧ weight l' step < weight l step.

Lemma sum_with_le {A} (f g : A → nat) l :
  (∀ x, x ∈ l → f x ≤ g x) → sum_list_with f l ≤ sum_list_with g l.
Proof.
  induction l as [|x l IH]; simpl; intros Hle; [done|].
  assert (f x ≤ g x) by (apply Hle; by left). assert (∀ y, y ∈ l → f y ≤ g y) by (intros; apply Hle; by right).
  specialize (IH ltac:(done)). lia.
Qed.

Lemma better_work_left fl l l' : better fl l l' → work_left fl l' < work_left fl l.
Proof.
  intros [Hle (step & Hin & Hlt)]. unfold work_left. unfold no_worse in Hle. revert Hle Hin.
  induction (flow_steps fl) as [|s steps IH]; intros Hle Hin; [by apply not_elem_of_nil in Hin|].
  simpl. assert (weight l' s ≤ weight l s) by (apply Hle; by left).
  assert (∀ x, x ∈ steps → weight l' x ≤ weight l x) as Hle' by (intros; apply Hle; by right).
  apply elem_of_cons in Hin as [->|Hin].
  - pose proof (sum_with_le _ _ _ Hle'). lia.
  - specialize (IH Hle' Hin). lia.
Qed.

Lemma no_worse_refl fl l : no_worse fl l l.
Proof. by intros step Hin. Qed.
Lemma no_worse_trans fl a b c : no_worse fl a b → no_worse fl b c → no_worse fl a c.
Proof. intros Hab Hbc step Hin. transitivity (weight b step); auto. Qed.
Lemma no_worse_better fl a b c : no_worse fl a b → better fl b c → better fl a c.
Proof.
  intros Hab [Hbc (step & Hin & Hlt)]. split; [by eapply no_worse_trans|].
  exists step. split; [done|]. specialize (Hab step Hin). lia.
Qed.

(** Writing statuses that are finished, of steps that are not. *)
Lemma find_upsertAll_in l xs n :
  n ∈ ss_Name <$> xs → ∃ y, y ∈ xs ∧ ss_Name y = n ∧ findStepStatus (upsertAll l xs) n = Some y.
Proof.
  unfold upsertAll. revert l. induction xs as [|x xs IH]; intros l Hn; [by apply not_elem_of_nil in Hn|].
  rewrite fmap_cons in Hn. simpl. destruct (decide (n ∈ ss_Name <$> xs)) as [Hin|Hout].
  - destruct (IH (upsertStepStatus l x) Hin) as (y & ? & ? & ?). exists y. split; [by right|done].
  - apply elem_of_cons in Hn as [->|?]; [|done]. exists x. split; [by left|]. split; [done|].
    fold (upsertAll (upsertStepStatus l x) xs). rewrite find_upsertAll_other by done.
    rewrite find_upsert, decide_True by done. done.
Qed.

Lemma weight_in l xs step y :
  y ∈ xs → ss_Name y = st_Name step → (∀ x, x ∈ xs → terminalStep (ss_Phase x) = true) →
  weight (upsertAll l xs) step = 0.
Proof.
  intros Hy Hn Ht. destruct (find_upsertAll_in l xs (st_Name step)) as (z & Hz & _ & Hf).
  { rewrite <- Hn. by apply list_elem_of_fmap_2. }
  unfold weight. by rewrite Hf, (Ht _ Hz).
Qed.

Lemma finished_no_worse fl l xs :
  (∀ x, x ∈ xs → terminalStep (ss_Phase x) = true) → no_worse fl l (upsertAll l xs).
Proof.
  intros Ht step _. destruct (decide (st_Name step ∈ ss_Name <$> xs)) as [Hin|Hout].
  - apply list_elem_of_fmap in Hin as (y & Hn & Hy). rewrite (weight_in l xs step y); [lia|done|done|done].
  - unfold weight. rewrite find_upsertAll_other by done. done.
Qed.

Lemma finished_better fl l xs x step :
  (∀ x, x ∈ xs → terminalStep (ss_Phase x) = true) →
  x ∈ xs → ss_Name x = st_Name step → writable fl l step → better fl l (upsertAll l xs).
Proof.
  intros Ht Hx Hn (Hin & _ & Hnt). split; [by apply finished_no_worse|]. exists step. split; [done|].
  rewrite (weight_in l xs step x) by done. unfold weight.
  destruct (findStepStatus l (st_Name step)) as [y|] eqn:Hy; [|lia].
  rewrite (Hnt _ eq_refl). case_bool_decide; lia.
Qed.

(** ** The statuses of a live run at time [t] *)

Definition live_status (fl : Flow) (l : list StepRunStatus) (t : Z) (step : FlowStep) (x : StepRunStatus) : Prop :=
  terminalStep (ss_Phase x) = true ∨
  (ss_Phase x = StepPhaseWaiting ∧ a_Type (st_Action step) = stepActionWait ∧
   deps_met fl l step = true ∧ ∃ u, ss_ResumeAfter x = Some u ∧ (u <= t)%Z).

Definition live (fl : Flow) (l : list StepRunStatus) (t : Z) : Prop :=
  ∀ step x, step ∈ flow_steps fl → findStepStatus l (st_Name step) = Some x → live_status fl l t step x.

Lemma live_status_later fl l l' t t' step x :
  steps_kept l l' → (t <= t')%Z → live_status fl l t step x → live_status fl l' t' step x.
Proof.
  intros Hk Ht [Hx|(Hp & Ha & Hd & u & Hu & Hle)]; [by left|]. right.
  do 2 (split; [done|]). split; [by eapply deps_met_kept|]. exists u. split; [done|lia].
Qed.

Lemma live_later fl l t t' : (t <= t')%Z → live fl l t → live fl l t'.
Proof. intros Ht Hl step x Hin Hx. eapply live_status_later; [apply steps_kept_refl|done|eauto]. Qed.

Lemma live_upsertAll fl l xs t :
  live fl l t → steps_kept l (upsertAll l xs) →
  (∀ x, x ∈ xs → terminalStep (ss_Phase x) = true) → live fl (upsertAll l xs) t.
Proof.
  intros Hl Hk Ht step x Hin Hx. apply find_upsertAll in Hx as [[Hx _]|[Hx _]].
  - eapply live_status_later; [done|done|eauto].
  - left. auto.
Qed.

(** A step that is ready has not started, or its wait has elapsed. *)
Lemma live_ready fl l t step :
  live fl l t → step ∈ collectWave fl l →
  findStepStatus l (st_Name step) = None ∨
  ∃ x u, findStepStatus l (st_Name step) = Some x ∧ ss_Phase x = StepPhaseWaiting ∧
         ss_ResumeAfter x = Some u ∧ (u <= t)%Z.
Proof.
  intros Hl Hw. pose proof (collectWave_writable _ _ _ Hw) as (Hin & _ & Hnt).
  destruct (findStepStatus l (st_Name step)) as [x|] eqn:Hx; [|by left]. right.
  destruct (Hl step x Hin Hx) as [Ht|(Hp & _ & _ & u & Hu & Hle)].
  - by rewrite (Hnt _ eq_refl) in Ht.
  - by exists x, u.
Qed.

(** With nothing ready, nothing is running. *)
Lemma live_idle fl l t a anyRunning :
  live fl l t → collectWave fl l = [] → scanSteps (flow_steps fl) l = (a, anyRunning) → anyRunning = false.
Proof.
  intros Hl Hw. unfold scanSteps. rewrite scanSteps_spec. intros [= _ <-]. simpl.
  apply not_true_is_false. intros (step & Hin & Hx)%existsb_exists. apply list_elem_of_In in Hin.
  destruct (findStepStatus l (st_Name step)) as [x|] eqn:Hf; [|done].
  pose proof (not_ready_spec _ _ _ Hw Hin) as Hr.
  destruct (Hl step x Hin Hf) as [Ht|(Hp & Ha & Hd & _)].
  - by destruct (ss_Phase x).
  - unfold ready in Hr. unfold deps_met, flow_steps in Hd. rewrite Hd, Hf in Hr. simpl in Hr.
    rewrite Hp, Ha in Hr. done.
Qed.

Section progress.
  Context `{CelLib} `{HttpLib} `{NetLib} `{KubeLib} `{SortLib}.
  Context (fl : Flow).

(** ** The environment *)

(** The stored FlowRun and the time of the last clock reading.  The server
    holds the Flow [fl], returns the stored FlowRun and accepts a write that is
    based on its version; everything else may answer anything. *)
Definition calm : Spec Ev (FlowRun * Z) := λ X e '(fr, t),
  match e in Ev X' return (X' → FlowRun * Z → Prop) → Prop with
  | EvNow => λ Q, ∀ t', (t <= t')%Z → Q t' (fr, t')
  | EvGetFlowRun _ _ => λ Q, Q (Ok fr) (fr, t)
  | EvGetFlow _ _ => λ Q, Q (Ok fl) (fr, t)
  | EvUpdateFlowRun f => λ Q,
      if decide (rv f = rv fr)
      then ∀ fr', fr_Status fr' = fr_Status fr → Q (Ok fr') (fr', t)
      else ∀ err, Q (Err err) (fr, t)
  | EvStatusUpdateFlowRun f => λ Q,
      if decide (rv f = rv fr)
      then ∀ fr', fr_Status fr' = fr_Status f → Q (Ok fr') (fr', t)
      else ∀ err, Q (Err err) (fr, t)
  | _ => λ Q, ∀ x, Q x (fr, t)
  end.

#[export] Instance calm_mono : MonoSpec calm.
Proof.
  intros X e [fr t] P Q HPQ Hs. destruct e; simpl in *; try (intros; apply HPQ; by apply Hs);
    try (by apply HPQ); case_decide; intros; apply HPQ; by apply Hs.
Qed.

Lemma calm_now fr t (Q : Z → FlowRun * Z → Prop) :
  (∀ t', (t <= t')%Z → Q t' (fr, t')) → wp calm now (fr, t) Q.
Proof. done. Qed.

Lemma calm_get ns name fr t (Q : result FlowRun → FlowRun * Z → Prop) :
  Q (Ok fr) (fr, t) → wp calm (emit (EvGetFlowRun ns name)) (fr, t) Q.
Proof. done. Qed.

Lemma calm_get_flow ns name fr t (Q : result Flow → FlowRun * Z → Prop) :
  Q (Ok fl) (fr, t) → wp calm (emit (EvGetFlow ns name)) (fr, t) Q.
Proof. done. Qed.

Lemma calm_quiet {A} b (p : Prog Ev A) (P : A → Prop) fr t (Q : A → FlowRun * Z → Prop) :
  wp (any_spec (quiet b)) p tt (λ a _, P a) →
  (∀ a t', (t <= t')%Z → P a → Q a (fr, t')) → wp calm p (fr, t) Q.
Proof.
  revert t. induction p as [a|X e k IH]; simpl; intros t Hp HQ; [apply HQ; [lia|done]|].
  destruct Hp as [He Hk]. destruct e; simpl in *; try done;
    intros; (apply IH; [apply Hk|]); intros; apply HQ; try done; lia.
Qed.

Lemma calm_status_update fr f t (Q : result FlowRun → FlowRun * Z → Prop) :
  rv f = rv fr → (∀ fr', fr_Status fr' = fr_Status f → Q (Ok fr') (fr', t)) →
  wp calm (emit (EvStatusUpdateFlowRun f)) (fr, t) Q.
Proof. intros Hrv HQ. simpl. by rewrite decide_True by done. Qed.

Lemma calm_update fr f t (Q : result FlowRun → FlowRun * Z → Prop) :
  rv f = rv fr → (∀ fr', fr_Status fr' = fr_Status fr → Q (Ok fr') (fr', t)) →
  wp calm (emit (EvUpdateFlowRun f)) (fr, t) Q.
Proof. intros Hrv HQ. simpl. by rewrite decide_True by done. Qed.

(** ** Ends of a run *)

Definition ended (s : FlowRun * Z) : Prop := terminalPhase (fr_Phase s.1) = true.

(** Fill in the condition and the duration, write the status, write the metadata. *)
Lemma calm_finish_updates {A} (f : FlowRun → FlowRun) (g : result FlowRun → A) (k : gerr → A)
    fr c st t (Q : A → FlowRun * Z → Prop) :
  is_Some (c_LastTransitionTime c) → rv fr = rv st → terminalPhase (fr_Phase fr) = true →
  (∀ x, rv (f x) = rv x) → (∀ a s, ended s → Q a s) →
  wp calm (let! fr := setFlowRunCondition fr c in
           let! fr := setDuration fr in
           let! u := emit (EvStatusUpdateFlowRun fr) in
           match u with
           | Err e => Ret (k e)
           | Ok fr => let! u := emit (EvUpdateFlowRun (f fr)) in Ret (g u)
           end) (st, t) Q.
Proof.
  intros [tc Htc] Hrv Ht Hf HQ. apply wp_bind; [apply _|]. unfold setFlowRunCondition. rewrite Htc.
  cbn [pbind wp]. apply wp_bind; [apply _|]. set (fr1 := set_Status _ fr).
  assert (∀ fr2 t2, rv fr2 = rv st → terminalPhase (fr_Phase fr2) = true →
    wp calm (let! u := emit (EvStatusUpdateFlowRun fr2) in
             match u with
             | Err e => Ret (k e)
             | Ok fr => let! u := emit (EvUpdateFlowRun (f fr)) in Ret (g u)
             end) (st, t2) Q) as Hrest.
  { intros fr2 t2 Hrv2 Ht2. apply wp_bind; [apply _|]. apply calm_status_update; [done|].
    intros fr3 Hst3. apply wp_bind; [apply _|]. apply calm_update; [apply Hf|]. intros fr4 Hst4.
    apply HQ. unfold ended. simpl. by rewrite Hst4, Hst3. }
  unfold setDuration. destruct (fst_StartTime (fr_Status fr1)).
  - apply wp_bind; [apply _|]. apply calm_now. intros t' _. cbn [wp]. by apply Hrest.
  - cbn [wp]. by apply Hrest.
Qed.

Lemma calm_finish fr phase reason msg st t (Q : option gerr → FlowRun * Z → Prop) :
  rv fr = rv st → terminalPhase phase = true → (∀ e s, ended s → Q e s) →
  wp calm (finishFlowRun fr phase reason msg) (st, t) Q.
Proof.
  intros Hrv Ht HQ. unfold finishFlowRun. apply wp_bind; [apply _|]. apply calm_now. intros t' _. cbv zeta.
  apply (calm_finish_updates dropFinalizer errOf Some); [by eexists|done|done|apply dropFinalizer_rv|done].
Qed.

Lemma calm_fail fr msg st t (Q : Result * option gerr → FlowRun * Z → Prop) :
  rv fr = rv st → (∀ x s, ended s → Q x s) →
  wp calm (returning (failFlowRun fr msg)) (st, t) Q.
Proof. intros Hrv HQ. apply wp_bind; [apply _|]. apply calm_finish; [done|done|]. intros; by apply HQ. Qed.

Lemma calm_finalize fr st t (Q : Result * option gerr → FlowRun * Z → Prop) :
  rv fr = rv st → (∀ x s, ended s → Q x s) → wp calm (finalize fl fr) (st, t) Q.
Proof.
  intros Hrv HQ. unfold finalize. destruct (fatalFailure _ _); [by apply calm_fail|].
  apply wp_bind; [apply _|]. apply calm_now. intros t' _. cbv zeta.
  apply (calm_finish_updates (λ fr, dropFinalizer (setPhaseLabel FlowRunPhaseSucceeded fr))
           (λ u, (MkResultR false 0, errOf u)) done_err);
    [by eexists|done|done|intros x; by rewrite dropFinalizer_rv|done].
Qed.

(** ** One reconcile *)

(** From the statuses [l]: the run ended, or the executor was unreachable and
    nothing changed, or the run is closer to its end; then it is alive when
    the requeue delay has passed. *)
Definition advanced (l : list StepRunStatus) (x : Result * option gerr) (s : FlowRun * Z) : Prop :=
  ended s ∨
  (fr_Phase s.1 = FlowRunPhaseRunning ∧ live fl (fr_Steps s.1) (s.2 + RequeueAfter x.1)%Z ∧
   (better fl l (fr_Steps s.1) ∨
    (x = requeue_after executorTransportBackoff ∧ fr_Steps s.1 = l))).

Lemma advanced_end l x s : ended s → advanced l x s.
Proof. by left. Qed.
Local Hint Resolve advanced_end : core.

Context (Hwf : flow_wf (fl_Spec fl)).

Lemma same_name step step' :
  step ∈ flow_steps fl → step' ∈ flow_steps fl → st_Name step = st_Name step' → step = step'.
Proof.
  intros (i & Hi)%list_elem_of_lookup (j & Hj)%list_elem_of_lookup Hn.
  assert (i = j) as ->; [|congruence].
  apply (NoDup_lookup (st_Name <$> flow_steps fl) i j (st_Name step)); [apply (wf_unique _ Hwf)| |];
    rewrite list_lookup_fmap, ?Hi, ?Hj; simpl; congruence.
Qed.

(** *** The wave *)

Definition wave_result (step : FlowStep) (res : WaveResult) : Prop :=
  wr_requeueAfter res = executorTransportBackoff ∨
  (wr_requeueAfter res = 0%Z ∧ ss_Name (wr_status res) = st_Name step ∧
   terminalStep (ss_Phase (wr_status res)) = true).

Lemma calm_executeWaveStep r fr sr ps step st t (Q : WaveResult → FlowRun * Z → Prop) :
  (∀ res t', (t <= t')%Z → wave_result step res → Q res (st, t')) →
  wp calm (executeWaveStep r fl fr sr ps step) (st, t) Q.
Proof.
  intros HQ. unfold executeWaveStep. apply wp_bind; [apply _|]. apply calm_now. intros t1 Ht1.
  apply wp_bind; [apply _|]. eapply calm_quiet; [apply executeStep_quiet|].
  intros [ss [e|]] t2 Ht2 Ho; simpl in Ho; (apply wp_bind; [apply _|]); apply calm_now; intros t3 Ht3.
  - rewrite Ho. cbn [wp]. apply HQ; [lia|by left].
  - destruct Ho as [Hn Ho]. destruct (_ && _); cbn [wp]; (apply HQ; [lia|]); right;
      (split; [done|]); (split; [done|]); simpl; by destruct Ho as [-> | ->].
Qed.

Lemma wave_all_finished wave results :
  Forall2 wave_result wave results → (transportRequeue results <= 0)%Z →
  ∀ res, res ∈ results → ∃ step, step ∈ wave ∧ ss_Name (wr_status res) = st_Name step ∧
    terminalStep (ss_Phase (wr_status res)) = true.
Proof.
  intros HF Hle res Hin. edestruct (transportRequeue_spec results 0) as [_ Hmax]; [|lia|].
  - intros res' (i & Hi)%list_elem_of_lookup. destruct (Forall2_lookup_r _ _ _ _ _ HF Hi) as (step & _ & Hres).
    destruct Hres as [->|[-> _]]; [by vm_compute|lia].
  - specialize (Hmax _ Hin). fold (transportRequeue results) in Hmax.
    apply list_elem_of_lookup in Hin as (i & Hi).
    destruct (Forall2_lookup_r _ _ _ _ _ HF Hi) as (step & Hstep & [Heq|(_ & Hn & Ht)]).
    + rewrite Heq in Hmax. assert (0 < executorTransportBackoff)%Z by (by vm_compute). lia.
    + exists step. split; [by eapply list_elem_of_lookup_2|done].
Qed.

Lemma transportRequeue_backoff wave results :
  Forall2 wave_result wave results → (0 < transportRequeue results)%Z →
  transportRequeue results = executorTransportBackoff.
Proof.
  assert (∀ d, (d = 0%Z ∨ d = executorTransportBackoff) → Forall2 wave_result wave results →
    let m := fold_left (λ d res, if (d <? wr_requeueAfter res)%Z then wr_requeueAfter res else d) results d in
    m = 0%Z ∨ m = executorTransportBackoff) as Hgen.
  { intros d Hd HF. revert d Hd. induction HF as [|step res wave results Hr HF IH]; simpl; intros d Hd; [done|].
    apply IH. destruct (_ <? _)%Z; [|done]. destruct Hr as [->|[-> _]]; auto. }
  intros HF Hlt. destruct (Hgen 0%Z (or_introl eq_refl) HF) as [Heq|Heq]; fold (transportRequeue results) in Heq;
    [lia|done].
Qed.

Lemma calm_executeWave r fr sr ps wave st t (Q : Result * option gerr → FlowRun * Z → Prop) :
  rv fr = rv st → fr_Phase fr = FlowRunPhaseRunning → fr_Status st = fr_Status fr → live fl (fr_Steps fr) t →
  wave ≠ [] → (∀ step, step ∈ wave → writable fl (fr_Steps fr) step) →
  (∀ x s, advanced (fr_Steps fr) x s → Q x s) →
  wp calm (executeWave r fl fr sr ps wave) (st, t) Q.
Proof.
  intros Hrv Hp Hst Hl Hne Hw HQ. unfold executeWave. apply wp_bind; [apply _|].
  eapply wp_mono; [apply _| |apply (wp_map calm _ wave (λ s, s.1 = st ∧ (t <= s.2)%Z) wave_result); [|done]].
  2: { intros step [st1 t1] _ [Hst1 Ht1]. simpl in Hst1, Ht1. subst st1. apply calm_executeWaveStep. intros res t2 Ht2 Hr.
       split; [split; [done|simpl; lia]|done]. }
  intros results [st1 t1] [[Hst1 Ht1] HF]. simpl in Hst1, Ht1. subst st1. cbv zeta.
  destruct (Z.ltb_spec 0 (transportRequeue results)) as [Hlt|Hge].
  { apply HQ. right. simpl. rewrite Hst. split; [done|].
    split; [eapply live_later; [|done]; simpl; lia|]. right.
    by rewrite (transportRequeue_backoff _ _ HF Hlt). }
  pose proof (wave_all_finished _ _ HF Hge) as Hall.
  destruct (mergeResults results (fr_Steps fr)) as [l fatalMsg] eqn:Hm.
  assert (l = upsertAll (fr_Steps fr) (withDuration <$> results)) as ->
    by (by rewrite <- mergeResults_upsertAll, Hm).
  assert (∀ x, x ∈ withDuration <$> results → terminalStep (ss_Phase x) = true) as Hfin.
  { intros x (res & -> & Hin)%list_elem_of_fmap. rewrite withDuration_phase. by destruct (Hall _ Hin) as (? & _ & _ & ?). }
  assert (steps_kept (fr_Steps fr) (upsertAll (fr_Steps fr) (withDuration <$> results))) as Hk.
  { apply (steps_ok_upsertAll fl). intros x Hx. split; [|].
    - specialize (Hfin _ Hx). unfold persistable. destruct (ss_Phase x); auto; done.
    - apply list_elem_of_fmap in Hx as (res & -> & Hin). destruct (Hall _ Hin) as (step & Hs & Hn & _).
      exists step. rewrite withDuration_name. auto. }
  apply wp_bind; [apply _|]. apply calm_status_update; [done|]. intros fr' Hst'.
  destruct (negb _); [apply calm_fail; [done|auto]|]. apply HQ. right. simpl. rewrite Hst'. simpl.
  split; [done|]. split; [apply live_upsertAll; [|done|done]; eapply live_later; [|done]; lia|]. left.
  destruct HF as [|step res wave' results' Hr HF]; [done|].
  destruct (Hall res ltac:(by left)) as (step' & Hs & Hn & _).
  eapply finished_better; [done|apply list_elem_of_fmap_2; by left| |by apply Hw].
  by rewrite withDuration_name.
Qed.

(** *** Wait steps *)

(** A wait step is resumed when its time has come, and otherwise starts. *)
Lemma calm_executeWaitStep fr step ss st t (Q : StepRunStatus * result Z → FlowRun * Z → Prop) :
  live fl (fr_Steps fr) t → step ∈ collectWave fl (fr_Steps fr) →
  (∀ ss' r t', (t <= t')%Z → ss_Name ss' = ss_Name ss →
     (match r with
      | Err _ => True
      | Ok d => (0 < d)%Z → findStepStatus (fr_Steps fr) (st_Name step) = None ∧
                  ss_Phase ss' = StepPhaseWaiting ∧ ss_ResumeAfter ss' = Some (t' + d)%Z
      end) → Q (ss', r) (st, t')) →
  wp calm (executeWaitStep fr step ss) (st, t) Q.
Proof.
  intros Hl Hin HQ. unfold executeWaitStep. cbv zeta.
  destruct (a_Wait _) as [w|]; [|apply HQ; [lia|done..]].
  destruct (ParseDuration _) as [duration|]; [|apply HQ; [lia|done..]].
  destruct (live_ready _ _ _ _ Hl Hin) as [Hf|(x & u & Hf & _ & Hu & Hle)]; rewrite Hf; simpl.
  - intros t1 Ht1. apply HQ; [lia|done|done].
  - rewrite Hu. intros t1 Ht1. cbn [pbind wp]. destruct (Z.ltb_spec t1 u); [lia|].
    apply HQ; [lia|done|]. intros. lia.
Qed.

(** A wait that starts: the other steps are untouched. *)
Lemma waiting_advanced l x step t u :
  live fl l t → writable fl l step → findStepStatus l (st_Name step) = None →
  a_Type (st_Action step) = stepActionWait → ss_Name x = st_Name step →
  ss_Phase x = StepPhaseWaiting → ss_ResumeAfter x = Some u → (t <= u)%Z →
  live fl (upsertStepStatus l x) u ∧ better fl l (upsertStepStatus l x).
Proof.
  intros Hl (Hin & Hd & _) Hf Ha Hn Hp Hu Htu.
  assert (steps_kept l (upsertStepStatus l x)) as Hk.
  { intros n y Hy _. rewrite find_upsert, decide_False; [done|]. congruence. }
  split.
  - intros step' y Hin' Hy. rewrite find_upsert in Hy. case_decide as Hn'.
    + simplify_eq. rewrite (same_name step' step) by (try done; congruence). right.
      do 2 (split; [done|]). split; [by eapply deps_met_kept|]. by exists u.
    + eapply live_status_later; [done|done|by apply Hl].
  - split.
    + intros step' Hin'. unfold weight. rewrite find_upsert. case_decide as Hn'; [|done].
      rewrite Hp. simpl. rewrite <- Hn', Hn, Hf. lia.
    + exists step. split; [done|]. unfold weight. rewrite find_upsert, decide_True by done.
      rewrite Hp, Hf. simpl. lia.
Qed.

Lemma calm_handleWait fr step st t (Q : Result * option gerr → FlowRun * Z → Prop) :
  rv fr = rv st → fr_Phase fr = FlowRunPhaseRunning → live fl (fr_Steps fr) t →
  step ∈ collectWave fl (fr_Steps fr) → a_Type (st_Action step) = stepActionWait →
  (∀ x s, advanced (fr_Steps fr) x s → Q x s) →
  wp calm (handleWait fl fr step) (st, t) Q.
Proof.
  intros Hrv Hp Hl Hin Ha HQ. pose proof (collectWave_writable _ _ _ Hin) as Hw.
  assert (∀ ss' x fr' t1, (t <= t1)%Z → ss_Name ss' = st_Name step → terminalStep (ss_Phase ss') = true →
    RequeueAfter x.1 = 0%Z → fr_Status fr' = fr_Status (with_steps (upsertStepStatus (fr_Steps fr) ss') fr) →
    advanced (fr_Steps fr) x (fr', t1)) as Hdone.
  { intros ss' x fr' t1 Ht1 Hn Hter Hx Hst'. right. simpl. rewrite Hst', Hx. simpl. split; [done|].
    assert (∀ y, y ∈ [ss'] → terminalStep (ss_Phase y) = true) as Hfin by (by intros y ->%list_elem_of_singleton).
    split; [|left; by apply (finished_better fl _ [ss'] ss' step); [|left| |]].
    eapply (live_upsertAll fl (fr_Steps fr) [ss']); [eapply live_later; [|done]; lia| |done].
    eapply (proj1 (steps_ok_upsert fl (fr_Steps fr) ss' step _ Hn Hw)). Unshelve.
    unfold persistable. destruct (ss_Phase ss'); auto; done. }
  unfold handleWait. apply wp_bind; [apply _|]. apply calm_now. intros t1 Ht1. cbv zeta.
  apply wp_bind; [apply _|]. apply calm_executeWaitStep; [by eapply live_later|done|].
  intros ss [d|err] t2 Ht2 Hn Hr; simpl in Hn.
  - destruct (Z.ltb_spec 0 d) as [Hd|Hd].
    + destruct (Hr Hd) as (Hf & Hph & Hu). apply wp_bind; [apply _|].
      apply calm_status_update; [done|]. intros fr' Hst'. apply HQ. right. simpl. rewrite Hst'. simpl.
      split; [done|]. edestruct waiting_advanced as [Hlv Hb]; [exact Hl|exact Hw|done..| |]; [|by split; [|left]]. lia.
    + apply wp_bind; [apply _|]. apply calm_now. intros t3 Ht3. apply wp_bind; [apply _|].
      apply calm_status_update; [done|]. intros fr' Hst'. apply HQ. eapply Hdone; [|..|exact Hst']; try done. lia.
  - apply wp_bind; [apply _|]. apply calm_now. intros t3 Ht3. apply wp_bind; [apply _|].
    apply calm_status_update; [done|]. intros fr' Hst'.
    destruct (continues fl step); [|apply calm_fail; [done|auto]].
    apply HQ. eapply Hdone; [|..|exact Hst']; try done. lia.
Qed.

(** *** Inline transitions *)

(** The local copy [x.1] after part of the inline loop started from [fr0]. *)
Definition inline_prog (fr0 : FlowRun) (x : FlowRun * bool) (s : FlowRun * Z) : Prop :=
  rv x.1 = rv s.1 ∧ fr_Phase x.1 = FlowRunPhaseRunning ∧ live fl (fr_Steps x.1) s.2 ∧
  (if x.2 then better fl (fr_Steps fr0) (fr_Steps x.1)
   else x.1 = fr0 ∧ fr_Status s.1 = fr_Status fr0).

Lemma inline_prog_later fr0 x st t t' :
  (t <= t')%Z → inline_prog fr0 x (st, t) → inline_prog fr0 x (st, t').
Proof. intros Ht (? & ? & Hl & ?). do 2 (split; [done|]). split; [by eapply live_later|done]. Qed.

(** Recording the outcome of a step that had not started. *)
Lemma inline_prog_record fr0 fr sk st t step phase msg u :
  inline_prog fr0 (fr, sk) (st, t) → terminalStep phase = true → writable fl (fr_Steps fr) step →
  inline_prog fr0 (with_steps (upsertStepStatus (fr_Steps fr)
                     (inlineStatus (st_Name step) phase msg u)) fr, true) (st, t).
Proof.
  intros (Hrv & Hp & Hl & Hb) Ht Hw. simpl in *. set (x := inlineStatus _ _ _ _).
  assert (∀ y, y ∈ [x] → terminalStep (ss_Phase y) = true) as Hfin by (by intros y ->%list_elem_of_singleton).
  assert (better fl (fr_Steps fr) (upsertStepStatus (fr_Steps fr) x)) as Hnew
    by (by apply (finished_better fl _ [x] x step); [|left| |]).
  do 2 (split; [done|]). simpl. split.
  - apply (live_upsertAll fl (fr_Steps fr) [x]); [done| |done].
    eapply (proj1 (steps_ok_upsert fl (fr_Steps fr) x step _ eq_refl Hw)). Unshelve.
    unfold persistable. simpl. destruct phase; auto; done.
  - destruct sk; [|by destruct Hb as [-> _]]. eapply no_worse_better; [apply Hb|done].
Qed.

Lemma calm_inlineStep r sr ps fr0 step x s :
  step ∈ flow_steps fl → inline_prog fr0 x s →
  wp calm (inlineStep r fl sr ps x step) s
    (λ y s', match y with inl res => ended s' | inr x' => inline_prog fr0 x' s' end).
Proof.
  intros Hin Hinv. destruct x as [fr sk], s as [st t]. unfold inlineStep. cbv zeta.
  destruct (dependenciesMet _ _ _ _) eqn:Hd; [|done].
  destruct (started _) eqn:Hst; [done|]. cbn [negb].
  assert (writable fl (fr_Steps fr) step) as Hw by (by apply not_started_writable).
  destruct (allDepsSkipped _ _).
  { apply wp_bind; [apply _|]. apply calm_now. intros t1 Ht1. cbn [wp].
    apply inline_prog_record with (sk := sk); [by eapply inline_prog_later|done|done]. }
  destruct (st_When step) as [|w ws] eqn:Hwhen; [done|]. rewrite <- Hwhen. clear Hwhen w ws.
  apply wp_bind; [apply _|]. eapply (calm_quiet false); [apply evaluateWhen_quiet|].
  intros [run|err] t1 Ht1 _.
  - apply (inline_prog_later _ _ _ _ _ Ht1) in Hinv. destruct run; cbn [negb wp]; [done|].
    apply wp_bind; [apply _|]. apply calm_now. intros t2 Ht2. cbn [wp].
    apply inline_prog_record with (sk := sk); [by eapply inline_prog_later|done|done].
  - apply wp_bind; [apply _|]. apply calm_now. intros t2 Ht2. apply wp_bind; [apply _|].
    assert (t <= t2)%Z as Ht by lia. apply (inline_prog_later _ _ _ _ _ Ht) in Hinv.
    eapply inline_prog_record with (step := step) (phase := StepPhaseFailed)
      (msg := "when expression error: " +:+ emsg err) (u := t2) in Hinv; [|done|done].
    destruct Hinv as (Hrv & Hp & Hl & Hb). simpl in Hrv, Hp, Hl, Hb.
    apply calm_status_update; [done|]. intros fr' Hst'. destruct (continues fl step).
    + cbn [wp]. split; [done|]. simpl. rewrite Hst'. split; [done|]. by split.
    + apply wp_bind; [apply _|]. by apply calm_fail.
Qed.

(** *** The whole reconcile *)

Lemma calm_dispatchWave r fr sr ps a anyRunning st t (Q : Result * option gerr → FlowRun * Z → Prop) :
  rv fr = rv st → fr_Phase fr = FlowRunPhaseRunning → fr_Status st = fr_Status fr → live fl (fr_Steps fr) t →
  scanSteps (flow_steps fl) (fr_Steps fr) = (a, anyRunning) →
  (∀ x s, advanced (fr_Steps fr) x s → Q x s) →
  wp calm (dispatchWave r fl fr sr ps anyRunning) (st, t) Q.
Proof.
  intros Hrv Hp Hst Hl Hscan HQ. unfold dispatchWave.
  destruct (collectWave fl (fr_Steps fr)) as [|st0 w] eqn:Hw.
  - rewrite (live_idle _ _ _ _ _ Hl Hw Hscan). apply calm_finalize; [done|auto].
  - rewrite <- Hw. destruct (find_by _ _) as [step|] eqn:Hf.
    + apply find_by_Some in Hf as [Hin Ha]. bool_hyps. by apply calm_handleWait.
    + apply calm_executeWave; try done; [by rewrite Hw|apply collectWave_writable].
Qed.

Lemma calm_runSteps r ns name fr st t (Q : Result * option gerr → FlowRun * Z → Prop) :
  rv fr = rv st → fr_Phase fr = FlowRunPhaseRunning → fr_Status st = fr_Status fr → live fl (fr_Steps fr) t →
  (∀ x s, advanced (fr_Steps fr) x s → Q x s) →
  wp calm (runSteps r ns name fl fr) (st, t) Q.
Proof.
  intros Hrv Hp Hst Hl HQ. unfold runSteps. cbv zeta.
  destruct (resolveFlowParams _ _ _ _) as [ps|e]; [|apply calm_fail; [done|auto]].
  destruct (scanSteps _ _) as [a anyRunning] eqn:Hscan. destruct a; [apply calm_finalize; [done|auto]|].
  apply wp_bind; [apply _|].
  eapply wp_mono; [apply _| |apply (wp_fold_ret calm _ _ (inline_prog fr) (λ _, ended))].
  - intros [res|[fr' sk]] [st1 t1] Hx; [by apply HQ; left|]. destruct Hx as (Hrv1 & Hp1 & Hl1 & Hb).
    simpl in Hrv1, Hp1, Hl1, Hb. destruct sk.
    + apply wp_bind; [apply _|]. apply calm_status_update; [done|]. intros fr2 Hst2.
      apply HQ. right. simpl. rewrite Hst2. split; [done|]. split; [|by left].
      eapply live_later; [|done]. simpl. lia.
    + destruct Hb as [-> Hst1]. by eapply calm_dispatchWave.
  - intros x s step Hin Hinv. by apply calm_inlineStep.
  - by repeat split.
Qed.

Lemma calm_ensureRunning fr t (Q : result FlowRun → FlowRun * Z → Prop) :
  terminalPhase (fr_Phase fr) = false →
  (∀ fr' t', (t <= t')%Z → fr_Phase fr' = FlowRunPhaseRunning → fr_Steps fr' = fr_Steps fr →
     Q (Ok fr') (fr', t')) →
  wp calm (ensureRunning fr) (fr, t) Q.
Proof.
  intros Ht HQ. unfold ensureRunning.
  assert (∀ fr1, fr_Steps fr1 = fr_Steps fr →
    wp calm (let! t := now in
      let st := fr_Status fr1 in
      let flowRun := set_Status (MkFlowRunStatus (fst_ObservedGeneration st) FlowRunPhaseRunning
        (fst_Conditions st) (Some t) (fst_CompletionTime st) (fst_Steps st) (fst_Message st)
        (fst_DurationMillis st)) fr1 in
      let! flowRun := setFlowRunCondition flowRun
        (MkCondition "Running" ConditionTrue "FlowRunRunning" "FlowRun is running" (Some t) 0) in
      emit (EvStatusUpdateFlowRun flowRun)) (fr1, t) Q) as Hrest.
  { intros fr1 Hs. apply wp_bind; [apply _|]. apply calm_now. intros t' Ht'. cbv zeta.
    apply wp_bind; [apply _|]. cbn [setFlowRunCondition c_LastTransitionTime pbind wp].
    apply calm_status_update; [done|]. intros fr' Hst. apply HQ; [lia|by rewrite Hst|by rewrite Hst]. }
  destruct (fr_Phase fr) eqn:Hp; try done; [| |apply HQ; [lia|done..]]; unfold startRunning;
    (apply wp_bind; [apply _|]); destruct (negb _); try (by apply Hrest);
    (apply calm_update; [done|]); intros fr1 Hst1; apply Hrest; by rewrite Hst1.
Qed.

Lemma calm_neutral {A} (p : Prog Ev A) fr t (Q : A → FlowRun * Z → Prop) :
  wp (any_spec neutral) p tt (λ _ _, True) →
  (∀ a t', Q a (fr, t')) → wp calm p (fr, t) Q.
Proof.
  revert t. induction p as [a|X e k IH]; simpl; intros t Hp HQ; [apply HQ|].
  destruct Hp as [He Hk]. by destruct e; simpl in *; try done; intros; apply IH.
Qed.

Lemma calm_Reconcile r ns name fr t :
  live fl (fr_Steps fr) t → wp calm (Reconcile r ns name) (fr, t) (advanced (fr_Steps fr)).
Proof.
  intros Hl. unfold Reconcile. apply wp_bind; [apply _|]. apply calm_get. cbv iota.
  destruct (cancelReason fr) as [msg|].
  { apply wp_bind; [apply _|]. apply calm_finish; [done|done|]. intros e s He. by left. }
  destruct (terminalPhase (fr_Phase fr)) eqn:Ht.
  { apply wp_bind; [apply _|]. apply calm_neutral; [apply reconcileGC_neutral|].
    intros [d|e] t'; [destruct (0 <? d)%Z|]; by left. }
  unfold reconcileActive. apply wp_bind; [apply _|]. apply calm_get_flow. cbv iota. apply wp_bind; [apply _|].
  apply calm_ensureRunning; [done|]. intros fr' t' Ht' Hp' Hs'.
  apply wp_bind; [apply _|]. eapply (calm_quiet false _ (λ _, True)).
  { unfold orphanCheck. repeat (try unfold now; wp_step; try done). }
  intros [msg|] t2 Ht2 _; [apply calm_fail; [done|auto]|].
  apply calm_runSteps; try done; [eapply live_later; [|by rewrite Hs']; lia|].
  intros x s. by rewrite Hs'.
Qed.

(** ** Any number of reconciles *)

(** [n] reconciles, each not before the requeue delay of the one before it has
    passed ([controller-runtime]'s delaying queue); [k] counts those that found
    the executor unreachable. *)
Fixpoint driven (r : FlowRunReconciler) (ns name : string) (n k : nat) (fr : FlowRun) (t : Z)
    (Q : nat → FlowRun → Prop) : Prop :=
  match n with
  | 0 => Q k fr
  | S n =>
      wp calm (Reconcile r ns name) (fr, t) (λ x s, ∀ t', (s.2 + RequeueAfter x.1 <= t')%Z →
        driven r ns name n
          (if decide (x.1 = MkResultR false executorTransportBackoff) then S k else k) s.1 t' Q)
  end.

Lemma driven_ended r ns name n k fr t (Q : nat → FlowRun → Prop) :
  terminalPhase (fr_Phase fr) = true →
  (∀ k fr, terminalPhase (fr_Phase fr) = true → Q k fr) → driven r ns name n k fr t Q.
Proof.
  intros Ht HQ. revert k fr t Ht. induction n as [|n IH]; intros k fr t Ht; cbn [driven]; [by apply HQ|].
  unfold Reconcile. apply wp_bind; [apply _|]. apply calm_get. cbv iota.
  assert (cancelReason fr = None) as ->.
  { unfold cancelReason. case_bool_decide as Hp; [|done]. by rewrite Hp in Ht. }
  rewrite Ht. apply wp_bind; [apply _|]. apply calm_neutral; [apply reconcileGC_neutral|].
  intros [d|e] t'; [destruct (0 <? d)%Z|]; cbn [wp]; intros; by apply IH.
Qed.

Lemma driven_mono r ns name n k fr t (P Q : nat → FlowRun → Prop) :
  (∀ k fr, P k fr → Q k fr) → driven r ns name n k fr t P → driven r ns name n k fr t Q.
Proof.
  intros HPQ. revert k fr t. induction n as [|n IH]; intros k fr t; cbn [driven]; [apply HPQ|].
  apply wp_mono; [apply _|]. intros x s Hx t' Ht'. by apply IH, Hx.
Qed.

Lemma driven_work r ns name n k fr t :
  live fl (fr_Steps fr) t →
  driven r ns name n k fr t (λ k' fr', terminalPhase (fr_Phase fr') = true ∨
    n + k + work_left fl (fr_Steps fr') ≤ k' + work_left fl (fr_Steps fr)).
Proof.
  revert k fr t. induction n as [|n IH]; intros k fr t Hl; cbn [driven]; [right; lia|].
  eapply wp_mono; [apply _| |by apply calm_Reconcile].
  intros [res err] [fr' t'] [He|(Hp & Hl' & Hb)] t'' Ht''; simpl in *.
  { apply driven_ended; [done|by left]. }
  eapply driven_mono; [|apply IH; by eapply live_later]. intros k' fr2 [?|Hle]; [by left|right].
  destruct Hb as [Hb|[[= Hres _] Hs]].
  - apply better_work_left in Hb. case_decide; lia.
  - rewrite Hs in Hle. rewrite decide_True in Hle by done. lia.
Qed.

End progress.

Lemma work_left_new fl : work_left fl [] = 2 * length (flow_steps fl).
Proof. unfold work_left. induction (flow_steps fl) as [|s l IH]; simpl; [done|]. rewrite IH. lia. Qed.

