(* ===== verification/FlowRunProps.v ===== *)
(** * Properties of the FlowRun controller

    The consequences of [Reconcile_wp], one property each. *)

From stdpp Require Import relations.
From S2P Require Import Prelude GoStd Api Effects Interp Net Ssrf Kube FlowCtl Steps Publish FlowRun Frames StepOrder Store FlowRunSafety.

Local Open Scope string_scope.
Local Open Scope list_scope.
Local Open Scope go_scope.

(** Every step that failed was allowed to. *)
Definition no_fatal_failure (fl : Flow) (l : list StepRunStatus) : Prop :=
  ∀ x step, x ∈ l → ss_Phase x = StepPhaseFailed → step ∈ flow_steps fl → st_Name step = ss_Name x →
    continues fl step = true.

(** ** The rules of the state model

    The rules of docs/architecture/flowrun-state-model.md that bind the phase
    and time fields.  How a run leaves the empty phase and what cancels it is
    not among them: there the document and the controller differ. *)

Definition final_phase (p : FlowRunPhase) : Prop :=
  p = FlowRunPhaseSucceeded ∨ p = FlowRunPhaseFailed ∨ p = FlowRunPhaseCancelled.

Record phase_rules (old new : FlowRunStatus) : Prop := {
  (** A final status is not written over. *)
  pr_final : ¬ final_phase (fst_Phase old);
  (** Success and cancellation come after Running. *)
  pr_outcome : fst_Phase new = FlowRunPhaseSucceeded ∨ fst_Phase new = FlowRunPhaseCancelled →
               fst_Phase old = FlowRunPhaseRunning;
  (** A run that has started stays Running until it ends. *)
  pr_forward : fst_Phase old = FlowRunPhaseRunning →
               fst_Phase new = FlowRunPhaseRunning ∨ final_phase (fst_Phase new);
  pr_completed : final_phase (fst_Phase new) → is_Some (fst_CompletionTime new);
  pr_started : fst_Phase new = FlowRunPhaseRunning → fst_Phase old ≠ FlowRunPhaseRunning →
               is_Some (fst_StartTime new);
  pr_start_kept : fst_Phase old = FlowRunPhaseRunning → fst_StartTime new = fst_StartTime old
}.

(** Success: no fatal failure, and every step of a valid acyclic Flow finished. *)
Definition success_rule (flow : option Flow) (new : FlowRunStatus) : Prop :=
  fst_Phase new = FlowRunPhaseSucceeded →
  ∃ fl, flow = Some fl ∧ no_fatal_failure fl (fst_Steps new) ∧
    (flow_wf (fl_Spec fl) → acyclic fl → all_finished fl (fst_Steps new)).

(** One move of the abstract FlowRun machine, under the Flow [flow]. *)
Record run_move (flow : option Flow) (old new : FlowRunStatus) : Prop := {
  rm_phase : phase_rules old new;
  rm_kept : outcomes_kept (fst_Steps old) (fst_Steps new);
  rm_order : dependencies_first (λ fl, flow = Some fl) (fst_Steps old) (fst_Steps new);
  rm_success : success_rule flow new
}.

Definition machine_step (old new : FlowRunStatus) : Prop := ∃ flow, run_move flow old new.

Lemma final_terminal p : final_phase p ↔ terminalPhase p = true.
Proof. unfold final_phase. destruct p; simpl; naive_solver. Qed.

Lemma legal_phase_rules flow old new : legal flow old new → phase_rules old new.
Proof.
  intros [Hm _ Hc Hs Hk _]. constructor; rewrite ?final_terminal; try done;
    destruct Hm; simpl; naive_solver.
Qed.

Lemma legal_success flow old new : legal flow old new → success_rule flow new.
Proof.
  intros Hl Hs. destruct (lg_success _ _ _ Hl Hs) as (fl & -> & Hc). exists fl. split; [done|].
  split; [exact (proj2 (proj2 Hc))|]. intros Hwf Hac. by apply complete_all_finished.
Qed.

Lemma legal_move flow old new : legal flow old new → run_move flow old new.
Proof.
  intros Hl. constructor; [by eapply legal_phase_rules| | |by eapply legal_success].
  - by apply steps_kept_spec, (lg_steps _ _ _ Hl).
  - by apply steps_new_spec, (lg_steps _ _ _ Hl).
Qed.

(** What a path of moves adds up to for the steps. *)
Lemma path_steps a b : rtc machine_step a b →
  outcomes_kept (fst_Steps a) (fst_Steps b) ∧
  dependencies_first (λ _, True) (fst_Steps a) (fst_Steps b).
Proof.
  induction 1 as [a|a b c [flow [_ Hk Ho _]] _ [IHk IHo]]; [split; [by intros n x|by left]|].
  split; [by eapply outcomes_kept_trans|].
  eapply (dependencies_first_trans (λ _, True)); [done|exact IHk| |exact IHo].
  intros n x Hx. destruct (Ho n x Hx) as [?|(fl & step & _ & ?)]; [by left|]. right. by exists fl, step.
Qed.

Section props.
  Context `{CelLib} `{HttpLib} `{NetLib} `{KubeLib} `{SortLib}.

Lemma Reconcile_writes (P : option Flow → FlowRunStatus → FlowRunStatus → Prop)
    interfere r ns name s :
  (∀ flow old new, legal flow old new → P flow old new) →
  wp (store_spec interfere P) (Reconcile r ns name) s (λ _ _, True).
Proof.
  intros HP. eapply store_spec_weaken; [exact HP|].
  eapply wp_mono; [apply _| |apply Reconcile_wp]. done.
Qed.

(** C1: whatever the API server, the executor, the brokers and the clock answer,
    every status update a reconcile issues against the current version of the
    FlowRun keeps the rules of the state model on phases and times
    ([phase_rules]): a final phase is never written over, Succeeded and
    Cancelled are only reached from Running, a started run never goes back, a
    final status carries a completion time, and the start time is set when the
    run starts and kept.  The executor, plugins and brokers are only called once
    the API server has confirmed the phase Running (the demand [store_spec]
    makes on those requests).  Which phase a run starts in and what cancels it
    is left open: there the controller departs from the document. *)
Theorem Reconcile_phase_rules interfere r ns name s :
  wp (store_spec interfere (λ _ old new, phase_rules old new)) (Reconcile r ns name) s (λ _ _, True).
Proof. apply Reconcile_writes. intros flow old new. apply legal_phase_rules. Qed.

(** C2: no status update changes the recorded outcome of a finished step, and
    every step status it adds or changes is that of a step of the Flow each of
    whose [runAfter] dependencies is satisfied in the status being written:
    recorded as Succeeded or Skipped, or as Failed while the Flow's failure
    policy or that step's [onFailure] is Continue ([dep_satisfied]). *)
Theorem Reconcile_steps_ordered interfere r ns name s :
  wp (store_spec interfere (λ flow old new,
        outcomes_kept (fst_Steps old) (fst_Steps new) ∧
        dependencies_first (λ fl, flow = Some fl) (fst_Steps old) (fst_Steps new)))
    (Reconcile r ns name) s (λ _ _, True).
Proof. apply Reconcile_writes. by intros flow old new [_ ? ? _]%legal_move. Qed.

(** C3: the controller declares a run of a valid, acyclic Flow Succeeded only
    when every step of the Flow has finished and no step that failed was fatal
    (each has [onFailure: Continue], or the Flow's failure policy is Continue). *)
Theorem Reconcile_success_complete interfere r ns name s :
  wp (store_spec interfere (λ flow _ new,
        fst_Phase new = FlowRunPhaseSucceeded →
        ∃ fl, flow = Some fl ∧ no_fatal_failure fl (fst_Steps new) ∧
          (flow_wf (fl_Spec fl) → acyclic fl → all_finished fl (fst_Steps new))))
    (Reconcile r ns name) s (λ _ _, True).
Proof.
  apply Reconcile_writes. intros flow old new Hl. exact (legal_success _ _ _ Hl).
Qed.

(** C6: a reconcile that reports no error and asks for no requeue leaves a run
    whose last phase seen by the controller is terminal, or that could not be
    found: a run in progress is never dropped. *)
Theorem Reconcile_never_stalls interfere r ns name s :
  wp (store_spec interfere (λ _ _ _, True)) (Reconcile r ns name) s
    (λ '(res, err) s', err = None → Requeue res = false → (RequeueAfter res <= 0)%Z →
       match s_seen s' with None => True | Some p => terminalPhase p = true end).
Proof.
  eapply store_spec_weaken; [by intros; exact I|].
  eapply wp_mono; [apply _| |apply Reconcile_wp]. intros [res err] s' Hn. exact Hn.
Qed.

(** The accepted writes of a program form a path of the abstract machine. *)
Lemma writes_machine X (e : Ev X) s Q :
  store_spec false legal X e s Q →
  store_spec false legal X e s (λ x s', Q x s' ∧ rtc machine_step (s_status s) (s_status s')).
Proof.
  intros Hs s1 Hr. specialize (Hs s1 Hr). destruct Hr as [->|[? _]]; [|done].
  destruct e; simpl in *; try (intros; split; [by apply Hs|done]).
  - destruct Hs as [Hs1 Hs2]. split; intros; split; auto; done.
  - destruct Hs as [Hs1 Hs2]. split; intros; split; auto; done.
  - destruct Hs as [Hs1 Hs2]. split; intros.
    + split; [by apply Hs1|]. by rewrite (proj1 (proj2 (proj2 H5))).
    + split; [by apply Hs2|]. destruct H5 as [->|Ha]; [done|]. by rewrite (proj1 (proj2 (proj2 Ha))).
  - destruct Hs as (Hl & Hs1 & Hs2). split; [done|]. split; intros.
    + split; [by apply Hs1|]. simpl. destruct H5 as (Hrv & _ & -> & _). apply rtc_once. eexists. by apply legal_move, Hl.
    + split; [by apply Hs2|]. destruct H5 as [->|(Hrv & _ & -> & _)]; [done|].
      apply rtc_once. eexists. by apply legal_move, Hl.
  - destruct Hs as [? Hs]. split; [done|]. intros; split; [by apply Hs|done].
  - destruct Hs as [? Hs]. split; [done|]. intros; split; [by apply Hs|done].
  - destruct Hs as [? Hs]. split; [done|]. intros; split; [by apply Hs|done].
Qed.

(** [n] reconciles of the same FlowRun, one after the other. *)
Definition reconciles (r : FlowRunReconciler) (ns name : string) (n : nat)
    : Prog Ev (list (Result * option gerr)) :=
  pmap (λ _, Reconcile r ns name) (seq 0 n).

Lemma reconciles_path r ns name n s :
  wp (store_spec false legal) (reconciles r ns name n) s
    (λ _ s', rtc machine_step (s_status s) (s_status s')).
Proof.
  eapply wp_mono; [apply _| |apply (wp_evolves (store_spec false legal)
    (λ a b, rtc machine_step (s_status a) (s_status b)) _ _ (λ _ _, True))].
  - by intros ? ? [_ ?].
  - done.
  - intros a b c Hab Hbc. by transitivity (s_status b).
  - apply writes_machine.
  - eapply wp_mono; [apply _| |eapply (wp_map _ _ _ (λ _, True) (λ _ _, True)); [|done]]; [done|].
    intros x s' _ _. eapply wp_mono; [apply _| |apply Reconcile_wp]. done.
Qed.

Lemma machine_final a b : final_phase (fst_Phase a) → rtc machine_step a b → b = a.
Proof.
  intros Hf. destruct 1 as [|a b c [fl [[Hn _ _ _ _ _] _ _ _]] _]; [done|]. by destruct Hn.
Qed.


End props.
