(* ===== verification/Instances.v ===== *)
(** * A concrete environment

    Instances of the library classes, and a small API server holding one Flow
    and one FlowRun, on which the definitions are run: they show that the laws
    the properties assume can hold, and are used by the witnesses. *)

From stdpp Require Import sorting.
From S2P Require Import Prelude GoStd Api Effects Interp Net Ssrf Kube FlowCtl Steps Publish FlowRun.

Local Open Scope string_scope.
Local Open Scope list_scope.
Local Open Scope go_scope.

#[export] Instance demoGo : GoLib := {|
  f64 := Z;
  FormatFloat := Itoa;
  json_Unmarshal := λ _, None;
  json_Marshal := λ _, None;
  Sprintv := λ v, match v with JBool true => "true" | JBool false => "false" | _ => "" end;
  ParseMediaType := λ s, Some s;
  FormatRFC3339 := Itoa
|}.

#[export] Instance demoCel : CelLib := {|
  cel_Ast := string;
  cel_Prog := string;
  cel_Compile := λ s, if (s =? "") then Err (errorf "empty expression") else Ok s;
  cel_Program := λ a _, Ok a;
  cel_Eval := λ p _, if (p =? "true") then Ok (CelBool true)
                     else if (p =? "false") then Ok (CelBool false)
                     else Ok (CelOther p)
|}.

#[export] Instance demoHttp : HttpLib := {|
  MarshalExecuteRequest := λ req, Ok (er_URL req);
  DecodeExecuteResponse := λ s, Ok (MkExecResp 200 ∅ s false "");
  NewRequestError := λ _, None;
  DecodePublishFailure := λ _, None;
  DecodePublishSuccess := λ s, Some s;
  MarshalEnvelope := λ i ns d hs b k, Ok k;
  sha256_hex := λ s, s;
  base64_std := λ s, s;
  AppendCertsFromPEM := λ _, true
|}.

#[export] Instance demoNet : NetLib := {|
  URLHostname := λ s, Ok (TrimPrefix s "http://");
  IP_String := λ _, "ip";
  IPNet_String := λ _, "cidr"
|}.

(** ** Conditions *)

Fixpoint setCondition (now : Z) (l : list Condition) (c : Condition) : list Condition :=
  match l with
  | [] => [MkCondition (c_Type c) (c_Status c) (c_Reason c) (c_Message c)
             (match c_LastTransitionTime c with Some t => Some t | None => Some now end)
             (c_ObservedGeneration c)]
  | x :: l =>
      if (c_Type x =? c_Type c) then
        MkCondition (c_Type c) (c_Status c) (c_Reason c) (c_Message c)
          (if bool_decide (c_Status x = c_Status c) then c_LastTransitionTime x
           else match c_LastTransitionTime c with Some t => Some t | None => Some now end)
          (c_ObservedGeneration c) :: l
      else x :: setCondition now l c
  end.

#[export] Instance demoKube : KubeLib := {| SetStatusCondition := setCondition |}.

#[export] Instance demoKubeLaws : KubeLibLaws.
Proof.
  split.
  - intros now l c. unfold find_condition. simpl. induction l as [|x l IH]; simpl.
    + rewrite String.eqb_refl. by eexists.
    + destruct (c_Type x =? c_Type c) eqn:E; simpl; [rewrite String.eqb_refl; by eexists|].
      by rewrite E.
  - intros now l c t Ht. unfold find_condition. simpl. induction l as [|x l IH]; simpl.
    + by rewrite (proj2 (String.eqb_neq _ _) (not_eq_sym Ht)).
    + destruct (String.eqb_spec (c_Type x) (c_Type c)) as [E|E]; simpl.
      * by rewrite E, (proj2 (String.eqb_neq _ _) (not_eq_sym Ht)).
      * by destruct (c_Type x =? t).
Qed.

(** ** Sorting *)

Definition completedBy (a b : FlowRun) : Prop :=
  (default 0%Z (fst_CompletionTime (fr_Status a)) <= default 0%Z (fst_CompletionTime (fr_Status b)))%Z.

#[export] Instance completedBy_dec a b : Decision (completedBy a b).
Proof. unfold completedBy. apply _. Defined.

#[export] Instance completedBy_total : Total completedBy.
Proof. intros a b. unfold completedBy. lia. Qed.

#[export] Instance completedBy_trans : Transitive completedBy.
Proof. intros a b c. unfold completedBy. lia. Qed.

#[export] Instance demoSort : SortLib := {| sortByCompletion := merge_sort completedBy |}.

#[export] Instance demoSortLaws : SortLibLaws.
Proof.
  split.
  - intros l. apply merge_sort_Permutation.
  - intros l _. apply (StronglySorted_merge_sort completedBy).
Qed.

(** ** An API server with one Flow and one FlowRun *)

Definition bumped (m : ObjectMeta) (v : Z) : ObjectMeta := set_ResourceVersion v m.

Definition demo_server (fl : Flow) (X : Type) (e : Ev X) (fr : FlowRun) : X * FlowRun :=
  match e in Ev X' return X' * FlowRun with
  | EvNow => (100%Z, fr)
  | EvGetFlowRun _ _ => (Ok fr, fr)
  | EvGetFlow _ _ => (Ok fl, fr)
  | EvUpdateFlowRun f =>
      if (m_ResourceVersion (fr_Meta f) =? m_ResourceVersion (fr_Meta fr))%Z then
        let fr' := MkFlowRun (bumped (fr_Meta f) (m_ResourceVersion (fr_Meta f) + 1)) (fr_Spec f) (fr_Status fr) in
        (Ok fr', fr')
      else (Err (errorf "conflict"), fr)
  | EvStatusUpdateFlowRun f =>
      if (m_ResourceVersion (fr_Meta f) =? m_ResourceVersion (fr_Meta fr))%Z then
        let fr' := MkFlowRun (bumped (fr_Meta fr) (m_ResourceVersion (fr_Meta f) + 1)) (fr_Spec fr) (fr_Status f) in
        (Ok fr', fr')
      else (Err (errorf "conflict"), fr)
  | EvExecutorDo _ body _ => (Ok (200%Z, body), fr)
  | EvPluginDo _ body _ => (Ok (200%Z, body), fr)
  | EvLookupIP _ => (Ok [[93; 184; 216; 34]%Z], fr)
  | EvSleep _ => (None, fr)
  | EvGetTrigger _ _ => (Err (GErr EKNotFound "not found"), fr)
  | EvGetIntegration _ _ => (Err (GErr EKNotFound "not found"), fr)
  | EvGetSecret _ _ => (Err (GErr EKNotFound "not found"), fr)
  | EvGetConfigMap _ _ => (Err (GErr EKNotFound "not found"), fr)
  | EvListFlowRuns _ _ => (Ok [fr], fr)
  | EvDeleteFlowRun _ => (Ok tt, fr)
  | EvStatusUpdateFlow f => (Ok f, fr)
  | EvPluginTLS _ _ => (false, fr)
  | EvIntegCacheLoad _ => (None, fr)
  | EvIntegCacheStore _ _ => (tt, fr)
  | EvCelLoad _ => (None, fr)
  | EvCelStore _ _ => (tt, fr)
  | EvProducersLock => (MkProducerCache None None, fr)
  | EvProducersUnlock _ => (tt, fr)
  | EvNewSyncProducer _ _ => (Ok 0%nat, fr)
  | EvSendMessage _ _ _ _ => (Ok (0%Z, 0%Z), fr)
  | EvCloseProducer _ => (tt, fr)
  end.

Definition demo_reconciler : FlowRunReconciler :=
  MkReconciler 0 0 0 true None false "" false false false 0.

Definition demo_meta (name : string) : ObjectMeta :=
  MkMeta name "default" "uid-1" 1 1 ∅ ∅ [] 0 None.

Definition demo_status : FlowRunStatus := MkFlowRunStatus 0 PhaseEmpty [] None None [] "" None.

Definition demo_run : FlowRun :=
  MkFlowRun (demo_meta "run") (MkFlowRunSpec "flow" [] None None None) demo_status.

Definition httpStep (name : string) (deps : list string) : FlowStep :=
  MkStep name deps [] (MkAction "http" (Some (MkHTTPAction "http://example.com" "GET" ∅ "" 0 ∅ None))
                         None None None) None None OnFailureUnset.

Definition demo_flow (steps : list FlowStep) : Flow :=
  MkFlow (demo_meta "flow") (MkFlowSpec None FailurePolicyUnset [] steps) [].

(** [n] reconciles against the server. *)
Fixpoint demo_reconciles (fl : Flow) (n : nat) (fr : FlowRun) : FlowRun :=
  match n with
  | 0 => fr
  | S n => demo_reconciles fl n (run (demo_server fl) (Reconcile demo_reconciler "default" "run") fr).2
  end.

Definition demo_phases (fr : FlowRun) : FlowRunPhase * list (string * StepPhase) :=
  (fr_Phase fr, (λ s, (ss_Name s, ss_Phase s)) <$> fr_Steps fr).

(** A diamond-free chain runs one step per reconcile and then succeeds. *)
Example demo_chain :
  demo_phases (demo_reconciles (demo_flow [httpStep "b" ["a"]; httpStep "a" []]) 3 demo_run)
  = (FlowRunPhaseSucceeded, [("a", StepPhaseSucceeded); ("b", StepPhaseSucceeded)]).
Proof. vm_compute. reflexivity. Qed.

(** ** A cyclic Flow *)

Definition cyclic_flow : Flow := demo_flow [httpStep "a" ["b"]; httpStep "b" ["a"]].

(** A Flow whose steps wait for each other passes validation, and its
    FlowRun is declared Succeeded by the first reconcile although no step has
    run: nothing is ready and nothing is running, so the controller falls
    through to the success block. *)
Theorem cyclic_flow_succeeds_without_running :
  validateFlowSpec (fl_Spec cyclic_flow) = Ok tt ∧
  demo_phases (demo_reconciles cyclic_flow 1 demo_run) = (FlowRunPhaseSucceeded, []).
Proof. split; vm_compute; reflexivity. Qed.
