(* ===== verification/Gc.v ===== *)
(** * Garbage collection of finished FlowRuns

    Properties of [reconcileGC] and [enforceMaxFlowRunsByPhase]: what may be
    deleted, when, and which runs survive the count limit. *)

From stdpp Require Import sorting.
From S2P Require Import Prelude GoStd Api Effects Interp Net Ssrf Kube FlowCtl Steps Publish FlowRun Instances.

Local Open Scope string_scope.
Local Open Scope list_scope.
Local Open Scope go_scope.

(** The last clock reading, the GC policy last read from the Trigger, the runs
    last listed, and the runs deleted. *)
Record GcGhost := MkGcGhost {
  gg_clock : Z;
  gg_policy : option FlowRunGCPolicy;
  gg_listed : list FlowRun;
  gg_deleted : list FlowRun
}.

(** ** What may be deleted *)

(** The time a finished run is kept: its own setting, else its Trigger's for
    its phase, else the operator's for its phase. *)
Inductive kept_for (r : FlowRunReconciler) (policy : option FlowRunGCPolicy) (fr : FlowRun) : Z → Prop :=
  | kf_run d : frs_TTLAfterFinished (fr_Spec fr) = Some d → kept_for r policy fr d
  | kf_trigger_succeeded p d : frs_TTLAfterFinished (fr_Spec fr) = None → policy = Some p →
      fr_Phase fr = FlowRunPhaseSucceeded → gc_TTLAfterSucceeded p = Some d → kept_for r policy fr d
  | kf_trigger_failed p d : frs_TTLAfterFinished (fr_Spec fr) = None → policy = Some p →
      fr_Phase fr = FlowRunPhaseFailed → gc_TTLAfterFailed p = Some d → kept_for r policy fr d
  | kf_succeeded : frs_TTLAfterFinished (fr_Spec fr) = None → fr_Phase fr ≠ FlowRunPhaseFailed →
      (∀ p, policy = Some p → fr_Phase fr = FlowRunPhaseSucceeded → gc_TTLAfterSucceeded p = None) →
      kept_for r policy fr (TTLSucceeded r)
  | kf_failed : frs_TTLAfterFinished (fr_Spec fr) = None → fr_Phase fr = FlowRunPhaseFailed →
      (∀ p, policy = Some p → gc_TTLAfterFailed p = None) → kept_for r policy fr (TTLFailed r).

Definition expired (r : FlowRunReconciler) (fr : FlowRun) (g : GcGhost) : Prop :=
  ∃ c d, fst_CompletionTime (fr_Status fr) = Some c ∧ kept_for r (gg_policy g) fr d ∧ (c + d <= gg_clock g)%Z.

Definition retained (fr : FlowRun) : Prop := m_Annotations (fr_Meta fr) !! "kubezap.io/retain" = Some "true".

Definition limit_of (p : FlowRunGCPolicy) (phase : FlowRunPhase) : option Z :=
  match phase with
  | FlowRunPhaseSucceeded => gc_MaxSucceeded p
  | FlowRunPhaseFailed => gc_MaxFailed p
  | _ => None
  end.

(** [x] finished no later than [y]. *)
Definition no_newer (x y : FlowRun) : Prop :=
  ∃ a b, fst_CompletionTime (fr_Status x) = Some a ∧ fst_CompletionTime (fr_Status y) = Some b ∧ (a <= b)%Z.

(** [x] is beyond the limit of its Trigger for its phase: the limit is reached
    by other runs of the same phase, none of them older, that were listed with
    it for the Trigger of [fr]. *)
Definition over_limit (fr : FlowRun) (g : GcGhost) (x : FlowRun) : Prop :=
  fr_Namespace x = fr_Namespace fr ∧
  m_Labels (fr_Meta x) !! labelTrigger = m_Labels (fr_Meta fr) !! labelTrigger ∧
  ∃ policy max newer, gg_policy g = Some policy ∧ limit_of policy (fr_Phase x) = Some max ∧
    x :: newer ⊆+ gg_listed g ∧ Z.of_nat (length newer) = max ∧
    ∀ y, y ∈ newer → fr_Phase y = fr_Phase x ∧ ¬ retained y ∧ no_newer x y.

Definition deletable (r : FlowRunReconciler) (fr : FlowRun) (g : GcGhost) (x : FlowRun) : Prop :=
  ¬ retained x ∧ (over_limit fr g x ∨ x = fr ∧ expired r fr g).

(** A Trigger whose count limits, where it sets them, are positive. *)
Definition positive_limits (x : result Trigger) : Prop :=
  ∀ t p phase max, x = Ok t → ts_FlowRunGC (tg_Spec t) = Some p → limit_of p phase = Some max → (0 < max)%Z.

(** What a list of the runs of a Trigger holds: fewer than 2^31 runs of that
    Trigger, with a completion time if they are finished. *)
Definition runs_of (ns trigger : string) (items : list FlowRun) : Prop :=
  (Z.of_nat (length items) < 2 ^ 31)%Z ∧
  ∀ x, x ∈ items → fr_Namespace x = ns ∧ m_Labels (fr_Meta x) !! labelTrigger = Some trigger ∧
    (terminalPhase (fr_Phase x) = true → is_Some (fst_CompletionTime (fr_Status x))).

Section gc.
  Context `{CelLib} `{HttpLib} `{NetLib} `{KubeLib} `{SortLib}.

Definition gc_spec (r : FlowRunReconciler) (fr : FlowRun) : Spec Ev GcGhost := λ X e g Q,
  match e in Ev X' return (X' → GcGhost → Prop) → Prop with
  | EvNow => λ Q, ∀ t, Q t (MkGcGhost t (gg_policy g) (gg_listed g) (gg_deleted g))
  | EvGetTrigger ns name => λ Q,
      ns = fr_Namespace fr ∧ m_Labels (fr_Meta fr) !! labelTrigger = Some name ∧
      ∀ x, positive_limits x → Q x (MkGcGhost (gg_clock g)
        (match x with Ok t => ts_FlowRunGC (tg_Spec t) | Err _ => None end) (gg_listed g) (gg_deleted g))
  | EvDeleteFlowRun x => λ Q, deletable r fr g x ∧
      ∀ y, Q y (MkGcGhost (gg_clock g) (gg_policy g) (gg_listed g) (x :: gg_deleted g))
  | EvListFlowRuns ns labels => λ Q, ∃ trigger,
      m_Labels (fr_Meta fr) !! labelTrigger = Some trigger ∧ labels !! labelTrigger = Some trigger ∧ ns = Some (fr_Namespace fr) ∧
      (∀ e, Q (Err e) g) ∧
      ∀ items, runs_of (fr_Namespace fr) trigger items →
        Q (Ok items) (MkGcGhost (gg_clock g) (gg_policy g) items (gg_deleted g))
  | _ => λ _, False
  end Q.

#[export] Instance gc_spec_mono r fr : MonoSpec (gc_spec r fr).
Proof.
  intros X e g P Q HPQ Hs. destruct e; simpl in *; try done; try (intros; by apply HPQ, Hs).
  - destruct Hs as (? & ? & Hs). split_and!; [done..|]. intros; by apply HPQ, Hs.
  - destruct Hs as (t & ? & ? & ? & He & Hs). exists t. split_and!; [done..| |]; intros; apply HPQ; auto.
  - destruct Hs as [? Hs]. split; [done|]. intros; by apply HPQ, Hs.
Qed.

Lemma retained_spec x : annotated retainAnnotation (fr_Meta x) = false ↔ ¬ retained x.
Proof. unfold annotated, retained. by rewrite bool_decide_eq_false. Qed.

Lemma gcTTL_kept r fr policy : kept_for r policy fr (gcTTL r fr policy).
Proof.
  unfold gcTTL. destruct (frs_TTLAfterFinished (fr_Spec fr)) as [d|] eqn:Hd; [by apply kf_run|]. simpl.
  destruct (bool_decide_reflect (fr_Phase fr = FlowRunPhaseFailed)) as [Hf|Hf].
  - destruct policy as [p|]; [|by apply kf_failed]. rewrite Hf. destruct (gc_TTLAfterFailed p) as [d|] eqn:Hp; simpl.
    + by eapply kf_trigger_failed.
    + apply kf_failed; [done..|]. by intros ? [= <-].
  - destruct policy as [p|]; [|by apply kf_succeeded].
    destruct (fr_Phase fr) eqn:Hph; try (apply kf_succeeded; rewrite ?Hph; done); [|done].
    destruct (gc_TTLAfterSucceeded p) as [d|] eqn:Hp; simpl.
    + by eapply kf_trigger_succeeded.
    + apply kf_succeeded; rewrite ?Hph; [done..|]. by intros ? [= <-].
Qed.

Lemma kept_for_unique r fr policy d d' : kept_for r policy fr d → kept_for r policy fr d' → d = d'.
Proof.
  destruct 1; destruct 1; simplify_eq; try done; try congruence; try (exfalso; eauto; congruence);
    repeat match goal with Hx : ∀ p, Some _ = Some p → _ |- _ => specialize (Hx _ eq_refl) end; naive_solver.
Qed.

(** ** The count limit *)

Lemma StronglySorted_app_take {A} (R : A → A → Prop) n (l : list A) :
  StronglySorted R l → ∀ x y, x ∈ take n l → y ∈ drop n l → R x y.
Proof.
  revert n. induction l as [|a l IH]; intros [|n] Hs x y Hx Hy; simpl in *; try by apply not_elem_of_nil in Hx.
  apply StronglySorted_inv in Hs as [Hs Ha]. apply elem_of_cons in Hx as [->|Hx]; [|by eapply IH].
  rewrite Forall_forall in Ha. apply Ha. apply list_elem_of_In.
  rewrite <- (take_drop n l). apply list_elem_of_In, elem_of_app. by right.
Qed.

Lemma List_filter_submseteq {A} (f : A → bool) (l : list A) : List.filter f l ⊆+ l.
Proof. induction l as [|x l IH]; simpl; [done|]. destruct (f x); [by apply submseteq_skip|by apply submseteq_cons]. Qed.

(** The runs the loop deletes are beyond the limit. *)
Lemma sorted_excess `{!SortLibLaws} (fr : FlowRun) (items : list FlowRun) ph max n x :
  terminalPhase ph = true → (∀ x, x ∈ items → terminalPhase (fr_Phase x) = true → is_Some (fst_CompletionTime (fr_Status x))) →
  let matching := List.filter (gcCandidate ph) items in
  (Z.of_nat (length matching) - max = Z.of_nat n)%Z → (0 <= max)%Z →
  x ∈ take n (sortByCompletion matching) →
  x :: drop n (sortByCompletion matching) ⊆+ items ∧
  Z.of_nat (length (drop n (sortByCompletion matching))) = max ∧
  ∀ y, y ∈ drop n (sortByCompletion matching) → fr_Phase y = ph ∧ ¬ retained y ∧ no_newer x y.
Proof.
  intros Hph Hdone matching Hn Hmax Hx. pose proof (sort_perm matching) as Hp.
  assert (∀ y, y ∈ matching → fr_Phase y = ph ∧ ¬ retained y ∧ is_Some (fst_CompletionTime (fr_Status y))) as Hm.
  { intros y Hy. apply list_elem_of_In, filter_In in Hy as [Hin Hc]. unfold gcCandidate in Hc.
    apply andb_prop in Hc as [Hy1%bool_decide_eq_true Hy2%negb_true_iff%retained_spec].
    split_and!; [done..|]. apply Hdone; [by apply list_elem_of_In|by rewrite Hy1]. }
  split_and!.
  - transitivity matching; [|apply List_filter_submseteq]. rewrite <- Hp at 2. rewrite <- (take_drop n (sortByCompletion matching)) at 2.
    apply (submseteq_app [x]); [by apply singleton_submseteq_l|done].
  - rewrite length_drop, (Permutation_length Hp). lia.
  - intros y Hy. assert (y ∈ matching) as Hy'.
    { rewrite <- Hp, <- (take_drop n (sortByCompletion matching)). apply elem_of_app. by right. }
    assert (x ∈ matching) as Hx'.
    { rewrite <- Hp, <- (take_drop n (sortByCompletion matching)). apply elem_of_app. by left. }
    destruct (Hm y Hy') as (Hy1 & Hy2 & [b Hb]). destruct (Hm x Hx') as (_ & _ & [a Ha]). split_and!; [done..|].
    exists a, b. split_and!; [done..|].
    assert (StronglySorted (λ a b, (default 0%Z (fst_CompletionTime (fr_Status a)) <= default 0%Z (fst_CompletionTime (fr_Status b)))%Z)
      (sortByCompletion matching)) as Hs by (apply sort_sorted; intros z Hz; by apply Hm).
    pose proof (StronglySorted_app_take _ n _ Hs x y Hx Hy) as Hle. simpl in Hle. by rewrite Ha, Hb in Hle.
Qed.

(** What the deletions leave of the ghost. *)
Definition same_view (g g' : GcGhost) : Prop :=
  gg_clock g' = gg_clock g ∧ gg_policy g' = gg_policy g ∧ gg_listed g' = gg_listed g.

Lemma wp_deleteAll r fr l g (Q : gerr + unit → GcGhost → Prop) :
  (∀ x g', x ∈ l → same_view g g' → deletable r fr g' x) → (∀ x g', same_view g g' → Q x g') →
  wp (gc_spec r fr) (deleteAll l) g Q.
Proof.
  intros Hl HQ. assert (∀ g0, same_view g g0 → wp (gc_spec r fr) (deleteAll l) g0 Q) as Hall; [|by apply Hall].
  unfold deleteAll. induction l as [|x l IH]; simpl; intros g0 Hg; [by apply HQ|]. split; [apply Hl; [by left|done]|].
  set (g1 := MkGcGhost _ _ _ (x :: _)). assert (same_view g g1) as Hg1 by exact Hg.
  assert (wp (gc_spec r fr) (deleteAll l) g1 Q) as Hrest by (apply IH; [intros; apply Hl; [by right|done]|done]).
  intros [[]|e]; simpl; [done|]. destruct (isNotFound e); simpl; [done|by apply HQ].
Qed.

Lemma wp_triggerGCPolicy r fr g (Q : option (string * FlowRunGCPolicy) → GcGhost → Prop) :
  gg_policy g = None ∨ (∃ t, t ≠ "" ∧ m_Labels (fr_Meta fr) !! labelTrigger = Some t) →
  (∀ x g', (snd <$> x) = gg_policy g' → gg_policy g' = None ∨ (∃ t, t ≠ "" ∧ m_Labels (fr_Meta fr) !! labelTrigger = Some t) →
     (∀ t p, x = Some (t, p) → m_Labels (fr_Meta fr) !! labelTrigger = Some t ∧
        ∀ phase max, limit_of p phase = Some max → (0 < max)%Z) → Q x g') →
  wp (gc_spec r fr) (triggerGCPolicy fr) g Q.
Proof.
  intros Hg HQ. unfold triggerGCPolicy.
  destruct (m_Labels (fr_Meta fr) !! labelTrigger) as [t|] eqn:Hl.
  2: { assert (gg_policy g = None) as Hn by (by destruct Hg as [?|(t & _ & [=])]). apply HQ; [by rewrite Hn|by left|done]. }
  destruct (String.eqb_spec t "") as [->|Hne].
  { assert (gg_policy g = None) as Hn by (by destruct Hg as [?|(t & Ht & [= <-])]). apply HQ; [by rewrite Hn|by left|done]. }
  apply wp_bind; [apply _|]. split; [done|]. split; [done|]. intros [tr|e] Hpos; cbn [wp]; apply HQ; simpl; try done.
  - by destruct (ts_FlowRunGC (tg_Spec tr)).
  - right. by exists t.
  - intros t' p Hx. destruct (ts_FlowRunGC (tg_Spec tr)) as [p'|] eqn:Hp; simplify_eq/=. split; [done|].
    intros phase max Hlim. by eapply Hpos.
  - by left.
Qed.

Lemma wp_enforceMax `{!SortLibLaws} r fr t p policy m g (Q : option gerr → GcGhost → Prop) :
  m_Labels (fr_Meta fr) !! labelTrigger = Some t → gg_policy g = Some policy → terminalPhase p = true →
  limit_of policy p = Some m → (0 < m)%Z →
  (∀ e g', gg_policy g' = gg_policy g → Q e g') →
  wp (gc_spec r fr) (enforceMaxFlowRunsByPhase t (fr_Namespace fr) p m) g Q.
Proof.
  intros Ht Hpol Hp Hlim Hm HQ. unfold enforceMaxFlowRunsByPhase. apply wp_bind; [apply _|]. exists t.
  split_and!; [done|by simplify_map_eq|done|intros e; by apply HQ|]. intros items [Hlen Hitems]. cbn [wp]. cbv zeta.
  set (matching := List.filter (gcCandidate p) items).
  assert (length matching ≤ length items)%nat as Hle by apply List.filter_length_le.
  unfold wrap32. rewrite (wrap_id 32 (Z.of_nat (length matching))) by lia.
  destruct (Z.leb_spec (Z.of_nat (length matching)) m) as [Hc|Hc]; [by apply HQ|]. rewrite (wrap_id 32) by lia.
  apply wp_bind; [apply _|]. apply wp_deleteAll.
  - intros x g' Hx (_ & Hg2 & Hg3).
    destruct (sorted_excess fr items p m (Z.to_nat (Z.of_nat (length matching) - m)) x Hp) as (Hsub & Hn & Hall);
      [intros y Hy; by apply Hitems|unfold matching in *; lia|lia|done|].
    assert (x ∈ matching) as Hx'.
    { rewrite <- (sort_perm matching). apply elem_of_take in Hx as (i & Hi & _). by apply list_elem_of_lookup_2 in Hi. }
    apply list_elem_of_In, filter_In in Hx' as [Hin%list_elem_of_In Hcand]. unfold gcCandidate in Hcand.
    apply andb_prop in Hcand as [Hph%bool_decide_eq_true Hret%negb_true_iff%retained_spec].
    destruct (Hitems x Hin) as (Hns & Hlab & _). split; [done|]. left. split; [done|]. split; [by rewrite Hlab|].
    exists policy, m. eexists. rewrite Hph, Hg2, Hg3. split_and!; [done|done|exact Hsub|done|exact Hall].
  - intros [e|[]] g' (_ & Hg2 & _); cbn [wp]; [by apply HQ|].
    destruct (Z.ltb_spec (Z.of_nat (length matching)) (Z.of_nat (length matching) - m)); [lia|]. by apply HQ.
Qed.


(** ** The runs kept by the count limit *)

(** The runs deleted by a sequence of requests. *)
Definition deletions (cs : list { X & Ev X }) : list FlowRun :=
  omap (λ c, match projT2 c with EvDeleteFlowRun x => Some x | _ => None end) cs.

Lemma deleteAll_deletions (h : ∀ X, Ev X → X) l :
  (∀ x, h _ (EvDeleteFlowRun x) = Ok tt) → deletions (calls h (deleteAll l)) = l.
Proof.
  intros Hh. unfold deleteAll. induction l as [|x l IH]; simpl; [done|].
  rewrite Hh. simpl. f_equal. exact IH.
Qed.

(** When the API server lists [items] and accepts the deletions, the count
    limit [max] leaves exactly the [max] newest of the runs in that phase
    without the retain annotation (all of them if there are no more), deletes
    the others, and deletes nothing else. *)
Theorem enforceMax_keeps_newest `{!SortLibLaws} (h : ∀ X, Ev X → X) t ns p max items :
  (∀ labels, h _ (EvListFlowRuns (Some ns) labels) = Ok items) →
  (∀ x, h _ (EvDeleteFlowRun x) = Ok tt) →
  (∀ x, x ∈ items → is_Some (fst_CompletionTime (fr_Status x))) →
  (0 <= max)%Z → (Z.of_nat (length items) < 2 ^ 31)%Z →
  ∃ kept,
    let deleted := deletions (calls h (enforceMaxFlowRunsByPhase t ns p max)) in
    deleted ++ kept ≡ₚ List.filter (gcCandidate p) items ∧
    Z.of_nat (length kept) = Z.min max (Z.of_nat (length (List.filter (gcCandidate p) items))) ∧
    (∀ x y, x ∈ deleted → y ∈ kept → completedBy x y).
Proof.
  intros Hlist Hdel Hdone Hmax Hlen. unfold enforceMaxFlowRunsByPhase. rewrite calls_bind.
  simpl. rewrite Hlist. set (c := List.filter (gcCandidate p) items).
  assert (length c ≤ length items)%nat as Hle by apply List.filter_length_le.
  unfold wrap32. rewrite (wrap_id 32 (Z.of_nat (length c))) by lia.
  destruct (Z.leb_spec (Z.of_nat (length c)) max) as [Hc|Hc]; simpl.
  - exists c. split; [done|]. split; [lia|]. intros x y Hx. by apply not_elem_of_nil in Hx.
  - rewrite (wrap_id 32) by lia. rewrite calls_bind.
    set (n := Z.to_nat (Z.of_nat (length c) - max)).
    assert (∀ e : gerr + unit, calls h (match e with
      | inl e => Ret (Some e)
      | inr _ => if (Z.of_nat (length c) <? Z.of_nat (length c) - max)%Z
                 then Ret (Some (errorf "panic: runtime error: index out of range [recovered]")) else Ret None
      end) = []) as Hnil by (intros [|]; [done|by destruct (_ <? _)%Z]).
    rewrite Hnil, app_nil_r, deleteAll_deletions by done.
    exists (drop n (sortByCompletion c)). rewrite take_drop. split; [apply sort_perm|]. split.
    + rewrite length_drop, (Permutation_length (sort_perm c)). lia.
    + apply StronglySorted_app_take. apply sort_sorted. intros x [Hx _]%list_elem_of_In%filter_In.
      apply Hdone. by apply list_elem_of_In.
Qed.

End gc.

Definition gc_run (name : string) (t : Z) : FlowRun :=
  MkFlowRun (demo_meta name) (MkFlowRunSpec "flow" [] None None None)
    (MkFlowRunStatus 0 FlowRunPhaseSucceeded [] None (Some t) [] "" None).

Definition gc_items : list FlowRun := [gc_run "x" 30; gc_run "y" 10; gc_run "z" 20].

Definition gc_answers (X : Type) (e : Ev X) : X :=
  match e in Ev X' return X' with
  | EvListFlowRuns _ _ => Ok gc_items
  | e => (demo_server cyclic_flow _ e demo_run).1
  end.


Lemma enforceMax_keeps_newest_witness :
  ((λ fr, fr_Name fr) <$> deletions (calls gc_answers
     (enforceMaxFlowRunsByPhase "trg" "default" FlowRunPhaseSucceeded 1))) = ["y"; "z"] ∧
  ∃ kept,
    let deleted := deletions (calls gc_answers
      (enforceMaxFlowRunsByPhase "trg" "default" FlowRunPhaseSucceeded 1)) in
    deleted ++ kept ≡ₚ List.filter (gcCandidate FlowRunPhaseSucceeded) gc_items ∧
    Z.of_nat (length kept)
      = Z.min 1 (Z.of_nat (length (List.filter (gcCandidate FlowRunPhaseSucceeded) gc_items))) ∧
    (∀ x y, x ∈ deleted → y ∈ kept → completedBy x y).
Proof.
  split; [vm_compute; reflexivity|].
  apply (enforceMax_keeps_newest gc_answers "trg" "default" FlowRunPhaseSucceeded 1 gc_items);
    [reflexivity|reflexivity| |lia|vm_compute; reflexivity].
  intros x Hx. repeat (apply elem_of_cons in Hx as [->|Hx]; [by eexists|]). by apply not_elem_of_nil in Hx.
Defined.
