(* ===== verification/StepProps.v ===== *)
(** * Properties of step execution

    Retry delays and attempt counts, the SSRF gate in front of the executor and
    the publish idempotency key. *)

From S2P Require Import Prelude GoStd Api Effects Interp Net Ssrf Kube FlowCtl Steps Publish FlowRun Frames Instances.

Local Open Scope string_scope.
Local Open Scope list_scope.
Local Open Scope go_scope.

(** ** Retry delays *)

Lemma doubleN_exact n d :
  (0 <= d)%Z → (d * 2 ^ Z.of_nat n <= max_int64)%Z → doubleN n d = (d * 2 ^ Z.of_nat n)%Z.
Proof.
  revert d. induction n as [|n IH]; intros d Hd Hm; simpl; [lia|].
  rewrite Nat2Z.inj_succ, Z.pow_succ_r in Hm |- * by lia.
  assert (0 < 2 ^ Z.of_nat n)%Z by (apply Z.pow_pos_nonneg; lia).
  rewrite (wrap64_id (d * 2)) by (unfold min_int64, max_int64 in *; nia).
  rewrite IH; [lia|lia|nia].
Qed.

(** The delay the policy documents. *)
Definition ideal_delay (p : RetryPolicy) (attempt : Z) : Z :=
  let initial := default Second (rp_InitialDelay p) in
  let cap d := match rp_MaxDelay p with Some m => Z.min m d | None => d end in
  if (rp_BackoffType p =? "Exponential") then cap (initial * 2 ^ (attempt - 1))%Z
  else if (rp_BackoffType p =? "Linear") then cap (initial * attempt)%Z
  else initial.

Lemma capDelay_min m d : capDelay m d = match m with Some m => Z.min m d | None => d end.
Proof. destruct m as [m|]; simpl; [|done]. destruct (Z.ltb_spec m d); lia. Qed.

(** As long as the uncapped delay fits in an [int64], the delay before
    attempt [attempt] is the documented one: the initial delay doubled
    [attempt - 1] times, or multiplied by [attempt], or constant, and never
    more than the configured maximum. *)
Theorem retryDelay_documented p attempt :
  (1 <= attempt)%Z → (0 <= default Second (rp_InitialDelay p))%Z →
  (default Second (rp_InitialDelay p) * 2 ^ (attempt - 1) <= max_int64)%Z →
  (default Second (rp_InitialDelay p) * attempt <= max_int64)%Z →
  retryDelay (Some p) attempt = ideal_delay p attempt.
Proof.
  intros Ha Hi He Hl. unfold retryDelay, ideal_delay.
  replace (match rp_InitialDelay p with Some d => d | None => Second end)
    with (default Second (rp_InitialDelay p)) by done. set (i := default _ _) in *.
  destruct (_ =? "Exponential").
  - rewrite capDelay_min, doubleN_exact by (rewrite ?Z2Nat.id by lia; lia).
    by rewrite Z2Nat.id by lia.
  - destruct (_ =? "Linear"); [|done]. rewrite capDelay_min, wrap64_id; [done|].
    unfold min_int64, max_int64 in *. nia.
Qed.

Definition exp_policy (retries : Z) : RetryPolicy :=
  MkRetry retries "Exponential" (Some Second) (Some (30 * Second)%Z).

Lemma retryDelay_documented_witness :
  retryDelay (Some (exp_policy 5)) 4 = ideal_delay (exp_policy 5) 4 ∧
  ideal_delay (exp_policy 5) 4 = (8 * Second)%Z.
Proof.
  split; [|vm_compute; reflexivity].
  apply (retryDelay_documented (exp_policy 5) 4); vm_compute; intros; discriminate.
Defined.

(** Past the 64-bit range the doubling wraps around: with a one second
    initial delay and a 30 second cap, the 35th retry waits for a negative time
    and the 64th for none, below the initial delay and the cap alike. *)
Theorem retryDelay_overflows :
  (retryDelay (Some (exp_policy 100)) 35 < 0)%Z ∧ retryDelay (Some (exp_policy 100)) 64 = 0%Z.
Proof. split; vm_compute; reflexivity. Qed.

(** ** The idempotency key *)

Fixpoint no_nul (s : string) : bool :=
  match s with
  | EmptyString => true
  | String c s => negb (Ascii.eqb c (ascii_of_nat 0)) && no_nul s
  end.

Lemma nul_separated u1 s1 u2 s2 :
  no_nul u1 = true → no_nul u2 = true →
  u1 +:+ nul +:+ s1 = u2 +:+ nul +:+ s2 → u1 = u2 ∧ s1 = s2.
Proof.
  revert u2. induction u1 as [|c u1 IH]; intros [|d u2] H1 H2 Heq; simpl in *.
  - by injection Heq.
  - injection Heq as Hc _. subst d. done.
  - injection Heq as Hc _. subst c. done.
  - apply andb_prop in H1 as [_ H1]. apply andb_prop in H2 as [_ H2].
    injection Heq as -> Heq. destruct (IH u2 H1 H2 Heq) as [-> ->]. done.
Qed.

(** Two publish calls with the same idempotency key come from the same step
    of the same FlowRun, or exhibit a collision of the hash: the NUL separator
    leaves no ambiguity between UID and step name. *)
Theorem idempotencyKey_unambiguous `{HttpLib} u1 s1 u2 s2 :
  no_nul u1 = true → no_nul u2 = true →
  pluginPublishIdempotencyKey u1 s1 = pluginPublishIdempotencyKey u2 s2 →
  (u1 = u2 ∧ s1 = s2) ∨ ∃ x y, x ≠ y ∧ sha256_hex x = sha256_hex y.
Proof.
  intros H1 H2 Hk. unfold pluginPublishIdempotencyKey, pluginPublishIdempotencyKeyPrefix in Hk.
  simpl in Hk. injection Hk as Hk.
  destruct (decide (u1 +:+ nul +:+ s1 = u2 +:+ nul +:+ s2)) as [Heq|Hne].
  - left. by apply nul_separated.
  - right. by eexists _, _.
Qed.

Lemma idempotencyKey_unambiguous_witness :
  ("uid-1" = "uid-1" ∧ "notify" = "notify") ∨ ∃ x y : string, x ≠ y ∧ sha256_hex x = sha256_hex y.
Proof. apply (idempotencyKey_unambiguous "uid-1" "notify" "uid-1" "notify"); reflexivity. Defined.

Section step_props.
  Context `{CelLib} `{HttpLib} `{NetLib} `{KubeLib}.

(** ** Attempts *)

(** The number of executor calls made so far. *)
Definition count_spec : Spec Ev nat := λ X e n Q,
  match e in Ev X' return (X' → nat → Prop) → Prop with
  | EvExecutorDo _ _ _ => λ Q, ∀ x, Q x (S n)
  | _ => λ Q, ∀ x, Q x n
  end Q.

#[export] Instance count_spec_mono : MonoSpec count_spec.
Proof. intros X e n P Q HPQ Hs. destruct e; simpl in *; intros; by apply HPQ, Hs. Qed.

Lemma count_quiet {A} (p : Prog Ev A) n (Q : A → nat → Prop) :
  wp (any_spec (quiet false)) p tt (λ _ _, True) → (∀ a, Q a n) → wp count_spec p n Q.
Proof.
  induction p as [a|X e k IH]; simpl; intros Hp HQ; [apply HQ|]. destruct Hp as [He Hk].
  destruct e; simpl in *; try done; intros x; apply IH; try done; apply Hk.
Qed.

Lemma wp_callExecutor_count r ns req n (Q : result ExecuteResponse → nat → Prop) :
  (∀ x m, (n ≤ m ≤ S n)%nat → (is_ok x = true → m = S n) → Q x m) →
  wp count_spec (callExecutor r ns req) n Q.
Proof.
  intros HQ. unfold callExecutor. cbv zeta.
  destruct (MarshalExecuteRequest req); [|apply HQ; [lia|done]].
  destruct (NewRequestError _); [apply HQ; [lia|done]|].
  apply wp_bind; [apply _|]. intros [[code body]|e]; cbn [wp]; [|apply HQ; [lia|done]].
  destruct (negb _); [apply HQ; [lia|done]|].
  destruct (DecodeExecuteResponse body); apply HQ; done || lia.
Qed.

(** At most [n] more calls; success needs one. *)
Lemma wp_httpAttempts_count r step h ns req d n attempt made lastErr c :
  (Z.of_nat c <= made)%Z → (made <= attempt)%Z →
  (lastErr = None → n ≠ 0%nat ∨ attempt = 0%Z) →
  wp count_spec (httpAttempts r step h ns req d n attempt made lastErr) c
    (λ '(_, _, att, err) m,
       (Z.of_nat m <= att <= Z.max made (attempt + Z.of_nat n))%Z ∧
       (err = None → (m = S c ∨ (c < m)%nat) ∨ (n = 0%nat ∧ lastErr = None))).
Proof.
  revert attempt made lastErr c. induction n as [|n IH]; intros attempt made lastErr c Hc Hm Hl.
  { simpl. split; [lia|]. intros ->. auto. }
  cbn [httpAttempts]. cbv zeta. apply wp_bind; [apply _|].
  assert (∀ e' c', (c ≤ c' ≤ S c)%nat →
    wp count_spec (httpAttempts r step h ns req d n (attempt + 1)%Z (attempt + 1)%Z (Some e')) c'
      (λ '(_, _, att, err) m,
         (Z.of_nat m <= att <= Z.max made (attempt + Z.of_nat (S n)))%Z ∧
         (err = None → (m = S c ∨ (c < m)%nat) ∨ (S n = 0%nat ∧ lastErr = None)))) as Hagain.
  { intros e' c' Hc'. eapply wp_mono; [apply _| |apply IH; [lia|lia|done]].
    intros [[[? ?] att] err] m [Hatt Herr]. split; [lia|]. intros He. left. destruct (Herr He) as [?|[_ ?]]; [lia|done]. }
  assert (wp count_spec (let! x := callExecutor r ns req in
    match x with
    | Err err => if isTransport err then Ret (∅, "", (attempt + 1)%Z, Some err)
        else httpAttempts r step h ns req d n (attempt + 1)%Z (attempt + 1)%Z
               (Some (wrapf ("executor RPC for step " +:+ Quote (st_Name step) +:+ " (target: "
                             +:+ d +:+ "): ") err))
    | Ok resp =>
        if negb (ex_Error resp =? "") then
          httpAttempts r step h ns req d n (attempt + 1)%Z (attempt + 1)%Z
            (Some (errorf (if negb (er_URL req =? d) then ReplaceAll (ex_Error resp) (er_URL req) d
                           else ex_Error resp)))
        else if (200 <=? ex_StatusCode resp)%Z && (ex_StatusCode resp <? 300)%Z then
          Ret (httpResults h resp, "HTTP " +:+ Itoa (ex_StatusCode resp), (attempt + 1)%Z, None)
        else httpAttempts r step h ns req d n (attempt + 1)%Z (attempt + 1)%Z
               (Some (errorf ("HTTP " +:+ Itoa (ex_StatusCode resp) +:+ ": " +:+ truncate (ex_Body resp) 256)))
    end) c
    (λ '(_, _, att, err) m,
       (Z.of_nat m <= att <= Z.max made (attempt + Z.of_nat (S n)))%Z ∧
       (err = None → (m = S c ∨ (c < m)%nat) ∨ (S n = 0%nat ∧ lastErr = None)))) as Hcall.
  { apply wp_bind; [apply _|]. apply wp_callExecutor_count. intros [resp|err] c' Hc' Hok.
    - specialize (Hok eq_refl). subst c'. destruct (negb (ex_Error resp =? "")); [by apply Hagain|].
      destruct (_ && _); [|by apply Hagain]. cbn [wp]. split; [lia|]. intros _. auto.
    - destruct (isTransport err); [|by apply Hagain]. cbn [wp]. split; [lia|done]. }
  destruct (0 <? attempt)%Z; [|exact Hcall].
  intros [e|]; cbn [wp]; [split; [lia|done]|exact Hcall].
Qed.

(** One execution of an HTTP step calls the executor at most
    [maxRetries + 1] times, the attempt count it reports is between the number
    of calls and that bound, and it never reports success without a call. *)
Theorem executeHTTPStep_attempts r step sr td ps ns :
  wp count_spec (executeHTTPStep r step sr td ps ns) 0
    (λ '(_, _, att, err) m,
       (Z.of_nat m <= att <= Z.max 0 (maxAttemptsOf (st_RetryPolicy step)))%Z ∧
       ((0 < maxAttemptsOf (st_RetryPolicy step))%Z → err = None → (0 < m)%nat)).
Proof.
  assert (∀ e, (Z.of_nat 0 <= 0 <= Z.max 0 (maxAttemptsOf (st_RetryPolicy step)))%Z ∧
            ((0 < maxAttemptsOf (st_RetryPolicy step))%Z → Some e = @None gerr → (0 < 0)%nat)) as Hfail.
  { intros e. split; [lia|done]. }
  unfold executeHTTPStep. destruct (a_HTTP (st_Action step)) as [h|]; [|apply Hfail].
  apply wp_bind; [apply _|]. apply count_quiet; [apply resolveHTTPRequest_quiet|].
  intros [[[[u d] b] hs]|e]; [|apply Hfail].
  apply wp_bind; [apply _|]. apply count_quiet.
  { destruct (h_IntegrationRef h) as [i|]; [|done]. destruct (negb _); [|done]. apply applyHTTPIntegration_quiet. }
  intros [[[u' hs'] tls]|e]; [|apply Hfail].
  apply wp_bind; [apply _|]. apply count_quiet; [apply checkSSRF_quiet|].
  intros [[]|e]; [|apply Hfail]. cbv zeta.
  eapply wp_mono; [apply _| |apply wp_httpAttempts_count; [lia|lia|auto]].
  intros [[[? ?] att] err] m [Hatt Herr]. split; [lia|]. intros Hpos He.
  destruct (Herr He) as [?|[? _]]; lia.
Qed.

(** ** The SSRF gate *)

(** The request bodies sent to the executor. *)
Definition executor_bodies (cs : list { X & Ev X }) : list string :=
  omap (λ c, match projT2 c with EvExecutorDo _ body _ => Some body | _ => None end) cs.

Lemma executor_bodies_app a b : executor_bodies (a ++ b) = executor_bodies a ++ executor_bodies b.
Proof. apply omap_app. Qed.

Lemma executor_bodies_quiet {A} (h : ∀ X, Ev X → X) (p : Prog Ev A) :
  wp (any_spec (quiet false)) p tt (λ _ _, True) → executor_bodies (calls h p) = [].
Proof.
  induction p as [a|X e k IH]; simpl; [done|]. intros [He Hk]. specialize (IH _ (Hk (h X e))).
  unfold executor_bodies in *. simpl. by destruct e; simpl in *.
Qed.

Lemma executor_bodies_callExecutor (h : ∀ X, Ev X → X) r ns req body :
  body ∈ executor_bodies (calls h (callExecutor r ns req)) → MarshalExecuteRequest req = Ok body.
Proof.
  unfold callExecutor. cbv zeta. destruct (MarshalExecuteRequest req) as [b|]; [|intros Hb; by apply not_elem_of_nil in Hb].
  destruct (NewRequestError _); [intros Hb; by apply not_elem_of_nil in Hb|].
  rewrite calls_bind, executor_bodies_app, elem_of_app. intros [Hb|Hb].
  - unfold executor_bodies in Hb. simpl in Hb. by apply list_elem_of_singleton in Hb as ->.
  - exfalso. revert Hb. destruct (run_pure _ _) as [[code rb]|e]; [|intros Hb; by apply not_elem_of_nil in Hb].
    destruct (negb _); [intros Hb; by apply not_elem_of_nil in Hb|].
    destruct (DecodeExecuteResponse rb); intros Hb; by apply not_elem_of_nil in Hb.
Qed.

Lemma executor_bodies_httpAttempts (h : ∀ X, Ev X → X) r step ha ns req d n a m e body :
  body ∈ executor_bodies (calls h (httpAttempts r step ha ns req d n a m e)) →
  MarshalExecuteRequest req = Ok body.
Proof.
  revert a m e. induction n as [|n IH]; intros a m e; [intros Hb; by apply not_elem_of_nil in Hb|].
  cbn [httpAttempts]. cbv zeta. rewrite calls_bind, executor_bodies_app, elem_of_app.
  intros [Hb|Hb]; [destruct (0 <? a)%Z; by apply not_elem_of_nil in Hb|]. revert Hb.
  destruct (run_pure h _); [intros Hb; by apply not_elem_of_nil in Hb|].
  rewrite calls_bind, executor_bodies_app, elem_of_app.
  intros [Hb|Hb]; [by eapply executor_bodies_callExecutor|]. revert Hb.
  destruct (run_pure h _) as [resp|err].
  - destruct (negb _); [apply IH|]. destruct (_ && _); [intros Hb; by apply not_elem_of_nil in Hb|apply IH].
  - destruct (isTransport err); [intros Hb; by apply not_elem_of_nil in Hb|apply IH].
Qed.

(** C8: every request an HTTP step forwards to the executor is for a URL that
    the SSRF check accepted with the configured ranges, after templates, the
    Integration's base URL and a secret URL have been resolved. *)
Theorem executeHTTPStep_ssrf_gate (h : ∀ X, Ev X → X) r step sr td ps ns body :
  body ∈ executor_bodies (calls h (executeHTTPStep r step sr td ps ns)) →
  ∃ req, MarshalExecuteRequest req = Ok body ∧
    run_pure h (checkSSRF (λ host, emit (EvLookupIP host)) (er_URL req)
                  (StepBlockedCIDRs r) (SSRFAllowClusterInternal r)) = Ok tt.
Proof.
  unfold executeHTTPStep. destruct (a_HTTP (st_Action step)) as [ha|]; [|intros Hb; by apply not_elem_of_nil in Hb].
  rewrite calls_bind, executor_bodies_app, (executor_bodies_quiet h (resolveHTTPRequest _ _ _ _ _ _))
    by apply resolveHTTPRequest_quiet. simpl.
  destruct (run_pure h (resolveHTTPRequest _ _ _ _ _ _)) as [[[[u d] b] hs]|e];
    [|intros Hb; by apply not_elem_of_nil in Hb].
  rewrite calls_bind, executor_bodies_app. set (ig := match h_IntegrationRef ha with Some _ => _ | None => _ end).
  rewrite (executor_bodies_quiet h ig). 2: { unfold ig. destruct (h_IntegrationRef ha) as [i|]; [|done].
    destruct (negb _); [|done]. apply applyHTTPIntegration_quiet. }
  simpl. destruct (run_pure h ig) as [[[u' hs'] tls]|e]; [|intros Hb; by apply not_elem_of_nil in Hb].
  rewrite calls_bind, executor_bodies_app, (executor_bodies_quiet h (checkSSRF _ _ _ _))
    by apply checkSSRF_quiet. simpl.
  destruct (run_pure h (checkSSRF _ _ _ _)) as [[]|e] eqn:Hc; [|intros Hb; by apply not_elem_of_nil in Hb].
  intros Hb. eexists. split; [by eapply executor_bodies_httpAttempts|]. done.
Qed.

End step_props.

Definition demo_answers (X : Type) (e : Ev X) : X := (demo_server cyclic_flow X e demo_run).1.

Lemma executeHTTPStep_ssrf_gate_witness :
  ∃ req, MarshalExecuteRequest req = Ok "http://example.com" ∧
    run_pure demo_answers (checkSSRF (λ host, emit (EvLookupIP host)) (er_URL req)
                             (StepBlockedCIDRs demo_reconciler)
                             (SSRFAllowClusterInternal demo_reconciler)) = Ok tt.
Proof.
  apply (executeHTTPStep_ssrf_gate demo_answers demo_reconciler (httpStep "a" []) ∅ None ∅ "default"
           "http://example.com").
  vm_compute. left.
Defined.
