(* ===== verification/PublishProps.v ===== *)
(** * Properties of wait steps, the producer cache and [when] evaluation *)

From S2P Require Import Prelude GoStd Api Effects Interp Net Ssrf Kube FlowCtl Steps Publish FlowRun Frames Instances.

Local Open Scope string_scope.
Local Open Scope list_scope.
Local Open Scope go_scope.

Section publish_props.
  Context `{CelLib} `{HttpLib} `{NetLib} `{KubeLib}.

(** ** Wait steps *)

(** The last clock reading. *)
Definition clock_spec : Spec Ev Z := λ X e t Q,
  match e in Ev X' return (X' → Z → Prop) → Prop with
  | EvNow => λ Q, ∀ t', Q t' t'
  | _ => λ _, False
  end Q.

#[export] Instance clock_spec_mono : MonoSpec clock_spec.
Proof. intros X e t P Q HPQ Hs. destruct e; simpl in *; try done. intros; by apply HPQ. Qed.

(** A wait step whose duration parses reads only the clock and ends its wait
    ([Ok d], [d <= 0]) only when the recorded resume time has been reached at
    the last reading, or when nothing is recorded and the duration is not
    positive; until then it stays Waiting, keeps the resume time it recorded
    first (first reading plus duration), and asks to come back exactly then. *)
Theorem executeWaitStep_resumes fr step ss w duration t0 :
  a_Wait (st_Action step) = Some w → ParseDuration (w_Duration w) = Some duration →
  let recorded := findStepStatus (fr_Steps fr) (st_Name step) ≫= ss_ResumeAfter in
  wp clock_spec (executeWaitStep fr step ss) t0
    (λ '(ss', r) t, ∃ d, r = Ok d ∧
       match recorded with
       | Some at_ => (d <= 0 → at_ <= t)%Z ∧
                     (0 < d → ss_Phase ss' = StepPhaseWaiting ∧ ss_ResumeAfter ss' = Some at_ ∧ d = at_ - t)%Z
       | None => d = duration ∧ ss_Phase ss' = StepPhaseWaiting ∧
                 ss_ResumeAfter ss' = Some (t + duration)%Z
       end).
Proof.
  intros Hw Hd. cbv zeta. unfold executeWaitStep. rewrite Hw, Hd. cbv zeta.
  destruct (findStepStatus _ _ ≫= ss_ResumeAfter) as [at_|].
  - apply wp_bind; [apply _|]. intros t. cbn [wp]. destruct (Z.ltb_spec t at_) as [Hlt|Hge].
    + apply wp_bind; [apply _|]. intros t'. cbn [wp]. eexists. split; [done|]. split; [lia|done].
    + cbn [wp]. eexists. split; [done|]. split; [lia|]. intros Hn. lia.
  - apply wp_bind; [apply _|]. intros t. cbn [wp]. by eexists.
Qed.

(** ** The Kafka producer cache *)

(** Whether this goroutine holds [kafkaProducersMu]. *)
Definition lock_spec : Spec Ev bool := λ X e held Q,
  match e in Ev X' return (X' → bool → Prop) → Prop with
  | EvProducersLock => λ Q, held = false ∧ ∀ c, Q c true
  | EvProducersUnlock _ => λ Q, held = true ∧ Q tt false
  | EvSendMessage _ _ _ _ => λ Q, held = false ∧ ∀ x, Q x held
  | _ => λ Q, ∀ x, Q x held
  end Q.

#[export] Instance lock_spec_mono : MonoSpec lock_spec.
Proof.
  intros X e b P Q HPQ Hs.
  destruct e; simpl in *; try (intros; by apply HPQ, Hs); destruct Hs as [? Hs]; (split; [done|]); intros; auto.
Qed.

Lemma wp_lock_quiet {A} (p : Prog Ev A) b (Q : A → bool → Prop) :
  wp (any_spec (λ X e, match e with
    | EvProducersLock | EvProducersUnlock _ | EvSendMessage _ _ _ _ => False | _ => True end)) p tt (λ _ _, True) →
  (∀ a, Q a b) → wp lock_spec p b Q.
Proof.
  induction p as [a|X e k IH]; simpl; intros Hp HQ; [apply HQ|]. destruct Hp as [He Hk].
  by destruct e; simpl in *; try done; intros x; apply IH.
Qed.

Lemma wp_lock_newProducer i spec b (Q : result Producer → bool → Prop) :
  (∀ a, Q a b) → wp lock_spec (newKafkaProducer i spec) b Q.
Proof.
  intros HQ. apply wp_lock_quiet; [|done].
  unfold newKafkaProducer, kafkaTLS, kafkaSASL, fetchWrapped, fetchSecretValue.
  repeat (cbv zeta; wp_step; try done).
Qed.

Lemma wp_lock_lookup k m l (Q : Producer + gmap string Producer * gmap string Z → bool → Prop) b :
  (∀ a, Q a b) → wp lock_spec (lookupProducer k m l) b Q.
Proof.
  intros HQ. apply wp_lock_quiet; [|done]. unfold lookupProducer, now. repeat (cbv zeta; wp_step; try done).
Qed.

Lemma wp_lock_getOrCreate k i spec (Q : result Producer → bool → Prop) :
  (∀ a, Q a false) → wp lock_spec (getOrCreateKafkaProducer k i spec) false Q.
Proof.
  intros HQ. unfold getOrCreateKafkaProducer. apply wp_bind; [apply _|]. split; [done|]. intros c. cbn [wp]. cbv zeta.
  apply wp_bind; [apply _|]. apply wp_lock_lookup. intros [p|[m l]].
  - apply wp_bind; [apply _|]. split; [done|]. apply HQ.
  - apply wp_bind; [apply _|]. apply wp_lock_newProducer. intros [p|e].
    + apply wp_bind; [apply _|]. intros t. cbn [wp]. apply wp_bind; [apply _|]. split; [done|]. apply HQ.
    + apply wp_bind; [apply _|]. split; [done|]. apply HQ.
Qed.

(** Publishing to Kafka takes the producer mutex only when it is free,
    releases it on every path (errors included), and never sends a message
    while holding it. *)
Theorem publishToKafka_lock_balanced i spec topic body headers :
  wp lock_spec (publishToKafka i spec topic body headers) false (λ _ held, held = false).
Proof.
  unfold publishToKafka. cbv zeta. apply wp_bind; [apply _|]. apply wp_lock_getOrCreate.
  intros [p|e]; [|done]. apply wp_bind; [apply _|]. split; [done|]. intros [[pt off]|e]; cbn [wp].
  - apply wp_bind; [apply _|]. split; [done|]. intros c. cbn [wp]. apply wp_bind; [apply _|].
    apply wp_lock_quiet; [by destruct (kafkaProducerLastUsed c); [split|]|].
    intros last. apply wp_bind; [apply _|]. by split.
  - apply wp_bind; [apply _|]. split; [done|]. intros c. cbn [wp]. apply wp_bind; [apply _|]. split; [done|].
    apply wp_bind; [apply _|]. done.
Qed.

(** The cache is keyed by the bootstrap servers alone: while a producer for
    them is cached and not idle, a publish through any Integration with those
    servers (of any namespace, with any TLS settings and SASL credentials)
    gets that producer, without reading its own Secrets. *)
Theorem producer_cache_ignores_credentials (h : ∀ X, Ev X → X) i spec k p producers lastUsed u :
  h _ EvProducersLock = MkProducerCache (Some producers) (Some lastUsed) →
  producers !! k = Some p → lastUsed !! k = Some u →
  (h _ EvNow - u <= kafkaProducerIdleTTL)%Z →
  run_pure h (getOrCreateKafkaProducer k i spec) = Ok p ∧
  calls h (getOrCreateKafkaProducer k i spec)
  = [existT _ EvProducersLock; existT _ EvNow;
     existT _ (EvProducersUnlock (MkProducerCache (Some producers) (Some lastUsed)))].
Proof.
  intros Hl Hp Hu Ht. unfold getOrCreateKafkaProducer, lookupProducer. simpl. rewrite Hl. simpl.
  rewrite Hp. simpl. rewrite Hu. destruct (Z.ltb_spec kafkaProducerIdleTTL (h Z EvNow - u)); [lia|done].
Qed.

(** ** [when] expressions *)

(** The value of a list of conditions: they are conjoined, from left to right. *)
Fixpoint when_value (r : FlowRunReconciler) (act : Activation) (when_ : list string) : result bool :=
  match when_ with
  | [] => Ok true
  | expr :: when_ =>
      match cel_Compile expr with
      | Err e => Err (wrapf "CEL compile error: " e)
      | Ok ast =>
          match cel_Program ast (if (0 <? CELCostLimit r)%Z then Some (CELCostLimit r) else None) with
          | Err e => Err (wrapf "CEL program error: " e)
          | Ok prog =>
              match cel_Eval prog act with
              | Err e => Err (wrapf "CEL eval error: " e)
              | Ok (CelOther shown) => Err (errorf ("CEL expression did not return bool: " +:+ shown))
              | Ok (CelBool false) => Ok false
              | Ok (CelBool true) => when_value r act when_
              end
          end
      end
  end.

(** The program an expression compiles to under the reconciler's cost limit. *)
Definition compiles (r : FlowRunReconciler) (expr : string) (prog : cel_Prog) : Prop :=
  ∃ ast, cel_Compile expr = Ok ast ∧
    cel_Program ast (if (0 <? CELCostLimit r)%Z then Some (CELCostLimit r) else None) = Ok prog.

(** A cache that only holds what was stored in it: a stored program is one the
    expression compiles to, and so is a loaded one. *)
Definition cel_spec (r : FlowRunReconciler) : Spec Ev unit := λ X e s Q,
  match e in Ev X' return (X' → unit → Prop) → Prop with
  | EvCelLoad expr => λ Q, ∀ x, (∀ prog, x = Some prog → compiles r expr prog) → Q x s
  | EvCelStore expr prog => λ Q, compiles r expr prog ∧ Q tt s
  | _ => λ _, False
  end Q.

#[export] Instance cel_spec_mono r : MonoSpec (cel_spec r).
Proof. intros X e s P Q HPQ Hs. destruct e; simpl in *; try done; [auto|]. destruct Hs; auto. Qed.

Lemma wp_celProgram r expr :
  wp (cel_spec r) (celProgram r expr) tt
    (λ x _, match cel_Compile expr with
            | Err e => x = Err (wrapf "CEL compile error: " e)
            | Ok ast => x = match cel_Program ast (if (0 <? CELCostLimit r)%Z then Some (CELCostLimit r) else None) with
                            | Err e => Err (wrapf "CEL program error: " e)
                            | Ok prog => Ok prog
                            end
            end).
Proof.
  unfold celProgram. apply wp_bind; [apply _|].
  assert (∀ x, (∀ prog, x = Some prog → compiles r expr prog) →
    wp (cel_spec r) (match x with
      | Some prog => Ret (Ok prog)
      | None => match cel_Compile expr with
        | Err e => Ret (Err (wrapf "CEL compile error: " e))
        | Ok ast => match cel_Program ast (if (0 <? CELCostLimit r)%Z then Some (CELCostLimit r) else None) with
            | Err e => Ret (Err (wrapf "CEL program error: " e))
            | Ok prog => let! _ := if DisableCELCache r then Ret tt else emit (EvCelStore expr prog) in Ret (Ok prog)
            end
        end
      end) tt
      (λ x _, match cel_Compile expr with
            | Err e => x = Err (wrapf "CEL compile error: " e)
            | Ok ast => x = match cel_Program ast (if (0 <? CELCostLimit r)%Z then Some (CELCostLimit r) else None) with
                            | Err e => Err (wrapf "CEL program error: " e)
                            | Ok prog => Ok prog
                            end
            end)) as Hk.
  { intros [prog|] Hx.
    - destruct (Hx prog eq_refl) as (ast & Ha & Hp). rewrite Ha, Hp. done.
    - destruct (cel_Compile expr) as [ast|e] eqn:Ha; [|done].
      destruct (cel_Program ast _) as [prog|e] eqn:Hp; [|done].
      apply wp_bind; [apply _|]. destruct (DisableCELCache r); [done|]. split; [|done]. by exists ast. }
  destruct (DisableCELCache r); [by apply Hk|]. intros x Hx. by apply Hk.
Qed.

(** Evaluating the [when] conditions of a step gives the conjunction of
    their values, compiled afresh, whatever part of the shared program cache is
    filled, and only stores in the cache what the expression compiles to. *)
Theorem evaluateWhen_cache_transparent r when_ sr statuses td ps :
  celEnvReady r = true →
  wp (cel_spec r) (evaluateWhen r when_ sr statuses td ps) tt
    (λ x _, x = when_value r (MkActivation (triggerActivation td) (stepsActivation sr statuses) ps) when_).
Proof.
  intros Henv. unfold evaluateWhen. destruct when_ as [|w ws]; [done|]. rewrite Henv. simpl negb.
  generalize (w :: ws). clear w ws. set (act := MkActivation _ _ _). intros ws.
  induction ws as [|w ws IH]; [done|]. cbn [evalWhenLoop when_value].
  apply wp_bind; [apply _|]. eapply wp_mono; [apply _| |apply wp_celProgram]. intros x [] Hx.
  destruct (cel_Compile w) as [ast|e]; [|by rewrite Hx].
  destruct (cel_Program ast _) as [prog|e]; [|by rewrite Hx]. rewrite Hx.
  destruct (cel_Eval prog act) as [[[]|shown]|e]; done.
Qed.

End publish_props.

Definition wait_step : FlowStep :=
  MkStep "pause" [] [] (MkAction "wait" None None None (Some (MkWait "5s"))) None None OnFailureUnset.

Lemma executeWaitStep_resumes_witness :
  let ss := MkStepStatus "pause" StepPhaseEmpty None None 1 "" [] None None in
  wp clock_spec (executeWaitStep demo_run wait_step ss) 0%Z
    (λ '(ss', r) t, ∃ d, r = Ok d ∧ d = (5 * Second)%Z ∧ ss_Phase ss' = StepPhaseWaiting ∧
                         ss_ResumeAfter ss' = Some (t + 5 * Second)%Z).
Proof.
  cbv zeta. apply (executeWaitStep_resumes demo_run wait_step
    (MkStepStatus "pause" StepPhaseEmpty None None 1 "" [] None None) (MkWait "5s") (5 * Second) 0);
    vm_compute; reflexivity.
Defined.

(** An Integration of another namespace with credentials of its own. *)
Definition other_integration : Integration :=
  MkIntegration (MkMeta "kafka" "tenant-b" "" 1 1 ∅ ∅ [] 0 None)
    (MkIntegSpec "kafka" (Some (MkKafkaInteg ["broker:9092"] None
       (Some (MkKafkaSASL "PLAIN" (MkSecretRef "b" "user") (MkSecretRef "b" "pass"))))) None None None None)
    (MkIntegStatus [] "" None).

Definition cached_answers (X : Type) (e : Ev X) : X :=
  match e in Ev X' return X' with
  | EvProducersLock => MkProducerCache (Some {["broker:9092" := 7]}) (Some {["broker:9092" := 60%Z]})
  | e => (demo_server cyclic_flow _ e demo_run).1
  end.

Lemma producer_cache_ignores_credentials_witness :
  let spec := MkKafkaInteg ["broker:9092"] None
    (Some (MkKafkaSASL "PLAIN" (MkSecretRef "b" "user") (MkSecretRef "b" "pass"))) in
  run_pure cached_answers (getOrCreateKafkaProducer "broker:9092" other_integration spec) = Ok 7 ∧
  calls cached_answers (getOrCreateKafkaProducer "broker:9092" other_integration spec)
  = [existT _ EvProducersLock; existT _ EvNow;
     existT _ (EvProducersUnlock (MkProducerCache (Some {["broker:9092" := 7]})
                                    (Some {["broker:9092" := 60%Z]})))].
Proof.
  cbv zeta. apply (producer_cache_ignores_credentials cached_answers) with (u := 60%Z);
    [reflexivity|reflexivity|reflexivity|vm_compute; discriminate].
Defined.

Lemma evaluateWhen_cache_transparent_witness :
  wp (cel_spec demo_reconciler) (evaluateWhen demo_reconciler ["true"; "false"] ∅ [] None ∅) tt
    (λ x _, x = Ok false).
Proof.
  eapply wp_mono; [apply _| |exact (evaluateWhen_cache_transparent demo_reconciler ["true"; "false"] ∅ []
    None ∅ eq_refl)]. intros a [] ->. vm_compute. reflexivity.
Defined.
