(* ===== verification/Executor.v ===== *)
(** * The HTTP executor

    [internal/executor/http]: the SSRF checks ([ssrf.go]), the dialer that pins
    a connection to a validated address, the outbound client and the
    [POST /execute] handler ([handler.go]).  [http.Client.Do] is a request of
    its own: the transport it uses dials through [dialContext]. *)

From S2P Require Import Prelude GoStd Api Net Effects Ssrf.

Local Open Scope string_scope.
Local Open Scope list_scope.
Local Open Scope go_scope.

(** ** SSRF checks *)

Definition SSRFBlockedCIDRsV4 : list string :=
  [ "10.0.0.0/8"; "172.16.0.0/12"; "192.168.0.0/16"; "127.0.0.0/8"; "169.254.0.0/16";
    "0.0.0.0/8"; "100.64.0.0/10" ].

Definition SSRFBlockedCIDRsV6 : list string := [ "::1/128"; "fe80::/10"; "fc00::/7" ].

Definition defaultSSRFBlockedCIDRs : list IPNet :=
  Eval vm_compute in mustParseCIDRs (SSRFBlockedCIDRsV4 ++ SSRFBlockedCIDRsV6).

Section exe.
  Context `{NetLib} {E : Type → Type}.

Definition ParseCIDRList (extraCIDRs : string) : result (list IPNet) :=
  if (TrimSpace extraCIDRs =? "") then Ok defaultSSRFBlockedCIDRs
  else parseExtra "--blocked-cidrs" (split_char "," extraCIDRs) defaultSSRFBlockedCIDRs.

Definition checkSSRFPreflight (rawURL : string) (allowClusterInternal : bool) : result unit :=
  match URLHostname rawURL with
  | Err e => Err (wrapf "SSRF check: invalid URL: " e)
  | Ok hostname =>
      if (hostname =? "") then Err (errorf "SSRF check: URL has no hostname")
      else if isClusterInternal hostname then
        if allowClusterInternal then Ok tt
        else Err (errorf ("SSRF check: " +:+ clusterInternalMsg))
      else Ok tt
  end.

Fixpoint validateAddrs (hostname : string) (addrs : list IP) (blockedCIDRs : list IPNet)
    (validated : list IP) : result (list IP) :=
  match addrs with
  | [] => Ok validated
  | ip :: addrs =>
      let '(blocked, cidr) := isBlockedIP ip blockedCIDRs in
      if blocked : bool then
        Err (errorf ("hostname " +:+ Quote hostname +:+ " resolves to blocked IP "
                     +:+ IP_String ip +:+ " (range " +:+ cidr +:+ ")"))
      else validateAddrs hostname addrs blockedCIDRs (validated ++ [ip])
  end.

Definition resolveAndValidate (lookupIPAddr : string → Prog E (result (list IP)))
    (hostname : string) (blockedCIDRs : option (list IPNet)) : Prog E (result (list IP)) :=
  let blockedCIDRs := default defaultSSRFBlockedCIDRs blockedCIDRs in
  match ParseIP hostname with
  | Some ip =>
      let '(blocked, cidr) := isBlockedIP ip blockedCIDRs in
      if blocked : bool then
        Ret (Err (errorf ("target IP " +:+ IP_String ip +:+ " is in blocked range " +:+ cidr)))
      else Ret (Ok [ip])
  | None =>
      let! addrs := lookupIPAddr hostname in
      match addrs with
      | Err e => Ret (Err (wrapf ("DNS resolution failed for " +:+ Quote hostname +:+ ": ") e))
      | Ok [] => Ret (Err (errorf ("DNS resolution for " +:+ Quote hostname +:+ " returned no addresses")))
      | Ok addrs => Ret (validateAddrs hostname addrs blockedCIDRs [])
      end
  end.

Lemma validateAddrs_spec hostname addrs l acc out :
  validateAddrs hostname addrs l acc = Ok out →
  out = acc ++ addrs ∧ ∀ ip, ip ∈ addrs → (isBlockedIP ip l).1 = false.
Proof.
  revert acc. induction addrs as [|ip addrs IH]; simpl; intros acc Ho.
  - split; [by rewrite app_nil_r; simplify_eq|]. intros x Hx. by apply not_elem_of_nil in Hx.
  - destruct (isBlockedIP ip l) as [[] c] eqn:Hb; [done|].
    destruct (IH _ Ho) as [-> Ha]. split; [by rewrite <- app_assoc|].
    intros x [->|Hx]%elem_of_cons; [by rewrite Hb|]. by apply Ha.
Qed.

End exe.

Lemma exe_default_list_parses :
  parseCIDRs (SSRFBlockedCIDRsV4 ++ SSRFBlockedCIDRsV6) = Some defaultSSRFBlockedCIDRs.
Proof. vm_compute. reflexivity. Qed.


(** ** [net.SplitHostPort] and [net.JoinHostPort] *)

Fixpoint lastIndexByte (c : ascii) (s : string) : option nat :=
  match s with
  | EmptyString => None
  | String d s => match lastIndexByte c s with
                  | Some n => Some (S n)
                  | None => if (d =? c)%char then Some 0 else None
                  end
  end.

Definition SplitHostPort (hostport : string) : result (string * string) :=
  let bad (why : string) : result (string * string) := Err (errorf ("address " +:+ hostport +:+ ": " +:+ why)) in
  match lastIndexByte ":" hostport with
  | None => bad "missing port in address"
  | Some i =>
      let finish (host tailHost tailPort : string) :=
        if Contains tailHost "[" then bad "unexpected '[' in address"
        else if Contains tailPort "]" then bad "unexpected ']' in address"
        else Ok (host, sdrop (S i) hostport) in
      match hostport with
      | String "[" _ =>
          match Index hostport "]" with
          | None => bad "missing ']' in address"
          | Some close =>
              if (close + 1 =? slen hostport)%nat then bad "missing port in address"
              else if (close + 1 =? i)%nat then
                finish (sdrop 1 (stake close hostport)) (sdrop 1 hostport) (sdrop (close + 1) hostport)
              else if HasPrefix (sdrop (close + 1) hostport) ":" then bad "too many colons in address"
              else bad "missing port in address"
          end
      | _ =>
          let host := stake i hostport in
          if Contains host ":" then bad "too many colons in address"
          else finish host hostport hostport
      end
  end.

Definition JoinHostPort (host port : string) : string :=
  if Contains host ":" then "[" +:+ host +:+ "]:" +:+ port else host +:+ ":" +:+ port.

Example SplitHostPort_v6 : SplitHostPort "[::1]:443" = Ok ("::1", "443").
Proof. vm_compute. reflexivity. Qed.
Example SplitHostPort_v4 : SplitHostPort "example.com:80" = Ok ("example.com", "80").
Proof. vm_compute. reflexivity. Qed.
Example SplitHostPort_bad : is_ok (SplitHostPort "a:b:80") = false.
Proof. vm_compute. reflexivity. Qed.

(** ** The handler *)

Record Handler := MkHandler {
  BlockedCIDRs : option (list IPNet);
  BodyLimitBytes : Z;
  AllowTLSSkipVerify : bool;
  AllowClusterInternal : bool
}.

Definition maxTimeoutSeconds : Z := 300.
Definition defaultTimeoutSeconds : Z := 30.
Definition allowedMethods : string := "GET POST PUT PATCH DELETE".

(** An error of [http.Client.Do], with what [errors.Is] and [errors.As] say
    of it. *)
Record DoError := MkDoError {
  de_msg : string;
  de_deadline : bool;
  de_op : bool;
  de_dns : bool
}.

(** The TLS side of the client that is built. *)
Record ClientTLS := MkClientTLS {
  ct_InsecureSkipVerify : bool;
  ct_extraCA : option string;
  ct_certificate : option (string * string)
}.

Record UpstreamResponse := MkUpstream {
  up_StatusCode : Z;
  up_Header : gmap string (list string);
  (** What reading at most [n] bytes of the body gives. *)
  up_Body : result string
}.

Inductive XEv : Type → Type :=
  | XLookupIP (host : string) : XEv (result (list IP))
  (** [rawDialContext]: the connection is an opaque number. *)
  | XDial (network addr : string) : XEv (result nat)
  | XDo (client : ClientTLS) (timeoutSecs : Z) (method url : string) (headers : gmap string string)
        (body : string) (limit : Z) : XEv (DoError + UpstreamResponse).

(** JSON decoding, request construction and certificate parsing. *)
Class ExecLib := {
  DecodeExecuteRequest : string → result ExecuteRequest;
  NewOutRequestError : string → string → option gerr;
  SystemCertPoolError : option gerr;
  AppendCABundle : string → bool;
  X509KeyPairError : string → string → option gerr
}.

Inductive Reply := BadRequest (msg : string) | Replied (resp : ExecuteResponse).

Definition errorResponse (msg : string) : Reply := Replied (MkExecResp 0 ∅ "" false msg).

Section handler.
  Context `{NetLib} `{ExecLib}.

Definition dialContext (h : Handler) (network addr : string) : Prog XEv (result nat) :=
  match SplitHostPort addr with
  | Err e => Ret (Err (errorf ("ssrf_blocked: invalid dial address " +:+ Quote addr +:+ ": " +:+ emsg e)))
  | Ok (host, port) =>
      if isClusterInternal host && AllowClusterInternal h then emit (XDial network addr)
      else if isClusterInternal host then Ret (Err (errorf ("ssrf_blocked: " +:+ clusterInternalMsg)))
      else
        let! v := resolveAndValidate (λ host, emit (XLookupIP host)) host (BlockedCIDRs h) in
        match v with
        | Err e => Ret (Err (errorf ("ssrf_blocked: " +:+ emsg e)))
        | Ok validated =>
            match validated with
            | ip :: _ => emit (XDial network (JoinHostPort (IP_String ip) port))
            | [] => Ret (Err (errorf "index out of range"))
            end
        end
  end.

(** The client built for a request (the handler's own [HTTPClient] is only set
    in tests). *)
Definition httpClient (h : Handler) (req : ExecuteRequest) : result ClientTLS :=
  let skipVerify := AllowTLSSkipVerify h && er_TLSSkipVerify req in
  let? ca :=
    if (er_TLSCABundle req =? "") then Ok None
    else match SystemCertPoolError with
         | Some e => Err (wrapf "loading system CA pool: " e)
         | None => if AppendCABundle (er_TLSCABundle req) then Ok (Some (er_TLSCABundle req))
                   else Err (errorf "failed to parse TLS CA bundle: no valid PEM certificates found")
         end in
  let hasCert := negb (er_TLSClientCert req =? "") in
  let hasKey := negb (er_TLSClientKey req =? "") in
  if hasCert && hasKey then
    match X509KeyPairError (er_TLSClientCert req) (er_TLSClientKey req) with
    | Some e => Err (wrapf "failed to parse TLS client certificate/key: " e)
    | None => Ok (MkClientTLS skipVerify ca (Some (er_TLSClientCert req, er_TLSClientKey req)))
    end
  else if hasCert || hasKey then
    Err (errorf "tlsClientCert and tlsClientKey must both be set for client certificate authentication")
  else Ok (MkClientTLS skipVerify ca None).

Definition classifyTransportError (e : DoError) : string :=
  let msg := de_msg e in
  match Index msg "ssrf_blocked:" with
  | Some idx => sdrop idx msg
  | None =>
      if de_deadline e then "timeout: " +:+ msg
      else if de_op e then (if de_dns e then "dns_error: " +:+ msg else "upstream_error: " +:+ msg)
      else if Contains msg "tls:" || Contains msg "x509:" || Contains msg "certificate"
      then "tls_error: " +:+ msg
      else "upstream_error: " +:+ msg
  end.

Definition clampTimeout (t : Z) : Z :=
  let t := if (t <=? 0)%Z then defaultTimeoutSeconds else t in
  if (maxTimeoutSeconds <? t)%Z then maxTimeoutSeconds else t.

(** The last value of each header. *)
Definition lastValues (m : gmap string (list string)) : gmap string string := omap last m.

Definition limitBody (limit : Z) (rawBody : string) : string * bool :=
  if (limit <? Z.of_nat (slen rawBody))%Z then (stake (Z.to_nat limit) rawBody, true) else (rawBody, false).

Definition methodAllowed (method : string) : bool :=
  Contains allowedMethods method && negb (method =? "").

Definition ServeExecute (h : Handler) (payload : string) : Prog XEv Reply :=
  match DecodeExecuteRequest payload with
  | Err e => Ret (BadRequest ("invalid_request: failed to decode JSON body: " +:+ emsg e))
  | Ok req =>
      let method := ToUpper (TrimSpace (er_Method req)) in
      if negb (methodAllowed method) then
        Ret (BadRequest ("invalid_request: method " +:+ Quote (er_Method req)
          +:+ " is not allowed; must be one of GET, POST, PUT, PATCH, DELETE"))
      else if (TrimSpace (er_URL req) =? "") then Ret (BadRequest "invalid_request: url is required")
      else
        let timeoutSecs := clampTimeout (er_TimeoutSeconds req) in
        match checkSSRFPreflight (er_URL req) (AllowClusterInternal h) with
        | Err e => Ret (errorResponse ("ssrf_blocked: " +:+ emsg e))
        | Ok _ =>
            match NewOutRequestError method (er_URL req) with
            | Some e => Ret (errorResponse ("invalid_request: failed to build HTTP request: " +:+ emsg e))
            | None =>
                match httpClient h req with
                | Err e => Ret (errorResponse ("invalid_request: " +:+ emsg e))
                | Ok client =>
                    let! d := emit (XDo client timeoutSecs method (er_URL req) (er_Headers req)
                                      (er_Body req) (BodyLimitBytes h + 1)) in
                    match d with
                    | inl err => Ret (errorResponse (classifyTransportError err))
                    | inr up =>
                        match up_Body up with
                        | Err e => Ret (Replied (MkExecResp (up_StatusCode up) ∅ "" false
                                     ("upstream_error: failed to read response body: " +:+ emsg e)))
                        | Ok rawBody =>
                            let '(body, truncated) := limitBody (BodyLimitBytes h) rawBody in
                            Ret (Replied (MkExecResp (up_StatusCode up) (lastValues (up_Header up)) body truncated ""))
                        end
                    end
                end
            end
        end
  end.

End handler.

(** ** Properties *)

Section exec_props.
  Context `{NetLib} `{ExecLib}.

(** What DNS has answered for this connection, if it was asked. *)
Definition dial_spec (h : Handler) (network addr : string) : Spec XEv (option (string * list IP)) :=
  λ X e g Q,
  match e in XEv X' return (X' → option (string * list IP) → Prop) → Prop with
  | XLookupIP host => λ Q, g = None ∧ ∀ x, Q x (Some (host, match x with Ok l => l | Err _ => [] end))
  | XDial n target => λ Q,
      n = network ∧
      (∃ host port, SplitHostPort addr = Ok (host, port) ∧
        ((isClusterInternal host = true ∧ AllowClusterInternal h = true ∧ target = addr) ∨
         (isClusterInternal host = false ∧ ∃ ip addrs,
            match ParseIP host with Some ip => addrs = [ip] ∧ g = None | None => g = Some (host, addrs) end ∧
            ip ∈ addrs ∧ target = JoinHostPort (IP_String ip) port ∧
            ∀ ip', ip' ∈ addrs →
              (isBlockedIP ip' (default defaultSSRFBlockedCIDRs (BlockedCIDRs h))).1 = false))) ∧
      ∀ x, Q x g
  | XDo _ _ _ _ _ _ _ => λ _, False
  end Q.

#[export] Instance dial_spec_mono h network addr : MonoSpec (dial_spec h network addr).
Proof.
  intros X e g P Q HPQ Hs. destruct e; simpl in *; [|destruct Hs as (? & ? & Hs); auto|done].
  destruct Hs as [? Hs]. split; [done|]. auto.
Qed.

(** C10: a connection of the executor resolves its host at most once and dials
    either an in-cluster service the operator allows, as given, or an address
    taken from that very resolution (or the literal), of which every address is
    outside every blocked range: no second lookup can substitute another one. *)
Theorem dialContext_pins_validated h network addr :
  wp (dial_spec h network addr) (dialContext h network addr) None (λ _ _, True).
Proof.
  unfold dialContext. destruct (SplitHostPort addr) as [[host port]|e] eqn:Hsp; [|done].
  destruct (isClusterInternal host) eqn:Hci.
  { destruct (AllowClusterInternal h) eqn:Hal; [|done]. simpl. split; [done|]. split; [|done].
    exists host, port. split; [done|]. left. done. }
  simpl andb. apply wp_bind; [apply _|]. unfold resolveAndValidate. cbv zeta. set (bl := default _ _).
  destruct (ParseIP host) as [ip|] eqn:Hip.
  - destruct (isBlockedIP ip bl) as [[] c] eqn:Hb; [done|]. cbn [wp]. split; [done|]. split; [|done].
    exists host, port. split; [done|]. right. split; [done|]. exists ip, [ip]. rewrite Hip.
    split; [done|]. split; [by left|]. split; [done|]. intros x ->%list_elem_of_singleton. by fold bl; rewrite Hb.
  - apply wp_bind; [apply _|]. split; [done|]. intros [[|a l]|e]; cbn [wp]; [done| |done].
    destruct (validateAddrs host (a :: l) bl []) as [out|e] eqn:Hv; [|done].
    apply validateAddrs_spec in Hv as [-> Hall]. simpl app. split; [done|]. split; [|done].
    exists host, port. split; [done|]. right. split; [done|]. exists a, (a :: l). rewrite Hip.
    split; [done|]. split; [by left|]. done.
Qed.

(** The executor's default ranges and the controller's block the same
    addresses, although the two lists are separate copies. *)
Theorem default_blocklists_agree ip :
  (isBlockedIP ip defaultSSRFBlockedCIDRs).1 = (isBlockedIP ip Ssrf.defaultSSRFBlockedCIDRs).1.
Proof.
  apply isBlockedIP_perm. unfold defaultSSRFBlockedCIDRs, Ssrf.defaultSSRFBlockedCIDRs.
  do 6 apply perm_skip. apply Permutation_cons_append.
Qed.

(** The IPv6 unspecified address is in none of the default ranges, although
    its IPv4 counterpart is. *)
Theorem unspecified_v6_not_blocked :
  option_map (λ ip, (isBlockedIP ip defaultSSRFBlockedCIDRs).1) (ParseIP "::") = Some false ∧
  option_map (λ ip, (isBlockedIP ip defaultSSRFBlockedCIDRs).1) (ParseIP "0.0.0.0") = Some true.
Proof. split; vm_compute; reflexivity. Qed.

(** The client of a request: verification is off only if operator and request
    agree, and a certificate comes with its key. *)
Lemma httpClient_spec h req c :
  httpClient h req = Ok c →
  (ct_InsecureSkipVerify c = true ↔ AllowTLSSkipVerify h = true ∧ er_TLSSkipVerify req = true) ∧
  (is_Some (ct_certificate c) ↔ er_TLSClientCert req ≠ "" ∧ er_TLSClientKey req ≠ "") ∧
  (er_TLSClientCert req = "" ↔ er_TLSClientKey req = "").
Proof.
  unfold httpClient. cbv zeta. rewrite res_bind_Ok. intros (ca & _ & Hc). revert Hc.
  destruct (String.eqb_spec (er_TLSClientCert req) ""), (String.eqb_spec (er_TLSClientKey req) ""); simpl;
    try done; [|destruct (X509KeyPairError _ _); [done|]]; intros [= <-]; simpl;
    rewrite andb_true_iff; (split; [done|]); (split; [|naive_solver]); split; naive_solver.
Qed.

(** What a request handed to the outbound client must look like. *)
Definition do_ok (h : Handler) (req : ExecuteRequest) (c : ClientTLS) (t : Z) (method url : string)
    (headers : gmap string string) (body : string) : Prop :=
  url = er_URL req ∧ headers = er_Headers req ∧ body = er_Body req ∧
  method = ToUpper (TrimSpace (er_Method req)) ∧
  ((er_TimeoutSeconds req <= 0)%Z → t = 30%Z) ∧
  ((0 < er_TimeoutSeconds req)%Z → t = (er_TimeoutSeconds req `min` 300)%Z) ∧
  (ct_InsecureSkipVerify c = true ↔ AllowTLSSkipVerify h = true ∧ er_TLSSkipVerify req = true) ∧
  (is_Some (ct_certificate c) ↔ er_TLSClientCert req ≠ "" ∧ er_TLSClientKey req ≠ "") ∧
  ∃ host, URLHostname url = Ok host ∧ host ≠ "" ∧ (cluster_name host → AllowClusterInternal h = true).

(** The client's answers so far: a second request is refused. *)
Definition outbound_spec (h : Handler) (req : ExecuteRequest) : Spec XEv (list (DoError + UpstreamResponse)) :=
  λ X e calls Q,
  match e in XEv X' return (X' → list (DoError + UpstreamResponse) → Prop) → Prop with
  | XDo c t method url headers body _ => λ Q,
      calls = [] ∧ do_ok h req c t method url headers body ∧ ∀ answer, Q answer [answer]
  | _ => λ Q, False
  end Q.

#[global] Instance outbound_spec_mono h req : MonoSpec (outbound_spec h req).
Proof.
  intros X e s P Q HPQ. destruct e; simpl; [done..|]. intros (? & ? & HP). split_and!; [done..|].
  intros; by apply HPQ.
Qed.

(** The answer to a request whose outbound call ended in [calls]. *)
Definition reports (limit : Z) (calls : list (DoError + UpstreamResponse)) (resp : ExecuteResponse) : Prop :=
  match calls with
  | [] => ex_StatusCode resp = 0%Z ∧ ex_Body resp = "" ∧ ex_Error resp ≠ ""
  | inl _ :: _ => ex_StatusCode resp = 0%Z ∧ ex_Body resp = "" ∧ ex_Error resp ≠ ""
  | inr up :: _ =>
      ex_StatusCode resp = up_StatusCode up ∧
      match up_Body up with
      | Err _ => ex_Body resp = "" ∧ ex_Error resp ≠ ""
      | Ok raw =>
          ex_Error resp = "" ∧ (Z.of_nat (slen (ex_Body resp)) <= limit)%Z ∧
          (∃ rest, raw = ex_Body resp +:+ rest) ∧ (ex_Truncated resp = false → ex_Body resp = raw) ∧
          (ex_Truncated resp = true ↔ (limit < Z.of_nat (slen raw))%Z) ∧
          ∀ k v, ex_Headers resp !! k = Some v ↔ ∃ vs, up_Header up !! k = Some (vs ++ [v])
      end
  end.

Lemma preflight_name h url :
  is_ok (checkSSRFPreflight url (AllowClusterInternal h)) = true →
  ∃ host, URLHostname url = Ok host ∧ host ≠ "" ∧ (cluster_name host → AllowClusterInternal h = true).
Proof.
  unfold checkSSRFPreflight. destruct (URLHostname url) as [host|]; [|done].
  destruct (String.eqb_spec host "") as [|Hne]; [done|]. intros Hok. exists host. split_and!; [done..|].
  intros Hc%isClusterInternal_name. rewrite Hc in Hok. by destruct (AllowClusterInternal h).
Qed.

Lemma clampTimeout_spec t :
  ((t <= 0)%Z → clampTimeout t = 30%Z) ∧ ((0 < t)%Z → clampTimeout t = (t `min` 300)%Z).
Proof.
  unfold clampTimeout, defaultTimeoutSeconds, maxTimeoutSeconds.
  destruct (Z.leb_spec t 0); simpl; [lia|]. destruct (Z.ltb_spec 300 t); lia.
Qed.

Lemma classify_nonempty e : classifyTransportError e ≠ "".
Proof.
  unfold classifyTransportError. cbv zeta. destruct (Index (de_msg e) "ssrf_blocked:") as [i|] eqn:Hi.
  - apply Index_Some in Hi as [_ Hi]. intros He. by rewrite He in Hi.
  - by repeat case_match.
Qed.

Lemma lastValues_spec m k v : lastValues m !! k = Some v ↔ ∃ vs, m !! k = Some (vs ++ [v]).
Proof.
  unfold lastValues. rewrite lookup_omap. destruct (m !! k) as [l|]; simpl; [|naive_solver].
  rewrite last_Some. naive_solver.
Qed.

Lemma limitBody_spec limit raw :
  (0 <= limit)%Z →
  let '(body, truncated) := limitBody limit raw in
  (Z.of_nat (slen body) <= limit)%Z ∧ (∃ rest, raw = body +:+ rest) ∧
  (truncated = false → body = raw) ∧ (truncated = true ↔ (limit < Z.of_nat (slen raw))%Z).
Proof.
  intros Hl. unfold limitBody. destruct (Z.ltb_spec limit (Z.of_nat (slen raw))) as [Hlt|Hge].
  - split; [|split; [|done]].
    + assert (slen (stake (Z.to_nat limit) raw) ≤ Z.to_nat limit)%nat; [|lia].
      clear. generalize (Z.to_nat limit). intros n. revert n.
      induction raw as [|c raw IH]; intros [|n]; simpl; try lia. specialize (IH n). lia.
    + exists (sdrop (Z.to_nat limit) raw). by rewrite stake_sdrop.
  - split; [lia|]. split; [exists ""; symmetry; apply string_app_nil_r|]. split; [done|]. split; [done|lia].
Qed.


(** The method filter is a substring test: every documented method passes,
    and so do strings that are no HTTP method, such as [E] or [T POST]. *)
Theorem methodAllowed_substring :
  forallb methodAllowed ["GET"; "POST"; "PUT"; "PATCH"; "DELETE"] = true ∧
  forallb methodAllowed ["E"; "ET"; "T POST"; "GET POST PUT"] = true ∧
  methodAllowed "HEAD" = false ∧ methodAllowed "" = false.
Proof. repeat split; vm_compute; reflexivity. Qed.

(** A dial that was refused is reported as such: whatever the transport adds
    in front of the dialer's message, the executor's error starts with
    [ssrf_blocked:]. *)
Theorem classify_keeps_ssrf_block e prefix reason :
  de_msg e = prefix +:+ "ssrf_blocked:" +:+ reason →
  HasPrefix (classifyTransportError e) "ssrf_blocked:" = true.
Proof.
  intros Hm. unfold classifyTransportError. cbv zeta.
  destruct (Index (de_msg e) "ssrf_blocked:") as [i|] eqn:Hi.
  - by apply Index_Some in Hi as [_ Hi].
  - destruct (Index_infix prefix "ssrf_blocked:" reason) as [n Hn]. rewrite Hm, Hn in Hi. done.
Qed.

End exec_props.
