(* ===== verification/SecretIndex.v ===== *)
(** * The reverse index from Secrets to the objects that use them

    [internal/gateway/secretindex/secretindex.go], shared by the gateway
    watchers.  The abstract state is the map from each object to the Secrets it
    was last updated with; the index is proved to refine it. *)

From S2P Require Import Prelude.

Local Open Scope list_scope.

(** [types.NamespacedName] *)
Definition NamespacedName : Type := string * string.

Record Index := MkIndex {
  bySecret : gmap NamespacedName (gset NamespacedName);
  byObject : gmap NamespacedName (gset NamespacedName)
}.

Definition New : Index := MkIndex ∅ ∅.

(** [delete(idx.bySecret[s], objectKey)], and the entry when it is empty. *)
Definition dropObject (objectKey : NamespacedName) (m : gmap NamespacedName (gset NamespacedName))
    (s : NamespacedName) : gmap NamespacedName (gset NamespacedName) :=
  let left := default ∅ (m !! s) ∖ {[objectKey]} in
  if decide (left = ∅) then delete s m else <[s := left]> m.

Definition addObject (objectKey : NamespacedName) (m : gmap NamespacedName (gset NamespacedName))
    (s : NamespacedName) : gmap NamespacedName (gset NamespacedName) :=
  <[s := {[objectKey]} ∪ default ∅ (m !! s)]> m.

Definition Update (objectKey : NamespacedName) (secretKeys : list NamespacedName) (idx : Index) : Index :=
  let old := default ∅ (byObject idx !! objectKey) in
  let bySecret1 := fold_left (dropObject objectKey) (elements old) (bySecret idx) in
  let byObject1 := delete objectKey (byObject idx) in
  match secretKeys with
  | [] => MkIndex bySecret1 byObject1
  | _ => MkIndex (fold_left (addObject objectKey) secretKeys bySecret1)
           (<[objectKey := list_to_set secretKeys]> byObject1)
  end.

Definition Remove (objectKey : NamespacedName) (idx : Index) : Index := Update objectKey [] idx.

Definition ObjectsFor (secretKey : NamespacedName) (idx : Index) : list NamespacedName :=
  elements (default ∅ (bySecret idx !! secretKey)).

(** ** Invariant *)

Definition uses (idx : Index) (o s : NamespacedName) : Prop := s ∈ default ∅ (byObject idx !! o).

Record index_ok (idx : Index) : Prop := {
  ix_agree : ∀ o s, o ∈ default ∅ (bySecret idx !! s) ↔ uses idx o s;
  (** No entry is kept for a Secret nothing depends on. *)
  ix_nonempty : ∀ s, bySecret idx !! s ≠ Some ∅
}.

Lemma New_ok : index_ok New.
Proof.
  split; [intros o s; unfold uses, New; simpl; rewrite !lookup_empty; set_solver|].
  intros s. unfold New. simpl. by rewrite lookup_empty.
Qed.

Lemma dropObject_spec o m s x t :
  x ∈ default ∅ (dropObject o m s !! t) ↔ x ∈ default ∅ (m !! t) ∧ ¬ (t = s ∧ x = o).
Proof.
  unfold dropObject. case_decide as He; destruct (decide (t = s)) as [->|Hne].
  - rewrite lookup_delete_eq. set_solver.
  - rewrite lookup_delete_ne by done. set_solver.
  - rewrite lookup_insert_eq. set_solver.
  - rewrite lookup_insert_ne by done. set_solver.
Qed.

Lemma dropAll_spec o l m x t :
  x ∈ default ∅ (fold_left (dropObject o) l m !! t) ↔ x ∈ default ∅ (m !! t) ∧ ¬ (t ∈ l ∧ x = o).
Proof.
  revert m. induction l as [|s l IH]; intros m; simpl; [set_solver|].
  rewrite IH, dropObject_spec. set_solver.
Qed.

Lemma addAll_spec o l m x t :
  x ∈ default ∅ (fold_left (addObject o) l m !! t) ↔ x ∈ default ∅ (m !! t) ∨ (t ∈ l ∧ x = o).
Proof.
  revert m. induction l as [|s l IH]; intros m; simpl; [set_solver|]. rewrite IH. unfold addObject.
  destruct (decide (t = s)) as [->|Hne]; [rewrite lookup_insert_eq|rewrite lookup_insert_ne by done]; set_solver.
Qed.

Lemma dropAll_nonempty o l m :
  (∀ s, m !! s ≠ Some ∅) → ∀ s, fold_left (dropObject o) l m !! s ≠ Some ∅.
Proof.
  revert m. induction l as [|t l IH]; intros m Hm; simpl; [done|]. apply IH. intros s. unfold dropObject.
  case_decide as He; destruct (decide (s = t)) as [->|Hne];
    rewrite ?lookup_delete_eq, ?lookup_insert_eq, ?lookup_delete_ne, ?lookup_insert_ne by done; congruence.
Qed.

Lemma addAll_nonempty o l m :
  (∀ s, m !! s ≠ Some ∅) → ∀ s, fold_left (addObject o) l m !! s ≠ Some ∅.
Proof.
  revert m. induction l as [|t l IH]; intros m Hm; simpl; [done|]. apply IH. intros s. unfold addObject.
  destruct (decide (s = t)) as [->|Hne]; [|by rewrite lookup_insert_ne].
  rewrite lookup_insert_eq. intros [= He]. set_solver.
Qed.

Lemma uses_Update o l idx o' s :
  uses (Update o l idx) o' s ↔ if decide (o' = o) then s ∈ l else uses idx o' s.
Proof.
  unfold uses, Update. destruct l as [|k l]; simpl; case_decide as Ho.
  - subst. rewrite lookup_delete_eq. set_solver.
  - by rewrite lookup_delete_ne by done.
  - subst. rewrite lookup_insert_eq. simpl. set_solver.
  - by rewrite lookup_insert_ne, lookup_delete_ne by done.
Qed.

Lemma bySecret_Update o l idx s x :
  index_ok idx →
  x ∈ default ∅ (bySecret (Update o l idx) !! s) ↔ if decide (x = o) then s ∈ l else uses idx x s.
Proof.
  intros [Hag _].
  assert (x ∈ default ∅ (bySecret (Update o l idx) !! s) ↔
          (x ∈ default ∅ (bySecret idx !! s) ∧ ¬ (s ∈ default ∅ (byObject idx !! o) ∧ x = o)) ∨ (s ∈ l ∧ x = o))
    as ->.
  { unfold Update. destruct l as [|k l]; cbn [bySecret]; rewrite ?addAll_spec, dropAll_spec, elem_of_elements; set_solver. }
  rewrite Hag. unfold uses. case_decide; set_solver.
Qed.

Lemma Update_ok o l idx : index_ok idx → index_ok (Update o l idx).
Proof.
  intros Hok. split.
  - intros o' s. rewrite bySecret_Update, uses_Update by done. done.
  - unfold Update. destruct l as [|k l]; cbn [bySecret];
      [|apply addAll_nonempty]; apply dropAll_nonempty, Hok.
Qed.

(** ** Refinement *)

(** A history of updates ([Remove] is the update with no Secrets), and the
    Secrets each object was last updated with. *)
Definition apply_updates (l : list (NamespacedName * list NamespacedName)) (idx : Index) : Index :=
  fold_left (λ idx '(o, ks), Update o ks idx) l idx.

Definition last_update (l : list (NamespacedName * list NamespacedName)) (o : NamespacedName)
    : list NamespacedName :=
  fold_left (λ cur '(o', ks), if decide (o' = o) then ks else cur) l [].

Lemma apply_updates_ok l idx : index_ok idx → index_ok (apply_updates l idx).
Proof. revert idx. induction l as [|[o ks] l IH]; intros idx Hok; simpl; [done|]. by apply IH, Update_ok. Qed.

Lemma apply_updates_uses l idx o s (cur : list NamespacedName) :
  (uses idx o s ↔ s ∈ cur) →
  uses (apply_updates l idx) o s ↔
  s ∈ fold_left (λ cur '(o', ks), if decide (o' = o) then ks else cur) l cur.
Proof.
  revert idx cur. induction l as [|[o' ks] l IH]; intros idx cur Hc; simpl; [done|]. apply IH.
  rewrite uses_Update. destruct (decide (o' = o)) as [->|Hne]; [by rewrite decide_True|].
  by rewrite decide_False.
Qed.

(** After any sequence of updates and removals, the objects returned for a
    Secret are exactly those whose last update named it, each once: a Trigger
    is reprocessed when, and only when, a Secret it currently uses changes. *)
Theorem ObjectsFor_exact history s :
  NoDup (ObjectsFor s (apply_updates history New)) ∧
  ∀ o, o ∈ ObjectsFor s (apply_updates history New) ↔ s ∈ last_update history o.
Proof.
  split; [apply NoDup_elements|]. intros o. unfold ObjectsFor. rewrite elem_of_elements.
  rewrite (ix_agree _ (apply_updates_ok history New New_ok)). apply apply_updates_uses.
  unfold uses, New. simpl. rewrite lookup_empty. set_solver.
Qed.

(** The two directions of the index agree after every update, and no entry
    is left behind for a Secret nothing depends on. *)
Theorem index_invariant history : index_ok (apply_updates history New).
Proof. apply apply_updates_ok, New_ok. Qed.
