(* ===== verification/Webhook.v ===== *)
(** * The webhook gateway

    [internal/gateway/webhook]: the route registry ([registry.go]), header
    redaction ([internal/gateway/redact]), the client address
    ([accesslog.go]), request authentication, the cooldown tracker and the
    request handler ([handler.go]) with what it reports to the access log.  Metrics
    and spans are left out; of the panics, the one of a missing OIDC validator is
    modelled with its recovery. *)

From S2P Require Import Prelude SecretIndex GoStd Api Net Effects Ssrf Executor.

Local Open Scope string_scope.
Local Open Scope list_scope.
Local Open Scope go_scope.

(** ** HTTP requests *)

(** [textproto.CanonicalMIMEHeaderKey]: a key with a byte that is not a token
    character is left alone. *)
Definition isTokenChar (c : ascii) : bool :=
  let n := nat_of_ascii c in
  ((48 <=? n)%nat && (n <=? 57)%nat) || ((65 <=? n)%nat && (n <=? 90)%nat)
  || ((97 <=? n)%nat && (n <=? 122)%nat)
  || existsb (Ascii.eqb c) ["!"; "#"; "$"; "%"; "&"; "'"; "*"; "+"; "-"; "."; "^"; "_"; "`"; "|"; "~"]%char.

Fixpoint all_chars (p : ascii → bool) (s : string) : bool :=
  match s with EmptyString => true | String c s => p c && all_chars p s end.

Fixpoint canonical_go (upper : bool) (s : string) : string :=
  match s with
  | EmptyString => EmptyString
  | String c s => String (if upper then upper_char c else lower_char c) (canonical_go (c =? "-")%char s)
  end.

Definition CanonicalHeaderKey (s : string) : string :=
  if all_chars isTokenChar s then canonical_go true s else s.

Record Request := MkRequest {
  rq_Method : string;
  rq_Path : string;
  rq_RemoteAddr : string;
  rq_Header : gmap string (list string);
  (** What reading the body up to the limit gives. *)
  rq_Body : result string;
  rq_ContentLength : Z
}.

Definition HeaderGet (h : gmap string (list string)) (key : string) : string :=
  match h !! CanonicalHeaderKey key with
  | Some (v :: _) => v
  | _ => ""
  end.

(** ** Redaction ([internal/gateway/redact/redact.go]) *)

Definition Placeholder : string := "[REDACTED]".

Definition BuiltInHeaders : list string :=
  [ "Authorization"; "X-Api-Key"; "Cookie"; "Set-Cookie"; "X-Auth-Token"; "Proxy-Authorization";
    "X-Webhook-Secret"; "X-Hub-Signature"; "X-Hub-Signature-256"; "X-Amz-Security-Token" ].

(** The [toRedact] set. *)
Definition toRedact (redactExtra : list string) (k : string) : bool :=
  existsb (λ h, (ToLower h =? ToLower k)) (BuiltInHeaders ++ redactExtra).

Definition redact_Headers (headers : gmap string (list string)) (redactExtra : list string)
    : gmap string string :=
  map_imap (λ k vals, Some (if toRedact redactExtra k then Placeholder else Join vals ",")) headers.

Definition redact_Body (body : string) (redactBody : bool) : string :=
  if redactBody then Placeholder else body.

Definition redact_StringMap (hdrs : gmap string string) (redactExtra : list string) : gmap string string :=
  map_imap (λ k v, Some (if toRedact redactExtra k then Placeholder else v)) hdrs.

(** ** Routes ([registry.go]) *)

Record oidcValidator := MkOidcValidator { ov_jwksURL : string; ov_issuer : string; ov_audience : string }.

Record RouteEntry := MkRoute {
  re_TriggerName : string;
  re_TriggerNamespace : string;
  re_FlowRef : string;
  re_FlowNamespace : string;
  re_AllowedMethod : string;
  re_AuthType : string;
  re_HMACSecret : string;
  re_HMACProvider : string;
  re_HMACTimestampToleranceSec : Z;
  re_BearerToken : string;
  re_BasicUsername : string;
  re_BasicPassword : string;
  re_APIKey : string;
  re_APIKeyHeader : string;
  re_IPAllowlist : list string;
  re_HeaderEqualsHeader : string;
  re_HeaderEqualsValue : string;
  re_OIDCValidator : option oidcValidator;
  re_MaxInvocations : Z;
  re_CooldownWindow : Z;
  re_RedactHeaders : list string;
  re_RedactBody : bool
}.

Definition set_AllowedMethod (m : string) (e : RouteEntry) : RouteEntry :=
  MkRoute (re_TriggerName e) (re_TriggerNamespace e) (re_FlowRef e) (re_FlowNamespace e) m (re_AuthType e)
    (re_HMACSecret e) (re_HMACProvider e) (re_HMACTimestampToleranceSec e) (re_BearerToken e)
    (re_BasicUsername e) (re_BasicPassword e) (re_APIKey e) (re_APIKeyHeader e) (re_IPAllowlist e)
    (re_HeaderEqualsHeader e) (re_HeaderEqualsValue e) (re_OIDCValidator e) (re_MaxInvocations e)
    (re_CooldownWindow e) (re_RedactHeaders e) (re_RedactBody e).

Record RouteRegistry := MkRegistry { routes : gmap string RouteEntry; synced : bool }.

Definition NewRouteRegistry : RouteRegistry := MkRegistry ∅ false.

Definition normalizePath (path : string) : string :=
  let path := TrimSpace path in
  if negb (HasPrefix path "/hooks/") then "/hooks/" +:+ TrimPrefix path "/" else path.

Definition Register (path : string) (entry : RouteEntry) (r : RouteRegistry) : RouteRegistry :=
  MkRegistry (<[normalizePath path := set_AllowedMethod (ToUpper (re_AllowedMethod entry)) entry]> (routes r))
    (synced r).

Definition Deregister (path : string) (r : RouteRegistry) : RouteRegistry :=
  MkRegistry (delete (normalizePath path) (routes r)) (synced r).

Definition Lookup (path : string) (r : RouteRegistry) : option RouteEntry := routes r !! normalizePath path.

Definition MarkSynced (r : RouteRegistry) : RouteRegistry := MkRegistry (routes r) true.

(** ** The client address ([accesslog.go]) *)

Definition maxForwardedForHops : nat := 32.

Definition isTrustedProxy (host : string) (trustedProxies : list IPNet) : bool :=
  match ParseIP host with
  | None => false
  | Some ip => existsb (λ cidr, IPNet_Contains cidr ip) trustedProxies
  end.

(** The walk over the entries, right-most first. *)
Fixpoint walkForwarded (entries : list string) (trustedProxies : list IPNet) (leftMost : string) : string :=
  match entries with
  | [] => leftMost
  | e :: entries =>
      let entry := TrimSpace e in
      if (entry =? "") then walkForwarded entries trustedProxies leftMost
      else if negb (isTrustedProxy entry trustedProxies) then entry
      else walkForwarded entries trustedProxies entry
  end.

Definition realClientIP (r : Request) (trustedProxies : list IPNet) : string :=
  let host := match SplitHostPort (rq_RemoteAddr r) with Ok (h, _) => h | Err _ => rq_RemoteAddr r end in
  if bool_decide (trustedProxies = []) || negb (isTrustedProxy host trustedProxies) then host
  else
    let xff := HeaderGet (rq_Header r) "X-Forwarded-For" in
    let fromXFF := if (xff =? "") then ""
                   else walkForwarded (take maxForwardedForHops (rev (split_char "," xff))) trustedProxies "" in
    if negb (fromXFF =? "") then fromXFF
    else
      let xri := TrimSpace (HeaderGet (rq_Header r) "X-Real-IP") in
      if negb (xri =? "") then xri else host.

Fixpoint parseProxyCIDRs (parts : list string) (out : list IPNet) : result (list IPNet) :=
  match parts with
  | [] => Ok out
  | part :: parts =>
      let cidr := TrimSpace part in
      if (cidr =? "") then parseProxyCIDRs parts out
      else match ParseCIDR cidr with
           | None => Err (errorf ("invalid CIDR " +:+ Quote cidr +:+ " in --trusted-proxy-cidrs"))
           | Some n => parseProxyCIDRs parts (out ++ [n])
           end
  end.

Definition ParseTrustedProxyCIDRs (raw : string) : result (list IPNet) :=
  let raw := TrimSpace raw in
  if (raw =? "") then Ok [] else parseProxyCIDRs (split_char "," raw) [].

(** ** The cooldown tracker *)

(** [invocations]: the accepted requests of each path. *)
Abbreviation CooldownTracker := (gmap string (list Z)).

Definition allow (path : string) (maxInvocations window now : Z) (ct : CooldownTracker)
    : bool * CooldownTracker :=
  if (maxInvocations <=? 0)%Z then (true, ct)
  else
    let cutoff := (now - window)%Z in
    let pruned := List.filter (λ ts, (cutoff <? ts)%Z) (default [] (ct !! path)) in
    if (maxInvocations <=? wrap32 (Z.of_nat (length pruned)))%Z then (false, <[path := pruned]> ct)
    else (true, <[path := pruned ++ [now]]> ct).

(** ** Requests of the gateway *)

(** HMAC, Basic credentials, UTF-8, base64 and JWT validation. *)
Class WebLib := {
  hmac_sha256_hex : string → string → string;
  (** [parseBasicAuth] on the Authorization header. *)
  parseBasicAuth : string → option (string * string);
  utf8_Valid : string → bool;
  base64_Encode : string → string;
  KeySet : Type;
  (** [jwt.ParseString] with the key set, and the issuer and audience that are
      configured (none when empty). *)
  jwt_Parse : KeySet → option string → option string → string → result unit
}.

(** The GET of a discovery document: the URL is refused, the request fails, or a
    response with its status and what decoding [jwks_uri] from it gives. *)
Inductive DiscoveryReply := DBadURL (e : gerr) | DFailed (e : gerr) | DResponse (code : Z) (doc : result string).

Inductive GEv `{WebLib} : Type → Type :=
  | GNow : GEv Z
  | GRoutes : GEv RouteRegistry
  | GCooldownLock : GEv CooldownTracker
  | GCooldownUnlock (ct : CooldownTracker) : GEv unit
  | GJwksGet (url : string) : GEv (result KeySet)
  | GJwksRefresh (url : string) : GEv (result KeySet)
  (** [jwk.Cache.Register] *)
  | GJwksRegister (url : string) : GEv (result unit)
  | GDiscoverJWKS (discoveryURL : string) : GEv DiscoveryReply
  | GGetSecret (ns name : string) : GEv (result (gmap string string))
  | GRandomHex (n : nat) : GEv string
  (** The W3C trace context of the current span. *)
  | GTraceparent : GEv (string * string)
  (** Trace and span identifiers of the root span, when tracing is configured. *)
  | GSpanContext : GEv (option (string * string))
  | GCreateFlowRun (fr : FlowRun) : GEv (result unit).

Section gateway.
  Context `{WebLib} `{NetLib}.

(** ** OIDC ([oidc.go]) *)

Definition orNone (s : string) : option string := if (s =? "") then None else Some s.

Definition oidc_validate (v : oidcValidator) (tokenString : string) : Prog GEv (result unit) :=
  let parse ks := jwt_Parse ks (orNone (ov_issuer v)) (orNone (ov_audience v)) tokenString in
  let! k := emit (GJwksGet (ov_jwksURL v)) in
  match k with
  | Err e => Ret (Err (wrapf "unable to load JWKS: " e))
  | Ok keyset =>
      match parse keyset with
      | Ok _ => Ret (Ok tt)
      | Err err =>
          let! f := emit (GJwksRefresh (ov_jwksURL v)) in
          match f with
          | Err _ => Ret (Err (wrapf "token validation failed: " err))
          | Ok freshSet =>
              match parse freshSet with
              | Err retryErr => Ret (Err (wrapf "token validation failed: " retryErr))
              | Ok _ => Ret (Ok tt)
              end
          end
      end
  end.

(** ** Authentication *)

Definition authTypeHMAC : string := "hmac".
Definition authTypeBearer : string := "bearer".
Definition authTypeAPIKey : string := "apiKey".
Definition authTypeIPAllowlist : string := "ipAllowlist".
Definition authTypeOIDC : string := "oidc".
Definition authTypeBasic : string := "basic".
Definition authTypeHeaderEquals : string := "header-equals".
Definition authMsgHMACSignatureMismatch : string := "HMAC signature mismatch".

Definition StatusOK : Z := 200.
Definition StatusAccepted : Z := 202.
Definition StatusUnauthorized : Z := 401.
Definition StatusForbidden : Z := 403.

Definition verifySlackHMAC (r : Request) (body secret : string) (toleranceSeconds : Z)
    : Prog GEv (Z * string) :=
  let sigHeader := HeaderGet (rq_Header r) "X-Slack-Signature" in
  if (sigHeader =? "") then Ret (StatusUnauthorized, "missing X-Slack-Signature header")
  else
    let tsHeader := HeaderGet (rq_Header r) "X-Slack-Request-Timestamp" in
    if (tsHeader =? "") then Ret (StatusUnauthorized, "missing X-Slack-Request-Timestamp header")
    else match ParseInt tsHeader with
    | None => Ret (StatusUnauthorized, "invalid X-Slack-Request-Timestamp header")
    | Some ts =>
        let tolerance := if (toleranceSeconds <=? 0)%Z then 300%Z else toleranceSeconds in
        let! t := emit GNow in
        let age := wrap64 (t / Second - ts) in
        if (tolerance <? age)%Z || (age <? - tolerance)%Z
        then Ret (StatusUnauthorized, "X-Slack-Request-Timestamp outside tolerance window")
        else
          let expected := "v0=" +:+ hmac_sha256_hex secret ("v0:" +:+ tsHeader +:+ ":" +:+ body) in
          if negb (sigHeader =? expected) then Ret (StatusUnauthorized, authMsgHMACSignatureMismatch)
          else Ret (StatusOK, "")
    end.

(** One entry of the allowlist: a range, or a plain address. *)
Definition ipEntryAllows (ip : option IP) (cidr : string) : bool :=
  match ParseCIDR cidr with
  | Some n => match ip with Some ip => IPNet_Contains n ip | None => false end
  | None => match ParseIP cidr with
            | Some allowedIP => IP_Equal (Some allowedIP) ip
            | None => false
            end
  end.

Definition orDefault (s d : string) : string := if (s =? "") then d else s.

(** The status and the message, or a panic (a nil validator). *)
Definition AuthAnswer : Type := option (Z * string).

Definition authenticateRequest (r : Request) (body : string) (entry : RouteEntry)
    (trustedProxies : list IPNet) : Prog GEv AuthAnswer :=
  let get := HeaderGet (rq_Header r) in
  let deny (msg : string) : Prog GEv AuthAnswer := Ret (Some (StatusUnauthorized, msg)) in
  let accept : Prog GEv AuthAnswer := Ret (Some (StatusOK, "")) in
  let type := re_AuthType entry in
  if (type =? authTypeHMAC) then
    if (re_HMACProvider entry =? "slack")
    then let! a := verifySlackHMAC r body (re_HMACSecret entry) (re_HMACTimestampToleranceSec entry) in Ret (Some a)
    else
      let sigHeader := get "X-Hub-Signature-256" in
      if (sigHeader =? "") then deny "missing X-Hub-Signature-256 header"
      else if negb (sigHeader =? "sha256=" +:+ hmac_sha256_hex (re_HMACSecret entry) body)
      then deny authMsgHMACSignatureMismatch else accept
  else if (type =? authTypeBearer) then
    let authHeader := get "Authorization" in
    if (authHeader =? "") then deny "missing Authorization header"
    else if negb (authHeader =? "Bearer " +:+ re_BearerToken entry) then deny "invalid bearer token" else accept
  else if (type =? authTypeAPIKey) then
    let val := get (orDefault (re_APIKeyHeader entry) "X-Api-Key") in
    if (val =? "") then deny "missing API key header"
    else if negb (val =? re_APIKey entry) then deny "invalid API key" else accept
  else if (type =? authTypeOIDC) then
    let authHeader := get "Authorization" in
    if (authHeader =? "") || negb (HasPrefix authHeader "Bearer ")
    then deny ("{" +:+ dq +:+ "error" +:+ dq +:+ ":" +:+ dq +:+ "unauthorized" +:+ dq +:+ "," +:+ dq
               +:+ "reason" +:+ dq +:+ ":" +:+ dq +:+ "missing Bearer token" +:+ dq +:+ "}")
    else match re_OIDCValidator entry with
         | None => Ret None
         | Some v =>
             let! x := oidc_validate v (TrimPrefix authHeader "Bearer ") in
             match x with
             | Err e => deny ("{" +:+ dq +:+ "error" +:+ dq +:+ ":" +:+ dq +:+ "unauthorized" +:+ dq +:+ ","
                 +:+ dq +:+ "reason" +:+ dq +:+ ":" +:+ dq +:+ emsg e +:+ dq +:+ "}")
             | Ok _ => accept
             end
         end
  else if (type =? authTypeBasic) then
    match parseBasicAuth (get "Authorization") with
    | None => deny "missing or malformed Basic auth credentials"
    | Some (username, password) =>
        if negb (username =? re_BasicUsername entry) || negb (password =? re_BasicPassword entry)
        then deny "invalid Basic auth credentials" else accept
    end
  else if (type =? authTypeIPAllowlist) then
    let ip := ParseIP (realClientIP r trustedProxies) in
    if existsb (ipEntryAllows ip) (re_IPAllowlist entry) then accept
    else Ret (Some (StatusForbidden, "source IP not in allowlist"))
  else if (type =? authTypeHeaderEquals) then
    if (re_HeaderEqualsHeader entry =? "") then deny "header-equals auth misconfigured: no header name"
    else
      let val := get (re_HeaderEqualsHeader entry) in
      if (val =? "") then deny "missing required header"
      else if negb (val =? re_HeaderEqualsValue entry) then deny "invalid header value" else accept
  else if (type =? "") then accept
  else deny "authentication type not implemented".

(** The reason code of a refused request. *)
Definition authFailureReason (authType msg : string) : string :=
  let rest := if (msg =? "authentication type not implemented") then "not_implemented" else "unknown" in
  if (authType =? authTypeHMAC) then
    if (msg =? "missing X-Hub-Signature-256 header") || (msg =? "missing X-Slack-Signature header") then "missing_signature"
    else if (msg =? "missing X-Slack-Request-Timestamp header") then "missing_timestamp"
    else if (msg =? "invalid X-Slack-Request-Timestamp header") then "invalid_timestamp"
    else if (msg =? "X-Slack-Request-Timestamp outside tolerance window") then "timestamp_out_of_tolerance"
    else if (msg =? authMsgHMACSignatureMismatch) then "invalid_signature"
    else rest
  else if (authType =? authTypeBearer) then
    if (msg =? "missing Authorization header") then "missing_token"
    else if (msg =? "invalid bearer token") then "invalid_token"
    else rest
  else if (authType =? authTypeAPIKey) then
    if (msg =? "missing API key header") then "missing_api_key"
    else if (msg =? "invalid API key") then "invalid_api_key"
    else rest
  else if (authType =? authTypeOIDC) then
    if Contains msg "missing Bearer token" then "missing_token" else "invalid_token"
  else if (authType =? authTypeBasic) then
    if (msg =? "missing or malformed Basic auth credentials") then "missing_credentials"
    else if (msg =? "invalid Basic auth credentials") then "invalid_credentials"
    else rest
  else if (authType =? authTypeIPAllowlist) then "ip_not_allowed"
  else if (authType =? authTypeHeaderEquals) then
    if (msg =? "header-equals auth misconfigured: no header name") then "misconfigured"
    else if (msg =? "missing required header") then "missing_header"
    else if (msg =? "invalid header value") then "invalid_header"
    else rest
  else rest.

(** ** What the handler reports to the access log ([accesslog.go])

    The fields are shared with the middleware by a pointer, nil when the handler
    is called without it; the setters ignore nil. *)

Definition authResultSuccess : string := "success".
Definition authResultFailure : string := "failure".
Definition authResultSkipped : string := "skipped".

Record accessLogFields := MkAccessLogFields {
  al_TraceID : string;
  al_SpanID : string;
  al_TriggerNamespace : string;
  al_AuthType : string;
  al_AuthResult : string;
  al_AuthReason : string;
  al_BodyBytes : Z;
  al_FlowRunCreated : bool;
  al_FlowRunName : string;
  al_FlowName : string
}.

Definition noAccessLogFields : accessLogFields := MkAccessLogFields "" "" "" "" "" "" 0 false "" "".

Definition setTrace (traceID spanID : string) (f : option accessLogFields) : option accessLogFields :=
  (λ f, MkAccessLogFields traceID spanID (al_TriggerNamespace f) (al_AuthType f) (al_AuthResult f) (al_AuthReason f)
     (al_BodyBytes f) (al_FlowRunCreated f) (al_FlowRunName f) (al_FlowName f)) <$> f.

Definition setTrigger (namespace authType : string) (f : option accessLogFields) : option accessLogFields :=
  (λ f, MkAccessLogFields (al_TraceID f) (al_SpanID f) namespace authType (al_AuthResult f) (al_AuthReason f)
     (al_BodyBytes f) (al_FlowRunCreated f) (al_FlowRunName f) (al_FlowName f)) <$> f.

Definition setAuthResult (result reason : string) (f : option accessLogFields) : option accessLogFields :=
  (λ f, MkAccessLogFields (al_TraceID f) (al_SpanID f) (al_TriggerNamespace f) (al_AuthType f) result reason
     (al_BodyBytes f) (al_FlowRunCreated f) (al_FlowRunName f) (al_FlowName f)) <$> f.

Definition setBodyBytes (n : Z) (f : option accessLogFields) : option accessLogFields :=
  (λ f, MkAccessLogFields (al_TraceID f) (al_SpanID f) (al_TriggerNamespace f) (al_AuthType f) (al_AuthResult f) (al_AuthReason f)
     n (al_FlowRunCreated f) (al_FlowRunName f) (al_FlowName f)) <$> f.

Definition setFlowRun (created : bool) (name flow : string) (f : option accessLogFields) : option accessLogFields :=
  (λ f, MkAccessLogFields (al_TraceID f) (al_SpanID f) (al_TriggerNamespace f) (al_AuthType f) (al_AuthResult f) (al_AuthReason f)
     (al_BodyBytes f) created name flow) <$> f.

(** ** [ServeHTTP] *)

Record WebhookHandler := MkWebhookHandler { trustedProxies : list IPNet; maxStoredBodyBytes : Z }.

Definition defaultMaxStoredBodyBytes : Z := 65536.

Definition NewWebhookHandler (proxies : list IPNet) (maxStored : Z) : WebhookHandler :=
  MkWebhookHandler proxies (if (maxStored <=? 0)%Z then defaultMaxStoredBodyBytes else maxStored).

(** Status code, and the error or the FlowRun name of the JSON reply. *)
Definition HTTPReply : Type := Z * string.

Definition maxBody : Z := Z.shiftl 4 20.

(** [cooldown.allow], under the tracker's mutex. *)
Definition cooldownAllow (path : string) (maxInvocations window : Z) : Prog GEv bool :=
  if (maxInvocations <=? 0)%Z then Ret true
  else
    let! ct := emit GCooldownLock in
    let! t := emit GNow in
    let '(ok, ct) := allow path maxInvocations window t ct in
    let! _ := emit (GCooldownUnlock ct) in
    Ret ok.

(** The part of the body that is stored, its encoding, and whether it was cut. *)
Definition storeBody (limit : Z) (body : string) (redactBody : bool) : string * string * bool :=
  let truncated := (limit <? Z.of_nat (slen body))%Z in
  let stored := if truncated then stake (Z.to_nat limit) body else body in
  let '(s, enc) := if utf8_Valid stored then (stored, "utf8") else (base64_Encode stored, "base64") in
  (redact_Body s redactBody, if redactBody then "utf8" else enc, truncated).

Definition traceAnnotations (tp ts : string) : gmap string string :=
  let m : gmap string string := if (tp =? "") then ∅ else {["kubezap.io/traceparent" := tp]} in
  if (ts =? "") then m else <["kubezap.io/tracestate" := ts]> m.

Definition buildFlowRun (h : WebhookHandler) (entry : RouteEntry) (r : Request) (body name : string)
    (annotations : gmap string string) : FlowRun :=
  let '(bodyString, bodyEncoding, bodyTruncated) := storeBody (maxStoredBodyBytes h) body (re_RedactBody entry) in
  MkFlowRun
    (MkMeta name (re_TriggerNamespace entry) "" 0 0
       (<["kubezap.io/trigger" := re_TriggerName entry]>
        (<["kubezap.io/trigger-type" := "webhook"]> {["kubezap.io/flow" := re_FlowRef entry]}))
       annotations [] 0 None)
    (MkFlowRunSpec (re_FlowRef entry) [] (Some (MkTriggerRef (re_TriggerName entry) "webhook"))
       (Some (MkTriggerData "" "" "" "" "" "webhook" (rq_Method r) (rq_Path r)
                (redact_Headers (rq_Header r) (re_RedactHeaders entry)) "" 0 0 "" "" None
                bodyString bodyTruncated bodyEncoding (HeaderGet (rq_Header r) "Content-Type")))
       None)
    (MkFlowRunStatus 0 PhaseEmpty [] None None [] "" None).

(** A reply, and the fields for the access log. *)
Definition Served : Type := HTTPReply * option accessLogFields.

(** After authentication and cooldown: create the FlowRun. *)
Definition acceptRequest (h : WebhookHandler) (entry : RouteEntry) (r : Request) (body : string)
    (alFields : option accessLogFields) : Prog GEv Served :=
  let! t := emit GNow in
  let! hex := emit (GRandomHex 8) in
  let flowRunName := re_TriggerName entry +:+ "-" +:+ Itoa (t / Second) +:+ "-" +:+ hex in
  let! tr := emit GTraceparent in
  let! c := emit (GCreateFlowRun (buildFlowRun h entry r body flowRunName (traceAnnotations tr.1 tr.2))) in
  match c with
  | Err e => match ekind_of e with
             | EKAlreadyExists => Ret ((StatusAccepted, flowRunName), setFlowRun true flowRunName (re_FlowRef entry) alFields)
             | _ => Ret ((500%Z, "unable to create FlowRun"), setFlowRun false "" "" alFields)
             end
  | Ok _ => Ret ((StatusAccepted, flowRunName), setFlowRun true flowRunName (re_FlowRef entry) alFields)
  end.

Definition serveRoute (h : WebhookHandler) (entry : RouteEntry) (r : Request) (alFields : option accessLogFields)
    : Prog GEv Served :=
  if negb (ToUpper (rq_Method r) =? re_AllowedMethod entry) then Ret ((405%Z, "method not allowed"), alFields)
  else match rq_Body r with
  | Err _ => Ret ((500%Z, "unable to read request body"), alFields)
  | Ok body =>
      let alFields := setBodyBytes (Z.min (Z.of_nat (slen body)) maxBody) alFields in
      if (maxBody <? Z.of_nat (slen body))%Z || (maxBody <? rq_ContentLength r)%Z
      then Ret ((413%Z, "request body exceeds maximum allowed size"), alFields)
      else
        let! a := authenticateRequest r body entry (trustedProxies h) in
        match a with
        | None => Ret ((500%Z, "internal server error"), alFields) (* the recovered panic *)
        | Some (authStatus, authMsg) =>
            if negb (authStatus =? StatusOK)%Z
            then Ret ((authStatus, authMsg), setAuthResult authResultFailure (authFailureReason (re_AuthType entry) authMsg) alFields)
            else
              let alFields := setAuthResult (if (re_AuthType entry =? "") then authResultSkipped else authResultSuccess) "" alFields in
              let! within :=
                if (0 <? re_MaxInvocations entry)%Z
                then cooldownAllow (rq_Path r) (re_MaxInvocations entry) (re_CooldownWindow entry)
                else Ret true in
              if negb within then Ret ((429%Z, "cooldown window exceeded"), alFields)
              else acceptRequest h entry r body alFields
        end
  end.

Definition ServeHTTP (h : WebhookHandler) (r : Request) (alFields : option accessLogFields) : Prog GEv Served :=
  let! sc := emit GSpanContext in
  let alFields := match sc with Some (traceID, spanID) => setTrace traceID spanID alFields | None => alFields end in
  let! reg := emit GRoutes in
  match Lookup (rq_Path r) reg with
  | None => Ret ((404%Z, "no trigger registered for this path"), alFields)
  | Some entry => serveRoute h entry r (setTrigger (re_TriggerNamespace entry) (re_AuthType entry) alFields)
  end.

End gateway.
