(* ===== verification/WebhookProps.v ===== *)
(** * Properties of the webhook gateway *)

From stdpp Require Import sorting.
From S2P Require Import Prelude SecretIndex GoStd Api Net Effects Ssrf Executor Webhook.

Local Open Scope string_scope.
Local Open Scope list_scope.
Local Open Scope go_scope.

Section auth.
  Context `{WebLib} `{NetLib}.

(** What the environment has answered: the clock readings, the key sets with
    the URL each was read from, and the registry that was looked at. *)
Record AuthGhost := MkAuthGhost {
  ag_clocks : list Z;
  ag_keys : list (string * KeySet);
  ag_registry : option RouteRegistry
}.

Definition no_answers : AuthGhost := MkAuthGhost [] [] None.

(** ** Where a request comes from

    Independently of [realClientIP]: the connection's peer, unless that is a
    trusted proxy.  Then it is the last of the last 32 hops listed in
    X-Forwarded-For that is not a trusted proxy, or the first of them if all
    are, or X-Real-IP if no hop is listed. *)

Definition trusted (proxies : list IPNet) (host : string) : Prop :=
  ∃ ip n, ParseIP host = Some ip ∧ n ∈ proxies ∧ in_net n ip.

Definition peer (r : Request) : string :=
  match SplitHostPort (rq_RemoteAddr r) with Ok (h, _) => h | Err _ => rq_RemoteAddr r end.

(** The non-empty hops, the nearest one first. *)
Definition hops (r : Request) : list string :=
  filter (λ h, h ≠ "") (TrimSpace <$> take 32 (rev (split_char "," (HeaderGet (rq_Header r) "X-Forwarded-For")))).

Definition real_ip (r : Request) : string := TrimSpace (HeaderGet (rq_Header r) "X-Real-IP").

Inductive client_address (proxies : list IPNet) (r : Request) : string → Prop :=
  | ca_peer : ¬ trusted proxies (peer r) → client_address proxies r (peer r)
  | ca_hop near h far : trusted proxies (peer r) → hops r = near ++ h :: far →
      Forall (trusted proxies) near → ¬ trusted proxies h → client_address proxies r h
  | ca_farthest near h : trusted proxies (peer r) → hops r = near ++ [h] →
      Forall (trusted proxies) (hops r) → client_address proxies r h
  | ca_real_ip : trusted proxies (peer r) → hops r = [] → real_ip r ≠ "" →
      client_address proxies r (real_ip r)
  | ca_no_header : trusted proxies (peer r) → hops r = [] → real_ip r = "" →
      client_address proxies r (peer r).

(** An entry of the allowlist is a range or a single address. *)
Definition allowlisted (allowlist : list string) (client : string) : Prop :=
  ∃ addr c, ParseIP client = Some addr ∧ c ∈ allowlist ∧
    ((∃ n, ParseCIDR c = Some n ∧ in_net n addr) ∨ (ParseCIDR c = None ∧ ParseIP c = Some addr)).

Lemma isTrustedProxy_spec host proxies : isTrustedProxy host proxies = true ↔ trusted proxies host.
Proof.
  unfold isTrustedProxy, trusted. destruct (ParseIP host) as [ip|]; [|split; [done|naive_solver]].
  rewrite existsb_exists. setoid_rewrite <- list_elem_of_In. setoid_rewrite IPNet_Contains_spec. naive_solver.
Qed.

Lemma not_trusted host proxies : isTrustedProxy host proxies = false → ¬ trusted proxies host.
Proof. intros Hf. rewrite <- isTrustedProxy_spec. by rewrite Hf. Qed.

(** The walk stops at the first hop that is not a trusted proxy. *)
Lemma walkForwarded_hops l proxies lm :
  let hs := filter (λ h, h ≠ "") (TrimSpace <$> l) in
  (∃ near h far, hs = near ++ h :: far ∧ Forall (trusted proxies) near ∧ ¬ trusted proxies h ∧
     walkForwarded l proxies lm = h) ∨
  (Forall (trusted proxies) hs ∧ walkForwarded l proxies lm = default lm (last hs)).
Proof.
  revert lm. induction l as [|e l IH]; intros lm; [by right|]. cbn zeta. rewrite fmap_cons. simpl.
  destruct (String.eqb_spec (TrimSpace e) "") as [He|He].
  { rewrite filter_cons_False by tauto. apply IH. }
  rewrite filter_cons_True by done. destruct (isTrustedProxy (TrimSpace e) proxies) eqn:Ht; simpl.
  - apply isTrustedProxy_spec in Ht. destruct (IH (TrimSpace e)) as [(near & h & far & -> & Hn & Hh & Hw)|[Hall Hw]].
    + left. exists (TrimSpace e :: near), h, far. split_and!; [done|by constructor|done|done].
    + right. split; [by constructor|]. rewrite Hw, last_cons. by destruct (last _).
  - left. eexists [], _, _. split_and!; [done|done|by apply not_trusted|done].
Qed.

Lemma client_address_unique proxies r a b : client_address proxies r a → client_address proxies r b → a = b.
Proof.
  assert (∀ near h far near' h' far', near ++ h :: far = near' ++ h' :: far' →
    Forall (trusted proxies) near → ¬ trusted proxies h → Forall (trusted proxies) near' → ¬ trusted proxies h' → h = h') as Hfirst.
  { induction near as [|x near IH]; intros h far [|y near'] h' far' [= -> Heq] Hn Hh Hn' Hh'; try done.
    - by apply Forall_inv in Hn'.
    - by apply Forall_inv in Hn.
    - apply Forall_inv_tail in Hn, Hn'. by eapply IH. }
  destruct 1 as [?|near h far ? Hh Hn Hu|near h ? Hh Hall|? Hh ?|? Hh ?];
    destruct 1 as [?|near' h' far' ? Hh' Hn' Hu'|near' h' ? Hh' Hall'|? Hh' ?|? Hh' ?]; try done.
  all: try (rewrite Hh in Hh'; by destruct near).
  all: try (rewrite Hh' in Hh; by destruct near').
  all: try (rewrite Hh in Hh').
  - by eapply Hfirst.
  - rewrite Hh in Hall'. apply Forall_app in Hall' as [_ Hx]. by apply Forall_inv in Hx.
  - rewrite Hh, Hh' in Hall. apply Forall_app in Hall as [_ Hx]. by apply Forall_inv in Hx.
  - by apply app_inj_tail in Hh' as [_ ->].
Qed.

Lemma realClientIP_spec r proxies a : client_address proxies r a ↔ realClientIP r proxies = a.
Proof.
  assert (client_address proxies r (realClientIP r proxies)) as Hr; [|by split; [apply client_address_unique|intros <-]].
  unfold realClientIP. fold (peer r). cbv zeta. fold (real_ip r).
  destruct (bool_decide_reflect (proxies = [])) as [->|_]; [apply ca_peer; intros (? & ? & _ & Hn & _); by apply not_elem_of_nil in Hn|].
  destruct (isTrustedProxy (peer r) proxies) eqn:Hp; simpl; [|by apply ca_peer, not_trusted].
  apply isTrustedProxy_spec in Hp. set (xff := HeaderGet (rq_Header r) "X-Forwarded-For").
  assert ((if (xff =? "") then "" else walkForwarded (take maxForwardedForHops (rev (split_char "," xff))) proxies "")
    = walkForwarded (take maxForwardedForHops (rev (split_char "," xff))) proxies "") as ->.
  { destruct (String.eqb_spec xff "") as [->|]; done. }
  pose proof (walkForwarded_hops (take 32 (rev (split_char "," xff))) proxies "") as Hw. cbv zeta in Hw.
  fold xff in Hw. change (filter (λ h, h ≠ "") (TrimSpace <$> take 32 (rev (split_char "," xff)))) with (hops r) in Hw.
  unfold maxForwardedForHops. assert (Forall (λ h, h ≠ "") (hops r)) as Hne.
  { unfold hops. apply Forall_forall. intros x Hx. by apply list_elem_of_filter in Hx as [? _]. }
  destruct Hw as [(near & h & far & Hh & Hn & Hu & ->)|[Hall ->]].
  - rewrite Hh in Hne. apply Forall_app in Hne as [_ Hx]. apply Forall_inv in Hx.
    rewrite (proj2 (String.eqb_neq _ _) Hx). by eapply ca_hop.
  - destruct (last (hops r)) as [h|] eqn:Hl; simpl.
    + apply last_Some in Hl as [near Hh]. rewrite Hh in Hne. apply Forall_app in Hne as [_ Hx]. apply Forall_inv in Hx.
      rewrite (proj2 (String.eqb_neq _ _) Hx). by eapply ca_farthest.
    + apply last_None in Hl. destruct (String.eqb_spec (real_ip r) "") as [He|He]; simpl.
      * by apply ca_no_header.
      * by apply ca_real_ip.
Qed.

Lemma ParseIP_To16 s ip : ParseIP s = Some ip → To16 ip = ip.
Proof.
  unfold ParseIP. intros ([x z] & _ & ->)%fmap_Some. unfold To16.
  destruct (Nat.eqb_spec (length x) 4) as [Hl|Hl]; [|by rewrite (proj2 (Nat.eqb_neq _ _) Hl)]. rewrite length_app, Hl. done.
Qed.

Lemma ipEntryAllows_spec allowlist client :
  existsb (ipEntryAllows (ParseIP client)) allowlist = true ↔ allowlisted allowlist client.
Proof.
  rewrite existsb_exists. setoid_rewrite <- list_elem_of_In. unfold ipEntryAllows, allowlisted, IP_Equal. split.
  - intros (c & Hin & Hc). destruct (ParseIP client) as [addr|] eqn:Ha.
    2: { destruct (ParseCIDR c); [done|]. by destruct (ParseIP c). }
    exists addr, c. split_and!; [done..|]. destruct (ParseCIDR c) as [n|]; [left; exists n; by rewrite <- IPNet_Contains_spec|].
    right. split; [done|]. destruct (ParseIP c) as [a|] eqn:Hc'; [|done]. apply bool_decide_eq_true in Hc.
    by rewrite (ParseIP_To16 _ _ Hc'), (ParseIP_To16 _ _ Ha) in Hc; subst.
  - intros (addr & c & -> & Hin & Hc). exists c. split; [done|]. destruct Hc as [(n & -> & Hn)|[-> ->]].
    + by apply IPNet_Contains_spec.
    + by apply bool_decide_eq_true.
Qed.

(** The signature schemes, credentials and addresses a route accepts. *)
Definition slack_signed (r : Request) (body secret : string) (tolerance : Z) (clocks : list Z) : Prop :=
  let tsHeader := HeaderGet (rq_Header r) "X-Slack-Request-Timestamp" in
  ∃ ts t, ParseInt tsHeader = Some ts ∧ t ∈ clocks ∧
    (- tolerance <= wrap64 (t / Second - ts) <= tolerance)%Z ∧
    HeaderGet (rq_Header r) "X-Slack-Signature"
      = "v0=" +:+ hmac_sha256_hex secret ("v0:" +:+ tsHeader +:+ ":" +:+ body).

Definition authorized (entry : RouteEntry) (r : Request) (body : string) (proxies : list IPNet)
    (g : AuthGhost) : Prop :=
  let get := HeaderGet (rq_Header r) in
  let type := re_AuthType entry in
  if (type =? "hmac") then
    if (re_HMACProvider entry =? "slack") then
      slack_signed r body (re_HMACSecret entry)
        (if (re_HMACTimestampToleranceSec entry <=? 0)%Z then 300%Z else re_HMACTimestampToleranceSec entry)
        (ag_clocks g)
    else get "X-Hub-Signature-256" = "sha256=" +:+ hmac_sha256_hex (re_HMACSecret entry) body
  else if (type =? "bearer") then get "Authorization" = "Bearer " +:+ re_BearerToken entry
  else if (type =? "apiKey") then
    get (if (re_APIKeyHeader entry =? "") then "X-Api-Key" else re_APIKeyHeader entry) = re_APIKey entry ∧ re_APIKey entry ≠ ""
  else if (type =? "oidc") then
    ∃ v token ks, re_OIDCValidator entry = Some v ∧ get "Authorization" = "Bearer " +:+ token ∧
      (ov_jwksURL v, ks) ∈ ag_keys g ∧ jwt_Parse ks (orNone (ov_issuer v)) (orNone (ov_audience v)) token = Ok tt
  else if (type =? "basic") then
    parseBasicAuth (get "Authorization") = Some (re_BasicUsername entry, re_BasicPassword entry)
  else if (type =? "ipAllowlist") then
    ∃ client, client_address proxies r client ∧ allowlisted (re_IPAllowlist entry) client
  else if (type =? "header-equals") then
    re_HeaderEqualsHeader entry ≠ "" ∧ get (re_HeaderEqualsHeader entry) = re_HeaderEqualsValue entry ∧
    re_HeaderEqualsValue entry ≠ ""
  else type = "".

(** The requests authentication makes, and the FlowRun creation guarded by it. *)
Definition gate_spec (create : AuthGhost → FlowRun → Prop) : Spec GEv AuthGhost := λ X e g Q,
  match e in GEv X' return (X' → AuthGhost → Prop) → Prop with
  | GNow => λ Q, ∀ t, Q t (MkAuthGhost (t :: ag_clocks g) (ag_keys g) (ag_registry g))
  | GJwksGet url => λ Q, ∀ x, Q x (match x with
      | Ok ks => MkAuthGhost (ag_clocks g) ((url, ks) :: ag_keys g) (ag_registry g) | Err _ => g end)
  | GJwksRefresh url => λ Q, ∀ x, Q x (match x with
      | Ok ks => MkAuthGhost (ag_clocks g) ((url, ks) :: ag_keys g) (ag_registry g) | Err _ => g end)
  | GRoutes => λ Q, ∀ reg, Q reg (MkAuthGhost (ag_clocks g) (ag_keys g) (Some reg))
  | GCooldownLock => λ Q, ∀ x, Q x g
  | GCooldownUnlock _ => λ Q, ∀ x, Q x g
  | GRandomHex _ => λ Q, ∀ x, Q x g
  | GTraceparent => λ Q, ∀ x, Q x g
  | GSpanContext => λ Q, ∀ x, Q x g
  | GCreateFlowRun fr => λ Q, create g fr ∧ ∀ x, Q x g
  | _ => λ _, False
  end Q.

#[export] Instance gate_spec_mono create : MonoSpec (gate_spec create).
Proof.
  intros X e g P Q HPQ Hs. destruct e; simpl in *; try done; try (intros; by apply HPQ, Hs).
  destruct Hs as [? Hs]. split; [done|]. intros; by apply HPQ, Hs.
Qed.

(** The ghost only grows. *)
Definition ghost_le (a b : AuthGhost) : Prop :=
  (∀ t, t ∈ ag_clocks a → t ∈ ag_clocks b) ∧ (∀ k, k ∈ ag_keys a → k ∈ ag_keys b) ∧
  ag_registry b = ag_registry a.

Lemma authorized_mono entry r body proxies a b :
  ghost_le a b → authorized entry r body proxies a → authorized entry r body proxies b.
Proof.
  intros (Hc & Hk & _). unfold authorized, slack_signed. cbv zeta.
  repeat match goal with |- context [if ?b then _ else _] => destruct b end; try done.
  1,2: intros (ts & t & ? & ? & ? & ?); exists ts, t; auto.
  intros (v & tok & ks & ? & ? & ? & ?). exists v, tok, ks. auto.
Qed.

Lemma HasPrefix_TrimPrefix s p : HasPrefix s p = true → s = p +:+ TrimPrefix s p.
Proof. intros (r & ->)%HasPrefix_spec. by rewrite TrimPrefix_app. Qed.

Lemma wp_verifySlack create r body secret tol g reg :
  ag_clocks g = [] → ag_registry g = reg →
  wp (gate_spec create) (verifySlackHMAC r body secret tol) g
    (λ '(code, _) g', (code = StatusOK ↔ slack_signed r body secret
        (if (tol <=? 0)%Z then 300%Z else tol) (ag_clocks g')) ∧ ag_registry g' = reg).
Proof.
  intros Hc Hreg. unfold verifySlackHMAC, slack_signed. cbv zeta.
  set (sg := HeaderGet _ "X-Slack-Signature"). set (th := HeaderGet _ "X-Slack-Request-Timestamp").
  set (tl := if (tol <=? 0)%Z then 300%Z else tol).
  destruct (String.eqb_spec sg "") as [Hs|Hs].
  { split; [|done]. split; [done|]. intros (ts & t & _ & _ & _ & Hsig). rewrite Hs in Hsig. done. }
  destruct (String.eqb_spec th "") as [Ht|Ht].
  { split; [|done]. split; [done|]. intros (ts & t & Hp & _). rewrite Ht in Hp. done. }
  destruct (ParseInt th) as [ts|] eqn:Hp.
  2: { split; [|done]. split; [done|]. by intros (ts & t & Hp' & _). }
  apply wp_bind; [apply _|]. intros t. cbn [wp]. cbv zeta. set (age := wrap64 (t / Second - ts)).
  destruct (Z.ltb_spec tl age) as [Ha|Ha]; cbn [orb].
  { split; [|done]. split; [done|]. rewrite Hc. intros (ts' & t' & [= <-] & ->%list_elem_of_singleton & Hr & _).
    fold age in Hr. lia. }
  destruct (Z.ltb_spec age (- tl)) as [Hb|Hb].
  { split; [|done]. split; [done|]. rewrite Hc. intros (ts' & t' & [= <-] & ->%list_elem_of_singleton & Hr & _).
    fold age in Hr. lia. }
  destruct (String.eqb_spec sg ("v0=" +:+ hmac_sha256_hex secret ("v0:" +:+ th +:+ ":" +:+ body))) as [He|He];
    cbn [negb wp].
  - split; [|done]. split; [|done]. intros _. exists ts, t. split; [done|]. split; [by left|]. split; [fold age; lia|done].
  - split; [|done]. split; [done|]. by intros (ts' & t' & _ & _ & _ & ?).
Qed.

Lemma wp_oidc create v token g reg :
  ag_keys g = [] → ag_registry g = reg →
  wp (gate_spec create) (oidc_validate v token) g
    (λ x g', (x = Ok tt ↔ ∃ ks, (ov_jwksURL v, ks) ∈ ag_keys g' ∧
                jwt_Parse ks (orNone (ov_issuer v)) (orNone (ov_audience v)) token = Ok tt) ∧
             ag_registry g' = reg).
Proof.
  intros Hk Hreg. unfold oidc_validate. cbv zeta. apply wp_bind; [apply _|]. intros [ks|e]; cbn [wp].
  2: { split; [|done]. split; [done|]. rewrite Hk. by intros (ks & Hks%not_elem_of_nil & _). }
  set (p := λ ks, jwt_Parse ks (orNone (ov_issuer v)) (orNone (ov_audience v)) token).
  change (jwt_Parse ks (orNone (ov_issuer v)) (orNone (ov_audience v)) token) with (p ks).
  destruct (p ks) as [[]|err] eqn:Hp; cbn [wp].
  { split; [|done]. split; [|done]. intros _. exists ks. split; [by left|done]. }
  apply wp_bind; [apply _|]. intros [fs|e]; cbn [wp].
  - change (jwt_Parse fs (orNone (ov_issuer v)) (orNone (ov_audience v)) token) with (p fs).
    destruct (p fs) as [[]|err'] eqn:Hf; cbn [wp].
    + split; [|done]. split; [|done]. intros _. exists fs. split; [by left|done].
    + split; [|done]. split; [done|]. simpl. rewrite Hk.
      intros (ks' & Hin & Hok). apply elem_of_cons in Hin as [[= ->]|Hin]; [by fold (p fs) in Hok; rewrite Hf in Hok|].
      apply list_elem_of_singleton in Hin as [= ->]. fold (p ks) in Hok. by rewrite Hp in Hok.
  - split; [|done]. split; [done|]. simpl. rewrite Hk.
    intros (ks' & [= ->]%list_elem_of_singleton & Hok). fold (p ks) in Hok. by rewrite Hp in Hok.
Qed.

(** The status an answer leads to: a panic is recovered as a 500. *)
Definition answeredStatus (a : AuthAnswer) : Z := match a with Some (code, _) => code | None => 500 end.

(** The OIDC branch: a Bearer token that one of the key sets read verifies. *)
Lemma wp_bearer_oidc create ah (validator : option oidcValidator) (m1 : string) (m2 : gerr → string) g reg :
  ag_keys g = [] → ag_registry g = reg →
  wp (gate_spec create)
    (if (ah =? "") || negb (HasPrefix ah "Bearer ") then Ret (Some (StatusUnauthorized, m1))
     else match validator with
          | None => Ret None
          | Some v => let! x := oidc_validate v (TrimPrefix ah "Bearer ") in
                      match x with Err e => Ret (Some (StatusUnauthorized, m2 e)) | Ok _ => Ret (Some (StatusOK, "")) end
          end) g
    (λ a g', (answeredStatus a = StatusOK ↔ ∃ v tok ks, validator = Some v ∧ ah = "Bearer " +:+ tok ∧ (ov_jwksURL v, ks) ∈ ag_keys g' ∧
        jwt_Parse ks (orNone (ov_issuer v)) (orNone (ov_audience v)) tok = Ok tt) ∧ ag_registry g' = reg).
Proof.
  intros Hk Hreg. destruct (String.eqb_spec ah "") as [Ha|Ha]; cbn [orb].
  { split; [|done]. split; [done|]. intros (v & tok & ks & _ & He & _). rewrite Ha in He. done. }
  destruct (HasPrefix ah "Bearer ") eqn:Hp; cbn [negb].
  2: { split; [|done]. split; [done|]. intros (v & tok & ks & _ & He & _).
       assert (HasPrefix ah "Bearer " = true) by (apply HasPrefix_spec; eauto). congruence. }
  destruct validator as [v|].
  2: { split; [|done]. split; [done|]. by intros (v & tok & ks & ? & _). }
  apply wp_bind; [apply _|]. eapply wp_mono; [apply _| |by apply wp_oidc].
  intros x g' [Hiff Hr']. pose proof (HasPrefix_TrimPrefix _ _ Hp) as Hah.
  assert (authz : (∃ v0 tok ks, Some v = Some v0 ∧ ah = "Bearer " +:+ tok ∧ (ov_jwksURL v0, ks) ∈ ag_keys g' ∧
            jwt_Parse ks (orNone (ov_issuer v0)) (orNone (ov_audience v0)) tok = Ok tt) ↔ x = Ok tt).
  { rewrite Hiff. split.
    - intros (v0 & tok & ks & [= <-] & He & Hin & Hj). exists ks. split; [done|].
      rewrite He, TrimPrefix_app. done.
    - intros (ks & Hin & Hj). exists v, (TrimPrefix ah "Bearer "), ks. done. }
  destruct x as [[]|e]; cbn [wp]; split; try done; rewrite authz; done.
Qed.

(** Authentication answers 200 exactly for the authorized requests. *)
Lemma wp_authenticate create r body entry proxies g reg :
  ag_clocks g = [] → ag_keys g = [] → ag_registry g = reg →
  wp (gate_spec create) (authenticateRequest r body entry proxies) g
    (λ a g', (answeredStatus a = StatusOK ↔ authorized entry r body proxies g') ∧ ag_registry g' = reg).
Proof.
  intros Hc Hk Hreg. unfold authenticateRequest, authorized, authTypeHMAC, authTypeBearer, authTypeAPIKey,
    authTypeOIDC, authTypeBasic, authTypeIPAllowlist, authTypeHeaderEquals. cbv zeta.
  destruct (re_AuthType entry =? "hmac").
  { destruct (re_HMACProvider entry =? "slack"); [apply wp_bind; [apply _|]; eapply wp_mono; [apply _| |by apply wp_verifySlack]; by intros [code msg] g'|].
    destruct (String.eqb_spec (HeaderGet (rq_Header r) "X-Hub-Signature-256") "") as [->|]; [by split|].
    destruct (String.eqb_spec (HeaderGet (rq_Header r) "X-Hub-Signature-256")
      ("sha256=" +:+ hmac_sha256_hex (re_HMACSecret entry) body)); by split. }
  destruct (re_AuthType entry =? "bearer").
  { destruct (String.eqb_spec (HeaderGet (rq_Header r) "Authorization") "") as [->|]; [by split|].
    destruct (String.eqb_spec (HeaderGet (rq_Header r) "Authorization") ("Bearer " +:+ re_BearerToken entry)); by split. }
  destruct (re_AuthType entry =? "apiKey").
  { unfold orDefault. set (hdr := if (re_APIKeyHeader entry =? "") then "X-Api-Key" else re_APIKeyHeader entry).
    set (val := HeaderGet _ hdr). destruct (String.eqb_spec val "") as [Hv|Hv].
    - split; [|done]. split; [done|]. intros [He Hne]. congruence.
    - destruct (String.eqb_spec val (re_APIKey entry)) as [He|He]; split; try done; split; try done; try tauto.
      intros _. split; congruence. }
  destruct (re_AuthType entry =? "oidc"); [by apply (wp_bearer_oidc _ _ _ _ (λ e, _))|].
  destruct (re_AuthType entry =? "basic").
  { destruct (parseBasicAuth _) as [[u p]|]; [|by split].
    destruct (String.eqb_spec u (re_BasicUsername entry)) as [->|Hu]; cbn [negb orb].
    - destruct (String.eqb_spec p (re_BasicPassword entry)) as [->|Hp]; cbn [negb];
        split; try done; split; try done. by intros [= ?].
    - split; [|done]. split; [done|]. by intros [= ? ?]. }
  destruct (re_AuthType entry =? "ipAllowlist").
  { destruct (existsb _ _) eqn:Hx; split; try done; split; try done.
    - intros _. eexists. split; [by apply realClientIP_spec|]. by apply ipEntryAllows_spec.
    - intros (client & Hca%realClientIP_spec & Ha%ipEntryAllows_spec). rewrite Hca, Ha in Hx. done. }
  destruct (re_AuthType entry =? "header-equals").
  { destruct (String.eqb_spec (re_HeaderEqualsHeader entry) "") as [Hn|Hn]; [split; [|done]; split; [done|tauto]|].
    set (val := HeaderGet _ _). destruct (String.eqb_spec val "") as [Hv|Hv].
    - split; [|done]. split; [done|]. intros (_ & He & Hne). congruence.
    - destruct (String.eqb_spec val (re_HeaderEqualsValue entry)) as [He|He]; split; try done; split; try done; try tauto.
      intros _. split; [done|]. split; congruence. }
  destruct (String.eqb_spec (re_AuthType entry) "") as [->|Hne]; split; done.
Qed.

(** C12: [authenticateRequest] answers 200 exactly when the request satisfies the
    route's scheme: an HMAC of the body under the route's secret (for Slack,
    over the timestamped body with a timestamp within the tolerance of the
    clock), the configured token, key, header value or Basic credentials, a
    token verified by keys read from the configured key URL with the configured
    issuer and audience, or a client address that is an entry of the allowlist
    or in one of its ranges, where X-Forwarded-For and X-Real-IP only count when
    the peer is a trusted proxy ([client_address]).  A route without
    authentication accepts; an unknown scheme is refused.  It makes no request
    but clock readings and key fetches. *)
Theorem authenticateRequest_exact r body entry proxies :
  wp (gate_spec (λ _ _, False)) (authenticateRequest r body entry proxies) no_answers
    (λ a g, answeredStatus a = StatusOK ↔ authorized entry r body proxies g).
Proof.
  eapply wp_mono; [apply _| |by apply (wp_authenticate _ r body entry proxies no_answers None)].
  intros a g [Hiff _]. exact Hiff.
Qed.

(** ** The handler *)

(** The header names whose values are never stored: the documented built-in
    list and what the Trigger adds, in any letter case. *)
Definition sensitive (entry : RouteEntry) (k : string) : Prop :=
  ∃ n, ToLower n = ToLower k ∧
    (n ∈ ["Authorization"; "X-Api-Key"; "X-Webhook-Secret"; "X-Hub-Signature"; "X-Hub-Signature-256";
          "X-Amz-Security-Token"; "Cookie"; "Set-Cookie"; "X-Auth-Token"; "Proxy-Authorization"] ∨
     n ∈ re_RedactHeaders entry).

(** The FlowRun a route prescribes for a request with body [body]. *)
Record prescribed (limit : Z) (entry : RouteEntry) (r : Request) (body : string) (fr : FlowRun) : Prop := {
  pb_namespace : m_Namespace (fr_Meta fr) = re_TriggerNamespace entry;
  pb_name : ∃ suffix, m_Name (fr_Meta fr) = re_TriggerName entry +:+ "-" +:+ suffix;
  pb_labels : ∀ k v, m_Labels (fr_Meta fr) !! k = Some v ↔
    (k = "kubezap.io/trigger" ∧ v = re_TriggerName entry) ∨
    (k = "kubezap.io/trigger-type" ∧ v = "webhook") ∨ (k = "kubezap.io/flow" ∧ v = re_FlowRef entry);
  pb_flow : frs_FlowRef (fr_Spec fr) = re_FlowRef entry;
  pb_trigger : frs_TriggerRef (fr_Spec fr) = Some (MkTriggerRef (re_TriggerName entry) "webhook");
  pb_new : fr_Status fr = MkFlowRunStatus 0 PhaseEmpty [] None None [] "" None;
  pb_data : ∃ td, frs_TriggerData (fr_Spec fr) = Some td ∧
    td_Method td = rq_Method r ∧ td_Path td = rq_Path r ∧
    (∀ k, td_Headers td !! k = None ↔ rq_Header r !! k = None) ∧
    (∀ k, sensitive entry k → is_Some (rq_Header r !! k) → td_Headers td !! k = Some "[REDACTED]") ∧
    (∀ k vals, ¬ sensitive entry k → rq_Header r !! k = Some vals → td_Headers td !! k = Some (Join vals ",")) ∧
    (td_BodyTruncated td = true ↔ (limit < Z.of_nat (slen body))%Z) ∧
    (re_RedactBody entry = true → td_Body td = "[REDACTED]") ∧
    (re_RedactBody entry = false → ∃ kept rest, body = kept +:+ rest ∧
       (td_BodyTruncated td = false → kept = body) ∧
       (td_BodyTruncated td = true → slen kept = Z.to_nat limit) ∧
       (td_BodyEncoding td = "utf8" ∧ td_Body td = kept ∨
        td_BodyEncoding td = "base64" ∧ td_Body td = base64_Encode kept))
}.

Lemma toRedact_sensitive entry k : toRedact (re_RedactHeaders entry) k = true ↔ sensitive entry k.
Proof.
  unfold toRedact, sensitive. rewrite existsb_exists. setoid_rewrite <- list_elem_of_In.
  setoid_rewrite String.eqb_eq. setoid_rewrite elem_of_app.
  assert (∀ n, n ∈ BuiltInHeaders ↔ n ∈ ["Authorization"; "X-Api-Key"; "X-Webhook-Secret"; "X-Hub-Signature";
    "X-Hub-Signature-256"; "X-Amz-Security-Token"; "Cookie"; "Set-Cookie"; "X-Auth-Token"; "Proxy-Authorization"]) as Hb.
  { intros n. unfold BuiltInHeaders. rewrite !elem_of_cons, !elem_of_nil. tauto. }
  setoid_rewrite Hb. naive_solver.
Qed.

Lemma slen_stake (n : nat) s : (n <= slen s)%nat → slen (stake n s) = n.
Proof. revert s. induction n as [|n IH]; intros [|c s]; simpl; try lia. intros. by rewrite IH by lia. Qed.

Lemma storeBody_spec limit body redact :
  let '(s, enc, truncated) := storeBody limit body redact in
  (truncated = true ↔ (limit < Z.of_nat (slen body))%Z) ∧
  (redact = true → s = "[REDACTED]") ∧
  (redact = false → ∃ kept rest, body = kept +:+ rest ∧
     (truncated = false → kept = body) ∧ (truncated = true → slen kept = Z.to_nat limit) ∧
     (enc = "utf8" ∧ s = kept ∨ enc = "base64" ∧ s = base64_Encode kept)).
Proof.
  unfold storeBody, redact_Body. cbv zeta. destruct (Z.ltb_spec limit (Z.of_nat (slen body))) as [Hl|Hl].
  - set (kept := stake (Z.to_nat limit) body). assert (slen kept = Z.to_nat limit) as Hk by (apply slen_stake; lia).
    assert (body = kept +:+ sdrop (Z.to_nat limit) body) as Hb by (by unfold kept; rewrite stake_sdrop).
    destruct (utf8_Valid kept); (split; [done|]); (split; [by intros ->|]); intros ->;
      exists kept, (sdrop (Z.to_nat limit) body); (split; [exact Hb|]); (split; [done|split; [done|auto]]).
  - destruct (utf8_Valid body); (split; [split; [done|lia]|]); (split; [by intros ->|]); intros ->;
      exists body, ""; rewrite string_app_nil_r; (split; [done|split; [done|split; [done|auto]]]).
Qed.

Lemma buildFlowRun_prescribed h entry r body suffix ann :
  prescribed (maxStoredBodyBytes h) entry r body (buildFlowRun h entry r body (re_TriggerName entry +:+ "-" +:+ suffix) ann).
Proof.
  pose proof (storeBody_spec (maxStoredBodyBytes h) body (re_RedactBody entry)) as Hs.
  unfold buildFlowRun. destruct (storeBody _ _ _) as [[s enc] tr]. destruct Hs as (Ht & Hr & Hk).
  constructor; simpl; try done; [by eexists| |].
  - intros k v. rewrite !lookup_insert_Some, lookup_singleton_Some. naive_solver.
  - eexists. split; [done|]. simpl. split_and!; try done; unfold redact_Headers.
    + intros k. rewrite map_lookup_imap. by destruct (rq_Header r !! k).
    + intros k Hk' [vals Hv]. rewrite map_lookup_imap, Hv. simpl. by rewrite (proj2 (toRedact_sensitive _ _) Hk').
    + intros k vals Hk' Hv. rewrite map_lookup_imap, Hv. simpl.
      destruct (toRedact (re_RedactHeaders entry) k) eqn:Hk2; [by apply toRedact_sensitive in Hk2|done].
Qed.

(** A FlowRun may be created for a request: its route is registered, its
    method, size and credentials were checked, and the object is the one the
    route prescribes. *)
Definition may_create (h : WebhookHandler) (r : Request) (g : AuthGhost) (fr : FlowRun) : Prop :=
  ∃ reg entry body,
    ag_registry g = Some reg ∧ Lookup (rq_Path r) reg = Some entry ∧
    ToUpper (rq_Method r) = re_AllowedMethod entry ∧
    rq_Body r = Ok body ∧ (Z.of_nat (slen body) <= 4 * 1024 * 1024)%Z ∧
    authorized entry r body (trustedProxies h) g ∧
    prescribed (maxStoredBodyBytes h) entry r body fr.

Lemma wp_acceptRequest h entry r body f g (create : AuthGhost → FlowRun → Prop) :
  (∀ g' suffix ann, ghost_le g g' →
     create g' (buildFlowRun h entry r body (re_TriggerName entry +:+ "-" +:+ suffix) ann)) →
  wp (gate_spec create) (acceptRequest h entry r body f) g (λ _ _, True).
Proof.
  intros Hc. unfold acceptRequest. apply wp_bind; [apply _|]. intros t. cbn [wp].
  apply wp_bind; [apply _|]. intros hex. cbn [wp]. cbv zeta. apply wp_bind; [apply _|]. intros tr. cbn [wp].
  apply wp_bind; [apply _|]. split.
  - apply Hc. split; [|done]. intros t' Ht. by right.
  - intros [[]|e]; cbn [wp]; [done|]. by destruct (ekind_of e).
Qed.

(** C13: the gateway creates a FlowRun only for a request whose path is
    registered, whose method is the route's, whose body is at most 4 MiB and
    which is authorized for that route.  The FlowRun is a new run of the route's
    Flow in the Trigger's namespace, labelled with and referring to the Trigger
    ([prescribed]); the values of the documented sensitive headers and of those
    the Trigger lists are replaced by the placeholder, the other headers and the
    body are stored as sent (the body cut at the configured size, in base64 if
    it is not UTF-8), and the body is the placeholder if the Trigger says so. *)
Theorem ServeHTTP_creates_only_authorized h r alFields :
  wp (gate_spec (may_create h r)) (ServeHTTP h r alFields) no_answers (λ _ _, True).
Proof.
  unfold ServeHTTP. apply wp_bind; [apply _|]. intros sc. cbn [wp]. apply wp_bind; [apply _|]. intros reg. cbn [wp].
  destruct (Lookup (rq_Path r) reg) as [entry|] eqn:Hl; [|done]. unfold serveRoute.
  destruct (String.eqb_spec (ToUpper (rq_Method r)) (re_AllowedMethod entry)) as [Hm|]; [|done]. cbn [negb].
  destruct (rq_Body r) as [body|] eqn:Hb; [|done].
  destruct (Z.ltb_spec maxBody (Z.of_nat (slen body))) as [|Hsz]; [done|]. cbn [orb].
  destruct (_ <? _)%Z; [done|]. apply wp_bind; [apply _|].
  eapply wp_mono; [apply _| |by apply (wp_authenticate _ _ _ _ _ _ (Some reg))].
  intros [[code msg]|] g [Hiff Hreg]; [|done]. cbn [answeredStatus] in Hiff. destruct (Z.eqb_spec code StatusOK) as [Hok|]; [|done]. cbn [negb].
  apply Hiff in Hok.
  assert (∀ f g', ghost_le g g' → wp (gate_spec (may_create h r)) (acceptRequest h entry r body f) g' (λ _ _, True)) as Hacc.
  { intros f g' Hle. apply wp_acceptRequest. intros g2 suffix ann Hle2.
    exists reg, entry, body. split; [by rewrite (proj2 (proj2 Hle2)), (proj2 (proj2 Hle))|].
    do 4 (split; [done|]). split; [|apply buildFlowRun_prescribed].
    eapply authorized_mono; [exact Hle2|]. by eapply authorized_mono. }
  apply wp_bind; [apply _|]. destruct (_ <? _)%Z; [|by apply Hacc].
  unfold cooldownAllow. destruct (_ <=? _)%Z; [by apply Hacc|].
  apply wp_bind; [apply _|]. intros ct. cbn [wp]. apply wp_bind; [apply _|]. intros t. cbn [wp].
  destruct (allow _ _ _ _ _) as [ok ct']. apply wp_bind; [apply _|]. intros []. cbn [wp].
  destruct ok; [|done]. apply Hacc. split; [|done]. intros t' Ht. by right.
Qed.

End auth.

(** ** Redaction *)

(** The stored headers depend only on the names of the headers and on the
    values of those that are neither built-in sensitive names nor listed by the
    Trigger, in any letter case: two requests that differ only in credentials
    carried there are stored identically. *)
Theorem redact_Headers_hides extra h1 h2 :
  dom h1 = dom h2 →
  (∀ k, toRedact extra k = false → h1 !! k = h2 !! k) →
  redact_Headers h1 extra = redact_Headers h2 extra.
Proof.
  intros Hd Hk. apply map_eq. intros k. unfold redact_Headers. rewrite !map_lookup_imap.
  destruct (toRedact extra k) eqn:Ht; [|by rewrite Hk].
  assert (is_Some (h1 !! k) ↔ is_Some (h2 !! k)) as Hs by (rewrite <- !elem_of_dom, Hd; done).
  destruct (h1 !! k), (h2 !! k); simpl; try done; [|]; exfalso.
  - by apply (is_Some_None (A := list string)), Hs.
  - by apply (is_Some_None (A := list string)), Hs.
Qed.

Lemma redact_Headers_hides_witness :
  redact_Headers {["Authorization" := ["Bearer a"]]} [] = redact_Headers {["Authorization" := ["Bearer b"]]} [].
Proof.
  apply (redact_Headers_hides [] {["Authorization" := ["Bearer a"]]} {["Authorization" := ["Bearer b"]]});
    [vm_compute; reflexivity|].
  intros k Hk. destruct (decide (k = "Authorization")) as [->|Hne]; [vm_compute in Hk; discriminate|].
  rewrite !lookup_singleton_ne by congruence. reflexivity.
Defined.

(** The credential of a [header-equals] or [apiKey] route is stored in the
    clear when its header name is not one of the built-in names (nor listed in
    [redactHeaders]): the FlowRun created for the request that presented it
    carries the value. *)
Theorem custom_auth_header_persisted `{WebLib} h entry r body name ann key secret :
  toRedact (re_RedactHeaders entry) (CanonicalHeaderKey key) = false →
  rq_Header r !! CanonicalHeaderKey key = Some [secret] →
  (td_Headers <$> frs_TriggerData (fr_Spec (buildFlowRun h entry r body name ann)))
    ≫= lookup (CanonicalHeaderKey key) = Some secret.
Proof.
  intros Ht Hk. unfold buildFlowRun. destruct (storeBody _ _ _) as [[bs enc] tr]. simpl.
  unfold redact_Headers. rewrite map_lookup_imap, Hk. simpl. by rewrite Ht.
Qed.

(** ** The client address *)

(** Some entry of the walk is a usable address that is not a trusted proxy. *)
Definition has_client (entries : list string) (proxies : list IPNet) : bool :=
  existsb (λ e, negb (TrimSpace e =? "") && negb (isTrustedProxy (TrimSpace e) proxies)) entries.

Lemma walkForwarded_app a b proxies lm :
  has_client a proxies = true → walkForwarded (a ++ b) proxies lm = walkForwarded a proxies lm.
Proof.
  unfold has_client. revert lm. induction a as [|e a IH]; intros lm Hc; simpl in *; [done|].
  destruct (TrimSpace e =? ""); simpl in *; [by apply IH|].
  destruct (isTrustedProxy (TrimSpace e) proxies); simpl in *; [by apply IH|done].
Qed.

Definition with_header (k : string) (v : list string) (r : Request) : Request :=
  MkRequest (rq_Method r) (rq_Path r) (rq_RemoteAddr r) (<[k := v]> (rq_Header r)) (rq_Body r) (rq_ContentLength r).

Lemma HeaderGet_insert h v :
  HeaderGet (<["X-Forwarded-For" := [v]]> h) "X-Forwarded-For" = v.
Proof. unfold HeaderGet. change (CanonicalHeaderKey "X-Forwarded-For") with "X-Forwarded-For". by rewrite lookup_insert_eq. Qed.

Lemma walkForwarded_nonempty a proxies lm :
  has_client a proxies = true → walkForwarded a proxies lm ≠ "".
Proof.
  unfold has_client. revert lm. induction a as [|e a IH]; intros lm Hc; simpl in *; [done|].
  destruct (String.eqb_spec (TrimSpace e) "") as [|Hne]; simpl in *; [by apply IH|].
  destruct (isTrustedProxy (TrimSpace e) proxies); simpl in *; [by apply IH|done].
Qed.

(** What a client puts in front of the X-Forwarded-For list cannot change
    the address it is taken for: if the entries its proxies appended ([seen])
    contain an address that is not a trusted proxy, the result is the one for
    [seen] alone, whatever [forged] is. *)
Theorem realClientIP_forged_prefix r proxies forged seen :
  has_client (take maxForwardedForHops (rev (split_char "," seen))) proxies = true →
  realClientIP (with_header "X-Forwarded-For" [forged +:+ "," +:+ seen] r) proxies
  = realClientIP (with_header "X-Forwarded-For" [seen] r) proxies.
Proof.
  intros Hc. unfold realClientIP. cbn [rq_RemoteAddr rq_Header with_header].
  destruct (_ || _); [done|]. rewrite !HeaderGet_insert.
  assert (seen ≠ "") as Hs.
  { intros ->. vm_compute in Hc. done. }
  assert (forged +:+ "," +:+ seen ≠ "") as Hf by (by destruct forged).
  rewrite (proj2 (String.eqb_neq _ _) Hs), (proj2 (String.eqb_neq _ _) Hf).
  change ("," +:+ seen) with (String "," seen). rewrite split_char_app, rev_app_distr.
  set (sn := rev (split_char "," seen)) in *. rewrite take_app.
  rewrite walkForwarded_app by done.
  pose proof (walkForwarded_nonempty _ _ "" Hc) as Hne.
  by rewrite (proj2 (String.eqb_neq _ _) Hne).
Qed.

Definition demo_proxies : list IPNet := default [] (parseCIDRs ["10.0.0.0/8"]).

Definition demo_request : Request :=
  MkRequest "POST" "/hooks/x" "10.0.0.7:4711" ∅ (Ok "{}") 2.

Lemma realClientIP_forged_prefix_witness :
  realClientIP (with_header "X-Forwarded-For" ["192.0.2.1,203.0.113.9, 10.1.2.3"] demo_request) demo_proxies
  = "203.0.113.9".
Proof.
  transitivity (realClientIP (with_header "X-Forwarded-For" ["203.0.113.9, 10.1.2.3"] demo_request) demo_proxies);
    [|vm_compute; reflexivity].
  apply (realClientIP_forged_prefix demo_request demo_proxies "192.0.2.1" "203.0.113.9, 10.1.2.3").
  vm_compute. reflexivity.
Defined.

(** Without trusted proxies, or when the peer is not one, the forwarding
    headers are not looked at: the address is the peer's. *)
Theorem realClientIP_untrusted_peer r proxies headers :
  let peer := match SplitHostPort (rq_RemoteAddr r) with Ok (h, _) => h | Err _ => rq_RemoteAddr r end in
  isTrustedProxy peer proxies = false →
  realClientIP (MkRequest (rq_Method r) (rq_Path r) (rq_RemoteAddr r) headers (rq_Body r) (rq_ContentLength r))
    proxies = peer.
Proof. intros peer Hp. unfold realClientIP. cbn [rq_RemoteAddr]. fold peer. by rewrite Hp, orb_true_r. Qed.

Lemma realClientIP_untrusted_peer_witness :
  realClientIP (with_header "X-Forwarded-For" ["127.0.0.1"]
    (MkRequest "POST" "/hooks/x" "203.0.113.9:4711" ∅ (Ok "{}") 2)) demo_proxies = "203.0.113.9".
Proof.
  apply (realClientIP_untrusted_peer (MkRequest "POST" "/hooks/x" "203.0.113.9:4711" ∅ (Ok "{}") 2)
    demo_proxies (<["X-Forwarded-For" := ["127.0.0.1"]]> ∅)). vm_compute. reflexivity.
Defined.

(** ** The cooldown *)

(** A sequence of requests to one path at the given times: the times of those
    that were accepted, oldest first. *)
Fixpoint accepted_times (path : string) (maxInvocations window : Z) (times : list Z) (ct : CooldownTracker)
    : list Z :=
  match times with
  | [] => []
  | t :: times =>
      let '(ok, ct) := allow path maxInvocations window t ct in
      if ok : bool then t :: accepted_times path maxInvocations window times ct
      else accepted_times path maxInvocations window times ct
  end.

(** The accepted requests in the window [(t - w, t]]. *)
Definition in_window (w t : Z) (l : list Z) : list Z := List.filter (λ x, (t - w <? x)%Z && (x <=? t)%Z) l.

Lemma filter_length_le_impl {A} (p q : A → bool) l :
  (∀ x, x ∈ l → p x = true → q x = true) → (length (List.filter p l) ≤ length (List.filter q l))%nat.
Proof.
  induction l as [|x l IH]; simpl; intros Hpq; [done|].
  assert (length (List.filter p l) ≤ length (List.filter q l))%nat by (apply IH; intros; apply Hpq; [by right|done]).
  destruct (p x) eqn:Hp; [rewrite (Hpq x); [simpl; lia|by left|done]|].
  destruct (q x); simpl; lia.
Qed.

Lemma filter_app_stdlib {A} (p : A → bool) l1 l2 :
  List.filter p (l1 ++ l2) = List.filter p l1 ++ List.filter p l2.
Proof. apply List.filter_app. Qed.

(** The tracker keeps the accepted times [acc] back to some cutoff no later
    than the next one; [acc] respects the limit in every window. *)
Definition tracks (path : string) (m w : Z) (now : Z) (acc : list Z) (ct : CooldownTracker) : Prop :=
  (∃ c, (c <= now - w)%Z ∧ default [] (ct !! path) = List.filter (λ x, (c <? x)%Z) acc) ∧
  (∀ x, x ∈ acc → (x <= now)%Z) ∧
  (∀ t, (Z.of_nat (length (in_window w t acc)) <= m)%Z).

Lemma filter_filter_le (c c' : Z) l :
  (c <= c')%Z → List.filter (λ x, (c' <? x)%Z) (List.filter (λ x, (c <? x)%Z) l) = List.filter (λ x, (c' <? x)%Z) l.
Proof.
  intros Hc. induction l as [|x l IH]; simpl; [done|].
  destruct (Z.ltb_spec c x); simpl; destruct (Z.ltb_spec c' x); rewrite ?IH; try done; lia.
Qed.

Lemma allow_step path m w now acc ct :
  (0 < m < 2 ^ 31)%Z → (0 < w)%Z → tracks path m w now acc ct →
  let '(ok, ct') := allow path m w now ct in
  tracks path m w now (if ok : bool then acc ++ [now] else acc) ct'.
Proof.
  intros Hm Hw ((c & Hc & Hl) & Hle & Hwin). unfold allow.
  destruct (Z.leb_spec m 0); [lia|]. rewrite Hl, filter_filter_le by lia.
  set (pruned := List.filter _ acc).
  assert (length pruned ≤ length (in_window w now acc))%nat as Hp.
  { apply filter_length_le_impl. intros x Hx Hlt. rewrite Hlt. simpl. apply Z.leb_le, Hle, Hx. }
  pose proof (Hwin now) as Hnow. unfold wrap32. rewrite wrap_id by lia.
  destruct (Z.leb_spec m (Z.of_nat (length pruned))) as [Hfull|Hroom].
  - split; [|done]. exists (now - w)%Z. split; [lia|]. cbv iota. by rewrite lookup_insert_eq.
  - split; [|split].
    + exists (now - w)%Z. split; [lia|]. cbv iota. rewrite lookup_insert_eq. simpl. rewrite filter_app_stdlib. simpl.
      destruct (Z.ltb_spec (now - w) now); [done|lia].
    + intros x [Hx|Hx]%elem_of_app; [by apply Hle|]. apply list_elem_of_singleton in Hx as ->. lia.
    + intros t. unfold in_window. rewrite filter_app_stdlib, length_app. simpl.
      destruct (Z.leb_spec now t) as [Ht|Ht].
      * assert (length (List.filter (λ x, (t - w <? x)%Z && (x <=? t)%Z) acc) ≤ length pruned)%nat.
        { apply filter_length_le_impl. intros x Hx Hin. apply andb_prop in Hin as [Hin _].
          apply Z.ltb_lt in Hin. apply Z.ltb_lt. lia. }
        destruct (_ && _); simpl; lia.
      * rewrite andb_false_r. simpl. specialize (Hwin t). unfold in_window in Hwin. lia.
Qed.

Lemma tracks_later path m w now now' acc ct : (now <= now')%Z → tracks path m w now acc ct → tracks path m w now' acc ct.
Proof.
  intros Hn ((c & Hc & Hl) & Hle & Hwin). split; [|split; [|done]].
  - exists c. split; [lia|done].
  - intros x Hx. specialize (Hle x Hx). lia.
Qed.

Lemma accepted_times_tracks path m w times now acc ct :
  (0 < m < 2 ^ 31)%Z → (0 < w)%Z → StronglySorted Z.le (now :: times) → tracks path m w now acc ct →
  ∀ t, (Z.of_nat (length (in_window w t (acc ++ accepted_times path m w times ct))) <= m)%Z.
Proof.
  intros Hm Hw. revert now acc ct. induction times as [|t1 times IH]; intros now acc ct Hs Htr; simpl.
  { rewrite app_nil_r. apply Htr. }
  apply StronglySorted_inv in Hs as [Hs Hall]. inversion Hall; subst.
  pose proof (allow_step path m w t1 acc ct Hm Hw (tracks_later _ _ _ now t1 _ _ ltac:(done) Htr)) as Hst.
  destruct (allow path m w t1 ct) as [[] ct'].
  - intros t. specialize (IH t1 (acc ++ [t1]) ct' Hs Hst t). by rewrite <- app_assoc in IH.
  - apply (IH t1 acc ct' Hs Hst).
Qed.

(** The per-path limit is a sliding window: of a sequence of requests to one
    path at non-decreasing times, at most [maxInvocations] are accepted in any
    window of the configured length, whichever moment it ends at. *)
Theorem cooldown_window_bound path m w times :
  (0 < m < 2 ^ 31)%Z → (0 < w)%Z → StronglySorted Z.le times →
  ∀ t, (Z.of_nat (length (in_window w t (accepted_times path m w times ∅))) <= m)%Z.
Proof.
  intros Hm Hw Hs t. destruct times as [|t0 times]; [simpl; lia|].
  apply (accepted_times_tracks path m w (t0 :: times) t0 [] ∅); [done|done| |].
  - constructor; [done|]. constructor; [lia|]. by apply StronglySorted_inv in Hs as [_ ?].
  - split; [|split].
    + exists (t0 - w)%Z. split; [lia|]. by rewrite lookup_empty.
    + intros x Hx. by apply not_elem_of_nil in Hx.
    + intros t'. simpl. lia.
Qed.

Lemma cooldown_window_bound_witness :
  accepted_times "/hooks/x" 2 10 [1; 2; 3; 12]%Z ∅ = [1; 2; 12]%Z ∧
  (Z.of_nat (length (in_window 10 12 (accepted_times "/hooks/x" 2 10 [1; 2; 3; 12]%Z ∅))) <= 2)%Z.
Proof.
  split; [vm_compute; reflexivity|].
  apply (cooldown_window_bound "/hooks/x" 2 10 [1; 2; 3; 12]%Z); [lia|lia|].
  repeat (constructor; [|repeat (constructor; [lia|]); constructor]). constructor.
Defined.

(** Routes are looked up by the normalized path but the cooldown is counted
    per raw path: a path with a trailing blank reaches the same route with a
    budget of its own. *)
Theorem cooldown_budget_per_spelling :
  (∀ reg, Lookup "/hooks/x " reg = Lookup "/hooks/x" reg) ∧
  (allow "/hooks/x" 1 60 5 {["/hooks/x" := [4%Z]]}).1 = false ∧
  (allow "/hooks/x " 1 60 5 {["/hooks/x" := [4%Z]]}).1 = true.
Proof. split; [done|]. split; vm_compute; reflexivity. Qed.
