(* ===== verification/AccessLog.v ===== *)
(** * The access log of the webhook gateway

    [internal/gateway/webhook/accesslog.go]: the middleware that emits one line
    for each request, from the request, the status written and the fields the
    handler set ([Webhook.ServeHTTP]).  A line is the list of its attributes, as
    [log/slog] nests them. *)

From S2P Require Import Prelude SecretIndex GoStd Api Net Effects Ssrf Executor Webhook WebhookProps.

Local Open Scope string_scope.
Local Open Scope list_scope.
Local Open Scope go_scope.

(** ** Attributes *)

Inductive Level := LevelInfo | LevelWarn | LevelError.

(** [VMillis] is a [slog.Float64] of milliseconds, in thousandths. *)
Inductive Value := VString (s : string) | VInt (n : Z) | VBool (b : bool) | VMillis (n : Z).

Inductive Attr := AValue (key : string) (v : Value) | AGroup (key : string) (l : list (string * Value)).

Definition str (key s : string) : string * Value := (key, VString s).

Record AccessLine := MkAccessLine { ln_level : Level; ln_msg : string; ln_attrs : list Attr }.

(** The value of a key in a group of a line. *)
Fixpoint assoc (key : string) (l : list (string * Value)) : option Value :=
  match l with [] => None | (k, v) :: l => if (k =? key) then Some v else assoc key l end.

Fixpoint attr_in (group key : string) (l : list Attr) : option Value :=
  match l with
  | [] => None
  | AGroup g kvs :: l => if (g =? group) then assoc key kvs else attr_in group key l
  | _ :: l => attr_in group key l
  end.

Definition field (line : AccessLine) (group key : string) : option Value := attr_in group key (ln_attrs line).

(** ** Helpers *)

Definition normalizeContentType (raw : string) : string :=
  let media := match Index raw ";" with Some idx => stake idx raw | None => raw end in
  let media := ToLower (TrimSpace media) in
  if (media =? "") then ""
  else if (media =? "application/json") || HasSuffix media "+json" then "json"
  else if (media =? "application/xml") || (media =? "text/xml") || HasSuffix media "+xml" then "xml"
  else if (media =? "application/x-www-form-urlencoded") then "form"
  else if HasPrefix media "text/" then "text"
  else "binary".

Definition sourcePortFromRemoteAddr (remoteAddr : string) : option Z :=
  match SplitHostPort remoteAddr with
  | Err _ => None
  | Ok (_, portStr) => ParseInt portStr
  end.

Definition triggerFromPath (path : string) : string :=
  if negb (HasPrefix path "/hooks/") then ""
  else
    let rest := TrimPrefix path "/hooks/" in
    match Index rest "/" with Some idx => stake idx rest | None => rest end.

(** ** The middleware *)

Definition StatusInternalServerError : Z := 500.
Definition StatusTooManyRequests : Z := 429.

Section middleware.
  Context `{WebLib} `{NetLib}.

Definition authResultOf (fields : accessLogFields) : string :=
  if (al_AuthResult fields =? "") then "skipped" else al_AuthResult fields.

Definition lineLevel (status : Z) (authResult : string) : Level :=
  if (StatusInternalServerError <=? status)%Z then LevelError
  else if (authResult =? authResultFailure) || (status =? StatusTooManyRequests)%Z then LevelWarn
  else LevelInfo.

Definition requestAttrs (r : Request) (proxies : list IPNet) (fields : accessLogFields) (requestID : string) : list (string * Value) :=
  [str "method" (rq_Method r); str "path" (rq_Path r); str "trigger" (triggerFromPath (rq_Path r));
   str "namespace" (al_TriggerNamespace fields); str "source_ip" (realClientIP r proxies)] ++
  match sourcePortFromRemoteAddr (rq_RemoteAddr r) with Some port => [("source_port", VInt port)] | None => [] end ++
  [str "forwarded_for" (HeaderGet (rq_Header r) "X-Forwarded-For"); str "user_agent" (HeaderGet (rq_Header r) "User-Agent");
   str "request_id" requestID; str "content_type" (normalizeContentType (HeaderGet (rq_Header r) "Content-Type"));
   ("body_bytes", VInt (al_BodyBytes fields))].

Definition authAttrs (fields : accessLogFields) : list (string * Value) :=
  let authResult := authResultOf fields in
  [str "type" (al_AuthType fields); str "result" authResult] ++
  if (authResult =? authResultFailure) && negb (al_AuthReason fields =? "") then [str "reason" (al_AuthReason fields)] else [].

Definition flowrunAttrs (fields : accessLogFields) : list (string * Value) :=
  [("created", VBool (al_FlowRunCreated fields))] ++
  if al_FlowRunCreated fields
  then (if (al_FlowRunName fields =? "") then [] else [str "name" (al_FlowRunName fields)]) ++
       (if (al_FlowName fields =? "") then [] else [str "flow" (al_FlowName fields)])
  else [].

Definition accessLine (r : Request) (proxies : list IPNet) (fields : accessLogFields) (status durationMicros : Z) (requestID : string)
    : AccessLine :=
  MkAccessLine (lineLevel status (authResultOf fields)) "webhook_request"
    ((if (al_TraceID fields =? "") then []
      else [AValue "trace_id" (VString (al_TraceID fields)); AValue "span_id" (VString (al_SpanID fields))]) ++
     [AGroup "request" (requestAttrs r proxies fields requestID); AGroup "auth" (authAttrs fields);
      AGroup "response" [("status_code", VInt status); ("duration_ms", VMillis durationMicros)];
      AGroup "flowrun" (flowrunAttrs fields)]).

(** The reply and the line; the status is the one written through the wrapped
    response writer. *)
Definition AccessLogMiddleware (next : Request → option accessLogFields → Prog GEv Served) (proxies : list IPNet) (r : Request)
    : Prog GEv (HTTPReply * AccessLine) :=
  let! start := emit GNow in
  let! served := next r (Some noAccessLogFields) in
  let '(reply, fields) := served in
  let fields := default noAccessLogFields fields in
  let! now := emit GNow in
  let given := HeaderGet (rq_Header r) "X-Request-ID" in
  let! requestID := if (given =? "") then emit (GRandomHex 16) else Ret given in
  Ret (reply, accessLine r proxies fields reply.1 ((now - start) / 1000) requestID).

(** ** What a line says *)

(** The routes registered when the request comes in, and the readings the
    clock may give while it is served. *)
  Context (reg : RouteRegistry) (clock : Z → Prop).

(** The FlowRun creations of a request with their answers, newest first. *)
Definition log_spec : Spec GEv (list (FlowRun * result unit)) := λ X e g Q,
  match e in GEv X' return (X' → list (FlowRun * result unit) → Prop) → Prop with
  | GNow => λ Q, ∀ t, clock t → Q t g
  | GRoutes => λ Q, Q reg g
  | GCreateFlowRun fr => λ Q, ∀ x, Q x ((fr, x) :: g)
  | GGetSecret _ _ | GDiscoverJWKS _ | GJwksRegister _ => λ _, False
  | _ => λ Q, ∀ x, Q x g
  end Q.

#[export] Instance log_spec_mono : MonoSpec log_spec.
Proof. intros X e g P Q HPQ Hs. destruct e; cbn in *; try done; try (intros x; by apply HPQ, Hs); [intros t Ht; by apply HPQ, Hs|by apply HPQ]. Qed.

(** Why a request is refused on a route: a table over the scheme of the route
    and what the request carries.  With the two reasons of a presented OIDC
    token the validator's error text decides. *)
Definition refusal (entry : RouteEntry) (r : Request) (body : string) (proxies : list IPNet) (why : string) : Prop :=
  let get := HeaderGet (rq_Header r) in
  let type := re_AuthType entry in
  if (type =? "hmac") then
    if (re_HMACProvider entry =? "slack") then
      let tolerance := if (re_HMACTimestampToleranceSec entry <=? 0)%Z then 300%Z else re_HMACTimestampToleranceSec entry in
      let sg := get "X-Slack-Signature" in
      let ts := get "X-Slack-Request-Timestamp" in
      let expected := "v0=" +:+ hmac_sha256_hex (re_HMACSecret entry) ("v0:" +:+ ts +:+ ":" +:+ body) in
      let within n t := (- tolerance <= wrap64 (t / Second - n) <= tolerance)%Z in
      (why = "missing_signature" ∧ sg = "") ∨
      (why = "missing_timestamp" ∧ sg ≠ "" ∧ ts = "") ∨
      (why = "invalid_timestamp" ∧ sg ≠ "" ∧ ts ≠ "" ∧ ParseInt ts = None) ∨
      (why = "timestamp_out_of_tolerance" ∧ sg ≠ "" ∧ ∃ n t, ParseInt ts = Some n ∧ clock t ∧ ¬ within n t) ∨
      (why = "invalid_signature" ∧ sg ≠ "" ∧ sg ≠ expected ∧ ∃ n t, ParseInt ts = Some n ∧ clock t ∧ within n t)
    else
      let sg := get "X-Hub-Signature-256" in
      (why = "missing_signature" ∧ sg = "") ∨
      (why = "invalid_signature" ∧ sg ≠ "" ∧ sg ≠ "sha256=" +:+ hmac_sha256_hex (re_HMACSecret entry) body)
  else if (type =? "bearer") then
    let token := get "Authorization" in
    (why = "missing_token" ∧ token = "") ∨
    (why = "invalid_token" ∧ token ≠ "" ∧ token ≠ "Bearer " +:+ re_BearerToken entry)
  else if (type =? "apiKey") then
    let key := get (if (re_APIKeyHeader entry =? "") then "X-Api-Key" else re_APIKeyHeader entry) in
    (why = "missing_api_key" ∧ key = "") ∨ (why = "invalid_api_key" ∧ key ≠ "" ∧ key ≠ re_APIKey entry)
  else if (type =? "oidc") then
    (why = "missing_token" ∧ ∀ token, get "Authorization" ≠ "Bearer " +:+ token) ∨
    ((why = "invalid_token" ∨ why = "missing_token") ∧ ∃ token, get "Authorization" = "Bearer " +:+ token)
  else if (type =? "basic") then
    let given := parseBasicAuth (get "Authorization") in
    (why = "missing_credentials" ∧ given = None) ∨
    (why = "invalid_credentials" ∧ given ≠ None ∧ given ≠ Some (re_BasicUsername entry, re_BasicPassword entry))
  else if (type =? "ipAllowlist") then
    why = "ip_not_allowed" ∧ ∀ client, client_address proxies r client → ¬ allowlisted (re_IPAllowlist entry) client
  else if (type =? "header-equals") then
    let name := re_HeaderEqualsHeader entry in
    (why = "misconfigured" ∧ name = "") ∨ (why = "missing_header" ∧ name ≠ "" ∧ get name = "") ∨
    (why = "invalid_header" ∧ name ≠ "" ∧ get name ≠ "" ∧ get name ≠ re_HeaderEqualsValue entry)
  else why = "not_implemented" ∧ type ≠ "".

Lemma refusal_reason entry r body proxies : ¬ refusal entry r body proxies "".
Proof. unfold refusal. cbv zeta. repeat case_match; naive_solver. Qed.

(** A FlowRun exists after the attempt. *)
Definition created_by (x : result unit) : bool :=
  match x with Ok _ => true | Err e => match ekind_of e with EKAlreadyExists => true | _ => false end end.

(** The fields after the handler returned with a reply, [why] being the
    reasons there are to refuse the request. *)
Record reported (why : string → Prop) (reply : HTTPReply) (f : accessLogFields) (g : list (FlowRun * result unit)) : Prop := {
  rp_created : al_FlowRunCreated f = true →
    ∃ fr x, g = [(fr, x)] ∧ created_by x = true ∧ m_Name (fr_Meta fr) = al_FlowRunName f ∧ al_FlowRunName f ≠ "" ∧
      m_Namespace (fr_Meta fr) = al_TriggerNamespace f ∧ frs_FlowRef (fr_Spec fr) = al_FlowName f ∧ reply = (StatusAccepted, al_FlowRunName f);
  rp_not_created : al_FlowRunCreated f = false →
    (∀ fr x, (fr, x) ∈ g → created_by x = false ∧ reply.1 = 500%Z) ∧ reply.1 ≠ StatusAccepted;
  rp_failure : al_AuthResult f = authResultFailure →
    g = [] ∧ (reply.1 = StatusUnauthorized ∨ reply.1 = StatusForbidden) ∧ al_AuthReason f ≠ "" ∧ why (al_AuthReason f);
  rp_result : al_AuthResult f ∈ ["";  authResultFailure; authResultSkipped; authResultSuccess];
  rp_refused : (reply.1 = StatusUnauthorized ∨ reply.1 = StatusForbidden) → al_AuthResult f = authResultFailure;
  rp_scheme : g ≠ [] → al_AuthResult f = (if (al_AuthType f =? "") then authResultSkipped else authResultSuccess);
  rp_bytes : (0 <= al_BodyBytes f <= maxBody)%Z
}.

(** An answer of authentication: accepted, or refused for the right reason. *)
Definition answer_ok (type : string) (why : string → Prop) (a : AuthAnswer) : Prop :=
  match a with
  | None => True
  | Some (code, msg) => code = StatusOK ∨
      ((code = StatusUnauthorized ∨ code = StatusForbidden) ∧ why (authFailureReason type msg))
  end.

Lemma slack_answers r body entry proxies g :
  (re_AuthType entry =? "hmac") = true → (re_HMACProvider entry =? "slack") = true →
  wp log_spec (verifySlackHMAC r body (re_HMACSecret entry) (re_HMACTimestampToleranceSec entry)) g
    (λ a g', g' = g ∧ answer_ok "hmac" (refusal entry r body proxies) (Some a)).
Proof.
  intros Ht Hp. unfold verifySlackHMAC, refusal. rewrite Ht, Hp. cbv zeta.
  set (tol := if (_ <=? 0)%Z then 300%Z else _).
  destruct (String.eqb_spec (HeaderGet (rq_Header r) "X-Slack-Signature") "") as [Hs|Hs]; [cbn [wp]; split; [done|]; right; split; [by left|]; by left|].
  destruct (String.eqb_spec (HeaderGet (rq_Header r) "X-Slack-Request-Timestamp") "") as [Hts|Hts]; [cbn [wp]; split; [done|]; right; split; [by left|]; right; by left|].
  destruct (ParseInt _) as [n|] eqn:Hn; [|cbn [wp]; split; [done|]; right; split; [by left|]; do 2 right; by left].
  apply wp_bind; [apply _|]. intros t Hclock. cbn [wp]. set (age := wrap64 (t / Second - n)).
  destruct (Z.ltb_spec tol age) as [Ha|Ha]; cbn [orb].
  { cbn [wp]. split; [done|]. right. split; [by left|]. do 3 right. left. split; [done|]. split; [done|]. exists n, t. split_and!; [done..|]. fold age. lia. }
  destruct (Z.ltb_spec age (- tol)) as [Hb|Hb].
  { cbn [wp]. split; [done|]. right. split; [by left|]. do 3 right. left. split; [done|]. split; [done|]. exists n, t. split_and!; [done..|]. fold age. lia. }
  match goal with |- context [negb (?x =? ?y)] => destruct (String.eqb_spec x y) as [He|He] end; cbn [negb wp]; (split; [done|]); [by left|].
  right. split; [by left|]. do 4 right. split_and!; [done..|]. exists n, t. split_and!; [done..|]. fold age. lia.
Qed.

Lemma oidc_reason entry msg r body proxies :
  re_AuthType entry = "oidc" →
  (Contains msg "missing Bearer token" = true ∨ ∃ token, HeaderGet (rq_Header r) "Authorization" = "Bearer " +:+ token) →
  ((∀ token, HeaderGet (rq_Header r) "Authorization" ≠ "Bearer " +:+ token) ∨
    ∃ token, HeaderGet (rq_Header r) "Authorization" = "Bearer " +:+ token) →
  refusal entry r body proxies (authFailureReason "oidc" msg).
Proof.
  intros Ht Hm Hd. unfold refusal. rewrite Ht. cbn [String.eqb Ascii.eqb Bool.eqb]. cbv zeta.
  assert (authFailureReason "oidc" msg = if Contains msg "missing Bearer token" then "missing_token" else "invalid_token") as ->
    by reflexivity.
  destruct Hd as [Hd|Hd]; [left|right]; (split; [|done]).
  - destruct Hm as [->|[token Htok]]; [done|]. by destruct (Hd token).
  - destruct (Contains _ _); auto.
Qed.

Lemma wp_oidc_quiet v tok g : wp log_spec (oidc_validate v tok) g (λ _ g', g' = g).
Proof.
  unfold oidc_validate. cbv zeta. apply wp_bind; [apply _|]. intros [ks|e]; cbn [wp]; [|done]. case_match; [done|].
  apply wp_bind; [apply _|]. intros [fs|e']; cbn [wp]; [|done]. by case_match.
Qed.

(** A refusal whose reason is read off the table. *)
Ltac refuse := cbn [wp answer_ok]; split; [done|]; right; split; [by (left + right)|].

Lemma auth_answers r body entry proxies g :
  wp log_spec (authenticateRequest r body entry proxies) g
    (λ a g', g' = g ∧ answer_ok (re_AuthType entry) (refusal entry r body proxies) a).
Proof.
  unfold authenticateRequest. cbv zeta. unfold authTypeHMAC, authTypeBearer, authTypeAPIKey, authTypeOIDC, authTypeBasic,
    authTypeIPAllowlist, authTypeHeaderEquals.
  destruct (String.eqb_spec (re_AuthType entry) "hmac") as [Ht|Hhmac].
  { destruct (re_HMACProvider entry =? "slack") eqn:Hp.
    - apply wp_bind; [apply _|]. eapply wp_mono; [apply _| |apply (slack_answers _ _ _ proxies); [by rewrite Ht|done]]. rewrite Ht. done.
    - rewrite Ht. unfold refusal. rewrite Ht, Hp. cbv zeta. cbn [String.eqb Ascii.eqb Bool.eqb].
      set (sg := HeaderGet _ _). destruct (String.eqb_spec sg "") as [Hs|Hs]; [refuse; by left|].
      destruct (String.eqb_spec sg ("sha256=" +:+ hmac_sha256_hex (re_HMACSecret entry) body)); cbn [negb]; [by split; [|left]|refuse; by right]. }
  destruct (String.eqb_spec (re_AuthType entry) "bearer") as [Ht|Hbearer].
  { rewrite Ht. unfold refusal. rewrite Ht. cbv zeta. cbn [String.eqb Ascii.eqb Bool.eqb]. set (tok := HeaderGet _ _).
    destruct (String.eqb_spec tok "") as [Hs|Hs]; [refuse; by left|].
    destruct (String.eqb_spec tok ("Bearer " +:+ re_BearerToken entry)); cbn [negb]; [by split; [|left]|refuse; by right]. }
  destruct (String.eqb_spec (re_AuthType entry) "apiKey") as [Ht|Hkey].
  { rewrite Ht. unfold refusal. rewrite Ht. cbv zeta. cbn [String.eqb Ascii.eqb Bool.eqb]. unfold orDefault.
    set (hdr := if (re_APIKeyHeader entry =? "") then "X-Api-Key" else re_APIKeyHeader entry). set (key := HeaderGet _ hdr).
    destruct (String.eqb_spec key "") as [Hs|Hs]; [refuse; by left|].
    destruct (String.eqb_spec key (re_APIKey entry)); cbn [negb]; [by split; [|left]|refuse; by right]. }
  destruct (String.eqb_spec (re_AuthType entry) "oidc") as [Ht|Hoidc].
  { rewrite Ht. set (ah := HeaderGet _ "Authorization"). destruct (_ || _) eqn:Hb.
    - refuse. apply oidc_reason; [done|by left|]. left. fold ah. intros token He. rewrite He in Hb.
      assert (HasPrefix ("Bearer " +:+ token) "Bearer " = true) as Hpre by (apply HasPrefix_spec; eauto). by rewrite Hpre in Hb.
    - apply orb_false_iff in Hb as [_ Hb%negb_false_iff]. apply HasPrefix_spec in Hb.
      destruct (re_OIDCValidator entry) as [v|]; [|done]. apply wp_bind; [apply _|]. eapply wp_mono; [apply _| |apply wp_oidc_quiet].
      intros [[]|e] g' ->; cbn [wp]; (split; [done|]); [by left|right; split; [by left|apply oidc_reason; auto]]. }
  destruct (String.eqb_spec (re_AuthType entry) "basic") as [Ht|Hbasic].
  { rewrite Ht. unfold refusal. rewrite Ht. cbv zeta. cbn [String.eqb Ascii.eqb Bool.eqb].
    destruct (parseBasicAuth _) as [[u p]|] eqn:Hp; [|refuse; by left].
    destruct (String.eqb_spec u (re_BasicUsername entry)), (String.eqb_spec p (re_BasicPassword entry)); cbn [negb orb];
      [by split; [|left]|refuse; right; split_and!; [done..|congruence] ..]. }
  destruct (String.eqb_spec (re_AuthType entry) "ipAllowlist") as [Ht|Hip].
  { rewrite Ht. unfold refusal. rewrite Ht. cbv zeta. cbn [String.eqb Ascii.eqb Bool.eqb]. destruct (existsb _ _) eqn:Hx; [by split; [|left]|].
    refuse. split; [done|]. intros client Hc%realClientIP_spec Ha%ipEntryAllows_spec. rewrite Hc, Ha in Hx. done. }
  destruct (String.eqb_spec (re_AuthType entry) "header-equals") as [Ht|Hhe].
  { rewrite Ht. unfold refusal. rewrite Ht. cbv zeta. cbn [String.eqb Ascii.eqb Bool.eqb].
    destruct (String.eqb_spec (re_HeaderEqualsHeader entry) "") as [Hn|Hn]; [refuse; by left|]. set (val := HeaderGet _ _).
    destruct (String.eqb_spec val "") as [Hv|Hv]; [refuse; right; by left|].
    destruct (String.eqb_spec val (re_HeaderEqualsValue entry)); cbn [negb]; [by split; [|left]|refuse; do 2 right; done]. }
  destruct (String.eqb_spec (re_AuthType entry) "") as [Ht|Hnone]; [by split; [|left]|].
  refuse. unfold refusal. cbv zeta. unfold authFailureReason, authTypeHMAC, authTypeBearer, authTypeAPIKey, authTypeOIDC, authTypeBasic,
    authTypeIPAllowlist, authTypeHeaderEquals.
  by rewrite (proj2 (String.eqb_neq _ _) Hhmac), (proj2 (String.eqb_neq _ _) Hbearer), (proj2 (String.eqb_neq _ _) Hkey),
    (proj2 (String.eqb_neq _ _) Hoidc), (proj2 (String.eqb_neq _ _) Hbasic), (proj2 (String.eqb_neq _ _) Hip),
    (proj2 (String.eqb_neq _ _) Hhe).
Qed.

(** The reasons there are to refuse a request: those of its route. *)
Definition reason_for (proxies : list IPNet) (r : Request) (why : string) : Prop :=
  ∃ entry body, Lookup (rq_Path r) reg = Some entry ∧ rq_Body r = Ok body ∧ refusal entry r body proxies why.

Definition serves (why : string → Prop) (p : Prog GEv Served) : Prop :=
  wp log_spec p [] (λ x g, ∃ f, x.2 = Some f ∧ reported why x.1 f g).

(** A reply without an attempt to create a FlowRun. *)
Lemma serves_early why reply f :
  al_FlowRunCreated f = false → reply.1 ∉ [StatusAccepted; StatusUnauthorized; StatusForbidden] →
  al_AuthResult f ∈ [""; authResultSkipped; authResultSuccess] → (0 <= al_BodyBytes f <= maxBody)%Z → serves why (Ret (reply, Some f)).
Proof.
  intros Hc Hcode Ha Hb. rewrite !not_elem_of_cons in Hcode. destruct Hcode as (Hacc & Hun & Hfo & _).
  exists f. split; [done|]. split; cbn.
  - congruence.
  - intros _. split; [|done]. intros fr x []%not_elem_of_nil.
  - intros Hf. rewrite Hf, !elem_of_cons, elem_of_nil in Ha. by destruct Ha as [?|[?|[?|[]]]].
  - set_solver.
  - by intros [?|?].
  - done.
  - done.
Qed.

Lemma serves_accept why h entry r body f :
  al_FlowRunCreated f = false → al_TriggerNamespace f = re_TriggerNamespace entry →
  al_AuthResult f = (if (al_AuthType f =? "") then authResultSkipped else authResultSuccess) → (0 <= al_BodyBytes f <= maxBody)%Z →
  serves why (acceptRequest h entry r body (Some f)).
Proof.
  intros Hc Hns Ha Hb. unfold serves, acceptRequest. apply wp_bind; [apply _|]. intros t _. cbn [wp].
  apply wp_bind; [apply _|]. intros hex. cbn [wp]. cbv zeta. apply wp_bind; [apply _|]. intros tr. cbn [wp].
  set (name := re_TriggerName entry +:+ _). assert (name ≠ "") as Hname by (unfold name; by destruct (re_TriggerName entry)).
  set (fr := buildFlowRun _ _ _ _ _ _).
  assert (m_Name (fr_Meta fr) = name ∧ m_Namespace (fr_Meta fr) = re_TriggerNamespace entry ∧ frs_FlowRef (fr_Spec fr) = re_FlowRef entry)
    as (Hn & Hm & Hf) by (unfold fr, buildFlowRun; by destruct (storeBody _ _ _) as [[??]?]).
  assert (al_AuthResult f ∈ [""; authResultFailure; authResultSkipped; authResultSuccess] ∧ al_AuthResult f ≠ authResultFailure) as [Hin Hnf].
  { rewrite Ha. destruct (_ =? _); rewrite ?elem_of_cons; naive_solver. }
  assert (∀ x, created_by x = true →
    reported why (StatusAccepted, name) (default noAccessLogFields (setFlowRun true name (re_FlowRef entry) (Some f))) [(fr, x)]) as Hok.
  { intros x Hx. split; cbn; try done; [|by intros [?|?]]. intros _. exists fr, x. split_and!; congruence || done. }
  apply wp_bind; [apply _|]. intros [[]|e]; cbn [wp]; [eexists; split; [done|by apply Hok]|].
  assert (ekind_of e = EKAlreadyExists ∨ ekind_of e ≠ EKAlreadyExists) as [Hk|Hk] by (destruct (ekind_of e); auto).
  { rewrite Hk. cbn [wp]. eexists. split; [done|]. apply (Hok (Err e)). cbn. by rewrite Hk. }
  assert (created_by (Err e) = false) as He by (cbn; by destruct (ekind_of e)).
  assert (reported why (500%Z, "unable to create FlowRun") (default noAccessLogFields (setFlowRun false "" "" (Some f))) [(fr, Err e)]) as Hko.
  { split; cbn [default setFlowRun fmap option_fmap option_map from_option id fst snd al_FlowRunCreated al_AuthResult al_BodyBytes al_AuthType al_FlowRunName]; try done; [|by intros [?|?]].
    intros _. split; [|done]. intros fr' x' [= -> ->]%list_elem_of_singleton. done. }
  destruct (ekind_of e); try (eexists; split; [done|exact Hko]). done.
Qed.

Lemma serves_route h entry r f :
  al_FlowRunCreated f = false → al_AuthResult f = "" → al_BodyBytes f = 0%Z → al_TriggerNamespace f = re_TriggerNamespace entry →
  al_AuthType f = re_AuthType entry → Lookup (rq_Path r) reg = Some entry →
  serves (reason_for (trustedProxies h) r) (serveRoute h entry r (Some f)).
Proof.
  intros Hc Ha Hb Hns Ht Hlook. set (why := reason_for _ _). assert (0 <= maxBody)%Z as Hmax by (vm_compute; discriminate).
  assert (∀ c m f', al_FlowRunCreated f' = false → al_AuthResult f' = "" → (0 <= al_BodyBytes f' <= maxBody)%Z → c ∈ [405; 500; 413; 429]%Z →
    serves why (Ret ((c, m), Some f'))) as Hearly.
  { intros c m f' ? Ha' ? Hcode. apply serves_early; [done| |rewrite Ha'; by left|done]. cbn. rewrite !not_elem_of_cons.
    rewrite !elem_of_cons, elem_of_nil in Hcode. unfold StatusAccepted, StatusUnauthorized, StatusForbidden.
    split_and!; try apply not_elem_of_nil; lia. }
  unfold serveRoute. destruct (negb _); [apply Hearly; [done..|lia|set_solver]|].
  destruct (rq_Body r) as [body|e] eqn:Hbody; [|apply Hearly; [done..|lia|set_solver]]. cbv zeta.
  assert (0 <= Z.min (Z.of_nat (slen body)) maxBody <= maxBody)%Z as Hsz by lia.
  destruct (_ || _); [apply Hearly; [done..|exact Hsz|set_solver]|].
  unfold serves. apply wp_bind; [apply _|]. eapply wp_mono; [apply _| |apply auth_answers].
  intros [[code msg]|] g' [-> Hans]; [|apply Hearly; [done..|exact Hsz|set_solver]].
  destruct (Z.eqb_spec code StatusOK) as [->|Hne]; cbn [negb].
  - set (f1 := setAuthResult _ _ _). assert (∃ f2, f1 = Some f2 ∧ al_FlowRunCreated f2 = false ∧ al_TriggerNamespace f2 = re_TriggerNamespace entry ∧
      al_AuthResult f2 = (if (al_AuthType f2 =? "") then authResultSkipped else authResultSuccess) ∧ (0 <= al_BodyBytes f2 <= maxBody)%Z)
      as (f2 & -> & Hc2 & Hns2 & Ha2 & Hb2).
    { unfold f1. cbn [setAuthResult setBodyBytes fmap option_fmap option_map]. eexists. split; [done|]. cbn [al_FlowRunCreated al_TriggerNamespace al_AuthResult al_AuthType al_BodyBytes]. by rewrite Ht. }
    assert (wp log_spec (if (0 <? re_MaxInvocations entry)%Z then cooldownAllow (rq_Path r) (re_MaxInvocations entry) (re_CooldownWindow entry)
      else Ret true) [] (λ _ g', g' = [])) as Hcool.
    { destruct (0 <? _)%Z; [|reflexivity]. unfold cooldownAllow. destruct (_ <=? _)%Z; [reflexivity|]. apply wp_bind; [apply _|]. intros ct. cbn [wp].
      apply wp_bind; [apply _|]. intros t _. cbn [wp]. destruct (allow _ _ _ _ _). apply wp_bind; [apply _|]. by intros []. }
    apply wp_bind; [apply _|]. eapply wp_mono; [apply _| |exact Hcool]. intros [] g' ->; cbn [negb]; [by apply serves_accept|].
    apply serves_early; [done|cbn [fst]; rewrite !not_elem_of_cons; split_and!; [done..|apply not_elem_of_nil]| |done]. rewrite Ha2. destruct (_ =? _); set_solver.
  - destruct Hans as [?|(Hcode & Hwhy)]; [done|].
    assert (why (authFailureReason (re_AuthType entry) msg)) as Hr2 by (by exists entry, body).
    assert (authFailureReason (re_AuthType entry) msg ≠ "") as Hr1 by (intros He; rewrite He in Hwhy; by apply refusal_reason in Hwhy).
    eexists. split; [done|]. split; cbn; try done; try congruence; [split; [set_solver|]|set_solver].
    unfold StatusUnauthorized, StatusForbidden, StatusAccepted in *. lia.
Qed.

(** What the line of a request says of its reply and of the FlowRun. *)
Definition line_created (line : AccessLine) (reply : HTTPReply) (g : list (FlowRun * result unit)) : Prop :=
  (field line "flowrun" "created" = Some (VBool true) ∧ ∃ fr x, g = [(fr, x)] ∧ created_by x = true ∧
     field line "flowrun" "name" = Some (VString (m_Name (fr_Meta fr))) ∧
     field line "flowrun" "flow" = (if (frs_FlowRef (fr_Spec fr) =? "") then None else Some (VString (frs_FlowRef (fr_Spec fr)))) ∧
     field line "request" "namespace" = Some (VString (m_Namespace (fr_Meta fr))) ∧ reply = (StatusAccepted, m_Name (fr_Meta fr))) ∨
  (field line "flowrun" "created" = Some (VBool false) ∧ field line "flowrun" "name" = None ∧ field line "flowrun" "flow" = None ∧
     (∀ fr x, (fr, x) ∈ g → created_by x = false ∧ reply.1 = 500%Z) ∧ reply.1 ≠ StatusAccepted).

Definition line_auth (reasons : string → Prop) (line : AccessLine) (reply : HTTPReply) (g : list (FlowRun * result unit)) : Prop :=
  ∃ type res, field line "auth" "type" = Some (VString type) ∧ field line "auth" "result" = Some (VString res) ∧
    res ∈ [authResultFailure; authResultSkipped; authResultSuccess] ∧
    (res = authResultFailure ↔ (reply.1 = StatusUnauthorized ∨ reply.1 = StatusForbidden)) ∧
    (res = authResultFailure → g = [] ∧ ∃ why, field line "auth" "reason" = Some (VString why) ∧ reasons why) ∧
    (res ≠ authResultFailure → field line "auth" "reason" = None) ∧
    (g ≠ [] → res = if (type =? "") then authResultSkipped else authResultSuccess).

Definition line_level (line : AccessLine) (reply : HTTPReply) : Prop :=
  (ln_level line = LevelError ↔ (500 <= reply.1)%Z) ∧
  (ln_level line = LevelWarn ↔ (reply.1 = StatusUnauthorized ∨ reply.1 = StatusForbidden ∨ reply.1 = StatusTooManyRequests)).

Section line.
  Variables (r : Request) (proxies : list IPNet) (f : accessLogFields) (reply : HTTPReply) (g : list (FlowRun * result unit)).
  Variable why : string → Prop.
  Hypothesis Hrep : reported why reply f g.
  Variables (d : Z) (id : string).
Let line := accessLine r proxies f reply.1 d id.

Lemma line_groups : ∀ group key,
  field line group key =
    (if (("request" =? group)) then assoc key (requestAttrs r proxies f id)
     else if ("auth" =? group) then assoc key (authAttrs f)
     else if ("response" =? group) then assoc key [("status_code", VInt reply.1); ("duration_ms", VMillis d)]
     else if ("flowrun" =? group) then assoc key (flowrunAttrs f) else None).
Proof. intros group key. unfold field, line, accessLine. cbn [ln_attrs]. by destruct (al_TraceID f =? ""). Qed.

Lemma created_line : line_created line reply g.
Proof.
  unfold line_created. rewrite !line_groups.
  cbn [String.eqb Ascii.eqb Bool.eqb]. unfold flowrunAttrs, requestAttrs, str.
  destruct (al_FlowRunCreated f) eqn:Hc; cbn [app assoc String.eqb Ascii.eqb Bool.eqb].
  - left. split; [done|]. destruct (rp_created _ _ _ _ Hrep Hc) as (fr & x & Hg & Hx & Hn & Hne & Hns & Hf & Hr).
    exists fr, x. rewrite (proj2 (String.eqb_neq _ _) Hne), Hn, Hns, Hf. cbn [app assoc String.eqb Ascii.eqb Bool.eqb].
    split_and!; try done. by destruct (al_FlowName f =? "").
  - right. destruct (rp_not_created _ _ _ _ Hrep Hc). done.
Qed.

Lemma auth_line : line_auth why line reply g.
Proof.
  exists (al_AuthType f), (authResultOf f). rewrite !line_groups. cbn [String.eqb Ascii.eqb Bool.eqb]. unfold authAttrs, str.
  cbn [app assoc String.eqb Ascii.eqb Bool.eqb].
  pose proof (rp_result _ _ _ _ Hrep) as Hres. pose proof (rp_failure _ _ _ _ Hrep) as Hfail. pose proof (rp_refused _ _ _ _ Hrep) as Href.
  pose proof (rp_scheme _ _ _ _ Hrep) as Hscheme.
  assert (authResultOf f = authResultFailure ↔ al_AuthResult f = authResultFailure) as Hiff.
  { unfold authResultOf. destruct (String.eqb_spec (al_AuthResult f) "") as [->|]; done. }
  split_and!; try done.
  - unfold authResultOf. destruct (String.eqb_spec (al_AuthResult f) ""); set_solver.
  - rewrite Hiff. split; [intros Hf; apply (Hfail Hf)|exact Href].
  - intros Hf. pose proof (proj1 Hiff Hf) as Hf'. destruct (Hfail Hf') as (Hg & _ & Hr1 & Hr2). split; [done|].
    exists (al_AuthReason f). rewrite Hf, (proj2 (String.eqb_neq _ _) Hr1). done.
  - intros Hf. by rewrite (proj2 (String.eqb_neq _ _) Hf).
  - intros Hg. unfold authResultOf. rewrite (Hscheme Hg). by destruct (_ =? _).
Qed.

Lemma level_line : line_level line reply.
Proof.
  unfold line_level, line, accessLine. cbn [ln_level]. pose proof (rp_failure _ _ _ _ Hrep) as Hfail. pose proof (rp_refused _ _ _ _ Hrep) as Href.
  unfold lineLevel, authResultOf, StatusInternalServerError, StatusTooManyRequests, StatusUnauthorized, StatusForbidden in *.
  destruct (Z.leb_spec 500 reply.1); [split; split; [done..|intros; lia]|].
  destruct (String.eqb_spec (al_AuthResult f) "") as [Ha|Ha].
  - cbn [String.eqb Ascii.eqb Bool.eqb orb authResultFailure]. destruct (Z.eqb_spec reply.1 429); (split; split; try done; try lia; auto).
    rewrite Ha in Href. intros [Hx|[Hx|Hx]]; [discriminate (Href (or_introl Hx))|discriminate (Href (or_intror Hx))|lia].
  - destruct (String.eqb_spec (al_AuthResult f) authResultFailure) as [Hf|Hf]; cbn [orb].
    + destruct (Hfail Hf) as (_ & Hcode & _). split; split; try done; try lia; intros _; tauto.
    + destruct (Z.eqb_spec reply.1 429); (split; split; try done; try lia; auto).
      intros [Hx|[Hx|Hx]]; [destruct Hf; apply Href; by left|destruct Hf; apply Href; by right|lia].
Qed.

End line.

(** C14: the access log tells the truth.  The line of a request states the status
    the client got; it says that a FlowRun was created exactly when the API server
    accepted one or already had it, and then names it, its namespace and its
    Flow, the reply carrying the same name; a request is reported as refused
    exactly when the client got 401 or 403, no FlowRun having been attempted, with
    the reason the table [refusal] gives for the scheme of its route and what the
    request carried (whether a presented OIDC token counts as missing or as
    invalid is left to the validator's error); a FlowRun is attempted only where
    the line says success, or skipped on a route without authentication; and the
    level is error for the 5xx, warn for refused and rate-limited requests. *)
Theorem access_log_truthful h proxies r :
  wp log_spec (AccessLogMiddleware (ServeHTTP h) proxies r) [] (λ x g,
    let '(reply, line) := x in
    field line "response" "status_code" = Some (VInt reply.1) ∧
    line_created line reply g ∧ line_auth (reason_for (trustedProxies h) r) line reply g ∧ line_level line reply ∧
    ∃ n, field line "request" "body_bytes" = Some (VInt n) ∧ (0 <= n <= maxBody)%Z).
Proof.
  unfold AccessLogMiddleware. apply wp_bind; [apply _|]. intros start _. cbn [wp]. apply wp_bind; [apply _|].
  assert (serves (reason_for (trustedProxies h) r) (ServeHTTP h r (Some noAccessLogFields))) as Hserves.
  { unfold ServeHTTP, serves. apply wp_bind; [apply _|]. intros sc. cbn [wp]. cbv zeta. apply wp_bind; [apply _|].
    unfold emit at 1. cbn [wp log_spec].
    assert (0 <= maxBody)%Z by (vm_compute; discriminate).
    destruct (Lookup _ _) as [entry|] eqn:Hl; destruct sc as [[tid sid]|].
    - by apply serves_route.
    - by apply serves_route.
    - apply serves_early; [done|cbn [fst]; rewrite !not_elem_of_cons; split_and!; [done..|apply not_elem_of_nil]|by left|done].
    - apply serves_early; [done|cbn [fst]; rewrite !not_elem_of_cons; split_and!; [done..|apply not_elem_of_nil]|by left|done]. }
  eapply wp_mono; [apply _| |exact Hserves]. intros [reply f0] g (f & Hf0 & Hrep). cbn in Hf0, Hrep. subst f0. cbn [default from_option id].
  apply wp_bind; [apply _|]. intros now _. cbn [wp]. apply wp_bind; [apply _|].
  assert (∀ id, let line := accessLine r proxies f reply.1 ((now - start) / 1000) id in
    field line "response" "status_code" = Some (VInt reply.1) ∧ line_created line reply g ∧ line_auth (reason_for (trustedProxies h) r) line reply g ∧ line_level line reply ∧
    ∃ n, field line "request" "body_bytes" = Some (VInt n) ∧ (0 <= n <= maxBody)%Z) as Hline.
  { intros id line. split_and!; [unfold line; by rewrite line_groups|by eapply created_line|by apply auth_line|by eapply level_line|].
    exists (al_BodyBytes f). split; [|apply Hrep]. unfold line. rewrite line_groups. cbn [String.eqb Ascii.eqb Bool.eqb]. unfold requestAttrs.
    by destruct (sourcePortFromRemoteAddr _). }
  destruct (_ =? _); [intros id; cbn [wp]; apply Hline|cbn [wp]; apply Hline].
Qed.

(** The buckets of the content type, and the port of the peer. *)
Example content_types :
  map normalizeContentType ["application/json; charset=utf-8"; "application/cloudevents+json"; "Text/XML"; "text/plain"; "image/png"; ""]
    = ["json"; "json"; "xml"; "text"; "binary"; ""] ∧
  sourcePortFromRemoteAddr "[::1]:4711" = Some 4711%Z ∧ triggerFromPath "/hooks/orders/eu" = "orders".
Proof. by vm_compute. Qed.

End middleware.
