(* ===== verification/WebhookWatcher.v ===== *)
(** * The Trigger watcher of the webhook gateway

    [internal/gateway/webhook/watcher.go]: the informer callbacks that keep the
    route registry and the Secret index in step with the Triggers.  The CRL
    ConfigMap is in file Crl; the informer plumbing of [Start] is left out. *)

From S2P Require Import Prelude SecretIndex GoStd Api Net Effects Ssrf Executor Webhook.

Local Open Scope string_scope.
Local Open Scope list_scope.
Local Open Scope go_scope.

Record TriggerWatcher := MkWatcher {
  tw_registry : RouteRegistry;
  tw_secretIndex : SecretIndex.Index;
  tw_triggers : gmap NamespacedName Trigger
}.

Definition triggerTypeWebhook : string := "webhook".

Definition trigger_key (t : Trigger) : NamespacedName := (m_Namespace (tg_Meta t), m_Name (tg_Meta t)).

Definition entryRoutePath (trigger : Trigger) : string :=
  match ts_Webhook (tg_Spec trigger) with
  | None => ""
  | Some wh =>
      let path := TrimSpace (wh_Path wh) in
      if (path =? "") then ""
      else if negb (HasPrefix path "/") then "/" +:+ path else path
  end.

(** The Secrets of a Trigger's auth configuration. *)
Definition secretRefsForTrigger (trigger : Trigger) : list NamespacedName :=
  let ns := m_Namespace (tg_Meta trigger) in
  if negb (ts_Type (tg_Spec trigger) =? triggerTypeWebhook) then []
  else match ts_Webhook (tg_Spec trigger) ≫= wh_Auth with
  | None => []
  | Some auth =>
      let ref (o : option string) := match o with Some n => [(ns, n)] | None => [] end in
      if (au_Type auth =? authTypeHMAC) then ref (sr_Name ∘ hm_SecretRef <$> au_HMAC auth)
      else if (au_Type auth =? authTypeBearer) then ref (sr_Name ∘ be_TokenSecretRef <$> au_Bearer auth)
      else if (au_Type auth =? authTypeAPIKey) then ref (sr_Name ∘ ak_SecretRef <$> au_APIKey auth)
      else if (au_Type auth =? authTypeBasic) then ref (ba_SecretRef <$> au_Basic auth)
      else if (au_Type auth =? authTypeHeaderEquals) then ref (sr_Name ∘ he_SecretRef <$> au_HeaderEquals auth)
      else []
  end.

Section watcher.
  Context `{WebLib}.

Definition readSecretKey (ns name key : string) : Prog GEv (result string) :=
  let! r := emit (GGetSecret ns name) in
  match r with
  | Err e => Ret (Err (wrapf ("get secret " +:+ ns +:+ "/" +:+ name +:+ ": ") e))
  | Ok data => match data !! key with
               | None => Ret (Err (errorf ("secret " +:+ ns +:+ "/" +:+ name +:+ " does not contain key " +:+ Quote key)))
               | Some v => Ret (Ok v)
               end
  end.

(** Read a value and build the entry from it. *)
Definition withSecret (prefix ns name key : string) (k : string → RouteEntry) : Prog GEv (result RouteEntry) :=
  let! r := readSecretKey ns name key in
  match r with
  | Err e => Ret (Err (wrapf prefix e))
  | Ok v => Ret (Ok (k v))
  end.

(** Route fields that do not depend on the authentication. *)
Definition baseEntry (trigger : Trigger) (wh : WebhookTrigger) (authType : string) : RouteEntry :=
  let method := if (wh_Method wh =? "") then "POST" else ToUpper (wh_Method wh) in
  let '(max, window) :=
    match wh_RateLimit wh with
    | None => (0%Z, 0%Z)
    | Some rl => (rl_MaxRequests rl, if (rl_Window rl =? 0)%Z then (60 * Second)%Z else rl_Window rl)
    end in
  MkRoute (m_Name (tg_Meta trigger)) (m_Namespace (tg_Meta trigger)) (ts_FlowRef (tg_Spec trigger))
    (m_Namespace (tg_Meta trigger)) method authType "" "" 0 "" "" "" "" "" [] "" "" None max window
    (wh_RedactHeaders wh) (wh_RedactBody wh).

(** The entry with the credentials of each scheme filled in. *)
Definition with_HMAC (secret provider : string) (tolerance : Z) (e : RouteEntry) : RouteEntry :=
  MkRoute (re_TriggerName e) (re_TriggerNamespace e) (re_FlowRef e) (re_FlowNamespace e) (re_AllowedMethod e)
    (re_AuthType e) secret provider tolerance "" "" "" "" "" [] "" "" None (re_MaxInvocations e)
    (re_CooldownWindow e) (re_RedactHeaders e) (re_RedactBody e).
Definition with_Bearer (token : string) (e : RouteEntry) : RouteEntry :=
  MkRoute (re_TriggerName e) (re_TriggerNamespace e) (re_FlowRef e) (re_FlowNamespace e) (re_AllowedMethod e)
    (re_AuthType e) "" "" 0 token "" "" "" "" [] "" "" None (re_MaxInvocations e)
    (re_CooldownWindow e) (re_RedactHeaders e) (re_RedactBody e).
Definition with_APIKey (key header : string) (e : RouteEntry) : RouteEntry :=
  MkRoute (re_TriggerName e) (re_TriggerNamespace e) (re_FlowRef e) (re_FlowNamespace e) (re_AllowedMethod e)
    (re_AuthType e) "" "" 0 "" "" "" key header [] "" "" None (re_MaxInvocations e)
    (re_CooldownWindow e) (re_RedactHeaders e) (re_RedactBody e).
Definition with_Basic (username password : string) (e : RouteEntry) : RouteEntry :=
  MkRoute (re_TriggerName e) (re_TriggerNamespace e) (re_FlowRef e) (re_FlowNamespace e) (re_AllowedMethod e)
    (re_AuthType e) "" "" 0 "" username password "" "" [] "" "" None (re_MaxInvocations e)
    (re_CooldownWindow e) (re_RedactHeaders e) (re_RedactBody e).
Definition with_IPs (l : list string) (e : RouteEntry) : RouteEntry :=
  MkRoute (re_TriggerName e) (re_TriggerNamespace e) (re_FlowRef e) (re_FlowNamespace e) (re_AllowedMethod e)
    (re_AuthType e) "" "" 0 "" "" "" "" "" l "" "" None (re_MaxInvocations e)
    (re_CooldownWindow e) (re_RedactHeaders e) (re_RedactBody e).
Definition with_OIDC (v : oidcValidator) (e : RouteEntry) : RouteEntry :=
  MkRoute (re_TriggerName e) (re_TriggerNamespace e) (re_FlowRef e) (re_FlowNamespace e) (re_AllowedMethod e)
    (re_AuthType e) "" "" 0 "" "" "" "" "" [] "" "" (Some v) (re_MaxInvocations e)
    (re_CooldownWindow e) (re_RedactHeaders e) (re_RedactBody e).
Definition with_HeaderEquals (header value : string) (e : RouteEntry) : RouteEntry :=
  MkRoute (re_TriggerName e) (re_TriggerNamespace e) (re_FlowRef e) (re_FlowNamespace e) (re_AllowedMethod e)
    (re_AuthType e) "" "" 0 "" "" "" "" "" [] header value None (re_MaxInvocations e)
    (re_CooldownWindow e) (re_RedactHeaders e) (re_RedactBody e).

(** [discoverJWKSURL]: the key URL of the provider's discovery document. *)
Definition discoverJWKSURL (issuer : string) : Prog GEv (result string) :=
  let discoveryURL := TrimRight issuer "/" +:+ "/.well-known/openid-configuration" in
  let! d := emit (GDiscoverJWKS discoveryURL) in
  Ret (match d with
       | DBadURL e => Err (wrapf "building discovery request: " e)
       | DFailed e => Err (wrapf ("fetching OIDC discovery document from " +:+ discoveryURL +:+ ": ") e)
       | DResponse code doc =>
           if negb (code =? 200)%Z then Err (errorf ("OIDC discovery at " +:+ discoveryURL +:+ " returned HTTP " +:+ Itoa code))
           else match doc with
                | Err e => Err (wrapf "decoding OIDC discovery document: " e)
                | Ok jwksURI =>
                    if (jwksURI =? "") then Err (errorf ("OIDC discovery document at " +:+ discoveryURL +:+ " missing jwks_uri"))
                    else Ok jwksURI
                end
       end).

(** [RegisterJWKSURL] ([oidc.go]); a failed first fetch is told from a failed
    registration. *)
Inductive RegisterError := jwksPrewarmError (url : string) (cause : gerr) | registerError (e : gerr).

Definition RegisterJWKSURL (jwksURL : string) : Prog GEv (option RegisterError) :=
  let! reg := emit (GJwksRegister jwksURL) in
  match reg with
  | Err e => Ret (Some (registerError (wrapf ("registering JWKS URL " +:+ jwksURL +:+ ": ") e)))
  | Ok _ =>
      let! f := emit (GJwksRefresh jwksURL) in
      Ret (match f with Err e => Some (jwksPrewarmError jwksURL e) | Ok _ => None end)
  end.

(** The OIDC case: discovery, registration of the key URL (a failed pre-warm
    fetch is not an error), validator. *)
Definition buildOIDC (entry : RouteEntry) (o : OIDCConfig) : Prog GEv (result RouteEntry) :=
  let! d := discoverJWKSURL (oi_Issuer o) in
  match d with
  | Err e => Ret (Err (wrapf "discovering OIDC JWKS URL: " e))
  | Ok jwksURL =>
      let! reg := RegisterJWKSURL jwksURL in
      match reg with
      | Some (registerError e) => Ret (Err (wrapf "registering OIDC JWKS URL: " e))
      | _ => Ret (Ok (with_OIDC (MkOidcValidator jwksURL (oi_Issuer o) (oi_Audience o)) entry))
      end
  end.

Definition buildRouteEntry (trigger : Trigger) (wh : WebhookTrigger) : Prog GEv (result RouteEntry) :=
  let ns := m_Namespace (tg_Meta trigger) in
  match wh_Auth wh with
  | None => Ret (Ok (baseEntry trigger wh ""))
  | Some auth =>
      let entry := baseEntry trigger wh (au_Type auth) in
      let missing (msg : string) : Prog GEv (result RouteEntry) := Ret (Err (errorf msg)) in
      if (au_Type auth =? "") then Ret (Ok (baseEntry trigger wh ""))
      else if (au_Type auth =? authTypeHMAC) then
        match au_HMAC auth with
        | None => missing "hmac auth requires hmac config"
        | Some hm =>
            withSecret "reading HMAC secret: " ns (sr_Name (hm_SecretRef hm)) (sr_Key (hm_SecretRef hm))
              (λ v, with_HMAC v (orDefault (hm_Provider hm) "github")
                      (if (hm_TimestampToleranceSeconds hm <=? 0)%Z then 300%Z
                       else hm_TimestampToleranceSeconds hm) entry)
        end
      else if (au_Type auth =? authTypeBearer) then
        match au_Bearer auth with
        | None => missing "bearer auth requires bearer config"
        | Some b => withSecret "reading bearer token secret: " ns (sr_Name (be_TokenSecretRef b))
                      (sr_Key (be_TokenSecretRef b)) (λ v, with_Bearer v entry)
        end
      else if (au_Type auth =? authTypeAPIKey) then
        match au_APIKey auth with
        | None => missing "apiKey auth requires apiKey config"
        | Some a => withSecret "reading API key secret: " ns (sr_Name (ak_SecretRef a)) (sr_Key (ak_SecretRef a))
                      (λ v, with_APIKey v (orDefault (ak_Header a) "X-Api-Key") entry)
        end
      else if (au_Type auth =? authTypeBasic) then
        match au_Basic auth with
        | None => missing "basic auth requires basic.secretRef"
        | Some b =>
            let! u := readSecretKey ns (ba_SecretRef b) (orDefault (ba_UsernameKey b) "username") in
            match u with
            | Err e => Ret (Err (wrapf "reading Basic auth username from secret: " e))
            | Ok username =>
                withSecret "reading Basic auth password from secret: " ns (ba_SecretRef b)
                  (orDefault (ba_PasswordKey b) "password") (λ password, with_Basic username password entry)
            end
        end
      else if (au_Type auth =? authTypeIPAllowlist) then
        Ret (Ok (with_IPs (default [] (au_IPAllowlist auth)) entry))
      else if (au_Type auth =? authTypeOIDC) then
        match au_OIDC auth with
        | None => missing "oidc auth requires oidc config"
        | Some o => buildOIDC entry o
        end
      else if (au_Type auth =? authTypeHeaderEquals) then
        match au_HeaderEquals auth with
        | None => missing "header-equals auth requires headerEquals config"
        | Some he => withSecret "reading header-equals secret: " ns (sr_Name (he_SecretRef he))
                       (sr_Key (he_SecretRef he)) (λ v, with_HeaderEquals (he_Header he) v entry)
        end
      else Ret (Ok entry)
  end.

Definition handleTrigger (trigger : Trigger) (w : TriggerWatcher) : Prog GEv TriggerWatcher :=
  let idx := Update (trigger_key trigger) (secretRefsForTrigger trigger) (tw_secretIndex w) in
  let triggers := <[trigger_key trigger := trigger]> (tw_triggers w) in
  let deregistered := MkWatcher (Deregister (entryRoutePath trigger) (tw_registry w)) idx triggers in
  if (ts_Type (tg_Spec trigger) =? triggerTypeWebhook) && ts_Enabled (tg_Spec trigger) then
    match ts_Webhook (tg_Spec trigger) with
    | Some wh =>
        let! e := buildRouteEntry trigger wh in
        match e with
        | Err _ => Ret (MkWatcher (tw_registry w) idx triggers)
        | Ok entry => Ret (MkWatcher (Register (entryRoutePath trigger) entry (tw_registry w)) idx triggers)
        end
    | None => Ret deregistered
    end
  else Ret deregistered.

Definition handleDelete (trigger : Trigger) (w : TriggerWatcher) : TriggerWatcher :=
  MkWatcher (Deregister (entryRoutePath trigger) (tw_registry w))
    (Remove (trigger_key trigger) (tw_secretIndex w))
    (delete (trigger_key trigger) (tw_triggers w)).

Definition handleSecretChange (secretKey : NamespacedName) (w : TriggerWatcher) : Prog GEv TriggerWatcher :=
  pfold (λ w triggerKey,
    match tw_triggers w !! triggerKey with
    | None => Ret w
    | Some trigger => handleTrigger trigger w
    end) (ObjectsFor secretKey (tw_secretIndex w)) w.

(** ** Properties *)

(** The Secrets read are the Trigger's own. *)
Definition own_secrets (ns : string) (X : Type) (e : GEv X) : Prop :=
  match e with
  | GGetSecret ns' _ => ns' = ns
  | GDiscoverJWKS _ | GJwksRegister _ | GJwksRefresh _ => True
  | _ => False
  end.

Definition configured_auth (wh : WebhookTrigger) : string :=
  match wh_Auth wh with Some a => au_Type a | None => "" end.

Lemma wp_withSecret prefix ns name key k (Q : result RouteEntry → unit → Prop) :
  (∀ v, Q (Ok (k v)) tt) → (∀ e, Q (Err e) tt) →
  wp (any_spec (own_secrets ns)) (withSecret prefix ns name key k) tt Q.
Proof.
  intros HOk HErr. unfold withSecret, readSecretKey. repeat wp_step; try done; try apply HErr; try apply HOk.
Qed.

Lemma baseEntry_fields trigger wh type :
  re_AuthType (baseEntry trigger wh type) = type ∧
  re_TriggerNamespace (baseEntry trigger wh type) = m_Namespace (tg_Meta trigger) ∧
  re_TriggerName (baseEntry trigger wh type) = m_Name (tg_Meta trigger) ∧
  re_FlowRef (baseEntry trigger wh type) = ts_FlowRef (tg_Spec trigger).
Proof. unfold baseEntry. by destruct (wh_RateLimit wh). Qed.

(** A built entry keeps the fields of the base entry, and is not one of OIDC. *)
Ltac route_ok :=
  intros; cbn [wp];
  match goal with He : re_AuthType ?e = au_Type _ ∧ _ |- _ =>
    destruct He as (Ha' & Hns' & Hn' & Hf'); split_and!; try done;
    intros Hx; exfalso; revert Hx; change (re_AuthType e = authTypeOIDC → False); rewrite Ha'; first [congruence | match goal with Ht : au_Type _ = _ |- _ => rewrite Ht; discriminate end] end.

Lemma buildRouteEntry_fields trigger wh :
  wp (any_spec (own_secrets (m_Namespace (tg_Meta trigger)))) (buildRouteEntry trigger wh) tt
    (λ x _, match x with
            | Err _ => True
            | Ok e => re_AuthType e = configured_auth wh ∧
                      re_TriggerNamespace e = m_Namespace (tg_Meta trigger) ∧
                      re_TriggerName e = m_Name (tg_Meta trigger) ∧
                      re_FlowRef e = ts_FlowRef (tg_Spec trigger) ∧
                      (re_AuthType e = authTypeOIDC → is_Some (re_OIDCValidator e))
            end).
Proof.
  pose proof (baseEntry_fields trigger wh "") as (Ha & Hns & Hn & Hf).
  assert (re_AuthType (baseEntry trigger wh "") = authTypeOIDC → is_Some (re_OIDCValidator (baseEntry trigger wh ""))) as Hv by (rewrite Ha; discriminate).
  unfold buildRouteEntry, configured_auth. destruct (wh_Auth wh) as [auth|]; [|cbn [wp]; by split_and!].
  cbv zeta. set (entry := baseEntry trigger wh (au_Type auth)).
  assert (re_AuthType entry = au_Type auth ∧ re_TriggerNamespace entry = m_Namespace (tg_Meta trigger) ∧
    re_TriggerName entry = m_Name (tg_Meta trigger) ∧ re_FlowRef entry = ts_FlowRef (tg_Spec trigger)) as He
    by apply baseEntry_fields.
  destruct (String.eqb_spec (au_Type auth) "") as [->|Hne]; [cbn [wp]; by split_and!|].
  repeat match goal with |- context [if (au_Type auth =? ?t) then _ else _] => destruct (String.eqb_spec (au_Type auth) t) as [Ht|] end;
    try (match goal with |- context [match ?o with Some _ => _ | None => _ end] => destruct o end);
    try done;
    try (apply wp_withSecret; [|done]; route_ok); try route_ok.
  - apply wp_bind; [apply _|]. unfold readSecretKey. repeat wp_step; try done. apply wp_withSecret; [|done]. route_ok.
  - unfold buildOIDC, discoverJWKSURL, RegisterJWKSURL. destruct He as (? & ? & ? & ?). repeat wp_step; try done.
    all: split_and!; try done; by eexists.
Qed.

(** The cluster and the identity providers as a route's construction sees them:
    the Secrets of the Trigger's namespace and the discovery documents. *)
Definition route_spec (ns : string) (secrets : string → result (gmap string string)) (discovery : string → DiscoveryReply)
    : Spec GEv unit := λ X e g Q,
  match e in GEv X' return (X' → unit → Prop) → Prop with
  | GGetSecret ns' name => λ Q, ns' = ns ∧ Q (secrets name) tt
  | GDiscoverJWKS url => λ Q, Q (discovery url) tt
  | GJwksRegister _ => λ Q, ∀ x, Q x tt
  | GJwksRefresh _ => λ Q, ∀ x, Q x tt
  | _ => λ _, False
  end Q.

#[global] Instance route_spec_mono ns secrets discovery : MonoSpec (route_spec ns secrets discovery).
Proof. intros X e g P Q HPQ Hs. destruct e; cbn in *; try done; try (intros; by apply HPQ, Hs). destruct Hs; split; auto. Qed.

Section credentials.
  Context (secrets : string → result (gmap string string)) (discovery : string → DiscoveryReply).

Definition holds (name key v : string) : Prop := ∃ data, secrets name = Ok data ∧ data !! key = Some v.

(** A route has the credentials its Trigger configures: the values of the
    Secrets, the listed addresses, or the issuer's keys. *)
Definition credentials (auth : WebhookAuth) (e : RouteEntry) : Prop :=
  let value (ref : SecretKeySelector) v := holds (sr_Name ref) (sr_Key ref) v in
  let type := au_Type auth in
  if (type =? "hmac") then
    ∃ c, au_HMAC auth = Some c ∧ value (hm_SecretRef c) (re_HMACSecret e) ∧
      re_HMACProvider e = (if (hm_Provider c =? "") then "github" else hm_Provider c) ∧
      re_HMACTimestampToleranceSec e = (if (hm_TimestampToleranceSeconds c <=? 0)%Z then 300%Z else hm_TimestampToleranceSeconds c)
  else if (type =? "bearer") then ∃ c, au_Bearer auth = Some c ∧ value (be_TokenSecretRef c) (re_BearerToken e)
  else if (type =? "apiKey") then
    ∃ c, au_APIKey auth = Some c ∧ value (ak_SecretRef c) (re_APIKey e) ∧
      re_APIKeyHeader e = (if (ak_Header c =? "") then "X-Api-Key" else ak_Header c)
  else if (type =? "basic") then
    ∃ c, au_Basic auth = Some c ∧
      holds (ba_SecretRef c) (if (ba_UsernameKey c =? "") then "username" else ba_UsernameKey c) (re_BasicUsername e) ∧
      holds (ba_SecretRef c) (if (ba_PasswordKey c =? "") then "password" else ba_PasswordKey c) (re_BasicPassword e)
  else if (type =? "ipAllowlist") then re_IPAllowlist e = default [] (au_IPAllowlist auth)
  else if (type =? "oidc") then
    ∃ c url, au_OIDC auth = Some c ∧ url ≠ "" ∧
      discovery (TrimRight (oi_Issuer c) "/" +:+ "/.well-known/openid-configuration") = DResponse 200 (Ok url) ∧
      re_OIDCValidator e = Some (MkOidcValidator url (oi_Issuer c) (oi_Audience c))
  else if (type =? "header-equals") then
    ∃ c, au_HeaderEquals auth = Some c ∧ re_HeaderEqualsHeader e = he_Header c ∧ value (he_SecretRef c) (re_HeaderEqualsValue e)
  else True.

(** What building a route may give. *)
Definition route_built (trigger : Trigger) (wh : WebhookTrigger) (x : result RouteEntry) : Prop :=
  match x with
  | Ok e =>
      re_AuthType e = configured_auth wh ∧
      re_TriggerNamespace e = m_Namespace (tg_Meta trigger) ∧ re_TriggerName e = m_Name (tg_Meta trigger) ∧
      re_FlowRef e = ts_FlowRef (tg_Spec trigger) ∧
      re_RedactHeaders e = wh_RedactHeaders wh ∧ re_RedactBody e = wh_RedactBody wh ∧
      ∀ auth, wh_Auth wh = Some auth → credentials auth e
  | Err _ => ∃ auth, wh_Auth wh = Some auth ∧ (au_Type auth = "oidc" ∨ ∀ e, ¬ credentials auth e)
  end.

Lemma holds_unique name key v v' : holds name key v → holds name key v' → v = v'.
Proof. intros (d & H1 & H2) (d' & H1' & H2'). congruence. Qed.

Lemma wp_readSecretKey ns name key (Q : result string → unit → Prop) :
  (∀ v, holds name key v → Q (Ok v) tt) → (∀ e, (∀ v, ¬ holds name key v) → Q (Err e) tt) →
  wp (route_spec ns secrets discovery) (readSecretKey ns name key) tt Q.
Proof.
  intros HOk HErr. unfold readSecretKey. apply wp_bind; [apply _|]. split; [done|].
  destruct (secrets name) as [data|e] eqn:Hs; cbn [wp].
  - destruct (data !! key) as [v|] eqn:Hv; cbn [wp]; [apply HOk; by exists data|apply HErr].
    intros v (d & Hd & Hk). congruence.
  - apply HErr. intros v (d & Hd & _). congruence.
Qed.

Lemma wp_withSecret_value prefix ns name key k (Q : result RouteEntry → unit → Prop) :
  (∀ v, holds name key v → Q (Ok (k v)) tt) → (∀ e, (∀ v, ¬ holds name key v) → Q (Err e) tt) →
  wp (route_spec ns secrets discovery) (withSecret prefix ns name key k) tt Q.
Proof.
  intros HOk HErr. unfold withSecret. apply wp_bind; [apply _|]. apply wp_readSecretKey; [intros v Hv|intros e He]; cbn [wp]; auto.
Qed.

Lemma base_redaction trigger wh type :
  re_RedactHeaders (baseEntry trigger wh type) = wh_RedactHeaders wh ∧ re_RedactBody (baseEntry trigger wh type) = wh_RedactBody wh.
Proof. unfold baseEntry. by destruct (wh_RateLimit wh). Qed.

(** The route is the base entry with credentials filled in. *)
Lemma built_ok trigger wh auth e :
  wh_Auth wh = Some auth →
  re_AuthType e = re_AuthType (baseEntry trigger wh (au_Type auth)) →
  re_TriggerNamespace e = re_TriggerNamespace (baseEntry trigger wh (au_Type auth)) →
  re_TriggerName e = re_TriggerName (baseEntry trigger wh (au_Type auth)) →
  re_FlowRef e = re_FlowRef (baseEntry trigger wh (au_Type auth)) →
  re_RedactHeaders e = re_RedactHeaders (baseEntry trigger wh (au_Type auth)) →
  re_RedactBody e = re_RedactBody (baseEntry trigger wh (au_Type auth)) →
  credentials auth e → route_built trigger wh (Ok e).
Proof.
  intros Hauth H1 H2 H3 H4 H5 H6 Hc. pose proof (baseEntry_fields trigger wh (au_Type auth)) as (Ha & Hns & Hn & Hf).
  destruct (base_redaction trigger wh (au_Type auth)) as [Hh Hb]. unfold route_built, configured_auth. rewrite Hauth.
  split_and!; congruence.
Qed.

Lemma buildOIDC_built trigger wh auth c :
  wh_Auth wh = Some auth → au_Type auth = "oidc" → au_OIDC auth = Some c →
  wp (route_spec (m_Namespace (tg_Meta trigger)) secrets discovery) (buildOIDC (baseEntry trigger wh (au_Type auth)) c) tt
    (λ x _, route_built trigger wh x).
Proof.
  intros Hauth Ht Hc. assert (∀ e, route_built trigger wh (Err e)) as Herr by (intros e; exists auth; auto).
  unfold buildOIDC, discoverJWKSURL. apply wp_bind; [apply _|]. apply wp_bind; [apply _|]. cbn [wp emit route_spec].
  set (url := TrimRight _ _ +:+ _). destruct (discovery url) as [e|e|code doc] eqn:Hd; cbn [wp]; try apply Herr.
  destruct (Z.eqb_spec code 200) as [->|]; cbn [negb]; [|apply Herr]. destruct doc as [jwks|e]; [|apply Herr].
  destruct (String.eqb_spec jwks "") as [|Hj]; [apply Herr|]. apply wp_bind; [apply _|]. unfold RegisterJWKSURL.
  assert (route_built trigger wh (Ok (with_OIDC (MkOidcValidator jwks (oi_Issuer c) (oi_Audience c)) (baseEntry trigger wh (au_Type auth))))) as Hok.
  { apply (built_ok _ _ auth); try done. unfold credentials. rewrite Ht. cbn [String.eqb Ascii.eqb Bool.eqb]. by exists c, jwks. }
  apply wp_bind; [apply _|]. intros [[]|e]; cbn [wp]; [|apply Herr].
  apply wp_bind; [apply _|]. intros [ks|e]; cbn [wp]; exact Hok.
Qed.

End credentials.

(** A scheme other than OIDC: either its configuration is missing, or the Secret
    decides. *)
Ltac scheme auth Ht :=
  unfold credentials; rewrite Ht; cbn [String.eqb Ascii.eqb Bool.eqb authTypeHMAC authTypeBearer authTypeAPIKey authTypeBasic authTypeHeaderEquals].

(** A scheme with one Secret value: the entry built from the value, or none. *)
Ltac one_secret auth Ht c Herr :=
  apply wp_withSecret_value;
  [ let v := fresh in let Hv := fresh in intros v Hv; apply (built_ok _ _ _ _ auth); try done; scheme auth Ht; by exists c
  | let He := fresh in intros ? He; apply Herr; intros ?; scheme auth Ht; intros (? & ? & ?); simplify_eq; destruct_and?; by eapply He ].


Lemma Lookup_Register p q e reg :
  Lookup q (Register p e reg)
  = if decide (normalizePath p = normalizePath q)
    then Some (set_AllowedMethod (ToUpper (re_AllowedMethod e)) e) else Lookup q reg.
Proof.
  unfold Lookup, Register. simpl. case_decide as Hd; [by rewrite Hd, lookup_insert_eq|].
  by rewrite lookup_insert_ne.
Qed.

Lemma Lookup_Deregister p q reg :
  Lookup q (Deregister p reg) = if decide (normalizePath p = normalizePath q) then None else Lookup q reg.
Proof.
  unfold Lookup, Deregister. simpl. case_decide as Hd; [by rewrite Hd, lookup_delete_eq|].
  by rewrite lookup_delete_ne.
Qed.

(** An event for a Trigger changes at most the route of its current path.
    On that path it leaves either the entry just built from the Trigger, or (for
    a disabled or other Trigger) no route, or (when the entry cannot be built)
    what was there before.  In particular a route registered under a path the
    Trigger used to have stays registered, with its old credentials. *)
Theorem handleTrigger_own_path trigger w (h : ∀ X, GEv X → X) q :
  let w' := run_pure h (handleTrigger trigger w) in
  (normalizePath (entryRoutePath trigger) ≠ normalizePath q →
     Lookup q (tw_registry w') = Lookup q (tw_registry w)) ∧
  (normalizePath (entryRoutePath trigger) = normalizePath q →
     Lookup q (tw_registry w') = None ∨
     (∃ wh, ts_Webhook (tg_Spec trigger) = Some wh ∧ ts_Enabled (tg_Spec trigger) = true ∧
        match run_pure h (buildRouteEntry trigger wh) with
        | Ok e => Lookup q (tw_registry w') = Some (set_AllowedMethod (ToUpper (re_AllowedMethod e)) e)
        | Err _ => Lookup q (tw_registry w') = Lookup q (tw_registry w)
        end)).
Proof.
  cbv zeta. unfold handleTrigger. cbv zeta.
  destruct ((_ =? _) && _) eqn:Hc.
  - apply andb_prop in Hc as [_ Hen]. destruct (ts_Webhook (tg_Spec trigger)) as [wh|] eqn:Hw.
    + rewrite run_pure_bind. destruct (run_pure h (buildRouteEntry trigger wh)) as [e|e] eqn:Hb; simpl.
      * rewrite Lookup_Register. split; intros Hp; [by rewrite decide_False|].
        right. exists wh. rewrite Hb, decide_True by done. done.
      * split; [done|]. intros _. right. exists wh. by rewrite Hb.
    + simpl. rewrite Lookup_Deregister. split; intros Hp; [by rewrite decide_False|]. left. by rewrite decide_True.
  - simpl. rewrite Lookup_Deregister. split; intros Hp; [by rewrite decide_False|]. left. by rewrite decide_True.
Qed.

End watcher.
