(* ===== verification/Crl.v ===== *)
(** * Client-certificate revocation in the webhook gateway

    [internal/gateway/webhook/crl.go]: the ConfigMap that carries the
    revocation list, the holder shared with the TLS handshakes, the staleness
    timer and the check itself, which decides full handshakes (a resumed
    session does not reach it).  DER parsing is the parameter
    [ParseRevocationList]. *)

From S2P Require Import Prelude GoStd Api Effects Interp.

Local Open Scope string_scope.
Local Open Scope list_scope.
Local Open Scope go_scope.

(** [x509.RevocationList] and [x509.Certificate], the fields read; a nil serial
    number is [None], times are nanoseconds. *)
Record RevocationList := MkCRL { crl_NextUpdate : Z; crl_Revoked : list (option Z) }.
Record Certificate := MkCert { cert_SerialNumber : option Z }.

Class CrlLib := {
  ParseRevocationList : string → result RevocationList;
  FormatRFC3339UTC : Z → string
}.

(** [corev1.ConfigMap] *)
Record ConfigMap := MkConfigMap {
  cm_Name : string;
  cm_Namespace : string;
  cm_Data : gmap string string;
  cm_BinaryData : gmap string string
}.

Definition crlConfigMapKey : string := "crl.der".
Definition crlStalenessCheckInterval : Z := 30 * Second.

(** The part of [TriggerWatcher] used here, and its gauges. *)
Record CrlWatcher := MkCrlWatcher {
  cw_crlConfigMapName : string;
  cw_crlHolder : option RevocationList;
  cw_parseErrors : Z;
  cw_staleGauge : option Z;
  cw_nextUpdateGauge : option Z
}.

Section crl.
  Context `{CrlLib}.

(** [time.Now().After(crl.NextUpdate)] *)
Definition isCRLStale (now : Z) (crl : RevocationList) : bool := (crl_NextUpdate crl <? now)%Z.

Definition updateCRLMetrics (now : Z) (crl : RevocationList) (w : CrlWatcher) : CrlWatcher * bool :=
  let stale := isCRLStale now crl in
  (MkCrlWatcher (cw_crlConfigMapName w) (cw_crlHolder w) (cw_parseErrors w)
     (Some (if stale then 1 else 0)%Z) (Some (crl_NextUpdate crl / Second)%Z), stale).

Definition countParseError (w : CrlWatcher) : CrlWatcher :=
  MkCrlWatcher (cw_crlConfigMapName w) (cw_crlHolder w) (cw_parseErrors w + 1) (cw_staleGauge w) (cw_nextUpdateGauge w).

Definition storeCRL (crl : RevocationList) (w : CrlWatcher) : CrlWatcher :=
  MkCrlWatcher (cw_crlConfigMapName w) (Some crl) (cw_parseErrors w) (cw_staleGauge w) (cw_nextUpdateGauge w).

(** The bytes of the list in a ConfigMap, binary data first; empty if none. *)
Definition crlBytes (cm : ConfigMap) : string :=
  let der := default "" (cm_BinaryData cm !! crlConfigMapKey) in
  if (der =? "") then default "" (cm_Data cm !! crlConfigMapKey) else der.

(** [None] is an object that is not a ConfigMap. *)
Definition handleCRLConfigMap (obj : option ConfigMap) (now : Z) (w : CrlWatcher) : CrlWatcher :=
  match obj with
  | None => w
  | Some cm =>
      if negb (cm_Name cm =? cw_crlConfigMapName w) then w
      else
        let der := crlBytes cm in
        if (der =? "") then countParseError w
        else match ParseRevocationList der with
             | Err _ => countParseError w
             | Ok crl => fst (updateCRLMetrics now crl (storeCRL crl w))
             end
  end.

(** One tick of [watchCRLStaleness]: the state, whether it was stale, and
    whether the transition is logged. *)
Definition stalenessTick (now : Z) (w : CrlWatcher) (wasStale : bool) : CrlWatcher * bool * bool :=
  match cw_crlHolder w with
  | None => (w, wasStale, false)
  | Some crl =>
      let '(w, stale) := updateCRLMetrics now crl w in
      (w, stale, stale && negb wasStale)
  end.

Definition revokes (leaf : Certificate) (revoked : option Z) : bool :=
  match cert_SerialNumber leaf, revoked with
  | Some s, Some r => (s =? r)%Z
  | _, _ => false
  end.

(** The chains in order, the first certificate of each. *)
Fixpoint checkChains (revoked : list (option Z)) (chains : list (list Certificate)) : option gerr :=
  match chains with
  | [] => None
  | [] :: chains => checkChains revoked chains
  | (leaf :: _) :: chains =>
      if existsb (revokes leaf) revoked
      then Some (errorf ("client certificate rejected: serial "
                         +:+ match cert_SerialNumber leaf with Some s => Itoa s | None => "" end +:+ " is revoked"))
      else checkChains revoked chains
  end.

(** The verification callback, which [crypto/tls] runs in full handshakes and
    not when a session is resumed; [now] is read only when a list is loaded. *)
Definition VerifyClientCertNotRevoked (crlHolder : option RevocationList) (now : Z)
    (verifiedChains : list (list Certificate)) : option gerr :=
  match crlHolder with
  | None => None
  | Some crl =>
      if isCRLStale now crl
      then Some (errorf ("client certificate rejected: mTLS CRL is stale (nextUpdate "
                         +:+ FormatRFC3339UTC (crl_NextUpdate crl) +:+ " has passed)"))
      else checkChains (crl_Revoked crl) verifiedChains
  end.

(** ** Specification *)

(** What happens to the gateway: ConfigMap events, ticks, and time. *)
Inductive CrlEvent := CrlConfigMap (obj : option ConfigMap) (now : Z) | CrlTick (now : Z).

Definition crlStep (w : CrlWatcher * bool) (e : CrlEvent) : CrlWatcher * bool :=
  match e with
  | CrlConfigMap obj now => (handleCRLConfigMap obj now w.1, w.2)
  | CrlTick now => let '(w', stale, _) := stalenessTick now w.1 w.2 in (w', stale)
  end.

(** The list a ConfigMap event carries: the ConfigMap is the one configured, and
    its entry [crl.der], of the binary data or, where that is missing or empty,
    of the text data, is not empty and parses. *)
Inductive carries (name : string) : CrlEvent → RevocationList → Prop :=
  | carries_binary cm now der crl :
      cm_Name cm = name → cm_BinaryData cm !! "crl.der" = Some der → der ≠ "" → ParseRevocationList der = Ok crl →
      carries name (CrlConfigMap (Some cm) now) crl
  | carries_text cm now der crl :
      cm_Name cm = name → (∀ b, cm_BinaryData cm !! "crl.der" = Some b → b = "") →
      cm_Data cm !! "crl.der" = Some der → der ≠ "" → ParseRevocationList der = Ok crl →
      carries name (CrlConfigMap (Some cm) now) crl.

(** The last list that parsed, among the events in order. *)
Inductive last_list (name : string) : list CrlEvent → option RevocationList → Prop :=
  | last_none : last_list name [] None
  | last_new es e crl : carries name e crl → last_list name (es ++ [e]) (Some crl)
  | last_old es e acc : last_list name es acc → (∀ crl, ¬ carries name e crl) → last_list name (es ++ [e]) acc.

(** A client certificate is acceptable: no list, or a fresh one that does not
    name the leaf of any verified chain. *)
Definition acceptable (crl : option RevocationList) (now : Z) (chains : list (list Certificate)) : Prop :=
  ∀ l, crl = Some l →
    (now <= crl_NextUpdate l)%Z ∧
    ∀ leaf rest s, leaf :: rest ∈ chains → cert_SerialNumber leaf = Some s → Some s ∉ crl_Revoked l.

Lemma checkChains_none revoked chains :
  checkChains revoked chains = None ↔
  ∀ leaf rest s, leaf :: rest ∈ chains → cert_SerialNumber leaf = Some s → Some s ∉ revoked.
Proof.
  induction chains as [|[|leaf rest] chains IH]; cbn [checkChains].
  - split; [|done]. intros _ leaf rest s Hin. by apply not_elem_of_nil in Hin.
  - rewrite IH. split; intros Hall l r s Hin.
    + apply elem_of_cons in Hin as [?|Hin]; [done|]. by apply (Hall l r).
    + apply (Hall l r). by right.
  - destruct (existsb (revokes leaf) revoked) eqn:He.
    + split; [done|]. intros Hall. apply existsb_exists in He as ([r|] & Hr & Hrev); unfold revokes in Hrev;
        destruct (cert_SerialNumber leaf) as [s|] eqn:Hs; try done.
      apply Z.eqb_eq in Hrev as ->. exfalso. apply (Hall leaf rest r); [by left|done|]. by apply list_elem_of_In.
    + rewrite IH. split; intros Hall l r s Hin Hs.
      * apply elem_of_cons in Hin as [[= -> ->]|Hin]; [|by apply (Hall l r)]. intros Hr. apply list_elem_of_In in Hr.
        assert (existsb (revokes leaf) revoked = true); [|congruence].
        apply existsb_exists. exists (Some s). split; [done|]. unfold revokes. rewrite Hs. apply Z.eqb_refl.
      * apply (Hall l r); [by right|done].
Qed.

(** The list read from a ConfigMap of the name. *)
Definition loaded (cm : ConfigMap) : option RevocationList :=
  if (crlBytes cm =? "") then None else match ParseRevocationList (crlBytes cm) with Ok crl => Some crl | Err _ => None end.

Lemma loaded_spec name cm now crl :
  carries name (CrlConfigMap (Some cm) now) crl ↔ cm_Name cm = name ∧ loaded cm = Some crl.
Proof.
  unfold loaded, crlBytes, crlConfigMapKey. split.
  - inversion 1 as [? ? der ? Hn Hb Hne Hp|? ? der ? Hn Hb Hd Hne Hp]; subst; (split; [done|]).
    + rewrite Hb. cbn. rewrite (proj2 (String.eqb_neq der "") Hne). by rewrite (proj2 (String.eqb_neq der "") Hne), Hp.
    + destruct (cm_BinaryData cm !! "crl.der") as [b|] eqn:Hbin; cbn.
      * rewrite (Hb b eq_refl), String.eqb_refl, Hd. cbn. by rewrite (proj2 (String.eqb_neq der "") Hne), Hp.
      * rewrite Hd. cbn. by rewrite (proj2 (String.eqb_neq der "") Hne), Hp.
  - intros [Hn Hl]. destruct (cm_BinaryData cm !! "crl.der") as [b|] eqn:Hbin; cbn in Hl.
    + destruct (String.eqb_spec b "") as [->|Hne].
      * destruct (cm_Data cm !! "crl.der") as [d|] eqn:Hd; cbn in Hl; [|done]. destruct (String.eqb_spec d "") as [->|Hne]; [done|].
        destruct (ParseRevocationList d) as [c|] eqn:Hp; [|done]. injection Hl as <-. eapply carries_text; try done.
        intros b. rewrite Hbin. by intros [= <-].
      * destruct (String.eqb_spec b ""); [done|]. destruct (ParseRevocationList b) as [c|] eqn:Hp; [|done]. injection Hl as <-.
        by eapply carries_binary.
    + destruct (cm_Data cm !! "crl.der") as [d|] eqn:Hd; cbn in Hl; [|done]. destruct (String.eqb_spec d "") as [->|Hne]; [done|].
      destruct (ParseRevocationList d) as [c|] eqn:Hp; [|done]. injection Hl as <-. eapply carries_text; try done.
      intros b. by rewrite Hbin.
Qed.

(** One event: the name is kept, and the list held is the one carried, if any. *)
Lemma crlStep_holder name e w stale :
  cw_crlConfigMapName w = name →
  let w' := (crlStep (w, stale) e).1 in
  cw_crlConfigMapName w' = name ∧
  ((∃ crl, carries name e crl ∧ cw_crlHolder w' = Some crl) ∨ ((∀ crl, ¬ carries name e crl) ∧ cw_crlHolder w' = cw_crlHolder w)).
Proof.
  intros Hn. cbn zeta. destruct e as [[cm|] now|now]; cbn [crlStep fst snd].
  - unfold handleCRLConfigMap. rewrite Hn. setoid_rewrite loaded_spec. destruct (String.eqb_spec (cm_Name cm) name) as [Hm|Hm]; cbn [negb].
    + unfold loaded. destruct (crlBytes cm =? ""); [split; [done|]; right; split; [by intros crl [_ ?]|done]|].
      destruct (ParseRevocationList (crlBytes cm)) as [crl|e]; cbn; (split; [done|]).
      * left. by exists crl.
      * right. split; [by intros crl [_ ?]|done].
    + split; [done|]. right. split; [by intros crl [? _]|done].
  - split; [done|]. right. split; [by inversion 1|done].
  - unfold stalenessTick. destruct (cw_crlHolder w) as [crl|] eqn:Hc; cbn; (split; [done|]); right; (split; [by inversion 1|congruence]).
Qed.

Lemma holder_last_list name es :
  let w := (fold_left crlStep es (MkCrlWatcher name None 0 None None, false)).1 in
  cw_crlConfigMapName w = name ∧ last_list name es (cw_crlHolder w).
Proof.
  induction es as [|e es [IHn IHl]] using rev_ind; [split; [done|constructor]|]. rewrite fold_left_app. cbn [fold_left] in *.
  destruct (fold_left crlStep es _) as [w stale] eqn:Hw. cbn [fst] in *.
  destruct (crlStep_holder name e w stale IHn) as [Hn [(crl & Hc & ->)|[Hnot ->]]]; (split; [done|]).
  - by constructor.
  - by apply last_old.
Qed.

Lemma carries_unique name e crl crl' : carries name e crl → carries name e crl' → crl = crl'.
Proof. destruct e as [[cm|] now|now]; [|by inversion 1..]. rewrite !loaded_spec. intros [_ H1] [_ H2]. congruence. Qed.

Lemma last_list_unique name es a : last_list name es a → ∀ b, last_list name es b → a = b.
Proof.
  induction 1 as [|es e crl Hc|es e acc Hl IH Hno]; intros b Hb; inversion Hb as [He|es' e' crl' Hc' He|es' e' acc' Hl' Hno' He]; subst; try done.
  all: try (by destruct es). all: try (by destruct es').
  - apply app_inj_tail in He as [-> ->]. f_equal. by eapply carries_unique.
  - apply app_inj_tail in He as [-> ->]. by destruct (Hno' crl).
  - apply app_inj_tail in He as [-> ->]. by destruct (Hno crl').
  - apply app_inj_tail in He as [-> ->]. by apply IH.
Qed.

(** C32: After any ConfigMap events and timer ticks, the verification callback of a
    full TLS handshake accepts the client exactly when the last revocation list
    that parsed is still fresh and does not name the leaf of a verified chain
    (or no list was ever loaded): a bad or missing ConfigMap never clears a
    list, and a stale list rejects every client.  (A resumed session is not
    checked again, as [crypto/tls] does not run the callback for it.) *)
Theorem crl_handshake name es now chains :
  let w := (fold_left crlStep es (MkCrlWatcher name None 0 None None, false)).1 in
  ∃ crl, (∀ c, last_list name es c ↔ c = crl) ∧
    (VerifyClientCertNotRevoked (cw_crlHolder w) now chains = None ↔ acceptable crl now chains).
Proof.
  cbv zeta. destruct (holder_last_list name es) as [_ Hh]. exists (cw_crlHolder (fold_left crlStep es (MkCrlWatcher name None 0 None None, false)).1).
  split; [intros c; split; [intros Hc; by eapply last_list_unique|by intros ->]|]. clear Hh.
  unfold VerifyClientCertNotRevoked, acceptable, isCRLStale. destruct (cw_crlHolder _) as [l|]; [|done].
  destruct (Z.ltb_spec (crl_NextUpdate l) now) as [Hs|Hs].
  - split; [done|]. intros Ha. destruct (Ha l eq_refl). lia.
  - rewrite checkChains_none. split; [intros Hall ? [= <-]; split; [lia|done]|]. intros Ha. by apply Ha.
Qed.

End crl.
