(* ===== verification/Admission.v ===== *)
(** * The admission webhooks

    [internal/webhook/trigger_webhook.go] and
    [internal/webhook/flowrun_webhook.go].  Decoding into the API types is the
    class [AdmissionLib]; a call on a nil decoder is the response [Panic]. *)

From S2P Require Import Prelude SecretIndex GoStd Api Net Effects Interp Ssrf Executor Webhook WebhookWatcher.

Local Open Scope string_scope.
Local Open Scope list_scope.
Local Open Scope go_scope.

Class AdmissionLib := {
  DecodeTrigger : string → result Trigger;
  DecodeFlowRun : string → result FlowRun
}.

Inductive AdmissionResponse :=
  | Errored (code : Z) (e : gerr)
  | Denied (reason : string)
  | Allowed (warnings : list string)
  | Panic.

Section admission.
  Context `{GoLib, AdmissionLib, WebLib}.

(** [TriggerAuthAdmission.Handle] on the raw object of a request. *)
Definition TriggerAuthAdmission_Handle (raw : string) : AdmissionResponse :=
  match DecodeTrigger raw with
  | Err e => Errored 400 e
  | Ok trigger =>
      if (ts_Type (tg_Spec trigger) =? "webhook") then
        match ts_Webhook (tg_Spec trigger) with
        | Some wh =>
            match wh_Auth wh with
            | Some _ => Allowed []
            | None => Allowed ["Trigger " +:+ m_Namespace (tg_Meta trigger) +:+ "/" +:+ m_Name (tg_Meta trigger)
                       +:+ " has type webhook but no spec.webhook.auth configured — requests will be accepted from any source. Configure spec.webhook.auth for production use."]
            end
        | None => Allowed ["Trigger " +:+ m_Namespace (tg_Meta trigger) +:+ "/" +:+ m_Name (tg_Meta trigger)
                       +:+ " has type webhook but no spec.webhook.auth configured — requests will be accepted from any source. Configure spec.webhook.auth for production use."]
        end
      else Allowed []
  end.

Definition extractFlowRefNamespace (raw : gmap string (jval f64)) : string :=
  match raw !! "spec" with
  | Some (JObj spec) =>
      match spec !! "flowRef" with
      | Some (JObj flowRef) => match flowRef !! "namespace" with Some (JStr ns) => ns | _ => "" end
      | _ => ""
      end
  | _ => ""
  end.

(** The validator: whether a decoder is set. *)
Record FlowRunValidator := MkFlowRunValidator { fv_decoder : bool }.

Definition InjectDecoder (v : FlowRunValidator) : FlowRunValidator := MkFlowRunValidator true.

(** [json.Unmarshal] into a map: an object, or [null] which leaves it empty. *)
Definition unmarshalMap (raw : string) : result (gmap string (jval f64)) :=
  match json_Unmarshal raw with
  | Some (JObj m) => Ok m
  | Some JNull => Ok ∅
  | _ => Err (errorf "json: cannot unmarshal into Go value of type map[string]interface {}")
  end.

Definition FlowRunValidator_Handle (v : FlowRunValidator) (raw : string) : AdmissionResponse :=
  if negb (fv_decoder v) then Panic else
  match DecodeFlowRun raw with
  | Err e => Errored 400 e
  | Ok _ =>
      match unmarshalMap raw with
      | Err e => Errored 400 e
      | Ok m =>
          if negb (extractFlowRefNamespace m =? "")
          then Denied "cross-namespace FlowRef is not supported; FlowRef.Namespace must be empty (cross-namespace flows deferred to v1beta1 with FlowGrant CRD)"
          else Allowed []
      end
  end.

(** The handler each setup function registers. *)
Definition SetupTriggerWebhook : string → AdmissionResponse := TriggerAuthAdmission_Handle.
Definition SetupFlowRunWebhook : string → AdmissionResponse := FlowRunValidator_Handle (MkFlowRunValidator false).

(** ** Properties *)

Definition warned (r : AdmissionResponse) : bool := match r with Allowed (_ :: _) => true | _ => false end.

(** The Trigger webhook never blocks a Trigger it can decode, and its
    warning tells the truth about the gateway: for a webhook Trigger whose auth
    names a scheme (as the API's enumeration requires), a warning means every
    route the gateway builds for it is open, and no warning means every route
    it builds demands that scheme. *)
Theorem trigger_warning_exact raw trigger wh :
  DecodeTrigger raw = Ok trigger → ts_Type (tg_Spec trigger) = "webhook" → ts_Webhook (tg_Spec trigger) = Some wh →
  (∀ a, wh_Auth wh = Some a → au_Type a ≠ "") →
  (∃ ws, SetupTriggerWebhook raw = Allowed ws) ∧
  wp (any_spec (own_secrets (m_Namespace (tg_Meta trigger)))) (buildRouteEntry trigger wh) tt
     (λ x _, ∀ e, x = Ok e → (re_AuthType e = "" ↔ warned (SetupTriggerWebhook raw) = true)).
Proof.
  intros Hd Ht Hw Ha.
  assert (SetupTriggerWebhook raw = TriggerAuthAdmission_Handle raw) as -> by done.
  unfold TriggerAuthAdmission_Handle. rewrite Hd, Ht, Hw. cbn [String.eqb].
  split; [destruct (wh_Auth wh); by eexists|].
  eapply wp_mono; [apply _| |apply buildRouteEntry_fields].
  intros x [] Hx e ->. destruct Hx as [-> _]. unfold configured_auth.
  destruct (wh_Auth wh) as [a|] eqn:He; cbn; [|done]. split; [|done]. intros Hn. by destruct (Ha a).
Qed.

(** With a decoder, a FlowRun that names another namespace for its Flow, in any
    form the raw JSON allows, is denied; any other that decodes is allowed. *)
Lemma flowrun_validator_exact raw fr m :
  DecodeFlowRun raw = Ok fr → unmarshalMap raw = Ok m →
  FlowRunValidator_Handle (InjectDecoder (MkFlowRunValidator false)) raw
  = if (extractFlowRefNamespace m =? "") then Allowed []
    else Denied "cross-namespace FlowRef is not supported; FlowRef.Namespace must be empty (cross-namespace flows deferred to v1beta1 with FlowGrant CRD)".
Proof.
  intros Hd Hm. unfold FlowRunValidator_Handle. simpl. rewrite Hd, Hm. by destruct (extractFlowRefNamespace m =? "").
Qed.

(** The handler that is registered has no decoder, so it fails on every request. *)
Lemma registered_validator_panics raw : SetupFlowRunWebhook raw = Panic.
Proof. done. Qed.

End admission.
