(* ===== verification/Delivery.v ===== *)
(** * The message handlers of the broker gateways

    [internal/gateway/kafka/handler.go], [internal/gateway/amqp/handler.go] and
    [internal/gateway/nats/handler.go]: a message becomes a FlowRun, and the
    broker is told what to do with the message.  The receive loops are
    functions of the sequence of values they receive; the client libraries of
    the brokers are requests ([HEv]).  The values of AMQP header tables are
    taken in their [fmt] rendering, and the record header pointers of a Kafka
    message are not nil, as its client library fills them. *)

From S2P Require Import Prelude SecretIndex GoStd Runes Api Net Effects Ssrf Executor Webhook.

Local Open Scope string_scope.
Local Open Scope list_scope.
Local Open Scope go_scope.

(** ** Messages *)

(** [sarama.ConsumerMessage]; a nil key is [None]. *)
Record KafkaMessage := MkKafkaMessage {
  km_Topic : string;
  km_Partition : Z;
  km_Offset : Z;
  km_Key : option string;
  km_Value : string;
  km_Headers : list (string * string)
}.

(** [amqp091.Delivery] *)
Record Delivery := MkDelivery {
  de_DeliveryTag : Z;
  de_RoutingKey : string;
  de_Headers : gmap string string;
  de_Body : string
}.

(** [goamqp.Message]; [None] when there are no properties or no message id. *)
Record AmqpMessage := MkAmqpMessage {
  am_MessageID : option string;
  am_ApplicationProperties : gmap string string;
  am_Data : string
}.

(** [nats.Msg]; its JetStream metadata is a request. *)
Record NatsMsg := MkNatsMsg {
  nm_Subject : string;
  nm_Header : gmap string (list string);
  nm_Data : string
}.

Inductive InMsg :=
  | InKafka (m : KafkaMessage)
  | In091 (d : Delivery)
  | In10 (m : AmqpMessage)
  | InNats (m : NatsMsg).

(** The handler fields that are read; [mh_isJetStream] is used by nats only. *)
Record MessageHandler := MkMessageHandler {
  mh_triggerName : string;
  mh_triggerNamespace : string;
  mh_flowRefName : string;
  mh_isJetStream : bool
}.

Inductive HEv : Type → Type :=
  (** [time.Now().UnixNano()] *)
  | HNow : HEv Z
  (** [rand.Read] of that many bytes, zeros if it fails. *)
  | HRandBytes (n : nat) : HEv string
  (** The traceparent of the span started under an upstream one, or none. *)
  | HTraceparent (upstream : string) : HEv string
  | HCreate (fr : FlowRun) : HEv (result unit)
  (** [session.MarkMessage]; Ack, AcceptMessage; Nack with requeue,
      ReleaseMessage, Nak. *)
  | HMark (m : KafkaMessage) : HEv unit
  | HAck (m : InMsg) : HEv (option gerr)
  | HNack (m : InMsg) : HEv (option gerr)
  (** [msg.Metadata().Sequence.Consumer] *)
  | HJsSequence (m : NatsMsg) : HEv (result Z).

(** ** The FlowRun of a message *)

Definition gatewayFlowRun (h : MessageHandler) (type name : string) (annotations : gmap string string)
    (td : TriggerData) : FlowRun :=
  MkFlowRun
    (MkMeta name (mh_triggerNamespace h) "" 0 0
       (<["kubezap.io/trigger" := mh_triggerName h]>
        (<["kubezap.io/trigger-type" := type]> {["kubezap.io/flow" := mh_flowRefName h]}))
       annotations [] 0 None)
    (MkFlowRunSpec (mh_flowRefName h) [] (Some (MkTriggerRef (mh_triggerName h) type)) (Some td) None)
    (MkFlowRunStatus 0 PhaseEmpty [] None None [] "" None).

(** [Create], where an existing object counts as success. *)
Definition createFlowRun (fr : FlowRun) : Prog HEv (option gerr) :=
  let! c := emit (HCreate fr) in
  match c with
  | Ok _ => Ret None
  | Err e => match ekind_of e with EKAlreadyExists => Ret None | _ => Ret (Some e) end
  end.

(** ** Kafka *)

Definition kafkaType : string := "kafka".

Definition kafkaHeaders (l : list (string * string)) : gmap string string :=
  fold_left (λ m '(k, v), <[k := v]> m) l ∅.

(** A byte slice as stored text and its encoding. *)
Definition storeBytes (b : string) : string * string :=
  if utf8_valid b then (b, "utf8") else (base64_EncodeStd b, "base64").

Definition kafkaKey (key : option string) : string * string :=
  match key with None => ("", "") | Some k => storeBytes k end.

Definition kafkaRunName (h : MessageHandler) (partition offset : Z) : string :=
  sanitizeFlowRunName (mh_triggerName h +:+ "-p" +:+ Itoa partition +:+ "-offset-" +:+ Itoa offset).

Definition kafkaFlowRun (h : MessageHandler) (m : KafkaMessage) (traceparent : string) : FlowRun :=
  let hdrs := redact_StringMap (kafkaHeaders (km_Headers m)) [] in
  let '(keyStr, keyEncoding) := kafkaKey (km_Key m) in
  let '(bodyStr, bodyEncoding) := storeBytes (km_Value m) in
  gatewayFlowRun h kafkaType (kafkaRunName h (km_Partition m) (km_Offset m))
    (if (traceparent =? "") then ∅ else {["kubezap.io/traceparent" := traceparent]})
    (MkTriggerData "" "" "" "" "" kafkaType "" "" hdrs (km_Topic m) (km_Partition m) (km_Offset m)
       keyStr keyEncoding None bodyStr false bodyEncoding "").

Definition HandleMessage (h : MessageHandler) (upstream : string) (m : KafkaMessage) : Prog HEv (option gerr) :=
  let! tp := emit (HTraceparent upstream) in
  createFlowRun (kafkaFlowRun h m tp).

(** The first traceparent header. *)
Definition upstreamTrace (l : list (string * string)) : string :=
  match find_by (λ kv, (kv.1 =? "traceparent")) l with Some (_, v) => v | None => "" end.

(** The loop over the messages of a claim until its channel is closed. *)
Definition ConsumeClaim (h : MessageHandler) (messages : list KafkaMessage) : Prog HEv unit :=
  pfold (λ _ msg,
    let! _ := HandleMessage h (upstreamTrace (km_Headers msg)) msg in
    emit (HMark msg)) messages tt.

(** ** AMQP 0-9-1 *)

Definition amqpType : string := "amqp".

Definition deliveryRunName (h : MessageHandler) (tag : Z) : string :=
  sanitizeFlowRunName (mh_triggerName h +:+ "-dt" +:+ Itoa tag).

Definition deliveryFlowRun (h : MessageHandler) (d : Delivery) : FlowRun :=
  gatewayFlowRun h amqpType (deliveryRunName h (de_DeliveryTag d)) ∅
    (MkTriggerData "" "" "" "" "" amqpType "" "" (redact_StringMap (de_Headers d) []) (de_RoutingKey d) 0 0
       "" "" None (de_Body d) false "" "").

Definition handleDelivery (h : MessageHandler) (d : Delivery) : Prog HEv (option gerr) :=
  let! e := createFlowRun (deliveryFlowRun h d) in
  match e with
  | Some e => Ret (Some e)
  | None => emit (HAck (In091 d))
  end.

(** What the [select] of [Run] yields. *)
Inductive Select091 := SelDone | SelClosed | SelDelivery (d : Delivery).

Fixpoint Run091 (h : MessageHandler) (sels : list Select091) : Prog HEv unit :=
  match sels with
  | [] => Ret tt
  | SelDone :: _ => Ret tt
  | SelClosed :: _ => Ret tt
  | SelDelivery d :: sels =>
      let! e := handleDelivery h d in
      let! _ := match e with Some _ => emit (HNack (In091 d)) | None => Ret None end in
      Run091 h sels
  end.

(** ** AMQP 1.0 *)

Definition messageFlowRun (h : MessageHandler) (name : string) (m : AmqpMessage) : FlowRun :=
  gatewayFlowRun h amqpType name ∅
    (MkTriggerData "" "" "" "" "" amqpType "" "" (redact_StringMap (am_ApplicationProperties m) []) "" 0 0
       "" "" None (am_Data m) false "" "").

Definition handleMessage10 (h : MessageHandler) (m : AmqpMessage) : Prog HEv (option gerr) :=
  let! name :=
    match am_MessageID m with
    | Some id => Ret (sanitizeFlowRunName (mh_triggerName h +:+ "-" +:+ id))
    | None => let! ts := emit HNow in
              Ret (sanitizeFlowRunName (mh_triggerName h +:+ "-" +:+ Itoa ts))
    end in
  createFlowRun (messageFlowRun h name m).

(** [Receive] until it fails. *)
Fixpoint Run10 (h : MessageHandler) (received : list (result AmqpMessage)) : Prog HEv unit :=
  match received with
  | [] => Ret tt
  | Err _ :: _ => Ret tt
  | Ok m :: received =>
      let! e := handleMessage10 h m in
      let! _ := match e with Some _ => emit (HNack (In10 m)) | None => emit (HAck (In10 m)) end in
      Run10 h received
  end.

(** ** NATS *)

Definition natsType : string := "nats".

(** [%x] of a byte slice. *)
Fixpoint hexstr (s : string) : string :=
  match s with
  | EmptyString => EmptyString
  | String c s => String (hexdigit (nat_of_ascii c / 16)) (String (hexdigit (nat_of_ascii c mod 16)) (hexstr s))
  end.

Definition natsFlowRun (h : MessageHandler) (name : string) (m : NatsMsg) : FlowRun :=
  gatewayFlowRun h natsType name ∅
    (MkTriggerData "" "" "" "" "" natsType "" "" (redact_Headers (nm_Header m) []) (nm_Subject m) 0 0
       "" "" None (nm_Data m) false "" "").

Definition handleMessageNats (h : MessageHandler) (m : NatsMsg) : Prog HEv (option gerr) :=
  if mh_isJetStream h then
    let! s := emit (HJsSequence m) in
    match s with
    | Err e => Ret (Some (wrapf "get JetStream metadata: " e))
    | Ok seq => createFlowRun (natsFlowRun h (sanitizeFlowRunName (mh_triggerName h +:+ "-seq-" +:+ Itoa seq)) m)
    end
  else
    let! b := emit (HRandBytes 4) in
    let! ts := emit HNow in
    createFlowRun (natsFlowRun h
      (sanitizeFlowRunName (mh_triggerName h +:+ "-" +:+ Itoa ts +:+ "-" +:+ hexstr b)) m).

Definition HandleMessageNats (h : MessageHandler) (m : NatsMsg) : Prog HEv unit :=
  let! e := handleMessageNats h m in
  match e with
  | Some _ => if mh_isJetStream h then let! _ := emit (HNack (InNats m)) in Ret tt else Ret tt
  | None => if mh_isJetStream h then let! _ := emit (HAck (InNats m)) in Ret tt else Ret tt
  end.
