(* ===== verification/DeliveryProps.v ===== *)
(** * Properties of the message handlers

    When a broker may forget a message, what a FlowRun keeps of it, and how its
    name identifies it. *)

From S2P Require Import Prelude SecretIndex GoStd Runes Api Net Effects Ssrf Executor Webhook Delivery.

Local Open Scope string_scope.
Local Open Scope list_scope.
Local Open Scope go_scope.

(** ** What is kept of a message *)

Definition stored_bytes (text encoding : string) : option string :=
  if (encoding =? "utf8") then Some text
  else if (encoding =? "base64") then base64_DecodeStd text else None.

Lemma storeBytes_round_trip b : stored_bytes (storeBytes b).1 (storeBytes b).2 = Some b.
Proof. unfold storeBytes. destruct (utf8_valid b); [done|]. apply base64_round_trip. Qed.

(** ** Acknowledgement *)

(** What a handler does, in order: a FlowRun it asked for, with whether it
    exists afterwards; a message marked as consumed, acknowledged or handed
    back. *)
Inductive HStep :=
  | SCreate (fr : FlowRun) (exists_now : bool)
  | SMark (m : InMsg)
  | SAck (m : InMsg)
  | SNack (m : InMsg).

(** A FlowRun exists once its creation succeeded or reported that it exists. *)
Definition exists_after (x : result unit) : bool :=
  match x with Ok _ => true | Err e => bool_decide (ekind_of e = EKAlreadyExists) end.

(** The steps are logged; [answers] bounds what the API server says to a
    creation. *)
Definition step_spec (answers : result unit → Prop) : Spec HEv (list HStep) := λ X e g,
  match e in HEv X' return (X' → list HStep → Prop) → Prop with
  | HCreate fr => λ Q, ∀ x, answers x → Q x (g ++ [SCreate fr (exists_after x)])
  | HMark m => λ Q, ∀ x, Q x (g ++ [SMark (InKafka m)])
  | HAck m => λ Q, ∀ x, Q x (g ++ [SAck m])
  | HNack m => λ Q, ∀ x, Q x (g ++ [SNack m])
  | _ => λ Q, ∀ x, Q x g
  end.

#[export] Instance step_spec_mono answers : MonoSpec (step_spec answers).
Proof. intros X e g P Q HPQ Hs. destruct e; simpl in *; auto. Qed.

(** The FlowRun holds the message. *)
Definition carries (m : InMsg) (fr : FlowRun) : Prop :=
  ∃ td, frs_TriggerData (fr_Spec fr) = Some td ∧
  match m with
  | InKafka m => stored_bytes (td_Body td) (td_BodyEncoding td) = Some (km_Value m) ∧
      td_Topic td = km_Topic m ∧ td_Partition td = km_Partition m ∧ td_Offset td = km_Offset m
  | In091 d => td_Body td = de_Body d ∧ td_Topic td = de_RoutingKey d
  | In10 m => td_Body td = am_Data m
  | InNats m => td_Body td = nm_Data m ∧ td_Topic td = nm_Subject m
  end.

(** A FlowRun of the handler's Trigger, under a legal name. *)
Definition own_run (h : MessageHandler) (fr : FlowRun) : Prop :=
  fr_Namespace fr = mh_triggerNamespace h ∧ frs_FlowRef (fr_Spec fr) = mh_flowRefName h ∧
  name_chars (fr_Name fr) = true ∧ (slen (fr_Name fr) <= 253)%nat.

(** The steps for one message: only that message is settled, the last step does
    so, FlowRuns asked for are the Trigger's and hold the message, and it is
    acknowledged only when such a FlowRun exists. *)
Record handled (h : MessageHandler) (m : InMsg) (steps : list HStep) : Prop := {
  hd_last : ∃ before, steps = before ++ [SAck m] ∨ steps = before ++ [SNack m];
  hd_only m' : SAck m' ∈ steps ∨ SNack m' ∈ steps ∨ SMark m' ∈ steps → m' = m;
  hd_runs fr b : SCreate fr b ∈ steps → own_run h fr ∧ carries m fr;
  hd_ack before after : steps = before ++ SAck m :: after → ∃ fr, SCreate fr true ∈ before
}.

(** Steps that handle messages one after the other. *)
Definition one_by_one (P : InMsg → list HStep → Prop) (ms : list InMsg) (steps : list HStep) : Prop :=
  ∃ parts, steps = concat parts ∧ Forall2 P ms parts.

Lemma one_by_one_nil P : one_by_one P [] [].
Proof. by exists []. Qed.

Lemma one_by_one_cons P m ms a b : P m a → one_by_one P ms b → one_by_one P (m :: ms) (a ++ b).
Proof. intros Ha (parts & -> & Hall). exists (a :: parts). split; [done|by constructor]. Qed.

Lemma gatewayFlowRun_own h type raw ann td :
  own_run h (gatewayFlowRun h type (sanitizeFlowRunName raw) ann td).
Proof. split; [done|]. split; [done|]. apply sanitizeFlowRunName_legal. Qed.

(** The three shapes of the steps for a message. *)
Lemma handled_cases h m fr b steps :
  own_run h fr → carries m fr →
  steps = [SCreate fr true; SAck m] ∨ steps = [SCreate fr true; SAck m; SNack m] ∨
  steps = [SCreate fr b; SNack m] ∨ steps = [SNack m] → handled h m steps.
Proof.
  intros Ho Hc Hs. split.
  - destruct Hs as [->|[->|[->| ->]]]; [exists [SCreate fr true]|exists [SCreate fr true; SAck m]|exists [SCreate fr b]|exists []]; auto.
  - intros m'. destruct Hs as [->|[->|[->| ->]]]; rewrite !elem_of_cons, !elem_of_nil; naive_solver.
  - intros fr' b'. destruct Hs as [->|[->|[->| ->]]]; rewrite ?elem_of_cons, elem_of_nil; naive_solver.
  - intros before after He. exists fr. destruct before as [|x before]; [destruct Hs as [->|[->|[->| ->]]]; simplify_eq|].
    destruct Hs as [->|[->|[->| ->]]]; injection He as <- He; [by left|by left| |by destruct before].
    destruct before as [|y [|z before]]; simplify_eq/=.
Qed.

Lemma wp_createFlowRun answers fr g (Q : option gerr → list HStep → Prop) :
  Q None (g ++ [SCreate fr true]) → (∀ e, Q (Some e) (g ++ [SCreate fr false])) →
  wp (step_spec answers) (createFlowRun fr) g Q.
Proof.
  intros Hok Herr. unfold createFlowRun. apply wp_bind; [apply _|]. intros [[]|e] _; cbn [wp exists_after]; [done|].
  destruct (ekind_of e) eqn:Hk; first [rewrite bool_decide_false by done | rewrite bool_decide_true by done]; try apply Herr; done.
Qed.

(** The deliveries [Run091] takes, and the messages [Run10] takes. *)
Fixpoint taken091 (sels : list Select091) : list Delivery :=
  match sels with SelDelivery d :: sels => d :: taken091 sels | _ => [] end.
Fixpoint taken10 (l : list (result AmqpMessage)) : list AmqpMessage :=
  match l with Ok m :: l => m :: taken10 l | _ => [] end.

(** A handler of one message continued by the rest of the loop. *)
Lemma then_rest answers h m ms (rest : Prog HEv unit) g steps :
  handled h m steps →
  (∀ g, wp (step_spec answers) rest g (λ _ g', ∃ l, g' = g ++ l ∧ one_by_one (handled h) ms l)) →
  wp (step_spec answers) rest (g ++ steps) (λ _ g', ∃ l, g' = g ++ l ∧ one_by_one (handled h) (m :: ms) l).
Proof.
  intros Hs Hrest. eapply wp_mono; [apply _| |apply Hrest]. intros _ g' (l & -> & Hl).
  exists (steps ++ l). split; [by rewrite app_assoc|by apply one_by_one_cons].
Qed.

Lemma carries091 h d : carries (In091 d) (deliveryFlowRun h d).
Proof. by eexists. Qed.
Lemma carries10 h name m : carries (In10 m) (messageFlowRun h name m).
Proof. by eexists. Qed.
Lemma carriesNats h name m : carries (InNats m) (natsFlowRun h name m).
Proof. by eexists. Qed.

Lemma wp_Run091 answers h sels g :
  wp (step_spec answers) (Run091 h sels) g (λ _ g', ∃ l, g' = g ++ l ∧ one_by_one (handled h) (In091 <$> taken091 sels) l).
Proof.
  revert g. induction sels as [|[| |d] sels IH]; intros g; cbn [Run091 taken091];
    try (exists []; split; [by rewrite app_nil_r|apply one_by_one_nil]).
  assert (own_run h (deliveryFlowRun h d)) as Ho by apply gatewayFlowRun_own. pose proof (carries091 h d) as Hc.
  rewrite fmap_cons. apply wp_bind; [apply _|]. unfold handleDelivery. apply wp_bind; [apply _|]. apply wp_createFlowRun.
  - intros [e|]; cbn [wp].
    + intros x. rewrite <- !app_assoc. apply then_rest; [|done]. eapply (handled_cases _ _ _ true); [exact Ho|exact Hc|cbn [app]; tauto].
    + rewrite <- !app_assoc. apply then_rest; [|done]. eapply (handled_cases _ _ _ true); [exact Ho|exact Hc|cbn [app]; tauto].
  - intros e. cbn [wp]. intros x. rewrite <- !app_assoc. apply then_rest; [|done]. eapply (handled_cases _ _ _ false); [exact Ho|exact Hc|cbn [app]; tauto].
Qed.

Lemma wp_Run10 answers h l g :
  wp (step_spec answers) (Run10 h l) g (λ _ g', ∃ steps, g' = g ++ steps ∧ one_by_one (handled h) (In10 <$> taken10 l) steps).
Proof.
  revert g. induction l as [|[m|e] l IH]; intros g; cbn [Run10 taken10];
    try (exists []; split; [by rewrite app_nil_r|apply one_by_one_nil]).
  rewrite fmap_cons. apply wp_bind; [apply _|].
  assert (∀ raw, wp (step_spec answers) (createFlowRun (messageFlowRun h (sanitizeFlowRunName raw) m)) g (λ e g',
    wp (step_spec answers) (let! _ := match e with Some _ => emit (HNack (In10 m)) | None => emit (HAck (In10 m)) end in Run10 h l) g'
      (λ _ g', ∃ steps, g' = g ++ steps ∧ one_by_one (handled h) (In10 m :: (In10 <$> taken10 l)) steps))) as Hc.
  { intros raw. assert (own_run h (messageFlowRun h (sanitizeFlowRunName raw) m)) as Ho by apply gatewayFlowRun_own.
    pose proof (carries10 h (sanitizeFlowRunName raw) m) as Hc. apply wp_createFlowRun; [|intros e]; intros x; rewrite <- !app_assoc; (apply then_rest; [|done]).
    - eapply (handled_cases _ _ _ true); [exact Ho|exact Hc|cbn [app]; tauto].
    - eapply (handled_cases _ _ _ false); [exact Ho|exact Hc|cbn [app]; tauto]. }
  unfold handleMessage10. destruct (am_MessageID m) as [id|]; cbn [pbind]; [apply Hc|]. apply wp_bind; [apply _|]. intros ts. cbn [wp pbind]. apply Hc.
Qed.

Lemma wp_HandleMessageNats answers h m g :
  wp (step_spec answers) (HandleMessageNats h m) g (λ _ g', mh_isJetStream h = true → ∃ l, g' = g ++ l ∧ handled h (InNats m) l).
Proof.
  unfold HandleMessageNats. apply wp_bind; [apply _|].
  assert (∀ raw, wp (step_spec answers) (createFlowRun (natsFlowRun h (sanitizeFlowRunName raw) m)) g (λ e g',
    wp (step_spec answers) match e with
      | Some _ => if mh_isJetStream h then let! _ := emit (HNack (InNats m)) in Ret tt else Ret tt
      | None => if mh_isJetStream h then let! _ := emit (HAck (InNats m)) in Ret tt else Ret tt
      end g' (λ _ g', mh_isJetStream h = true → ∃ l, g' = g ++ l ∧ handled h (InNats m) l))) as Hc.
  { intros raw. assert (own_run h (natsFlowRun h (sanitizeFlowRunName raw) m)) as Ho by apply gatewayFlowRun_own.
    pose proof (carriesNats h (sanitizeFlowRunName raw) m) as Hc. apply wp_createFlowRun; [|intros e]; destruct (mh_isJetStream h); cbn [wp]; try done;
      intros x _; rewrite <- app_assoc; eexists; (split; [done|]).
    - eapply (handled_cases _ _ _ true); [exact Ho|exact Hc|cbn [app]; tauto].
    - eapply (handled_cases _ _ _ false); [exact Ho|exact Hc|cbn [app]; tauto]. }
  unfold handleMessageNats. destruct (mh_isJetStream h) eqn:Hj.
  - apply wp_bind; [apply _|]. intros [seq|e]; cbn [wp]; [apply Hc|]. intros x _. eexists. split; [done|].
    eapply (handled_cases _ _ (natsFlowRun h (sanitizeFlowRunName "") m) true); [apply gatewayFlowRun_own|apply carriesNats|auto].
  - apply wp_bind; [apply _|]. intros b. cbn [wp]. apply wp_bind; [apply _|]. intros ts. cbn [wp]. apply Hc.
Qed.


(** ** The Kafka claim loop *)

Lemma kafka_round_trip h m tp :
  ∃ td, frs_TriggerData (fr_Spec (kafkaFlowRun h m tp)) = Some td ∧
    stored_bytes (td_Body td) (td_BodyEncoding td) = Some (km_Value m) ∧
    match km_Key m with
    | None => td_KeyEncoding td = ""
    | Some k => td_KeyEncoding td ≠ "" ∧ stored_bytes (td_Key td) (td_KeyEncoding td) = Some k
    end ∧
    td_Topic td = km_Topic m ∧ td_Partition td = km_Partition m ∧ td_Offset td = km_Offset m.
Proof.
  unfold kafkaFlowRun. pose proof (storeBytes_round_trip (km_Value m)) as Hb.
  destruct (storeBytes (km_Value m)) as [body benc] eqn:Hs. destruct (kafkaKey (km_Key m)) as [k kenc] eqn:Hk.
  eexists. split; [done|]. cbn [td_Body td_BodyEncoding td_Key td_KeyEncoding td_Topic td_Partition td_Offset].
  split; [done|]. split; [|done]. destruct (km_Key m) as [key|]; [|by simplify_eq/=].
  cbn [kafkaKey] in Hk. pose proof (storeBytes_round_trip key) as Hkr. rewrite Hk in Hkr. split; [|done].
  unfold storeBytes in Hk. destruct (utf8_valid key); by simplify_eq.
Qed.

(** One FlowRun for the message, then the mark. *)
Definition consumed (h : MessageHandler) (m : InMsg) (steps : list HStep) : Prop :=
  ∃ fr, steps = [SCreate fr true; SMark m] ∧ own_run h fr ∧ carries m fr.

Lemma kafkaFlowRun_own h m tp : own_run h (kafkaFlowRun h m tp).
Proof.
  unfold kafkaFlowRun. destruct (kafkaKey _), (storeBytes _). apply gatewayFlowRun_own.
Qed.

(** C40: While the API server accepts FlowRuns or reports that they exist already,
    the Kafka consumer handles the messages of a claim in order and one by one:
    for each it asks for exactly one FlowRun, in the Trigger's namespace and of its
    Flow, which holds the payload, topic, partition and offset of the message, and
    marks the message consumed right after that FlowRun exists and before the next
    message is looked at. *)
Theorem ConsumeClaim_persists_in_order h messages g :
  wp (step_spec (λ x, exists_after x = true)) (ConsumeClaim h messages) g (λ _ g',
    ∃ l, g' = g ++ l ∧ one_by_one (consumed h) (InKafka <$> messages) l).
Proof.
  unfold ConsumeClaim. revert g. induction messages as [|m messages IH]; intros g; cbn [pfold].
  { exists []. split; [by rewrite app_nil_r|apply one_by_one_nil]. }
  rewrite fmap_cons. apply wp_bind; [apply _|]. apply wp_bind; [apply _|]. unfold HandleMessage. apply wp_bind; [apply _|]. intros tp. cbn [wp].
  set (fr := kafkaFlowRun h m tp).
  assert (wp (step_spec (λ x, exists_after x = true)) (emit (HMark m)) (g ++ [SCreate fr true]) (λ u g',
    wp (step_spec (λ x, exists_after x = true)) (pfold (λ _ msg, let! _ := HandleMessage h (upstreamTrace (km_Headers msg)) msg in emit (HMark msg)) messages u) g'
      (λ _ g', ∃ l, g' = g ++ l ∧ one_by_one (consumed h) (InKafka m :: (InKafka <$> messages)) l))) as Hmark.
  { intros []. cbn [wp]. rewrite <- app_assoc. eapply wp_mono; [apply _| |apply IH]. intros _ g' (l & -> & Hl).
    exists ([SCreate fr true; SMark (InKafka m)] ++ l). split; [by rewrite <- !app_assoc|]. apply one_by_one_cons; [|done].
    exists fr. split; [done|]. split; [apply kafkaFlowRun_own|]. destruct (kafka_round_trip h m tp) as (td & Htd & Hb & _ & Ht).
    exists td. auto. }
  unfold createFlowRun. apply wp_bind; [apply _|]. intros [[]|e] Hx; cbn [wp]; [exact Hmark|]. rewrite Hx.
  apply bool_decide_eq_true in Hx. rewrite Hx. cbn [wp]. exact Hmark.
Qed.

(** ** What is kept of a Kafka message *)

(** C34: Nothing of a Kafka message is lost on its way into the FlowRun: the
    payload and the key can be read back byte for byte from the stored text and
    its encoding, a missing key is told from an empty one, and topic, partition
    and offset are kept. *)
Theorem kafka_message_round_trip h m tp :
  ∃ td, frs_TriggerData (fr_Spec (kafkaFlowRun h m tp)) = Some td ∧
    stored_bytes (td_Body td) (td_BodyEncoding td) = Some (km_Value m) ∧
    match km_Key m with
    | None => td_KeyEncoding td = ""
    | Some k => td_KeyEncoding td ≠ "" ∧ stored_bytes (td_Key td) (td_KeyEncoding td) = Some k
    end ∧
    td_Topic td = km_Topic m ∧ td_Partition td = km_Partition m ∧ td_Offset td = km_Offset m.
Proof. apply kafka_round_trip. Qed.

(** ** Names *)

Fixpoint digits (s : string) : bool :=
  match s with EmptyString => true | String c s => in_range 48 57 (byte c) && digits s end.

Lemma pretty_N_go_digits x s : digits s = true → digits (pretty_N_go x s) = true.
Proof.
  revert s. induction (N.lt_wf_0 x) as [x _ IH]; intros s Hs.
  destruct (decide (0 < x)%N) as [Hx|Hx]; [|by assert (x = 0%N) as -> by lia].
  rewrite pretty_N_go_step by done. apply IH; [by apply N.div_lt|]. cbn [digits]. rewrite Hs.
  unfold pretty_N_char. by repeat case_match.
Qed.

Lemma Itoa_digits z : (0 <= z)%Z → digits (Itoa z) = true.
Proof.
  intros Hz. destruct z as [|p|p]; [done| |lia]. change (Itoa (Z.pos p)) with (pretty (N.pos p)).
  unfold pretty, pretty_N. rewrite decide_False by done. by apply pretty_N_go_digits.
Qed.

Lemma digits_name s : digits s = true → name_chars s = true.
Proof.
  induction s as [|c s IH]; [done|]. cbn [digits name_chars]. intros [Hc Hs]%andb_true_iff. rewrite IH by done.
  unfold name_char, name_rune. rewrite Hc. by destruct (in_range 97 122 _).
Qed.

Lemma name_chars_app s t : name_chars (s +:+ t) = name_chars s && name_chars t.
Proof. induction s as [|c s IH]; [done|]. change (String c s +:+ t) with (String c (s +:+ t)). cbn. rewrite IH. by rewrite andb_assoc. Qed.

Lemma digits_dash s s' r r' :
  digits s = true → digits s' = true → s +:+ String "-" r = s' +:+ String "-" r' → s = s' ∧ r = r'.
Proof.
  revert s'. induction s as [|c s IH]; intros [|c' s'] Hs Hs' He; cbn [digits] in *.
  - by injection He.
  - apply andb_true_iff in Hs' as [Hc _]. injection He as <- _. done.
  - apply andb_true_iff in Hs as [Hc _]. injection He as -> _. done.
  - apply andb_true_iff in Hs as [_ Hs], Hs' as [_ Hs']. injection He as <- He.
    destruct (IH s' Hs Hs' He) as [-> ->]. done.
Qed.

Lemma name_suffix t suf :
  ascii_only t = true → name_chars suf = true → (slen t + slen suf <= 253)%nat →
  sanitizeFlowRunName (t +:+ suf) = sanitize_runes t +:+ suf.
Proof.
  intros Ht Hs Hl. unfold sanitizeFlowRunName. rewrite sanitize_app by done. rewrite (sanitize_keep suf) by done.
  apply stake_all. rewrite slen_app, sanitize_ascii_length by done. lia.
Qed.

(** As long as the whole name fits in 253 bytes, two messages of a Kafka
    Trigger get the same FlowRun name exactly when they have the same partition
    and offset: a redelivery finds the FlowRun of the first delivery, and
    distinct messages never collide. *)
Theorem kafkaRunName_unique h p o p' o' :
  ascii_only (mh_triggerName h) = true →
  (0 <= p)%Z → (0 <= o)%Z → (0 <= p')%Z → (0 <= o')%Z →
  (slen (mh_triggerName h +:+ "-p" +:+ Itoa p +:+ "-offset-" +:+ Itoa o) <= 253)%nat →
  (slen (mh_triggerName h +:+ "-p" +:+ Itoa p' +:+ "-offset-" +:+ Itoa o') <= 253)%nat →
  kafkaRunName h p o = kafkaRunName h p' o' ↔ p = p' ∧ o = o'.
Proof.
  intros Ht Hp Ho Hp' Ho' Hl Hl'. split; [|by intros [-> ->]]. unfold kafkaRunName.
  assert (∀ p o, (0 <= p)%Z → (0 <= o)%Z → name_chars ("-p" +:+ Itoa p +:+ "-offset-" +:+ Itoa o) = true) as Hn.
  { intros p0 o0 Hp0 Ho0. rewrite !name_chars_app. by rewrite (digits_name (Itoa p0)), (digits_name (Itoa o0)) by by apply Itoa_digits. }
  rewrite slen_app in Hl, Hl'. rewrite !name_suffix by auto.
  intros He. apply (inj (String.append _)) in He. apply (inj (String.append "-p")) in He.
  apply digits_dash in He as [He1 He2]; [|by apply Itoa_digits..].
  split; [by apply (inj pretty)|]. apply (inj (String.append "offset-")) in He2. by apply (inj pretty).
Qed.

(** A Trigger name that leaves no room for the coordinates: every message gets
    the same name, so all but the first are dropped as duplicates. *)
Lemma long_trigger_names_collide h p o p' o' :
  name_chars (mh_triggerName h) = true → slen (mh_triggerName h) = 253%nat → kafkaRunName h p o = kafkaRunName h p' o'.
Proof.
  intros Hn Hl. assert (ascii_only (mh_triggerName h) = true) as Ha.
  { clear Hl. induction (mh_triggerName h) as [|c s IH]; [done|]. cbn [name_chars ascii_only] in *.
    apply andb_true_iff in Hn as [Hc Hn]. rewrite IH by done. apply name_char_ascii in Hc. lia. }
  assert (∀ suf, sanitizeFlowRunName (mh_triggerName h +:+ suf) = mh_triggerName h) as Hs.
  { intros suf. unfold sanitizeFlowRunName. rewrite sanitize_app, (sanitize_keep (mh_triggerName h)) by done.
    rewrite <- Hl. generalize (sanitize_runes suf). clear. induction (mh_triggerName h) as [|c s IH]; intros t.
    - by destruct t.
    - cbn. f_equal. apply IH. }
  unfold kafkaRunName. by rewrite !Hs.
Qed.

(** Distinct Triggers whose names differ in a dot share FlowRun names. *)
Example dotted_names_collide :
  kafkaRunName (MkMessageHandler "orders.eu" "default" "flow" false) 0 7
  = kafkaRunName (MkMessageHandler "orders-eu" "default" "flow" false) 0 7.
Proof. reflexivity. Qed.
