(* ===== verification/BrokerWatcher.v ===== *)
(** * The Trigger watchers of the broker gateways

    [internal/gateway/kafka/watcher.go], [internal/gateway/amqp/watcher.go] and
    [internal/gateway/nats/watcher.go] have the same informer callbacks around
    different specifications, credentials and connections.  What differs is the
    class [Broker]; what is common is written once over it, and the files
    KafkaWatcher, AmqpWatcher and NatsWatcher give the three instances.

    A context is a number; [w_live] holds the contexts of subscriptions that
    have not been cancelled.  Each informer runs its callbacks in a goroutine of
    its own; [callbacks] is a schedule in which no two of them overlap. *)

From S2P Require Import Prelude SecretIndex GoStd Api Net Effects Interp Kube WebhookWatcher.

Local Open Scope string_scope.
Local Open Scope list_scope.
Local Open Scope go_scope.

(** [natsio.Option]s that depend on the configuration. *)
Record NatsOptions := MkNatsOptions {
  no_TLS : option (bool * option string);
  no_CredsFile : option string;
  no_UserInfo : option (string * string)
}.

Inductive WEv : Type → Type :=
  | WGetIntegration (ns name : string) : WEv (result Integration)
  | WGetSecret (ns name : string) : WEv (result (gmap string string))
  (** [recorder.Eventf] on a Trigger: warning or normal, reason, message. *)
  | WEventf (key : NamespacedName) (warning : bool) (reason msg : string) : WEv unit
  | WNewConsumerGroup (servers : list string) (group : string) (cfg : KafkaConfig) : WEv (result unit)
  | WCreateTemp : WEv (result string)
  | WWriteFile (path content : string) : WEv (result unit)
  | WCloseFile (path : string) : WEv (result unit)
  | WRemoveFile (path : string) : WEv unit
  | WNatsConnect (servers : string) (opts : NatsOptions) : WEv (result nat)
  | WNatsClose (conn : nat) : WEv unit
  | WJetStream (conn : nat) : WEv (result unit)
  | WJsSubscribe (conn : nat) (subject durable : string) : WEv (result unit)
  | WNatsSubscribe (conn : nat) (subject : string) : WEv (result unit).

(** ** State *)

(** [s_conf] is what a subscription remembers of its Trigger. *)
Record subscription (Conf : Type) := MkSub {
  s_ctx : nat;
  s_integrationName : string;
  s_conf : Conf;
  s_fingerprint : string
}.
Arguments MkSub {_} _ _ _ _.
Arguments s_ctx {_} _.
Arguments s_integrationName {_} _.
Arguments s_conf {_} _.
Arguments s_fingerprint {_} _.

Record Watcher (Conf : Type) := MkBrokerWatcher {
  w_subs : gmap NamespacedName (subscription Conf);
  w_secretIndex : SecretIndex.Index;
  w_integrationIndex : SecretIndex.Index;
  w_triggers : gmap NamespacedName Trigger;
  w_credentialFailed : gmap NamespacedName bool;
  w_live : gset nat;
  w_next : nat
}.
Arguments MkBrokerWatcher {_} _ _ _ _ _ _ _.
Arguments w_subs {_} _.
Arguments w_secretIndex {_} _.
Arguments w_integrationIndex {_} _.
Arguments w_triggers {_} _.
Arguments w_credentialFailed {_} _.
Arguments w_live {_} _.
Arguments w_next {_} _.

Section state.
  Context {Conf : Type}.
  Implicit Types (w : Watcher Conf).

Definition set_wtriggers (t : gmap NamespacedName Trigger) w : Watcher Conf :=
  MkBrokerWatcher (w_subs w) (w_secretIndex w) (w_integrationIndex w) t (w_credentialFailed w) (w_live w) (w_next w).
Definition set_secretIndex (i : SecretIndex.Index) w : Watcher Conf :=
  MkBrokerWatcher (w_subs w) i (w_integrationIndex w) (w_triggers w) (w_credentialFailed w) (w_live w) (w_next w).
Definition set_integrationIndex (i : SecretIndex.Index) w : Watcher Conf :=
  MkBrokerWatcher (w_subs w) (w_secretIndex w) i (w_triggers w) (w_credentialFailed w) (w_live w) (w_next w).
Definition set_failed (f : gmap NamespacedName bool) w : Watcher Conf :=
  MkBrokerWatcher (w_subs w) (w_secretIndex w) (w_integrationIndex w) (w_triggers w) f (w_live w) (w_next w).
Definition set_subs (s : gmap NamespacedName (subscription Conf)) (live : gset nat) (next : nat) w : Watcher Conf :=
  MkBrokerWatcher s (w_secretIndex w) (w_integrationIndex w) (w_triggers w) (w_credentialFailed w) live next.

(** [context.WithCancel] and the cancel function. *)
Definition withCancel w : nat * Watcher Conf :=
  (w_next w, set_subs (w_subs w) ({[w_next w]} ∪ w_live w) (S (w_next w)) w).
Definition cancel (ctx : nat) w : Watcher Conf := set_subs (w_subs w) (w_live w ∖ {[ctx]}) (w_next w) w.

Definition storeSub (key : NamespacedName) (s : subscription Conf) w : Watcher Conf :=
  set_subs (<[key := s]> (w_subs w)) (w_live w) (w_next w) w.
Definition deleteSub (key : NamespacedName) w : Watcher Conf :=
  set_subs (delete key (w_subs w)) (w_live w) (w_next w) w.

Definition newWatcher : Watcher Conf :=
  MkBrokerWatcher ∅ SecretIndex.New SecretIndex.New ∅ ∅ ∅ 0.

Definition stopSubscription (key : NamespacedName) w : Watcher Conf :=
  match w_subs w !! key with
  | Some sub => cancel (s_ctx sub) (deleteSub key w)
  | None => w
  end.

(** The end of [Start]. *)
Definition shutdown w : Watcher Conf :=
  fold_left (λ w '(key, sub), deleteSub key (cancel (s_ctx sub) w)) (map_to_list (w_subs w)) w.

End state.

(** ** Shared helpers *)

Definition credentialResolutionFailedReason : string := "CredentialResolutionFailed".
Definition credentialResolutionSucceededReason : string := "CredentialResolutionSucceeded".

Definition readSecret (ns name key : string) : Prog WEv (result string) :=
  let! r := emit (WGetSecret ns name) in
  match r with
  | Err e => Ret (Err (wrapf ("get secret " +:+ ns +:+ "/" +:+ name +:+ ": ") e))
  | Ok data => match data !! key with
               | None => Ret (Err (errorf ("secret " +:+ ns +:+ "/" +:+ name +:+ " does not contain key " +:+ Quote key)))
               | Some v => Ret (Ok v)
               end
  end.

(** What distinguishes the brokers. *)
Class Broker := {
  b_Conf : Type;
  b_TSpec : Type;
  b_ISpec : Type;
  b_Creds : Type;
  (** The Trigger type, also the word used in messages. *)
  b_type : string;
  b_tspec : TriggerSpec → option b_TSpec;
  b_ispec : IntegrationSpec → option b_ISpec;
  b_ref : b_TSpec → string;
  b_resolve : string → b_ISpec → Prog WEv (b_Creds * option gerr);
  b_secretRefs : b_Creds → list NamespacedName;
  b_fingerprint : b_Creds → string;
  (** The comparison of a running subscription with the Trigger. *)
  b_same : b_Conf → Trigger → b_TSpec → bool;
  b_start : Trigger → b_TSpec → b_ISpec → b_Creds → Watcher b_Conf → Prog WEv (Watcher b_Conf * option gerr)
}.

Section watcher.
  Context `{B : Broker}.
  Implicit Types (w : Watcher b_Conf).

Definition recordCredentialFailure (key : NamespacedName) (integrationName : string) (e : gerr) w
    : Prog WEv (Watcher b_Conf) :=
  let! _ := emit (WEventf key true credentialResolutionFailedReason
    ("failed to resolve " +:+ b_type +:+ " credentials for integration " +:+ Quote integrationName +:+ ": " +:+ emsg e)) in
  Ret (set_failed (<[key := true]> (w_credentialFailed w)) w).

Definition recordCredentialSuccess (key : NamespacedName) (integrationName : string) w : Prog WEv (Watcher b_Conf) :=
  let wasFailed := default false (w_credentialFailed w !! key) in
  let! _ := if wasFailed : bool
            then emit (WEventf key false credentialResolutionSucceededReason
                   ("resolved " +:+ b_type +:+ " credentials for integration " +:+ Quote integrationName))
            else Ret tt in
  Ret (set_failed (<[key := false]> (w_credentialFailed w)) w).

(** The specification of a Trigger that should have a subscription. *)
Definition wanted (trigger : Trigger) : option b_TSpec :=
  if negb (ts_Type (tg_Spec trigger) =? b_type) then None
  else match b_tspec (tg_Spec trigger) with
       | None => None
       | Some t => if ts_Enabled (tg_Spec trigger) then Some t else None
       end.

(** Credentials resolved: keep the subscription, or replace it. *)
Definition ensureSubscription (trigger : Trigger) (t : b_TSpec) (spec : b_ISpec) (creds : b_Creds) w
    : Prog WEv (Watcher b_Conf) :=
  let key := trigger_key trigger in
  let start w := let! r := b_start trigger t spec creds w in Ret (fst r) in
  match w_subs w !! key with
  | Some sub =>
      if b_same (s_conf sub) trigger t && (s_integrationName sub =? b_ref t)
         && (s_fingerprint sub =? b_fingerprint creds)
      then Ret w
      else start (stopSubscription key w)
  | None => start w
  end.

Definition reconcileTrigger (trigger : Trigger) w : Prog WEv (Watcher b_Conf) :=
  let key := trigger_key trigger in
  let ns := m_Namespace (tg_Meta trigger) in
  let w := set_wtriggers (<[key := trigger]> (w_triggers w)) w in
  match wanted trigger with
  | None =>
      let w := set_secretIndex (Remove key (w_secretIndex w)) w in
      let w := set_integrationIndex (Remove key (w_integrationIndex w)) w in
      Ret (stopSubscription key w)
  | Some t =>
      let integrationName := b_ref t in
      let w := set_integrationIndex (Update key [(ns, integrationName)] (w_integrationIndex w)) w in
      let! i := emit (WGetIntegration ns integrationName) in
      match i with
      | Err e => recordCredentialFailure key integrationName e w
      | Ok integration =>
          match b_ispec (in_Spec integration) with
          | None => recordCredentialFailure key integrationName (errorf ("integration has no " +:+ b_type +:+ " spec")) w
          | Some spec =>
              let! r := b_resolve ns spec in
              let '(creds, credErr) := r in
              let w := set_secretIndex (Update key (b_secretRefs creds) (w_secretIndex w)) w in
              match credErr with
              | Some e => recordCredentialFailure key integrationName e w
              | None =>
                  let! w := recordCredentialSuccess key integrationName w in
                  ensureSubscription trigger t spec creds w
              end
          end
      end
  end.

(** The object an informer hands to a callback. *)
Inductive InformerObj := ObjTrigger (t : Trigger) | ObjTombstone (t : option Trigger) | ObjOther.

Definition onTriggerAdd (obj : InformerObj) w : Prog WEv (Watcher b_Conf) :=
  match obj with ObjTrigger t => reconcileTrigger t w | _ => Ret w end.

Definition onTriggerUpdate (obj : InformerObj) w : Prog WEv (Watcher b_Conf) :=
  match obj with ObjTrigger t => reconcileTrigger t w | _ => Ret w end.

Definition onTriggerDelete (obj : InformerObj) w : Watcher b_Conf :=
  let go trigger :=
    let key := trigger_key trigger in
    let w := set_wtriggers (delete key (w_triggers w)) w in
    let w := set_secretIndex (Remove key (w_secretIndex w)) w in
    let w := set_integrationIndex (Remove key (w_integrationIndex w)) w in
    let w := set_failed (delete key (w_credentialFailed w)) w in
    stopSubscription key w in
  match obj with
  | ObjTrigger t => go t
  | ObjTombstone (Some t) => go t
  | ObjTombstone None => w
  | ObjOther => w
  end.

(** The loop of the two change handlers over the Triggers affected. *)
Definition reprocess (affected : list NamespacedName) w : Prog WEv (Watcher b_Conf) :=
  pfold (λ w triggerKey,
    match w_triggers w !! triggerKey with
    | None => Ret w
    | Some trigger => reconcileTrigger trigger w
    end) affected w.

Definition handleSecretChange (secretKey : NamespacedName) w : Prog WEv (Watcher b_Conf) :=
  reprocess (ObjectsFor secretKey (w_secretIndex w)) w.

Definition handleIntegrationChange (integrationKey : NamespacedName) w : Prog WEv (Watcher b_Conf) :=
  reprocess (ObjectsFor integrationKey (w_integrationIndex w)) w.

(** The callbacks registered by [Start]. *)
Inductive WatchEvent :=
  | OnAdd (obj : InformerObj) | OnUpdate (obj : InformerObj) | OnDelete (obj : InformerObj)
  | OnSecret (key : NamespacedName) | OnIntegration (key : NamespacedName).

Definition callback (e : WatchEvent) w : Prog WEv (Watcher b_Conf) :=
  match e with
  | OnAdd obj => onTriggerAdd obj w
  | OnUpdate obj => onTriggerUpdate obj w
  | OnDelete obj => Ret (onTriggerDelete obj w)
  | OnSecret key => handleSecretChange key w
  | OnIntegration key => handleIntegrationChange key w
  end.

(** Callbacks of which each runs to its end before the next one starts.  The
    informers of Triggers, Secrets and Integrations do not enforce that among
    each other: the schedules in which their callbacks overlap are not
    described here. *)
Definition callbacks (l : list WatchEvent) w : Prog WEv (Watcher b_Conf) :=
  pfold (λ w e, callback e w) l w.

End watcher.
