(* ===== verification/Scram.v ===== *)
(** * The SCRAM client of the Kafka producer

    [producerSCRAMClient] of [internal/controller/flowrun_controller.go]
    (RFC 5802; [xdgSCRAMClient] of [internal/gateway/kafka/watcher.go] is a
    copy of it under other names, see file KafkaWatcher).  Byte strings are
    [string].  The contract is the server of RFC 5802, written from the RFC and
    not from the client: its salted password, its grammar, its checks.  The
    theorem that the client meets it is that an exchange between the two
    authenticates both sides. *)

From S2P Require Import Prelude GoStd.

Local Open Scope string_scope.
Local Open Scope list_scope.
Local Open Scope go_scope.

(** [crypto/hmac] over [HashGeneratorFcn], that hash, and [base64.StdEncoding]. *)
Class ScramLib := {
  hmac_Sum : string → string → string;
  hash_Sum : string → string;
  base64_EncodeToString : string → string;
  base64_DecodeString : string → result string
}.

Definition code (c : ascii) : Z := Z.of_nat (nat_of_ascii c).
Definition every (f : ascii → bool) (s : string) : bool := forallb f (list_ascii_of_string s).

(** [printable] of RFC 5802: visible ASCII but the comma. *)
Definition printable (c : ascii) : bool := (33 <=? code c)%Z && (code c <=? 126)%Z && negb (code c =? 44)%Z.

(** Documented: all MACs of one hash have the same size, decoding inverts
    encoding, and the base64 alphabet is visible and has no comma. *)
Class ScramLibLaws `{ScramLib} : Prop := {
  hmac_size k m k' m' : slen (hmac_Sum k m) = slen (hmac_Sum k' m');
  base64_inverse s : base64_DecodeString (base64_EncodeToString s) = Ok s;
  base64_printable s : every printable (base64_EncodeToString s) = true
}.

(** ** The client *)

Record producerSCRAMClient := MkScram {
  x_user : string;
  x_pass : string;
  x_clientNonce : string;
  x_saltedPass : string;
  x_authMessage : string;
  x_step : Z
}.

Definition byte_xor (a b : ascii) : ascii :=
  let '(Ascii a0 a1 a2 a3 a4 a5 a6 a7) := a in
  let '(Ascii b0 b1 b2 b3 b4 b5 b6 b7) := b in
  Ascii (xorb a0 b0) (xorb a1 b1) (xorb a2 b2) (xorb a3 b3)
        (xorb a4 b4) (xorb a5 b5) (xorb a6 b6) (xorb a7 b7).

(** [None] is the panic of indexing past the end of [b]. *)
Fixpoint producerSCRAMXorBytes (a b : string) : option string :=
  match a, b with
  | EmptyString, _ => Some EmptyString
  | String x a, String y b => String (byte_xor x y) <$> producerSCRAMXorBytes a b
  | String _ _, EmptyString => None
  end.

Fixpoint parseIter_go (s : string) (n : Z) : option Z :=
  match s with
  | EmptyString => Some n
  | String c s =>
      let d := (Z.of_nat (nat_of_ascii c) - 48)%Z in
      if (d <? 0)%Z || (9 <? d)%Z then None else parseIter_go s (wrap64 (n * 10 + d))
  end.

Definition producerSCRAMParseIter (s : string) : result Z :=
  match parseIter_go s 0 with
  | None => Err (errorf ("invalid iteration count: " +:+ Quote s))
  | Some n => if (n <=? 0)%Z then Err (errorf ("iteration count must be positive, got " +:+ Quote s))
              else Ok n
  end.

Definition parseAttr (attrs : gmap string string) (part : string) : gmap string string :=
  match part with
  | String k (String c v) => if (c =? "=")%char then <[String k "" := v]> attrs else attrs
  | _ => attrs
  end.

Definition producerSCRAMParseAttrs (msg : string) : gmap string string :=
  fold_left parseAttr (split_char "," msg) ∅.

Definition nul4 : string := String "000" (String "000" (String "000" (String "001" EmptyString))).

Section scram.
  Context `{ScramLib}.

(** The rounds 2 to [iterations]. *)
Fixpoint scramHi_loop (password u result : string) (n : nat) : option string :=
  match n with
  | 0 => Some result
  | S n =>
      let u := hmac_Sum password u in
      match producerSCRAMXorBytes result u with
      | None => None
      | Some result => scramHi_loop password u result n
      end
  end.

Definition scramHi (password salt : string) (iterations : Z) : option string :=
  let u := hmac_Sum password (salt +:+ nul4) in
  scramHi_loop password u u (Z.to_nat (iterations - 1)).

(** [Begin], with the nonce bytes [rand.Read] filled in, or its error. *)
Definition Begin (x : producerSCRAMClient) (userName password : string) (nonceBytes : result string)
    : producerSCRAMClient * option gerr :=
  match nonceBytes with
  | Err e => (MkScram userName password (x_clientNonce x) (x_saltedPass x) (x_authMessage x) 0,
              Some (wrapf "generate client nonce: " e))
  | Ok b => (MkScram userName password (base64_EncodeToString b) (x_saltedPass x) (x_authMessage x) 0, None)
  end.

Definition panicked : gerr := errorf "runtime error: index out of range".

Definition stepFinal (x : producerSCRAMClient) (challenge : string) : producerSCRAMClient * result string :=
  let attrs := producerSCRAMParseAttrs challenge in
  let fail (msg : string) := (x, Err (errorf msg)) in
  match attrs !! "r" with
  | None => fail "SCRAM: missing 'r' in server-first message"
  | Some combinedNonce =>
      if negb (HasPrefix combinedNonce (x_clientNonce x))
      then fail "SCRAM: server nonce does not begin with client nonce"
      else match attrs !! "s" with
      | None => fail "SCRAM: missing 's' in server-first message"
      | Some saltB64 =>
          match base64_DecodeString saltB64 with
          | Err e => (x, Err (wrapf "SCRAM: decode salt: " e))
          | Ok salt =>
              match attrs !! "i" with
              | None => fail "SCRAM: missing 'i' in server-first message"
              | Some iterStr =>
                  match producerSCRAMParseIter iterStr with
                  | Err e => (x, Err (wrapf "SCRAM: " e))
                  | Ok iterations =>
                      match scramHi (x_pass x) salt iterations with
                      | None => (x, Err panicked)
                      | Some saltedPass =>
                          let clientKey := hmac_Sum saltedPass "Client Key" in
                          let storedKey := hash_Sum clientKey in
                          let clientFirstBare := "n=" +:+ x_user x +:+ ",r=" +:+ x_clientNonce x in
                          let cbind := base64_EncodeToString "n,," in
                          let clientFinalNP := "c=" +:+ cbind +:+ ",r=" +:+ combinedNonce in
                          let authMessage := clientFirstBare +:+ "," +:+ challenge +:+ "," +:+ clientFinalNP in
                          let clientSig := hmac_Sum storedKey authMessage in
                          let x := MkScram (x_user x) (x_pass x) (x_clientNonce x) saltedPass authMessage (x_step x) in
                          match producerSCRAMXorBytes clientKey clientSig with
                          | None => (x, Err panicked)
                          | Some proof => (x, Ok (clientFinalNP +:+ ",p=" +:+ base64_EncodeToString proof))
                          end
                      end
                  end
              end
          end
      end
  end.

Definition stepVerify (x : producerSCRAMClient) (challenge : string) : result string :=
  let serverKey := hmac_Sum (x_saltedPass x) "Server Key" in
  let expected := hmac_Sum serverKey (x_authMessage x) in
  match producerSCRAMParseAttrs challenge !! "v" with
  | None => Err (errorf "SCRAM: missing 'v' in server-final message")
  | Some sigB64 =>
      match base64_DecodeString sigB64 with
      | Err e => Err (wrapf "SCRAM: decode server signature: " e)
      | Ok received =>
          if negb (expected =? received) then Err (errorf "SCRAM: server signature verification failed")
          else Ok ""
      end
  end.

Definition Step (x : producerSCRAMClient) (challenge : string) : producerSCRAMClient * result string :=
  let x := MkScram (x_user x) (x_pass x) (x_clientNonce x) (x_saltedPass x) (x_authMessage x) (x_step x + 1) in
  if (x_step x =? 1)%Z then (x, Ok ("n,,n=" +:+ x_user x +:+ ",r=" +:+ x_clientNonce x))
  else if (x_step x =? 2)%Z then stepFinal x challenge
  else if (x_step x =? 3)%Z then (x, stepVerify x challenge)
  else (x, Err (errorf ("SCRAM: unexpected step " +:+ Itoa (x_step x)))).

Definition Done (x : producerSCRAMClient) : bool := (3 <=? x_step x)%Z.

(** ** The server of RFC 5802 *)

(** *** The salted password (section 2.2) *)

Definition bits (c : ascii) : list bool := let '(Ascii a b c d e f g h) := c in [a; b; c; d; e; f; g; h].

(** [XOR]: octet strings of one length, bit by bit. *)
Definition is_xor (a b c : string) : Prop :=
  slen a = slen c ∧ slen b = slen c ∧
  ∀ i x y z, String.get i a = Some x → String.get i b = Some y → String.get i c = Some z →
    bits z = zip_with xorb (bits x) (bits y).

(** [INT(g)]: four octets, the most significant first. *)
Definition INT (g : nat) : string :=
  string_of_list_ascii (map ascii_of_nat [g / 2 ^ 24; g / 2 ^ 16 mod 256; g / 2 ^ 8 mod 256; g mod 256])%nat.

(** [U1 := HMAC(str, salt + INT(1))], [Ui := HMAC(str, Ui-1)]. *)
Inductive U (str salt : string) : nat → string → Prop :=
  | U_first : U str salt 1 (hmac_Sum str (salt +:+ INT 1))
  | U_next i u : U str salt i u → U str salt (S i) (hmac_Sum str u).

(** [Hi(str, salt, i) := U1 XOR U2 XOR ... XOR Ui]. *)
Inductive Hi (str salt : string) : nat → string → Prop :=
  | Hi_first u : U str salt 1 u → Hi str salt 1 u
  | Hi_next i h u h' : Hi str salt i h → U str salt (S i) u → is_xor h u h' → Hi str salt (S i) h'.

(** *** Messages (section 7) *)

(** [saslname]: at least one character, with comma and equal sign escaped, read
    as a user name. *)
Inductive saslname_rest : string → string → Prop :=
  | sn_end : saslname_rest "" ""
  | sn_safe c enc user : code c ≠ 0%Z → c ≠ "="%char → c ≠ ","%char → saslname_rest enc user → saslname_rest (String c enc) (String c user)
  | sn_comma enc user : saslname_rest enc user → saslname_rest ("=2C" +:+ enc) ("," +:+ user)
  | sn_equal enc user : saslname_rest enc user → saslname_rest ("=3D" +:+ enc) ("=" +:+ user).

Definition saslname (enc user : string) : Prop := enc ≠ "" ∧ saslname_rest enc user.

(** Characters that need no escape, in ASCII. *)
Definition plain (c : ascii) : bool :=
  (32 <=? code c)%Z && (code c <=? 126)%Z && negb (code c =? 44)%Z && negb (code c =? 61)%Z.

(** [posit-number] and the number it denotes. *)
Fixpoint decimal (s : string) (n : Z) : Z :=
  match s with EmptyString => n | String c s => decimal s (10 * n + (code c - 48)) end.

Definition posit_number (s : string) (i : nat) : Prop :=
  every (λ c, (48 <=? code c)%Z && (code c <=? 57)%Z) s = true ∧ s ≠ "" ∧ HasPrefix s "0" = false ∧ decimal s 0 = Z.of_nat i.

(** *** The server (section 3) *)

Record ServerCred := MkCred {
  sv_salt : string;
  sv_iterations : nat;
  sv_StoredKey : string;
  sv_ServerKey : string
}.

(** What the server keeps of a password. *)
Definition enrolled (password : string) (cred : ServerCred) : Prop :=
  ∃ SaltedPassword, Hi password (sv_salt cred) (sv_iterations cred) SaltedPassword ∧
    sv_StoredKey cred = hash_Sum (hmac_Sum SaltedPassword "Client Key") ∧
    sv_ServerKey cred = hmac_Sum SaltedPassword "Server Key".

(** [bare] is a client-first-message-bare of a user, with its nonce. *)
Definition client_first (bare user c_nonce : string) : Prop :=
  ∃ enc, saslname enc user ∧ every printable c_nonce = true ∧ c_nonce ≠ "" ∧ bare = "n=" +:+ enc +:+ ",r=" +:+ c_nonce.

(** The server's answer to a first message without channel binding. *)
Definition server_first (cred : ServerCred) (s_nonce bare serverFirst : string) : Prop :=
  ∃ user c_nonce its, client_first bare user c_nonce ∧ posit_number its (sv_iterations cred) ∧
    serverFirst = "r=" +:+ (c_nonce +:+ s_nonce) +:+ ",s=" +:+ base64_EncodeToString (sv_salt cred) +:+ ",i=" +:+ its.

(** The client's final message is accepted: it repeats the nonce and the header,
    and its proof yields a key that hashes to the stored one; the answer signs
    the exchange. *)
Definition server_final (cred : ServerCred) (s_nonce bare serverFirst clientFinal serverFinal : string) : Prop :=
  ∃ user c_nonce ClientProof ClientKey, client_first bare user c_nonce ∧
    let withoutProof := "c=" +:+ base64_EncodeToString "n,," +:+ ",r=" +:+ (c_nonce +:+ s_nonce) in
    let AuthMessage := bare +:+ "," +:+ serverFirst +:+ "," +:+ withoutProof in
    clientFinal = withoutProof +:+ ",p=" +:+ base64_EncodeToString ClientProof ∧
    is_xor ClientProof (hmac_Sum (sv_StoredKey cred) AuthMessage) ClientKey ∧
    hash_Sum ClientKey = sv_StoredKey cred ∧
    serverFinal = "v=" +:+ base64_EncodeToString (hmac_Sum (sv_ServerKey cred) AuthMessage).

(** ** XOR and the salted password *)

Lemma byte_xor_cancel a b : byte_xor (byte_xor a b) b = a.
Proof. destruct a, b. simpl. by rewrite !xorb_assoc_reverse, !xorb_nilpotent, !xorb_false_r. Qed.

Lemma xorBytes_defined a b :
  slen a = slen b → ∃ c, producerSCRAMXorBytes a b = Some c ∧ slen c = slen a.
Proof.
  revert b. induction a as [|x a IH]; intros [|y b]; simpl; try done; [by exists ""|].
  intros [= Hl]. destruct (IH b Hl) as (c & -> & Hc). exists (String (byte_xor x y) c). simpl. by rewrite Hc.
Qed.

Lemma xorBytes_cancel a b c :
  producerSCRAMXorBytes a b = Some c → producerSCRAMXorBytes c b = Some a.
Proof.
  revert b c. induction a as [|x a IH]; intros [|y b] c; simpl; try (intros; by simplify_eq).
  destruct (producerSCRAMXorBytes a b) as [d|] eqn:Hd; simpl; intros; simplify_eq/=.
  by rewrite (IH _ _ Hd), byte_xor_cancel.
Qed.

Lemma xorBytes_is_xor a b c : producerSCRAMXorBytes a b = Some c → slen a = slen b → is_xor a b c.
Proof.
  revert b c. induction a as [|x a IH]; intros [|y b] c; simpl; try done; [by intros [= <-]|].
  destruct (producerSCRAMXorBytes a b) as [d|] eqn:Hd; simpl; [|done]. intros [= <-] [= Hl].
  destruct (IH _ _ Hd Hl) as (H1 & H2 & H3). split_and!; [simpl; congruence..|]. intros [|i] u v w; simpl.
  - intros [= ->] [= ->] [= <-]. by destruct u, v.
  - apply H3.
Qed.

Context `{!ScramLibLaws}.

Lemma scramHi_defined password salt iterations : is_Some (scramHi password salt iterations).
Proof.
  unfold scramHi. set (u := hmac_Sum password (salt +:+ nul4)).
  assert (∀ n u r, slen u = slen (hmac_Sum password "") → slen r = slen (hmac_Sum password "") →
    is_Some (scramHi_loop password u r n)) as Hgen; [|apply Hgen; apply hmac_size].
  induction n as [|n IH]; intros v r Hv Hr; simpl; [by eexists|].
  destruct (xorBytes_defined r (hmac_Sum password v)) as (c & -> & Hc).
  - rewrite Hr. apply hmac_size.
  - apply IH; [apply hmac_size|by rewrite Hc].
Qed.

(** The client's salted password is the one of the RFC. *)
Lemma scramHi_Hi password salt i : (0 < i)%nat → ∃ h, scramHi password salt (Z.of_nat i) = Some h ∧ Hi password salt i h.
Proof.
  intros Hi0. destruct i as [|i]; [lia|]. unfold scramHi. replace (Z.to_nat (Z.of_nat (S i) - 1)) with i by lia.
  change nul4 with (INT 1).
  assert (∀ n k u h, U password salt k u → Hi password salt k h → slen h = slen u →
    ∃ h', scramHi_loop password u h n = Some h' ∧ Hi password salt (n + k) h') as Hgen.
  { induction n as [|n IH]; intros k u h Hu Hh Hl; simpl; [by eexists|].
    assert (slen h = slen (hmac_Sum password u)) as Hl' by (rewrite Hl; destruct Hu; apply hmac_size).
    destruct (xorBytes_defined h (hmac_Sum password u) Hl') as (c & Hx & Hc). rewrite Hx.
    destruct (IH (S k) (hmac_Sum password u) c) as (h' & Hrun & Hh'); [by constructor| |congruence|].
    - eapply Hi_next; [exact Hh|by constructor|]. by apply xorBytes_is_xor.
    - exists h'. split; [done|]. by rewrite <-Nat.add_succ_r. }
  destruct (Hgen i 1%nat (hmac_Sum password (salt +:+ INT 1)) (hmac_Sum password (salt +:+ INT 1))) as (h & Hrun & Hh);
    [by constructor|by do 2 constructor|done|]. exists h. split; [done|]. by rewrite <-Nat.add_1_r.
Qed.

Lemma printable_no_comma s : every printable s = true → has_char "," s = false.
Proof.
  unfold every. induction s as [|c s IH]; [done|]. cbn [list_ascii_of_string forallb has_char]. intros [Hc Hs]%andb_true_iff.
  rewrite IH by done. rewrite orb_false_r. by destruct (Ascii.eqb_spec c ",") as [->|].
Qed.

Lemma base64_no_comma s : has_char "," (base64_EncodeToString s) = false.
Proof. apply printable_no_comma, base64_printable. Qed.

Lemma plain_code c : plain c = true → (32 <= code c)%Z.
Proof. unfold plain. rewrite !andb_true_iff, Z.leb_le. tauto. Qed.

(** A name without escapes stands for itself, and for no other. *)
Lemma saslname_plain enc : every plain enc = true → ∀ user, saslname_rest enc user ↔ user = enc.
Proof.
  unfold every. induction enc as [|c enc IH]; intros Hp user.
  - split; [by inversion 1|]. intros ->. constructor.
  - cbn [list_ascii_of_string forallb] in Hp. apply andb_true_iff in Hp as [Hc Hs]. specialize (IH Hs). split.
    + inversion 1; subst; [|by cbn in Hc|by cbn in Hc]. f_equal. by apply IH.
    + intros ->. constructor; [apply plain_code in Hc; lia|by intros ->|by intros ->|by apply IH].
Qed.

Lemma saslname_no_comma enc user : saslname_rest enc user → has_char "," enc = false.
Proof.
  induction 1 as [|c enc user _ _ Hc _ IH|enc user _ IH|enc user _ IH]; [done| |exact IH|exact IH].
  cbn [has_char]. rewrite IH, orb_false_r. by apply Ascii.eqb_neq.
Qed.

(** Counts below [2^63] are read as written. *)
Lemma parseIter_decimal s n :
  every (λ c, (48 <=? code c)%Z && (code c <=? 57)%Z) s = true → (0 <= n)%Z → (decimal s n < 2 ^ 63)%Z →
  (n <= decimal s n)%Z ∧ parseIter_go s n = Some (decimal s n).
Proof.
  unfold every. revert n. induction s as [|c s IH]; intros n; cbn [list_ascii_of_string forallb decimal parseIter_go]; [done|].
  intros [Hc Hs]%andb_true_iff Hn Hlt. unfold code in *. set (d := (Z.of_nat (nat_of_ascii c) - 48)%Z) in *.
  assert (0 <= d <= 9)%Z as Hd by (apply andb_true_iff in Hc as [?%Z.leb_le ?%Z.leb_le]; lia).
  destruct (IH (10 * n + d)%Z) as [Hle Hp]; [done|lia|done|]. split; [lia|].
  replace ((d <? 0) || (9 <? d))%Z with false by (symmetry; apply orb_false_iff; split; apply Z.ltb_ge; lia).
  rewrite wrap64_id by (unfold min_int64, max_int64; lia). by replace (n * 10 + d)%Z with (10 * n + d)%Z by lia.
Qed.

Lemma parseIter_posit s i : posit_number s i → (0 < i)%nat → (Z.of_nat i < 2 ^ 63)%Z → producerSCRAMParseIter s = Ok (Z.of_nat i).
Proof.
  intros (Hd & _ & _ & Hv) Hi Hlt. unfold producerSCRAMParseIter.
  destruct (parseIter_decimal s 0 Hd) as [_ ->]; [lia|by rewrite Hv|]. rewrite Hv. destruct (Z.leb_spec (Z.of_nat i) 0); [lia|done].
Qed.

Lemma U_unique str salt i u u' : U str salt i u → U str salt i u' → u = u'.
Proof.
  intros Hu. revert u'. induction Hu as [|i u Hu IH]; intros u' Hu'; inversion Hu' as [|j v Hv]; subst.
  - done.
  - by inversion Hv.
  - by inversion Hu.
  - f_equal. by apply IH.
Qed.

Lemma bits_inj x y : bits x = bits y → x = y.
Proof. destruct x, y. by intros [= -> -> -> -> -> -> -> ->]. Qed.

Lemma is_xor_unique a b c c' : is_xor a b c → is_xor a b c' → c = c'.
Proof.
  intros (Ha & Hb & Hc) (Ha' & Hb' & Hc'). revert b c c' Ha Hb Hc Ha' Hb' Hc'.
  induction a as [|x a IH]; intros [|y b] [|z c] [|z' c']; simpl; try done.
  intros [= ?] [= ?] Hc [= ?] [= ?] Hc'. f_equal.
  - apply bits_inj. by rewrite (Hc 0%nat x y z), (Hc' 0%nat x y z').
  - apply (IH b); try done.
    + intros i. apply (Hc (S i)).
    + intros i. apply (Hc' (S i)).
Qed.

Lemma Hi_unique str salt i h h' : Hi str salt i h → Hi str salt i h' → h = h'.
Proof.
  intros Hh. revert h'. induction Hh as [u Hu|i h u h1 Hh IH Hu Hx]; intros h' Hh'; inversion Hh' as [u2 Hu2|i2 h2 u2 h3 Hh2 Hu2 Hx2]; subst.
  - by eapply U_unique.
  - by inversion Hh2.
  - by inversion Hh.
  - rewrite (IH _ Hh2) in Hx. rewrite (U_unique _ _ _ _ _ Hu Hu2) in Hx. by eapply is_xor_unique.
Qed.

(** ** Messages *)

(** Messages of the exchange are read back as the attributes they were built from. *)
Lemma split_attr k v rest :
  k ≠ ","%char → has_char "," v = false →
  split_char "," (String k (String "=" (v +:+ String "," rest)))
  = String k (String "=" v) :: split_char "," rest.
Proof.
  intros Hk Hv. change (String k (String "=" (v +:+ String "," rest)))
    with (String k (String "=" v) +:+ String "," rest).
  rewrite split_char_app, split_char_one; [done|]. simpl. by rewrite (proj2 (Ascii.eqb_neq _ _) Hk).
Qed.

Lemma split_last_attr k v :
  k ≠ ","%char → has_char "," v = false →
  split_char "," (String k (String "=" v)) = [String k (String "=" v)].
Proof. intros Hk Hv. apply split_char_one. simpl. by rewrite (proj2 (Ascii.eqb_neq _ _) Hk). Qed.

(** The first message for a plain name is read in one way. *)
Lemma client_first_reads user cn u c :
  every plain user = true → every printable cn = true →
  client_first ("n=" +:+ user +:+ ",r=" +:+ cn) u c → u = user ∧ c = cn.
Proof.
  assert (∀ e c, has_char "," e = false → every printable c = true →
    split_char "," ("n=" +:+ e +:+ ",r=" +:+ c) = [String "n" (String "=" e); String "r" (String "=" c)]) as Hsplit.
  { clear. intros e c He Hc%printable_no_comma.
    rewrite (split_attr "n" e ("r=" +:+ c) ltac:(done) He : split_char "," ("n=" +:+ e +:+ ",r=" +:+ c) = _).
    by rewrite (split_last_attr "r" c ltac:(done) Hc : split_char "," ("r=" +:+ c) = _). }
  intros Hp Hcn (e & [_ He] & Hc & _ & Hs). apply (f_equal (split_char ",")) in Hs.
  assert (saslname_rest user user) as Hself by by apply saslname_plain.
  rewrite !Hsplit in Hs by (try done; by eapply saslname_no_comma). injection Hs as <- <-.
  split; [|done]. by apply saslname_plain in He.
Qed.

Lemma attrs_one v :
  has_char "," v = false → producerSCRAMParseAttrs ("v=" +:+ v) = <["v" := v]> ∅.
Proof.
  intros Hv. unfold producerSCRAMParseAttrs.
  by rewrite (split_last_attr "v" v ltac:(done) Hv : split_char "," ("v=" +:+ v) = _).
Qed.

Lemma attrs_three k1 k2 k3 a b c :
  k1 ≠ ","%char → k2 ≠ ","%char → k3 ≠ ","%char →
  has_char "," a = false → has_char "," b = false → has_char "," c = false →
  producerSCRAMParseAttrs (String k1 (String "=" (a +:+ String "," (String k2 (String "="
    (b +:+ String "," (String k3 (String "=" c))))))))
  = <[String k3 "" := c]> (<[String k2 "" := b]> (<[String k1 "" := a]> ∅)).
Proof.
  intros ? ? ? ? ? ?. unfold producerSCRAMParseAttrs. by rewrite !split_attr, split_last_attr.
Qed.

Lemma parseIter_no_comma s n m : parseIter_go s n = Some m → has_char "," s = false.
Proof.
  revert n. induction s as [|c s IH]; intros n; simpl; [done|].
  destruct (_ || _) eqn:Hd; [done|]. intros Hs. rewrite (IH _ Hs), orb_false_r.
  apply Ascii.eqb_neq. intros ->. done.
Qed.

(** ** Authentication *)

Lemma stepFinal_honest user pass b sp x saltedPass authMsg sn salt iterations i :
  x = MkScram user pass (base64_EncodeToString b) saltedPass authMsg 2 →
  has_char "," sn = false → producerSCRAMParseIter iterations = Ok i → scramHi pass salt i = Some sp →
  let nonce := base64_EncodeToString b +:+ sn in
  let serverFirst := "r=" +:+ nonce +:+ ",s=" +:+ base64_EncodeToString salt +:+ ",i=" +:+ iterations in
  let np := "c=" +:+ base64_EncodeToString "n,," +:+ ",r=" +:+ nonce in
  let auth := ("n=" +:+ user +:+ ",r=" +:+ base64_EncodeToString b) +:+ "," +:+ serverFirst +:+ "," +:+ np in
  let key := hmac_Sum sp "Client Key" in
  ∃ proof, producerSCRAMXorBytes key (hmac_Sum (hash_Sum key) auth) = Some proof ∧
    stepFinal x serverFirst
    = (MkScram user pass (base64_EncodeToString b) sp auth 2, Ok (np +:+ ",p=" +:+ base64_EncodeToString proof)).
Proof.
  intros -> Hsn Hi Hhi nonce serverFirst np auth key.
  destruct (xorBytes_defined key (hmac_Sum (hash_Sum key) auth)) as (proof & Hx & _); [apply hmac_size|].
  exists proof. split; [done|]. unfold stepFinal.
  assert (producerSCRAMParseAttrs serverFirst
          = <["i" := iterations]> (<["s" := base64_EncodeToString salt]> (<["r" := nonce]> ∅))) as ->.
  { apply (attrs_three "r" "s" "i"); try done.
    - unfold nonce. by rewrite has_char_app, base64_no_comma, Hsn.
    - apply base64_no_comma.
    - unfold producerSCRAMParseIter in Hi. destruct (parseIter_go iterations 0) eqn:Hg; [|done].
      by eapply parseIter_no_comma. }
  do 2 (rewrite lookup_insert_ne by done). rewrite lookup_insert_eq. cbn [x_clientNonce].
  rewrite (proj2 (HasPrefix_spec _ _)) by (by exists sn). cbn [negb].
  rewrite lookup_insert_ne by done. rewrite lookup_insert_eq, base64_inverse, lookup_insert_eq, Hi.
  cbn [x_pass x_user x_step]. rewrite Hhi. cbv zeta. fold nonce np key. fold auth. by rewrite Hx.
Qed.

(** The RFC server accepts what [stepFinal] sends. *)
Lemma server_final_honest cred user sp sn bare cn serverFirst proof :
  client_first bare user cn → sv_StoredKey cred = hash_Sum (hmac_Sum sp "Client Key") →
  let np := "c=" +:+ base64_EncodeToString "n,," +:+ ",r=" +:+ (cn +:+ sn) in
  let auth := bare +:+ "," +:+ serverFirst +:+ "," +:+ np in
  producerSCRAMXorBytes (hmac_Sum sp "Client Key") (hmac_Sum (sv_StoredKey cred) auth) = Some proof →
  server_final cred sn bare serverFirst (np +:+ ",p=" +:+ base64_EncodeToString proof)
    ("v=" +:+ base64_EncodeToString (hmac_Sum (sv_ServerKey cred) auth)).
Proof.
  intros Hbare Hst np auth Hx. exists user, cn, proof, (hmac_Sum sp "Client Key"). split; [done|]. cbn zeta. fold np auth.
  split_and!; [done| |done|done]. apply xorBytes_is_xor; [by apply xorBytes_cancel|].
  destruct (xorBytes_defined (hmac_Sum sp "Client Key") (hmac_Sum (sv_StoredKey cred) auth)) as (c & Hc & Hl); [apply hmac_size|].
  rewrite Hx in Hc. injection Hc as <-. rewrite Hl. apply hmac_size.
Qed.

(** [SASLprep] of RFC 4013, which leaves ASCII text as it is. *)
Context (SASLprep : string → string).
Hypothesis SASLprep_ascii : ∀ t, every (λ c, (32 <=? code c)%Z && (code c <=? 126)%Z) t = true → SASLprep t = t.

(** C36: the client authenticates to, and authenticates, every server that does as
    RFC 5802 says and was enrolled with its password, for any salt, any number
    of iterations (below [2^63]) and any nonces.  The user name and the password
    are ASCII text, the name without commas and equal signs (the client escapes
    and prepares neither).  The client's first message is one the grammar reads
    as that user and no other; to every answer such a server may give the client
    replies with a final message the server accepts; and it accepts every final
    message of such a server and is done. *)
Theorem scram_exchange x0 user pass b sn cred :
  every plain user = true → user ≠ "" → every (λ c, (32 <=? code c)%Z && (code c <=? 126)%Z) pass = true →
  base64_EncodeToString b ≠ "" → every printable sn = true →
  (0 < sv_iterations cred)%nat → (Z.of_nat (sv_iterations cred) < 2 ^ 63)%Z → enrolled (SASLprep pass) cred →
  let '(x1, r1) := Step (Begin x0 user pass (Ok b)).1 "" in
  ∃ bare, r1 = Ok ("n,," +:+ bare) ∧ (∀ u, (∃ cn, client_first bare u cn) ↔ u = user) ∧
  ∀ serverFirst, server_first cred sn bare serverFirst →
  let '(x2, r2) := Step x1 serverFirst in
  ∃ clientFinal, r2 = Ok clientFinal ∧ (∃ serverFinal, server_final cred sn bare serverFirst clientFinal serverFinal) ∧
  ∀ serverFinal, server_final cred sn bare serverFirst clientFinal serverFinal →
  let '(x3, r3) := Step x2 serverFinal in r3 = Ok "" ∧ Done x3 = true.
Proof.
  intros Hu Hune Hp Hb Hsn Hpos Hlt Hen. cbn. set (cn := base64_EncodeToString b).
  rewrite SASLprep_ascii in Hen by done. destruct Hen as (sp & Hsp & Hst & Hsk).
  destruct (scramHi_Hi pass (sv_salt cred) _ Hpos) as (h & Hrun & Hh). rewrite (Hi_unique _ _ _ _ _ Hh Hsp) in Hrun. clear Hh.
  set (bare := "n=" +:+ user +:+ ",r=" +:+ cn). assert (every printable cn = true) as Hcn by apply base64_printable.
  assert (client_first bare user cn) as Hcf.
  { exists user. split_and!; [|apply base64_printable|done|done]. split; [done|]. by apply saslname_plain. }
  exists bare. split; [done|]. split.
  { intros u. split; [|intros ->; by exists cn]. intros [c Hc]. by destruct (client_first_reads user cn u c Hu Hcn Hc). }
  intros serverFirst (u & c & its & Hc & Hits & ->). destruct (client_first_reads user cn u c Hu Hcn Hc) as [-> ->].
  destruct (stepFinal_honest user pass b sp (MkScram user pass cn (x_saltedPass x0) (x_authMessage x0) 2) (x_saltedPass x0) (x_authMessage x0) sn (sv_salt cred) its (Z.of_nat (sv_iterations cred))) as (proof & Hx & Hs);
    [reflexivity|by apply printable_no_comma|by apply parseIter_posit|exact Hrun|].
  unfold Step. cbn [x_step x_user x_pass x_clientNonce x_saltedPass x_authMessage]. cbn -[stepFinal stepVerify].
  fold cn in Hs, Hx. change (0 + 1 + 1)%Z with 2%Z. cbn [Z.eqb Pos.eqb]. rewrite Hs. rewrite <-Hst in Hx. fold bare in Hx |- *.
  eexists. split; [reflexivity|]. split; [eexists; by eapply server_final_honest|].
  intros final (u & c & proof' & key & Hc' & _ & _ & _ & ->).
  destruct (client_first_reads user cn u c Hu Hcn Hc') as [-> ->].
  change (2 + 1)%Z with 3%Z. cbn [Z.eqb Pos.eqb]. split; [|done]. unfold stepVerify. cbn [x_saltedPass x_authMessage].
  rewrite attrs_one by apply base64_no_comma. rewrite lookup_insert_eq, base64_inverse, Hsk. fold bare. by rewrite String.eqb_refl.
Qed.

(** A client that reports success has seen a server nonce that extends its
    own, a positive iteration count, and the signature of the whole exchange
    (its own first message, the server's, and the nonce) under the server key
    of its password with the server's salt; after that it refuses to go on. *)
Theorem scram_client_sound x0 user pass b serverFirst final x1 x2 x3 m1 m2 m3 :
  Step (Begin x0 user pass (Ok b)).1 "" = (x1, Ok m1) →
  Step x1 serverFirst = (x2, Ok m2) → Step x2 final = (x3, Ok m3) →
  let cn := base64_EncodeToString b in
  (∃ nonce saltB64 salt iterStr i sp sig,
     producerSCRAMParseAttrs serverFirst !! "r" = Some nonce ∧ HasPrefix nonce cn = true ∧
     producerSCRAMParseAttrs serverFirst !! "s" = Some saltB64 ∧ base64_DecodeString saltB64 = Ok salt ∧
     producerSCRAMParseAttrs serverFirst !! "i" = Some iterStr ∧ producerSCRAMParseIter iterStr = Ok i ∧
     (0 < i)%Z ∧ scramHi pass salt i = Some sp ∧
     producerSCRAMParseAttrs final !! "v" = Some sig ∧
     base64_DecodeString sig
     = Ok (hmac_Sum (hmac_Sum sp "Server Key")
             (("n=" +:+ user +:+ ",r=" +:+ cn) +:+ "," +:+ serverFirst +:+ ","
              +:+ ("c=" +:+ base64_EncodeToString "n,," +:+ ",r=" +:+ nonce)))) ∧
  ∀ c, is_ok (Step x3 c).2 = false.
Proof.
  cbn. intros [= <- <-]. unfold Step at 1. cbn -[stepFinal]. unfold stepFinal. cbn -[producerSCRAMParseAttrs].
  destruct (producerSCRAMParseAttrs serverFirst !! "r") as [nonce|] eqn:Hr; [|done].
  destruct (HasPrefix nonce _) eqn:Hp; [|done]. cbn -[producerSCRAMParseAttrs].
  destruct (producerSCRAMParseAttrs serverFirst !! "s") as [saltB64|] eqn:Hs; [|done].
  destruct (base64_DecodeString saltB64) as [salt|] eqn:Hsalt; [|done].
  destruct (producerSCRAMParseAttrs serverFirst !! "i") as [iterStr|] eqn:Hi; [|done].
  destruct (producerSCRAMParseIter iterStr) as [i|] eqn:Hiter; [|done].
  destruct (scramHi pass salt i) as [sp|] eqn:Hhi; [|done].
  destruct (producerSCRAMXorBytes _ _) as [proof|]; [|done]. intros [= <- _].
  unfold Step. cbn -[stepVerify]. unfold stepVerify. cbn -[producerSCRAMParseAttrs].
  destruct (producerSCRAMParseAttrs final !! "v") as [sig|] eqn:Hv; [|done].
  destruct (base64_DecodeString sig) as [received|] eqn:Hsig; [|done].
  destruct (_ =? received)%string eqn:He; [|done]. bool_hyps. subst received. intros [= <- _].
  split; [|done]. exists nonce, saltB64, salt, iterStr, i, sp, sig. repeat split; try done.
  unfold producerSCRAMParseIter in Hiter. destruct (parseIter_go _ _) as [n|]; [|done].
  destruct (Z.leb_spec n 0); simplify_eq. done.
Qed.

End scram.

(** The user name is not escaped: a server reads [a,b] as the user [a]. *)
Example scram_comma_in_user : producerSCRAMParseAttrs "n=a,b,r=nonce" !! "n" = Some "a".
Proof. vm_compute. reflexivity. Qed.

(** The iteration count wraps around at 64 bits. *)
Example scram_iterations_wrap : producerSCRAMParseIter "18446744073709551617" = Ok 1%Z.
Proof. vm_compute. reflexivity. Qed.
