(* ===== verification/KafkaWatcher.v ===== *)
(** * The Kafka gateway's watcher

    The Kafka instance of [Broker] ([internal/gateway/kafka/watcher.go]):
    credentials, the consumer group, the loop that keeps consuming, and the
    SCRAM client handed to the group, which is the one of Scram under other
    names.  SHA-256 and the PEM parser are those of [HttpLib]. *)

From S2P Require Import Prelude SecretIndex GoStd Api Net Effects Interp Kube Publish WebhookWatcher Delivery BrokerWatcher Scram.

Local Open Scope string_scope.
Local Open Scope list_scope.
Local Open Scope go_scope.

(** What a subscription remembers: topic and consumer group. *)
Record KafkaConf := MkKafkaConf { kcf_topic : string; kcf_consumerGroup : string }.

Definition consumerGroupID (trigger : Trigger) (t : KafkaTrigger) : string :=
  if (kt_ConsumerGroup t =? "") then "kubezap-" +:+ m_Name (tg_Meta trigger) else kt_ConsumerGroup t.

(** [kafkaCredentials] *)
Record kafkaCredentials := MkKafkaCreds {
  kcr_caPEM : string;
  kcr_saslUsername : string;
  kcr_saslPassword : string;
  kcr_secretRefs : list NamespacedName;
  kcr_fingerprint : string
}.

Section kafka.
  Context `{HttpLib}.

(** The CA block of [resolveKafkaCredentials]: the certificate and its reference. *)
Definition resolveKafkaCA (ns : string) (spec : KafkaIntegrationSpec)
    : Prog WEv (result (string * list NamespacedName)) :=
  match ki_TLS spec with
  | Some tls =>
      if ktls_Enabled tls then
        match ktls_CASecretRef tls with
        | Some ref =>
            let! r := readSecret ns (sr_Name ref) (sr_Key ref) in
            match r with
            | Err e => Ret (Err (wrapf "reading CA cert secret: " e))
            | Ok caPEM => Ret (Ok (caPEM, [(ns, sr_Name ref)]))
            end
        | None => Ret (Ok ("", []))
        end
      else Ret (Ok ("", []))
  | None => Ret (Ok ("", []))
  end.

(** The hash is fed the CA certificate, the user name and the password. *)
Definition resolveKafkaCredentials (ns : string) (spec : KafkaIntegrationSpec)
    : Prog WEv (kafkaCredentials * option gerr) :=
  let! c := resolveKafkaCA ns spec in
  match c with
  | Err e => Ret (MkKafkaCreds "" "" "" [] "", Some e)
  | Ok (caPEM, refs) =>
      match ki_SASL spec with
      | None => Ret (MkKafkaCreds caPEM "" "" refs (sha256_hex caPEM), None)
      | Some sasl =>
          let uref := ksasl_UsernameSecretRef sasl in
          let pref := ksasl_PasswordSecretRef sasl in
          let! u := readSecret ns (sr_Name uref) (sr_Key uref) in
          match u with
          | Err e => Ret (MkKafkaCreds caPEM "" "" refs "", Some (wrapf "reading SASL username secret: " e))
          | Ok username =>
              let! p := readSecret ns (sr_Name pref) (sr_Key pref) in
              match p with
              | Err e => Ret (MkKafkaCreds caPEM "" "" refs "", Some (wrapf "reading SASL password secret: " e))
              | Ok password =>
                  Ret (MkKafkaCreds caPEM username password
                         (refs ++ [(ns, sr_Name uref); (ns, sr_Name pref)])
                         (sha256_hex (caPEM +:+ username +:+ password)), None)
              end
          end
      end
  end.

(** The TLS and SASL blocks of [startSubscription]. *)
Definition consumerTLS (ns : string) (spec : KafkaIntegrationSpec) (creds : kafkaCredentials)
    : result (option (bool * option string)) :=
  match ki_TLS spec with
  | Some tls =>
      if ktls_Enabled tls then
        match ktls_CASecretRef tls with
        | None => Ok (Some (ktls_InsecureSkipVerify tls, None))
        | Some ref =>
            if AppendCertsFromPEM (kcr_caPEM creds)
            then Ok (Some (ktls_InsecureSkipVerify tls, Some (kcr_caPEM creds)))
            else Err (errorf ("failed to parse CA certificate from secret " +:+ ns +:+ "/" +:+ sr_Name ref
                              +:+ " key " +:+ sr_Key ref))
        end
      else Ok None
  | None => Ok None
  end.

Definition consumerSASL (spec : KafkaIntegrationSpec) (creds : kafkaCredentials)
    : result (option (string * string * SASLMechanism)) :=
  match ki_SASL spec with
  | None => Ok None
  | Some sasl =>
      match saslMechanism (ksasl_Mechanism sasl) with
      | Some m => Ok (Some (kcr_saslUsername creds, kcr_saslPassword creds, m))
      | None => Err (errorf ("unsupported SASL mechanism: " +:+ ksasl_Mechanism sasl))
      end
  end.

(** The context and the subscription are made once the group exists. *)
Definition kafka_startSubscription (trigger : Trigger) (t : KafkaTrigger) (spec : KafkaIntegrationSpec)
    (creds : kafkaCredentials) (w : Watcher KafkaConf) : Prog WEv (Watcher KafkaConf * option gerr) :=
  let ns := m_Namespace (tg_Meta trigger) in
  let cgID := consumerGroupID trigger t in
  match consumerTLS ns spec creds with
  | Err e => Ret (w, Some e)
  | Ok tls =>
      match consumerSASL spec creds with
      | Err e => Ret (w, Some e)
      | Ok sasl =>
          let! g := emit (WNewConsumerGroup (ki_BootstrapServers spec) cgID (MkKafkaConfig tls sasl)) in
          match g with
          | Err e => Ret (w, Some (wrapf ("create consumer group for trigger " +:+ ns +:+ "/"
                                          +:+ m_Name (tg_Meta trigger) +:+ ": ") e))
          | Ok _ =>
              let '(subCtx, w) := withCancel w in
              Ret (storeSub (trigger_key trigger)
                     (MkSub subCtx (kt_IntegrationRef t) (MkKafkaConf (kt_Topic t) cgID) (kcr_fingerprint creds)) w,
                   None)
          end
      end
  end.

Definition kafka_same (c : KafkaConf) (trigger : Trigger) (t : KafkaTrigger) : bool :=
  (kcf_topic c =? kt_Topic t) && (kcf_consumerGroup c =? consumerGroupID trigger t).

#[global] Instance KafkaBroker : Broker := {|
  b_Conf := KafkaConf;
  b_TSpec := KafkaTrigger;
  b_ISpec := KafkaIntegrationSpec;
  b_Creds := kafkaCredentials;
  b_type := kafkaType;
  b_tspec := ts_Kafka;
  b_ispec := is_Kafka;
  b_ref := kt_IntegrationRef;
  b_resolve := resolveKafkaCredentials;
  b_secretRefs := kcr_secretRefs;
  b_fingerprint := kcr_fingerprint;
  b_same := kafka_same;
  b_start := kafka_startSubscription
|}.

End kafka.

(** ** The consuming goroutine *)

Inductive LEv : Type → Type :=
  (** [ctx.Err() != nil] *)
  | LDone : LEv bool
  (** One session: [cg.Consume], or one connection of the AMQP gateway. *)
  | LSession : LEv (option gerr)
  (** [select] on the context and [time.After(d)]: true when the context is done. *)
  | LSleep (d : Z) : LEv bool
  | LClose : LEv unit.

Definition consumeBackoff : Z := 5 * Second.

(** At most [fuel] rounds of the loop; the result tells whether it returned. *)
Fixpoint consumeLoop (fuel : nat) : Prog LEv bool :=
  match fuel with
  | O => Ret false
  | S fuel =>
      let! dn := emit LDone in
      if dn : bool then Ret true else
      let! e := emit LSession in
      match e with
      | None => consumeLoop fuel
      | Some _ =>
          let! dn := emit LDone in
          if dn : bool then Ret true else
          let! dn := emit (LSleep consumeBackoff) in
          if dn : bool then Ret true else consumeLoop fuel
      end
  end.

(** The goroutine: the loop, then the deferred [Close]. *)
Definition kafka_goroutine (fuel : nat) : Prog LEv bool :=
  let! r := consumeLoop fuel in
  if r : bool then let! _ := emit LClose in Ret true else Ret false.

(** ** The SCRAM client *)

Section scram.
  Context `{ScramLib}.

Definition xdgSCRAMClient : Type := producerSCRAMClient.
Definition scramXorBytes : string → string → option string := producerSCRAMXorBytes.
Definition scramParseIter : string → result Z := producerSCRAMParseIter.
Definition scramParseAttrs : string → gmap string string := producerSCRAMParseAttrs.
Definition xdg_scramHi : string → string → Z → option string := scramHi.
Definition xdg_Begin : xdgSCRAMClient → string → string → result string → xdgSCRAMClient * option gerr := Begin.
Definition xdg_Step : xdgSCRAMClient → string → xdgSCRAMClient * result string := Step.
Definition xdg_Done : xdgSCRAMClient → bool := Done.

End scram.
