(* ===== verification/IntegrationProps.v ===== *)
(** * The Integration controller: validation, confinement, status *)

From S2P Require Import Prelude SecretIndex GoStd Api Effects Interp Kube KObjects FlowCtl IntegrationCtl Publish WebhookWatcher Delivery BrokerWatcher KafkaWatcher.

Local Open Scope string_scope.
Local Open Scope list_scope.
Local Open Scope go_scope.

(** ** Well-typed specifications *)

(** A specification carries the block of its type, with what it needs. *)
Inductive well_typed (spec : IntegrationSpec) : Prop :=
  | wt_kafka k : is_Type spec = "kafka" → is_Kafka spec = Some k → ki_BootstrapServers k ≠ [] → well_typed spec
  | wt_amqp a : is_Type spec = "amqp" → is_Amqp spec = Some a → ai_URL a ≠ "" → well_typed spec
  | wt_nats n : is_Type spec = "nats" → is_Nats spec = Some n → ni_Servers n ≠ [] → well_typed spec
  | wt_http h : is_Type spec = "http" → is_HTTP spec = Some h → well_typed spec
  | wt_plugin p : is_Type spec = "plugin" → is_Plugin spec = Some p → pi_Image p ≠ "" → well_typed spec.

Lemma validate_well_typed spec : validateIntegrationSpec spec = None ↔ well_typed spec.
Proof.
  unfold validateIntegrationSpec, typeKafka, typeHTTP, typePlugin.
  destruct (String.eqb_spec (is_Type spec) "kafka") as [Hk|Hk].
  { destruct (is_Kafka spec) as [k|] eqn:E; [destruct (ki_BootstrapServers k) eqn:Es|];
      (split; [|by destruct 1; congruence]); try done. intros _. by eapply wt_kafka; rewrite ?Es. }
  destruct (String.eqb_spec (is_Type spec) "amqp") as [Ha|Ha].
  { destruct (is_Amqp spec) as [a|] eqn:E; [destruct (String.eqb_spec (ai_URL a) "")|];
      (split; [|by destruct 1; congruence]); try done. intros _. by eapply wt_amqp. }
  destruct (String.eqb_spec (is_Type spec) "nats") as [Hn|Hn].
  { destruct (is_Nats spec) as [n|] eqn:E; [destruct (ni_Servers n) eqn:Es|];
      (split; [|by destruct 1; congruence]); try done. intros _. by eapply wt_nats; rewrite ?Es. }
  destruct (String.eqb_spec (is_Type spec) "http") as [Hh|Hh].
  { destruct (is_HTTP spec) as [h|] eqn:E; (split; [|by destruct 1; congruence]); try done. intros _. by eapply wt_http. }
  destruct (String.eqb_spec (is_Type spec) "plugin") as [Hp|Hp].
  { destruct (is_Plugin spec) as [p|] eqn:E; [destruct (String.eqb_spec (pi_Image p) "")|];
      (split; [|by destruct 1; congruence]); try done. intros _. by eapply wt_plugin. }
  split; [done|]. by destruct 1.
Qed.

(** ** What may be written *)

(** The account a workload runs as and the name of its Deployment: broker
    gateways of a namespace share an account, plugins have their own. *)
Definition account (ty name : string) : string :=
  if bool_decide (ty = "plugin") then "kubezap-plugin-" +:+ name else "kubezap-gateway".

Definition workload (ty name : string) : string :=
  if bool_decide (ty = "plugin") then "kubezap-plugin-" +:+ name else "kubezap-" +:+ ty +:+ "-gateway-" +:+ name.

(** What a rule must not grant: everything, the removal of anything, more
    rights, the change of anything but FlowRuns and Events, and, to a plugin,
    the Secrets of the namespace. *)
Definition grant_ok (ty g res v : string) : bool :=
  bool_decide (g ∈ ["automation.kubezap.io"; ""]) && negb (bool_decide (res ∈ ["*"]))
  && negb (bool_decide (v ∈ ["*"; "delete"; "deletecollection"; "escalate"; "bind"; "impersonate"]))
  && (bool_decide (v ∈ ["get"; "list"; "watch"]) || bool_decide (res ∈ ["flowruns"; "events"]))
  && negb (bool_decide (ty = "plugin") && bool_decide (res = "secrets")).

Definition rule_ok (ty : string) (r : PolicyRule) : Prop :=
  ∀ g res v, g ∈ pr_APIGroups r → res ∈ pr_Resources r → v ∈ pr_Verbs r → grant_ok ty g res v = true.

Lemma rules_ok ty rules :
  forallb (λ r, forallb (λ g, forallb (λ res, forallb (grant_ok ty g res) (pr_Verbs r)) (pr_Resources r)) (pr_APIGroups r)) rules = true →
  Forall (rule_ok ty) rules.
Proof.
  intros H. apply Is_true_true, forallb_True in H. eapply Forall_impl; [exact H|].
  intros r Hr g res v Hg Hres Hv. apply forallb_True in Hr. rewrite Forall_forall in Hr. specialize (Hr _ Hg).
  apply forallb_True in Hr. rewrite Forall_forall in Hr. specialize (Hr _ Hres).
  apply forallb_True in Hr. rewrite Forall_forall in Hr. by apply Is_true_true, Hr.
Qed.

Lemma pluginRules_ok : Forall (rule_ok "plugin") pluginRules.
Proof. by apply rules_ok. Qed.

Lemma gatewayRules_ok ty : ty ≠ "plugin" → Forall (rule_ok ty) gatewayRules.
Proof. intros Hty. apply rules_ok. cbn -[grant_ok]. unfold grant_ok. rewrite (bool_decide_false _ Hty). done. Qed.

Definition container_ok (c : Container) : bool :=
  sc_RunAsNonRoot (ct_Security c) && sc_ReadOnlyRootFilesystem (ct_Security c)
  && negb (sc_AllowPrivilegeEscalation (ct_Security c)).

Section confined.
  Context (ns name ty : string).

(** The objects of an Integration of a type; only plugins have a certificate
    Secret and mount it. *)
Definition body_ok (K : Kind) : KMeta → Body K → Prop :=
  match K return KMeta → Body K → Prop with
  | KSA => λ m _, k_Name m = account ty name
  | KRole => λ m rules, k_Name m = account ty name ∧ Forall (rule_ok ty) rules
  | KRB => λ m b, k_Name m = account ty name
                  ∧ rb_RoleRef b = MkRoleRef "rbac.authorization.k8s.io" "Role" (account ty name)
                  ∧ rb_Subjects b = [MkSubject "ServiceAccount" (account ty name) ns]
  | KDep => λ m d, k_Name m = workload ty name
                   ∧ po_ServiceAccountName (d_Pod d) = account ty name ∧ po_RunAsNonRoot (d_Pod d) = true
                   ∧ forallb container_ok (po_Containers (d_Pod d)) = true
                   ∧ ∀ v, v ∈ po_Volumes (d_Pod d) → ty = "plugin" ∧ vo_SecretName v = "kubezap-plugin-" +:+ name +:+ "-mtls"
  | KSvc => λ m s, ty = "kafka" ∧ k_Name m = workload ty name
  | KSec => λ m s, ty = "plugin" ∧ k_Name m = "kubezap-plugin-" +:+ name +:+ "-mtls"
  | KHPA | KPDB | KNet => λ _ _, False
  end.

(** An object of the Integration, in its namespace. *)
Definition confined {K} (o : Obj K) : Prop := k_Namespace (o_Meta o) = ns ∧ body_ok K (o_Meta o) (o_Body o).

(** Deleted are only a binding about to be replaced and the certificates of a
    plugin. *)
Definition cluster_demand {X} (e : CEv X) : Prop :=
  match e with
  | CCreate o => confined o
  | CUpdate o => confined o
  | CDelete K n m => n = ns ∧ ((K = KRB ∧ m = account ty name)
                               ∨ (K = KSec ∧ ty = "plugin" ∧ m = "kubezap-plugin-" +:+ name +:+ "-mtls"))
  | CGet _ n _ => n = ns
  | CUnchanged _ _ => True
  end.

(** What the API server answers: objects have the key they were asked by. *)
Definition cluster_answer {X} (e : CEv X) : X → Prop :=
  match e in CEv X return X → Prop with
  | CGet K n m => λ r, ∀ o, r = Ok o → k_Namespace (o_Meta o) = n ∧ k_Name (o_Meta o) = m
  | _ => λ _, True
  end.

(** Cluster requests on their own. *)
Definition cspec : Spec CEv unit := λ X e s Q, cluster_demand e ∧ ∀ x, cluster_answer e x → Q x s.

#[global] Instance cspec_mono : MonoSpec cspec.
Proof. intros X e s P Q HPQ [Hd HP]. split; [done|]. eauto. Qed.

(** Upserting writes what the mutate function makes of an object with the key. *)
Lemma wp_CreateOrUpdate {K} (o : Obj K) (mutate : Obj K → result (Obj K)) (Q : option CouErr → unit → Prop) :
  k_Namespace (o_Meta o) = ns →
  (∀ live o', k_Namespace (o_Meta live) = ns → k_Name (o_Meta live) = k_Name (o_Meta o) →
     mutate live = Ok o' → confined o') →
  (∀ r, Q r tt) → wp cspec (CreateOrUpdate o mutate) tt Q.
Proof.
  intros Hns Hm HQ. unfold CreateOrUpdate. split; [done|]. intros [live|e] Hans; cbn.
  - destruct (Hans live eq_refl) as [Hn Hl]. destruct (mutate live) as [o'|e] eqn:He; [|apply HQ].
    split; [done|]. intros [] _; [apply HQ|]. split; [apply (Hm live); [congruence|done|done]|]. intros u _. apply HQ.
  - destruct (negb (isNotFound e)); [apply HQ|]. destruct (mutate o) as [o'|e'] eqn:He; [|apply HQ].
    split; [by apply (Hm o)|]. intros c _. apply HQ.
Qed.

Lemma owner_confined {K} owner (o o' : Obj K) : SetControllerReference owner o = Ok o' → confined o' ↔ confined o.
Proof.
  unfold SetControllerReference, confined. destruct (k_Owner (o_Meta o)).
  - destruct (_ =? _); [|done]. by intros [= <-].
  - intros [= <-]. simpl. destruct K; simpl; tauto.
Qed.

(** The owner setters keep objects confined. *)
Definition keeps (own : ∀ K, Obj K → result (Obj K)) : Prop := ∀ K o o', own K o = Ok o' → (confined o' ↔ confined o).

Lemma wp_upsertRoleBinding what acc own (Q : option gerr → unit → Prop) :
  acc = account ty name → (∀ o o', own o = Ok o' → (confined o' ↔ confined o)) → (∀ r, Q r tt) →
  wp cspec (upsertRoleBinding what acc ns own) tt Q.
Proof.
  intros Ha Hown HQ. unfold upsertRoleBinding. apply wp_bind; [apply _|]. apply wp_CreateOrUpdate; [done| |].
  - intros live o' Hn Hk. destruct (_ && _); [done|]. intros Ho. apply (Hown _ _ Ho).
    split; [done|]. simpl in *. rewrite Hk, Ha. done.
  - intros [[e|e]|]; [|apply HQ|apply HQ]. destruct (_ =? _); [|apply HQ].
    split; [split; [done|]; by left|]. intros d _. cbn -[isNotFound].
    assert (wp cspec (match own (MkObj (K := KRB) (newMeta acc ns) (MkBinding (MkRoleRef apiGroupRBAC kindRole acc)
        [MkSubject kindServiceAccount acc ns])) with
      | Ok rb => Vis (CCreate rb) (λ c, Ret (match c with
          | Ok _ => None
          | Err e => if bool_decide (ekind_of e = EKAlreadyExists) then None
                     else Some (wrapf ("recreating " +:+ what +:+ " RoleBinding: ") e) end))
      | Err e => Ret (Some (wrapf "setting owner reference on recreated RoleBinding: " e))
      end) tt Q) as Hre.
    { destruct (own _) as [rb|e'] eqn:Ho; [|apply HQ]. split; [|intros c _; apply HQ]. apply (Hown _ _ Ho). rewrite Ha. done. }
    destruct d as [[]|e']; [exact Hre|]. destruct (negb (isNotFound e')); [apply HQ|exact Hre].
Qed.

Lemma wp_upsertRBAC what acc rules own (Q : option gerr → unit → Prop) :
  acc = account ty name → Forall (rule_ok ty) rules → keeps own → (∀ r, Q r tt) →
  wp cspec (upsertRBAC what acc ns rules own) tt Q.
Proof.
  intros Ha Hr Hown HQ. unfold upsertRBAC. apply wp_bind; [apply _|]. apply wp_CreateOrUpdate; [done| |].
  { intros live o' Hn Hk Ho. apply (Hown _ _ _ Ho). split; [done|]. simpl. by rewrite Hk, Ha. }
  intros [e|]; [apply HQ|]. apply wp_bind; [apply _|]. apply wp_CreateOrUpdate; [done| |].
  { intros live o' Hn Hk Ho. apply (Hown _ _ _ Ho). split; [done|]. simpl. by rewrite Hk, Ha. }
  intros [e|]; [apply HQ|]. apply wp_upsertRoleBinding; [done| |done]. intros o o'. apply Hown.
Qed.

Lemma wp_gatewayRBAC what i (Q : option gerr → unit → Prop) :
  in_ns i = ns → ty ≠ "plugin" → (∀ r, Q r tt) → wp cspec (gatewayRBAC what i) tt Q.
Proof.
  intros Hns Hty HQ. unfold gatewayRBAC. rewrite Hns. apply wp_upsertRBAC; [|by apply gatewayRules_ok| |done].
  - unfold account. by rewrite bool_decide_false.
  - by intros K o o' [= <-].
Qed.

Lemma wp_pluginRBAC i (Q : option gerr → unit → Prop) :
  in_ns i = ns → in_name i = name → ty = "plugin" → (∀ r, Q r tt) → wp cspec (reconcilePluginRBAC i) tt Q.
Proof.
  intros Hns Hname Hty HQ. unfold reconcilePluginRBAC. rewrite Hns, Hname. apply wp_upsertRBAC; [|rewrite Hty; apply pluginRules_ok| |done].
  - unfold account. by rewrite bool_decide_true.
  - intros K o o' Ho. by eapply owner_confined.
Qed.

(** Overwriting keeps the key, so only the specification matters. *)
Lemma overwrite_confined (want live : Obj KDep) :
  confined want → k_Namespace (o_Meta live) = ns → k_Name (o_Meta live) = k_Name (o_Meta want) →
  confined (overwriteDeployment want live).
Proof. intros [_ [Hm Hb]] Hn Hk. split; [done|]. split; [|exact Hb]. simpl. congruence. Qed.

Lemma gatewayDeployment_confined component image env extra ports i :
  in_ns i = ns → in_name i = name → ty ≠ "plugin" → component = ty +:+ "-gateway" →
  confined (gatewayDeployment component image env extra ports i).
Proof.
  intros Hns Hname Hty ->. split; [done|]. simpl. unfold account, workload. rewrite bool_decide_false, Hname by done.
  split_and!; [|done|done|done|by intros v Hv%not_elem_of_nil].
  by rewrite <-!(assoc_L String.append).
Qed.

Lemma wp_brokerGateway what d i (Q : result string → unit → Prop) :
  in_ns i = ns → ty ≠ "plugin" → confined d → (∀ r, Q r tt) → wp cspec (brokerGateway what d i) tt Q.
Proof.
  intros Hns Hty Hd HQ. unfold brokerGateway. apply wp_bind; [apply _|]. apply wp_gatewayRBAC; [done|done|].
  intros [e|]; [apply HQ|]. destruct (SetControllerReference (in_owner i) d) as [d'|e] eqn:Ho; [|apply HQ].
  apply (owner_confined _ _ _ Ho) in Hd. apply wp_bind; [apply _|]. unfold upsertDeployment. apply wp_CreateOrUpdate.
  - apply Hd.
  - intros live o' Hn Hk [= <-]. by apply overwrite_confined.
  - intros [e|]; apply HQ.
Qed.

Lemma wp_kafkaGateway env i (Q : result string → unit → Prop) :
  in_ns i = ns → in_name i = name → ty = "kafka" → (∀ r, Q r tt) → wp cspec (reconcileKafkaGateway env i) tt Q.
Proof.
  intros Hns Hname Hty HQ. unfold reconcileKafkaGateway. apply wp_bind; [apply _|].
  apply wp_brokerGateway; [done|congruence|apply gatewayDeployment_confined; [done|done|congruence|by rewrite Hty]|]. intros [nm|e]; [|apply HQ].
  destruct (SetControllerReference _ _) as [svc|e] eqn:Ho; [|apply HQ].
  assert (k_Namespace (o_Meta svc) = ns ∧ k_Name (o_Meta svc) = "kubezap-kafka-gateway-" +:+ name) as [H1 H2].
  { unfold SetControllerReference in Ho. simpl in Ho. injection Ho as <-. simpl. by rewrite Hname. }
  apply wp_bind; [apply _|]. apply wp_CreateOrUpdate; [done| |intros [e|]; apply HQ].
  intros live o' Hn Hk [= <-]. split; [done|]. split; [done|]. rewrite Hty. simpl. rewrite Hk. exact H2.
Qed.

End confined.

(** ** The environment of a reconcile *)

Section environment.
  Context (ns name : string).

(** The Integration read, and whether its status was written. *)
Record IGhost := MkIGhost { g_read : option Integration; g_updated : bool }.

Definition valid_read (g : IGhost) (P : Integration → Prop) : Prop := ∃ i, g_read g = Some i ∧ well_typed (in_Spec i) ∧ P i.

Definition ready_in (i : Integration) (P : Prop) : Prop :=
  ∃ c, find_condition "Ready" (ist_Conditions (in_Status i)) = Some c ∧ (c_Status c = ConditionTrue ↔ P).

(** A scaler of a Kafka gateway, for its Deployment and owned by the Integration. *)
Definition scaler_ok (o : ScaledObject) (i : Integration) : Prop :=
  is_Type (in_Spec i) = "kafka" ∧ so_Namespace o = ns ∧ so_Name o = workload "kafka" name
  ∧ so_TargetName o = workload "kafka" name ∧ so_Owner o = m_UID (in_Meta i).

Definition idemand {X} (e : IEv X) (g : IGhost) : Prop :=
  match e with
  | ICluster e => valid_read g (λ i, cluster_demand ns name (is_Type (in_Spec i)) e)
  | IStatusUpdate i => ∃ i0, g_read g = Some i0 ∧ in_Spec i = in_Spec i0 ∧ in_Meta i = in_Meta i0
                             ∧ ready_in i (well_typed (in_Spec i0))
  | ICreateScaled o => valid_read g (scaler_ok o)
  | IUpdateScaled o => valid_read g (scaler_ok o)
  | _ => True
  end.

Definition integration_spec : Spec IEv IGhost := λ X e g Q,
  idemand e g ∧
  match e in IEv X return (X → IGhost → Prop) → Prop with
  | ICluster e => λ Q, ∀ x, cluster_answer e x → Q x g
  | IGetIntegration n m => λ Q,
      (∀ e, Q (Err e) g) ∧ ∀ i, in_ns i = n → in_name i = m → Q (Ok i) (MkIGhost (Some i) (g_updated g))
  | IStatusUpdate i => λ Q, (∀ e, Q (Err e) g) ∧ Q (Ok tt) (MkIGhost (g_read g) true)
  | INow => λ Q, ∀ x, Q x g
  | IListTriggers _ => λ Q, ∀ x, Q x g
  | IMapOrder _ => λ Q, ∀ x, Q x g
  | IPairOrder _ => λ Q, ∀ x, Q x g
  | IStoreLoad _ => λ Q, ∀ x, Q x g
  | IStoreSet _ _ => λ Q, ∀ x, Q x g
  | IStoreRemove _ => λ Q, ∀ x, Q x g
  | IGenerateCA _ _ _ => λ Q, ∀ x, Q x g
  | IIssueLeaf _ _ _ _ _ _ => λ Q, ∀ x, Q x g
  | IGetScaled _ _ => λ Q, ∀ x, Q x g
  | ICreateScaled _ => λ Q, ∀ x, Q x g
  | IUpdateScaled _ => λ Q, ∀ x, Q x g
  end Q.

#[global] Instance integration_spec_mono : MonoSpec integration_spec.
Proof. intros X e g P Q HPQ [Hd HP]. split; [done|]. destruct e; simpl in *; naive_solver. Qed.

(** The Integration being reconciled is the one read. *)
Definition reading (g : IGhost) (i : Integration) : Prop :=
  ∃ i0, g_read g = Some i0 ∧ well_typed (in_Spec i0) ∧ in_Meta i = in_Meta i0 ∧ in_Spec i = in_Spec i0.

Lemma reading_valid g i (P : Integration → Prop) :
  reading g i → (∀ i0, in_Meta i = in_Meta i0 → in_Spec i = in_Spec i0 → P i0) → valid_read g P.
Proof. intros (i0 & Hg & Hwt & Hm & Hs) HP. exists i0. auto. Qed.

Lemma wp_onCluster {A} i (p : Prog CEv A) g (Q : A → IGhost → Prop) :
  reading g i → wp (cspec ns name (is_Type (in_Spec i))) p tt (λ a _, Q a g) → wp integration_spec (onCluster p) g Q.
Proof.
  intros Hv. induction p as [a|X e k IH]; cbn [wp onCluster]; [done|]. intros [Hd Hk].
  split; [apply (reading_valid g i); [done|]; intros i0 _ <-; done|]. intros x Hx. apply IH. by apply Hk.
Qed.

Lemma wp_secretEnv refs g (Q : list EnvVar → IGhost → Prop) :
  (∀ l, Q l g) → wp integration_spec (secretEnv refs) g Q.
Proof.
  intros HQ. unfold secretEnv. eapply wp_mono; [apply _| |apply (wp_fold _ _ _ (λ _ g', g' = g)); [|done]].
  - intros l g' ->. apply HQ.
  - intros acc g' ref _ ->. split; [done|]. intros kvs. done.
Qed.

Lemma wp_desiredPlugin plugin i g (Q : Obj KDep → IGhost → Prop) :
  in_ns i = ns → in_name i = name → (∀ d, k_Name (o_Meta d) = workload "plugin" name → confined ns name "plugin" d → Q d g) →
  wp integration_spec (desiredPluginDeployment plugin i) g Q.
Proof.
  intros Hns Hname HQ. unfold desiredPluginDeployment. apply wp_bind; [apply _|]. apply wp_secretEnv. intros l.
  apply HQ; [by simpl; rewrite Hname|]. split; [done|]. simpl. split_and!; [by rewrite Hname|by rewrite Hname|done|done|].
  intros v Hv. destruct (mtlsEnabled plugin); [|by apply not_elem_of_nil in Hv].
  apply list_elem_of_singleton in Hv as ->. simpl. by rewrite Hname.
Qed.

Section status.
  Context `{KL : KubeLib} `{!KubeLibLaws}.

(** Later versions of the Integration read. *)
Definition follows (i i' : Integration) : Prop := in_Meta i' = in_Meta i ∧ in_Spec i' = in_Spec i.

Lemma wp_setIntegrationCondition i type status reason msg g (Q : Integration → IGhost → Prop) :
  (∀ i', follows i i' →
     (∃ t, find_condition type (ist_Conditions (in_Status i'))
           = Some (MkCondition type status reason msg t (m_Generation (in_Meta i)))) → Q i' g) →
  wp integration_spec (setIntegrationCondition i type status reason msg) g Q.
Proof.
  intros HQ. unfold setIntegrationCondition. split; [done|]. intros t. cbn. apply HQ; [done|]. simpl.
  apply (SetStatusCondition_same t (ist_Conditions (in_Status i)) (MkCondition type status reason msg None _)).
Qed.

Lemma wp_GetOrGenerate i nm dns g (Q : result PluginMTLSBundle → IGhost → Prop) :
  (∀ r, Q r g) → wp integration_spec (GetOrGenerate i nm dns) g Q.
Proof.
  intros HQ. unfold GetOrGenerate, GeneratePluginMTLSBundle. split; [done|].
  assert (wp integration_spec (let! b := GeneratePluginMTLSBundle nm dns in
     match b with Err e => Ret (Err e) | Ok b => let! _ := emit (IStoreSet (pluginMTLSStoreKey i nm) b) in Ret (Ok b) end) g Q) as Hgen.
  { unfold GeneratePluginMTLSBundle. split; [done|]. intros t. split; [done|]. intros [ca|e]; [|apply HQ].
    split; [done|]. intros [sv|e]; [|apply HQ]. split; [done|]. intros [cl|e]; [|apply HQ]. split; [done|]. intros []. apply HQ. }
  intros [b|]; [|exact Hgen]. split; [done|]. intros now. cbn -[GeneratePluginMTLSBundle].
  destruct (negb (NeedsRotation now b)); [apply HQ|exact Hgen].
Qed.

Lemma wp_pluginMTLS fmt i g (Q : result (Integration * Z) → IGhost → Prop) :
  in_ns i = ns → in_name i = name → is_Type (in_Spec i) = "plugin" → reading g i →
  (∀ e, Q (Err e) g) → (∀ i' z, follows i i' → Q (Ok (i', z)) g) →
  wp integration_spec (reconcilePluginMTLS fmt i) g Q.
Proof.
  intros Hns Hname Hty Hv Herr Hok. unfold reconcilePluginMTLS. destruct (match is_Plugin _ with Some p => _ | None => _ end); cbn [negb].
  - apply wp_bind; [apply _|]. apply wp_GetOrGenerate. intros [b|e]; [|apply Herr].
    apply wp_bind; [apply _|]. apply (wp_onCluster i); [done|]. apply wp_CreateOrUpdate; [done| |].
    + intros live o' Hn Hk Ho. apply (owner_confined _ _ _ _ _ _ Ho). split; [done|]. simpl in *. by rewrite Hk, Hname.
    + intros [e|]; [apply Herr|]. apply wp_bind; [apply _|]. apply wp_setIntegrationCondition. intros i' Hf _. by apply Hok.
  - split; [done|]. intros []. split.
    { apply (reading_valid g i); [done|]. intros i0 _ <-. split; [done|]. right. rewrite <-Hname. done. }
    intros [[]|e] _; cbn -[isNotFound]; [by apply Hok|]. destruct (negb (isNotFound e)); [apply Herr|by apply Hok].
Qed.

Lemma wp_pluginDeployment plugin i g (Q : result Integration → IGhost → Prop) :
  in_ns i = ns → in_name i = name → is_Type (in_Spec i) = "plugin" → reading g i →
  (∀ e, Q (Err e) g) → (∀ i', follows i i' → Q (Ok i') g) →
  wp integration_spec (reconcilePluginDeployment plugin i) g Q.
Proof.
  intros Hns Hname Hty Hv Herr Hok. unfold reconcilePluginDeployment.
  apply wp_bind; [apply _|]. apply wp_desiredPlugin; [done|done|]. intros d Hdn Hd.
  apply wp_bind; [apply _|]. apply wp_desiredPlugin; [done|done|]. intros d' Hdn' Hd'.
  apply wp_bind; [apply _|]. apply (wp_onCluster i); [done|]. rewrite Hty. apply wp_CreateOrUpdate; [apply Hd| |].
  - intros live o' Hn Hk [= <-]. apply overwrite_confined; congruence.
  - intros [e|]; [apply Herr|]. apply wp_bind; [apply _|]. apply wp_setIntegrationCondition. intros i' Hf _. by apply Hok.
Qed.

Lemma wp_scaledObject nm servers i g (Q : option gerr → IGhost → Prop) :
  in_ns i = ns → in_name i = name → is_Type (in_Spec i) = "kafka" → reading g i → (∀ r, Q r g) →
  wp integration_spec (reconcileKafkaScaledObject nm servers i) g Q.
Proof.
  intros Hns Hname Hty Hv HQ. unfold reconcileKafkaScaledObject. split; [done|]. intros [l|e]; [|apply HQ].
  split; [done|]. intros pairs. split; [done|]. set (scaled := MkScaled _ _ _ _ _ _ _).
  assert (∀ rv, valid_read g (scaler_ok (scaled rv))) as Hsc.
  { intros rv. apply (reading_valid g i); [done|]. intros i0 Hm Hs. split; [by rewrite <-Hs|]. simpl.
    unfold in_owner. by rewrite Hname, Hm. }
  intros [rv|e]; cbn -[isNotFound kedaMissing scaled].
  - split; [apply Hsc|]. intros [[]|e]; apply HQ.
  - destruct (negb (isNotFound e)).
    + destruct (kedaMissing nm e); apply HQ.
    + split; [apply Hsc|]. intros [[]|e']; cbn -[kedaMissing]; [apply HQ|].
      destruct (kedaMissing nm e'); [apply HQ|]. destruct (bool_decide _); apply HQ.
Qed.

Lemma wp_reconcileBroker label gt (gateway : Prog CEv (result string)) extra i g (Q : result (Integration * Z) → IGhost → Prop) :
  in_ns i = ns → reading g i →
  (∀ P : result string → unit → Prop, (∀ r, P r tt) → wp (cspec ns name (is_Type (in_Spec i))) gateway tt P) →
  (∀ P : option gerr → IGhost → Prop, (∀ r, P r g) → wp integration_spec extra g P) →
  (∀ e, Q (Err e) g) → (∀ i' z, follows i i' → Q (Ok (i', z)) g) →
  wp integration_spec (reconcileBroker label gt gateway extra i) g Q.
Proof.
  intros Hns Hv Hgw Hex Herr Hok. unfold reconcileBroker. apply wp_bind; [apply _|]. apply (wp_onCluster i); [done|].
  apply Hgw. intros [nm|e]; [|apply Herr]. apply wp_bind; [apply _|]. apply Hex. intros [e|]; [apply Herr|].
  apply wp_bind; [apply _|]. unfold gatewayAvailable.
  split; [apply (reading_valid g i); [done|]; done|]. intros d Hans. cbn [pbind].
  destruct (match d with Ok d0 => _ | Err _ => _ end); apply wp_setIntegrationCondition; intros i' Hf _; apply Hok; apply Hf.
Qed.

Lemma follows_reading g i i' : reading g i → follows i i' → reading g i'.
Proof. intros (i0 & Hg & Hwt & Hm & Hs) [Hm' Hs']. exists i0. split_and!; [done|done|congruence|congruence]. Qed.

Lemma wp_reconcilePlugin E i g (Q : result (Integration * Z) → IGhost → Prop) :
  in_ns i = ns → in_name i = name → is_Type (in_Spec i) = "plugin" → reading g i →
  (∀ e, Q (Err e) g) → (∀ i' z, follows i i' → Q (Ok (i', z)) g) →
  wp integration_spec (reconcilePlugin E i) g Q.
Proof.
  intros Hns Hname Hty Hv Herr Hok. unfold reconcilePlugin. apply wp_bind; [apply _|]. apply (wp_onCluster i); [done|].
  apply wp_pluginRBAC; [done|done|done|].
  intros [e|]; [apply Herr|]. apply wp_bind; [apply _|]. apply wp_pluginMTLS; [done|done|done|done|intros e; apply Herr|].
  intros i1 z Hf1. pose proof (follows_reading _ _ _ Hv Hf1). destruct Hf1 as [Hm1 Hs1].
  destruct (is_Plugin (in_Spec i1)) as [plugin|]; [|apply Herr].
  apply wp_bind; [apply _|].
  apply wp_pluginDeployment; [unfold in_ns; by rewrite Hm1|unfold in_name; by rewrite Hm1|by rewrite Hs1|done| |].
  - intros e. apply Herr.
  - intros i2 [Hm2 Hs2]. apply Hok. split; simpl; congruence.
Qed.

Lemma wp_reconcileType E i g (Q : result (Integration * Z) → IGhost → Prop) :
  in_ns i = ns → in_name i = name → reading g i →
  (∀ e, Q (Err e) g) → (∀ i' z, follows i i' → Q (Ok (i', z)) g) →
  wp integration_spec (reconcileType E i) g Q.
Proof.
  intros Hns Hname Hv Herr Hok. unfold reconcileType.
  destruct (String.eqb_spec (is_Type (in_Spec i)) typePlugin) as [Hp|Hp]; [by apply wp_reconcilePlugin|].
  destruct (String.eqb_spec (is_Type (in_Spec i)) typeKafka) as [Hk|Hk].
  { apply wp_reconcileBroker; [done|done| | |done|done]; intros P HP; [by apply wp_kafkaGateway|by apply wp_scaledObject]. }
  destruct (String.eqb_spec (is_Type (in_Spec i)) "amqp") as [Ha|Ha].
  { apply wp_reconcileBroker; [done|done| |by intros P HP; apply HP|done|done].
    intros P HP. apply wp_brokerGateway; [done|done|apply gatewayDeployment_confined; [done|done|done|by rewrite Ha]|done]. }
  destruct (String.eqb_spec (is_Type (in_Spec i)) "nats") as [Hn|Hn]; [|by apply Hok].
  apply wp_reconcileBroker; [done|done| |by intros P HP; apply HP|done|done].
  intros P HP. apply wp_brokerGateway; [done|done|apply gatewayDeployment_confined; [done|done|done|by rewrite Hn]|done].
Qed.

Lemma Integration_Reconcile_wp E :
  wp integration_spec (Integration_Reconcile E ns name) (MkIGhost None false)
     (λ r g, r.2 = None → g_read g = None ∨ g_updated g = true).
Proof.
  unfold Integration_Reconcile. split; [done|]. split; [cbn; auto|]. intros i Hns Hname. cbn [pbind].
  destruct (validateIntegrationSpec (in_Spec i)) as [e|] eqn:Hval.
  - assert (¬ well_typed (in_Spec i)) as Hbad by (intros Hwt%validate_well_typed; congruence).
    apply wp_bind; [apply _|]. apply wp_setIntegrationCondition. intros i' [Hm Hs] [t Hc].
    split; [exists i; split_and!; [done|done|done|]; eexists; split; [exact Hc|]; by split|].
    split; [done|]. cbn. auto.
  - apply validate_well_typed in Hval. apply wp_bind; [apply _|].
    apply wp_reconcileType; [done|done|by exists i|by intros e|].
    intros i1 z [Hm1 Hs1]. split; [done|]. intros now. cbn [pbind]. apply wp_bind; [apply _|]. apply wp_setIntegrationCondition.
    intros i2 [Hm2 Hs2] [t Hc].
    split; [exists i; split_and!; [done|simpl; congruence|simpl; congruence|]; eexists; split; [exact Hc|]; by split|].
    split; [done|]. cbn. auto.
Qed.

End status.
End environment.


(** C39: Validation accepts an Integration exactly when it is well-typed: of a
    known type, with the block of that type present and its required field not
    empty. *)
Theorem Integration_validation_exact spec : validateIntegrationSpec spec = None ↔ well_typed spec.
Proof. apply validate_well_typed. Qed.

(** ** Autoscaling follows the gateway's consumers *)

(** The groups are those the gateway consumes with. *)
Lemma triggerPair_gateway i t p :
  triggerPair i t = Some p ↔
  ∃ k, ts_Type (tg_Spec t) = kafkaType ∧ ts_Kafka (tg_Spec t) = Some k ∧ kt_IntegrationRef k = in_name i
       ∧ p = MkPair (kt_Topic k) (consumerGroupID t k).
Proof.
  unfold triggerPair, consumerGroupID, kafkaType, typeKafka.
  destruct (String.eqb_spec (ts_Type (tg_Spec t)) "kafka") as [Ht|Ht]; cbn [negb]; [|naive_solver].
  destruct (ts_Kafka (tg_Spec t)) as [k|]; [|naive_solver].
  destruct (String.eqb_spec (kt_IntegrationRef k) (in_name i)); cbn [negb]; naive_solver.
Qed.

(** Go visits each element of a set once, and the ScaledObject written has one
    entry per topic and group. *)
Definition scaled_spec (items : list Trigger) (i : Integration) : Spec IEv unit := λ X e s Q,
  match e in IEv X return (X → unit → Prop) → Prop with
  | IListTriggers _ => λ Q, ∀ l, l = Ok items → Q l s
  | IPairOrder ps => λ Q, ∀ l, Permutation l (elements ps) → Q l s
  | ICreateScaled o | IUpdateScaled o => λ Q,
      (NoDup (so_Triggers o) ∧
       ∀ topic group, (∃ tr, tr ∈ so_Triggers o ∧ ke_topic tr = topic ∧ ke_consumerGroup tr = group) ↔
         ∃ t k, t ∈ items ∧ ts_Type (tg_Spec t) = kafkaType ∧ ts_Kafka (tg_Spec t) = Some k
                ∧ kt_IntegrationRef k = in_name i ∧ topic = kt_Topic k ∧ group = consumerGroupID t k) ∧
      ∀ x, Q x s
  | _ => λ Q, ∀ x, Q x s
  end Q.

(** The ScaledObject of a Kafka gateway scales on exactly the consumer
    groups the gateway consumes with: one entry per distinct topic and group of
    the Kafka Triggers that name the Integration, the group being the one the
    gateway's subscription uses, and no other entry. *)
Theorem scaledObject_matches_consumers isNoMatch servers i items :
  wp (scaled_spec items i) (reconcileKafkaScaledObject isNoMatch servers i) tt (λ _ _, True).
Proof.
  unfold reconcileKafkaScaledObject. intros l ->. intros pairs Hperm. cbn [pbind].
  assert (∀ rv, let o := MkScaled ("kubezap-kafka-gateway-" +:+ in_name i) (in_ns i) (in_owner i)
      ("kubezap-kafka-gateway-" +:+ in_name i) 0 10 (buildKafkaTriggers servers pairs) rv in
    NoDup (so_Triggers o) ∧
       ∀ topic group, (∃ tr, tr ∈ so_Triggers o ∧ ke_topic tr = topic ∧ ke_consumerGroup tr = group) ↔
         ∃ t k, t ∈ items ∧ ts_Type (tg_Spec t) = kafkaType ∧ ts_Kafka (tg_Spec t) = Some k
                ∧ kt_IntegrationRef k = in_name i ∧ topic = kt_Topic k ∧ group = consumerGroupID t k) as Hok.
  { intros rv. cbv zeta. cbn [so_Triggers]. unfold buildKafkaTriggers. split.
    - apply NoDup_fmap_2_strong; [|rewrite Hperm; apply NoDup_elements]. intros [] [] _ _ [=]. by subst.
    - intros topic group. split.
      + intros (tr & Htr & <- & <-). apply list_elem_of_fmap in Htr as (p & -> & Hp). rewrite Hperm in Hp.
        apply elem_of_elements, elem_of_list_to_set, list_elem_of_omap in Hp as (t & Ht & Hp).
        apply triggerPair_gateway in Hp as (k & ? & ? & ? & ->). exists t, k. split_and!; done.
      + intros (t & k & Ht & H1 & H2 & H3 & -> & ->). 
        exists (MkKeda (Join servers ",") (consumerGroupID t k) (kt_Topic k) "10"). split; [|by split].
        apply list_elem_of_fmap. exists (MkPair (kt_Topic k) (consumerGroupID t k)). split; [done|].
        rewrite Hperm. apply elem_of_elements, elem_of_list_to_set, list_elem_of_omap. exists t. split; [done|].
        apply triggerPair_gateway. exists k. split_and!; done. }
  intros [rv|e]; cbn -[isNotFound kedaMissing].
  - split; [exact (Hok rv)|]. by intros [[]|e].
  - destruct (negb (isNotFound e)).
    + by destruct (kedaMissing isNoMatch e).
    + split; [exact (Hok "")|]. intros [[]|e']; cbn -[kedaMissing]; [done|].
      destruct (kedaMissing isNoMatch e'); [done|]. by destruct (bool_decide _).
Qed.
