(* ===== verification/NatsWatcher.v ===== *)
(** * The NATS gateway's watcher

    The NATS instance of [Broker] ([internal/gateway/nats/watcher.go]): a
    subscription owns a connection, and a temporary file when the Integration
    carries a credentials file. *)

From S2P Require Import Prelude SecretIndex GoStd Api Net Effects Interp Kube WebhookWatcher Delivery BrokerWatcher.

Local Open Scope string_scope.
Local Open Scope list_scope.
Local Open Scope go_scope.

(** What a subscription remembers of the Trigger and the Integration. *)
Record NatsConf := MkNatsConf { ncf_subject : string; ncf_isJetStream : bool }.

(** [natsCredentials] *)
Record natsCredentials := MkNatsCreds {
  ncr_caPEM : string;
  ncr_credsContent : string;
  ncr_username : string;
  ncr_password : string;
  ncr_secretRefs : list NamespacedName;
  ncr_fingerprint : string
}.

Section nats.
  Context `{HttpLib}.

Definition resolveNatsCA (ns : string) (spec : NatsIntegrationSpec)
    : Prog WEv (result (string * list NamespacedName)) :=
  match ni_TLS spec with
  | Some tls =>
      match ntls_CASecretRef tls with
      | Some ref =>
          let! r := readSecret ns (sr_Name ref) (sr_Key ref) in
          match r with
          | Err e => Ret (Err (wrapf "reading CA cert secret: " e))
          | Ok caPEM => Ret (Ok (caPEM, [(ns, sr_Name ref)]))
          end
      | None => Ret (Ok ("", []))
      end
  | None => Ret (Ok ("", []))
  end.

Definition resolveNatsCredentials (ns : string) (spec : NatsIntegrationSpec)
    : Prog WEv (natsCredentials * option gerr) :=
  let! c := resolveNatsCA ns spec in
  match c with
  | Err e => Ret (MkNatsCreds "" "" "" "" [] "", Some e)
  | Ok (caPEM, refs) =>
      let failed e := Ret (MkNatsCreds caPEM "" "" "" refs "", Some e) in
      match ni_CredentialsSecretRef spec, ni_UsernameSecretRef spec with
      | Some ref, _ =>
          let! r := readSecret ns ref "nats.creds" in
          match r with
          | Err e => failed (wrapf "reading nats credentials secret: " e)
          | Ok content =>
              Ret (MkNatsCreds caPEM content "" "" (refs ++ [(ns, ref)]) (sha256_hex (caPEM +:+ content)), None)
          end
      | None, Some uref =>
          let! u := readSecret ns (sr_Name uref) (sr_Key uref) in
          match u with
          | Err e => failed (wrapf "reading nats username secret: " e)
          | Ok username =>
              match ni_PasswordSecretRef spec with
              | None => failed (errorf "spec.nats.passwordSecretRef must be set when usernameSecretRef is set")
              | Some pref =>
                  let! p := readSecret ns (sr_Name pref) (sr_Key pref) in
                  match p with
                  | Err e => failed (wrapf "reading nats password secret: " e)
                  | Ok password =>
                      Ret (MkNatsCreds caPEM "" username password
                             (refs ++ [(ns, sr_Name uref); (ns, sr_Name pref)])
                             (sha256_hex (caPEM +:+ username +:+ password)), None)
                  end
              end
          end
      | None, None => Ret (MkNatsCreds caPEM "" "" "" refs (sha256_hex caPEM), None)
      end
  end.

(** The TLS option. *)
Definition natsTLS (ns : string) (spec : NatsIntegrationSpec) (creds : natsCredentials)
    : result (option (bool * option string)) :=
  match ni_TLS spec with
  | None => Ok None
  | Some tls =>
      match ntls_CASecretRef tls with
      | None => Ok (Some (ntls_InsecureSkipVerify tls, None))
      | Some ref =>
          if AppendCertsFromPEM (ncr_caPEM creds)
          then Ok (Some (ntls_InsecureSkipVerify tls, Some (ncr_caPEM creds)))
          else Err (errorf ("failed to parse CA certificate from secret " +:+ ns +:+ "/" +:+ sr_Name ref
                            +:+ " key " +:+ sr_Key ref))
      end
  end.

(** The temporary credentials file; removed when it could not be filled. *)
Definition writeCredsFile (content : string) : Prog WEv (result string) :=
  let! f := emit WCreateTemp in
  match f with
  | Err e => Ret (Err (wrapf "creating nats credentials temp file: " e))
  | Ok path =>
      let! r := emit (WWriteFile path content) in
      match r with
      | Err e =>
          let! _ := emit (WCloseFile path) in
          let! _ := emit (WRemoveFile path) in
          Ret (Err (wrapf "writing nats credentials to temp file: " e))
      | Ok _ =>
          let! r := emit (WCloseFile path) in
          match r with
          | Err e =>
              let! _ := emit (WRemoveFile path) in
              Ret (Err (wrapf "closing nats credentials temp file: " e))
          | Ok _ => Ret (Ok path)
          end
      end
  end.

(** The credential options: a file, or user and password. *)
Definition natsAuth (spec : NatsIntegrationSpec) (creds : natsCredentials)
    : Prog WEv (result (option string * option (string * string))) :=
  match ni_CredentialsSecretRef spec, ni_UsernameSecretRef spec with
  | Some _, _ =>
      let! f := writeCredsFile (ncr_credsContent creds) in
      match f with
      | Err e => Ret (Err e)
      | Ok path => Ret (Ok (Some path, None))
      end
  | None, Some _ => Ret (Ok (None, Some (ncr_username creds, ncr_password creds)))
  | None, None => Ret (Ok (None, None))
  end.

Definition durableName (trigger : Trigger) : string :=
  let n := "kubezap-" +:+ m_Name (tg_Meta trigger) in
  if (32 <? slen n)%nat then stake 32 n else n.

(** JetStream or plain subscription on an open connection. *)
Definition natsSubscribe (nc : nat) (trigger : Trigger) (t : NatsTrigger) (jetStream : bool) : Prog WEv (option gerr) :=
  let where_ := m_Namespace (tg_Meta trigger) +:+ "/" +:+ m_Name (tg_Meta trigger) in
  let subject := nt_Subject t in
  if jetStream then
    let! js := emit (WJetStream nc) in
    match js with
    | Err e => Ret (Some (wrapf ("create jetstream context for trigger " +:+ where_ +:+ ": ") e))
    | Ok _ =>
        let! s := emit (WJsSubscribe nc subject (durableName trigger)) in
        match s with
        | Err e => Ret (Some (wrapf ("jetstream subscribe on trigger " +:+ where_ +:+ " subject " +:+ subject +:+ ": ") e))
        | Ok _ => Ret None
        end
    end
  else
    let! s := emit (WNatsSubscribe nc subject) in
    match s with
    | Err e => Ret (Some (wrapf ("subscribe on trigger " +:+ where_ +:+ " subject " +:+ subject +:+ ": ") e))
    | Ok _ => Ret None
    end.

Definition nats_startSubscription (trigger : Trigger) (t : NatsTrigger) (spec : NatsIntegrationSpec)
    (creds : natsCredentials) (w : Watcher NatsConf) : Prog WEv (Watcher NatsConf * option gerr) :=
  let ns := m_Namespace (tg_Meta trigger) in
  match natsTLS ns spec creds with
  | Err e => Ret (w, Some e)
  | Ok tls =>
      let! a := natsAuth spec creds in
      match a with
      | Err e => Ret (w, Some e)
      | Ok (file, user) =>
          let! c := emit (WNatsConnect (Join (ni_Servers spec) ",") (MkNatsOptions tls file user)) in
          match c with
          | Err e => Ret (w, Some (wrapf ("connect to nats for trigger " +:+ ns +:+ "/"
                                          +:+ m_Name (tg_Meta trigger) +:+ ": ") e))
          | Ok nc =>
              let '(subCtx, w) := withCancel w in
              let! s := natsSubscribe nc trigger t (ni_JetStream spec) in
              match s with
              | Some e =>
                  let! _ := emit (WNatsClose nc) in
                  Ret (cancel subCtx w, Some e)
              | None =>
                  Ret (storeSub (trigger_key trigger)
                         (MkSub subCtx (nt_IntegrationRef t) (MkNatsConf (nt_Subject t) (ni_JetStream spec))
                            (ncr_fingerprint creds)) w, None)
              end
          end
      end
  end.

Definition nats_same (c : NatsConf) (trigger : Trigger) (t : NatsTrigger) : bool := (ncf_subject c =? nt_Subject t).

#[global] Instance NatsBroker : Broker := {|
  b_Conf := NatsConf;
  b_TSpec := NatsTrigger;
  b_ISpec := NatsIntegrationSpec;
  b_Creds := natsCredentials;
  b_type := natsType;
  b_tspec := ts_Nats;
  b_ispec := is_Nats;
  b_ref := nt_IntegrationRef;
  b_resolve := resolveNatsCredentials;
  b_secretRefs := ncr_secretRefs;
  b_fingerprint := ncr_fingerprint;
  b_same := nats_same;
  b_start := nats_startSubscription
|}.

(** ** The callbacks of the NATS gateway *)

Definition nats_newWatcher : Watcher NatsConf := newWatcher.
Definition nats_shutdown : Watcher NatsConf → Watcher NatsConf := shutdown.
Definition nats_stopSubscription : NamespacedName → Watcher NatsConf → Watcher NatsConf := stopSubscription.
Definition nats_readSecretKey : string → string → string → Prog WEv (result string) := readSecret.
Definition nats_recordCredentialFailure : NamespacedName → string → gerr → Watcher NatsConf → Prog WEv (Watcher NatsConf) :=
  recordCredentialFailure (B := NatsBroker).
Definition nats_recordCredentialSuccess : NamespacedName → string → Watcher NatsConf → Prog WEv (Watcher NatsConf) :=
  recordCredentialSuccess (B := NatsBroker).
Definition nats_reconcileTrigger : Trigger → Watcher NatsConf → Prog WEv (Watcher NatsConf) :=
  reconcileTrigger (B := NatsBroker).
Definition nats_onTriggerAdd : InformerObj → Watcher NatsConf → Prog WEv (Watcher NatsConf) := onTriggerAdd (B := NatsBroker).
Definition nats_onTriggerUpdate : InformerObj → Watcher NatsConf → Prog WEv (Watcher NatsConf) := onTriggerUpdate (B := NatsBroker).
Definition nats_onTriggerDelete : InformerObj → Watcher NatsConf → Watcher NatsConf := onTriggerDelete (B := NatsBroker).
Definition nats_handleSecretChange : NamespacedName → Watcher NatsConf → Prog WEv (Watcher NatsConf) :=
  handleSecretChange (B := NatsBroker).
Definition nats_handleIntegrationChange : NamespacedName → Watcher NatsConf → Prog WEv (Watcher NatsConf) :=
  handleIntegrationChange (B := NatsBroker).

End nats.

(** The goroutine of a subscription, once its context is done. *)
Inductive NStop : Type → Type :=
  | NUnsubscribe : NStop (option gerr)
  | NDrain : NStop (option gerr)
  | NRemove (path : string) : NStop (option gerr).

Definition nats_goroutine (credsFilePath : string) : Prog NStop unit :=
  let! _ := emit NUnsubscribe in
  let! _ := emit NDrain in
  if negb (credsFilePath =? "") then let! _ := emit (NRemove credsFilePath) in Ret tt else Ret tt.
