(* ===== verification/AmqpWatcher.v ===== *)
(** * The AMQP gateway's watcher

    The AMQP instance of [Broker] ([internal/gateway/amqp/watcher.go]) and its
    connections: unlike the other gateways, a subscription exists before its
    goroutine connects, and the goroutine reads the credentials again. *)

From S2P Require Import Prelude SecretIndex GoStd Api Net Effects Interp Kube WebhookWatcher Delivery BrokerWatcher KafkaWatcher.

Local Open Scope string_scope.
Local Open Scope list_scope.
Local Open Scope go_scope.

(** What a subscription remembers of the Trigger. *)
Record AmqpConf := MkAmqpConf { acf_topic : string; acf_routingKey : string }.

(** [amqpCredentials] *)
Record amqpCredentials := MkAmqpCreds {
  acr_secretRefs : list NamespacedName;
  acr_fingerprint : string
}.

Definition amqpVersion091 : string := "0-9-1".

Section amqp.
  Context `{HttpLib}.

(** One block of [resolveAmqpCredentials]: [acc] is the references and the
    bytes hashed so far. *)
Definition resolveRef (what ns : string) (ref : option SecretKeySelector) (acc : list NamespacedName * string)
    : Prog WEv (gerr + list NamespacedName * string) :=
  match ref with
  | None => Ret (inr acc)
  | Some ref =>
      let! r := readSecret ns (sr_Name ref) (sr_Key ref) in
      match r with
      | Err e => Ret (inl (wrapf ("reading " +:+ what +:+ " secret: ") e))
      | Ok v => Ret (inr (fst acc ++ [(ns, sr_Name ref)], snd acc +:+ v))
      end
  end.

Definition amqpCARef (spec : AmqpIntegrationSpec) : option SecretKeySelector :=
  match ai_TLS spec with Some tls => atls_CASecretRef tls | None => None end.

Definition resolveAmqpCredentials (ns : string) (spec : AmqpIntegrationSpec) : Prog WEv (amqpCredentials * option gerr) :=
  let! u := resolveRef "username" ns (ai_UsernameSecretRef spec) ([], "") in
  match u with
  | inl e => Ret (MkAmqpCreds [] "", Some e)
  | inr acc =>
      let! p := resolveRef "password" ns (ai_PasswordSecretRef spec) acc in
      match p with
      | inl e => Ret (MkAmqpCreds (fst acc) "", Some e)
      | inr acc =>
          let! c := resolveRef "CA cert" ns (amqpCARef spec) acc in
          match c with
          | inl e => Ret (MkAmqpCreds (fst acc) "", Some e)
          | inr acc => Ret (MkAmqpCreds (fst acc) (sha256_hex (snd acc)), None)
          end
      end
  end.

(** [startSubscription]: the subscription is stored first and taken back when
    the version does not fit. *)
Definition amqpVersion (spec : AmqpIntegrationSpec) : string :=
  if (ai_Version spec =? "") then amqpVersion091 else ai_Version spec.

Definition amqp_startSubscription (trigger : Trigger) (t : AmqpTrigger) (spec : AmqpIntegrationSpec)
    (creds : amqpCredentials) (w : Watcher AmqpConf) : Prog WEv (Watcher AmqpConf * option gerr) :=
  let key := trigger_key trigger in
  let where_ := m_Namespace (tg_Meta trigger) +:+ "/" +:+ m_Name (tg_Meta trigger) in
  let version := amqpVersion spec in
  let '(subCtx, w) := withCancel w in
  let w := storeSub key (MkSub subCtx (at_IntegrationRef t) (MkAmqpConf (at_Topic t) (at_RoutingKey t))
                          (acr_fingerprint creds)) w in
  let undo := deleteSub key (cancel subCtx w) in
  if bool_decide (is_Some (at_Exchange t)) && negb (version =? amqpVersion091)
  then Ret (undo, Some (errorf ("amqp exchange routing (spec.amqp.exchange) is only supported for version "
         +:+ Quote amqpVersion091 +:+ ", got version " +:+ Quote version +:+ " for trigger " +:+ where_)))
  else if (version =? amqpVersion091) then Ret (w, None)
  else if (version =? "1.0") then Ret (w, None)
  else Ret (undo, Some (errorf ("unsupported amqp version " +:+ Quote version +:+ " for trigger " +:+ where_))).

Definition amqp_same (c : AmqpConf) (trigger : Trigger) (t : AmqpTrigger) : bool :=
  (acf_topic c =? at_Topic t) && (acf_routingKey c =? at_RoutingKey t).

#[global] Instance AmqpBroker : Broker := {|
  b_Conf := AmqpConf;
  b_TSpec := AmqpTrigger;
  b_ISpec := AmqpIntegrationSpec;
  b_Creds := amqpCredentials;
  b_type := amqpType;
  b_tspec := ts_Amqp;
  b_ispec := is_Amqp;
  b_ref := at_IntegrationRef;
  b_resolve := resolveAmqpCredentials;
  b_secretRefs := acr_secretRefs;
  b_fingerprint := acr_fingerprint;
  b_same := amqp_same;
  b_start := amqp_startSubscription
|}.

(** ** Connections *)

Record TLSConfig := MkTLSConfig { tls_InsecureSkipVerify : bool; tls_RootCAs : option string }.

(** Requests of a connection; the answer of [AConsume] and [AReceive] is what
    the message loop will receive. *)
Inductive AEv : Type → Type :=
  | AWatch {X} (e : WEv X) : AEv X
  | AHandle {X} (e : HEv X) : AEv X
  | ADial091 (url : string) (tls : option TLSConfig) : AEv (result unit)
  | AChannel : AEv (result unit)
  | AExchangeDeclare (name kind : string) (durable : bool) : AEv (option gerr)
  | AQueueDeclare (name : string) (durable : bool) : AEv (option gerr)
  | AQueueBind (name key exchange : string) : AEv (option gerr)
  | AConsume (queue consumer : string) (autoAck : bool) : AEv (result (list Select091))
  | ADial10 (url : string) (tls : option TLSConfig) (sasl : option (string * string)) : AEv (result unit)
  | ASession : AEv (result unit)
  | AReceiver (topic : string) : AEv (result unit)
  | AReceive : AEv (list (result AmqpMessage))
  | ACloseReceiver : AEv unit
  | ACloseChannel : AEv unit
  | ACloseConn : AEv unit.

Fixpoint plift {E F : Type → Type} (f : ∀ X, E X → F X) {A} (p : Prog E A) : Prog F A :=
  match p with
  | Ret a => Ret a
  | Vis e k => Vis (f _ e) (λ x, plift f (k x))
  end.

Definition watching {A} : Prog WEv A → Prog AEv A := plift (λ X e, AWatch e).
Definition handling {A} : Prog HEv A → Prog AEv A := plift (λ X e, AHandle e).

Definition declareAndBind091 (topic routingKey : string) (exchange : option AmqpExchangeSpec) (consumerTag : string)
    : Prog AEv (result (list Select091)) :=
  let! e := match exchange with
            | None => Ret None
            | Some x =>
                let! r := emit (AExchangeDeclare (ae_Name x) (ae_Type x) true) in
                match r with
                | Some e => Ret (Some (wrapf ("declaring exchange " +:+ Quote (ae_Name x) +:+ ": ") e))
                | None => Ret None
                end
            end in
  match e with
  | Some e => Ret (Err e)
  | None =>
      let! r := emit (AQueueDeclare topic true) in
      match r with
      | Some e => Ret (Err (wrapf ("declaring queue " +:+ Quote topic +:+ ": ") e))
      | None =>
          let! b := match exchange with
                    | None => Ret None
                    | Some x =>
                        let! r := emit (AQueueBind topic routingKey (ae_Name x)) in
                        match r with
                        | Some e => Ret (Some (wrapf ("binding queue " +:+ Quote topic +:+ " to exchange "
                                                      +:+ Quote (ae_Name x) +:+ ": ") e))
                        | None => Ret None
                        end
                    end in
          match b with
          | Some e => Ret (Err e)
          | None =>
              let! d := emit (AConsume topic consumerTag false) in
              match d with
              | Err e => Ret (Err (wrapf ("starting consume on queue " +:+ Quote topic +:+ ": ") e))
              | Ok deliveries => Ret (Ok deliveries)
              end
          end
      end
  end.

Definition embedCredsInURL (rawURL username password : string) : string :=
  if HasPrefix rawURL "amqps://" then "amqps://" +:+ username +:+ ":" +:+ password +:+ "@" +:+ TrimPrefix rawURL "amqps://"
  else if HasPrefix rawURL "amqp://" then "amqp://" +:+ username +:+ ":" +:+ password +:+ "@" +:+ TrimPrefix rawURL "amqp://"
  else rawURL.

Definition buildTLSConfig091 (ns : string) (spec : AmqpIntegrationSpec) : Prog WEv (result TLSConfig) :=
  match ai_TLS spec with
  | None => Ret (Ok (MkTLSConfig false None))
  | Some tls =>
      match atls_CASecretRef tls with
      | None => Ret (Ok (MkTLSConfig (atls_InsecureSkipVerify tls) None))
      | Some ref =>
          let! r := readSecret ns (sr_Name ref) (sr_Key ref) in
          match r with
          | Err e => Ret (Err (wrapf "reading CA cert secret: " e))
          | Ok caPEM =>
              if AppendCertsFromPEM caPEM then Ret (Ok (MkTLSConfig (atls_InsecureSkipVerify tls) (Some caPEM)))
              else Ret (Err (errorf ("failed to parse CA certificate from secret " +:+ ns +:+ "/" +:+ sr_Name ref
                                     +:+ " key " +:+ sr_Key ref)))
          end
      end
  end.

(** The same code for AMQP 1.0. *)
Definition buildTLSConfig10 : string → AmqpIntegrationSpec → Prog WEv (result TLSConfig) := buildTLSConfig091.

(** User name and password, when a user name is configured. *)
Definition readUser (ns : string) (spec : AmqpIntegrationSpec) : Prog WEv (result (option (string * string))) :=
  match ai_UsernameSecretRef spec with
  | None => Ret (Ok None)
  | Some uref =>
      let! u := readSecret ns (sr_Name uref) (sr_Key uref) in
      match u with
      | Err e => Ret (Err (wrapf "reading username secret: " e))
      | Ok username =>
          match ai_PasswordSecretRef spec with
          | None => Ret (Ok (Some (username, "")))
          | Some pref =>
              let! p := readSecret ns (sr_Name pref) (sr_Key pref) in
              match p with
              | Err e => Ret (Err (wrapf "reading password secret: " e))
              | Ok password => Ret (Ok (Some (username, password)))
              end
          end
      end
  end.

Definition needsTLS (spec : AmqpIntegrationSpec) (url : string) : bool :=
  match ai_TLS spec with Some tls => atls_Enabled tls | None => false end || HasPrefix url "amqps://".

(** The TLS configuration of a connection to [url], if it needs one. *)
Definition connTLS (build : string → AmqpIntegrationSpec → Prog WEv (result TLSConfig)) (ns : string)
    (spec : AmqpIntegrationSpec) (url : string) : Prog WEv (result (option TLSConfig)) :=
  if needsTLS spec url then
    let! r := build ns spec in
    match r with
    | Err e => Ret (Err (wrapf "building TLS config: " e))
    | Ok c => Ret (Ok (Some c))
    end
  else Ret (Ok None).

Definition amqpHandler (trigger : Trigger) : MessageHandler :=
  MkMessageHandler (m_Name (tg_Meta trigger)) (m_Namespace (tg_Meta trigger)) (ts_FlowRef (tg_Spec trigger)) false.

(** From the opened connection to the end of the message loop. *)
Definition consume091 (trigger : Trigger) (t : AmqpTrigger) : Prog AEv (option gerr) :=
  let! c := emit AChannel in
  match c with
  | Err e => Ret (Some (wrapf "opening amqp channel: " e))
  | Ok _ =>
      let! d := declareAndBind091 (at_Topic t) (at_RoutingKey t) (at_Exchange t)
                  ("kubezap-" +:+ m_Name (tg_Meta trigger)) in
      let! r := match d with
                | Err e => Ret (Some e)
                | Ok deliveries => let! _ := handling (Run091 (amqpHandler trigger) deliveries) in Ret None
                end in
      let! _ := emit ACloseChannel in
      Ret r
  end.

Definition connect091 (trigger : Trigger) (t : AmqpTrigger) (spec : AmqpIntegrationSpec) : Prog AEv (option gerr) :=
  let ns := m_Namespace (tg_Meta trigger) in
  let! u := watching (readUser ns spec) in
  match u with
  | Err e => Ret (Some e)
  | Ok user =>
      let url := match user with
                 | Some (username, password) => embedCredsInURL (ai_URL spec) username password
                 | None => ai_URL spec
                 end in
      let! c := watching (connTLS buildTLSConfig091 ns spec url) in
      match c with
      | Err e => Ret (Some e)
      | Ok tls =>
          let! c := emit (ADial091 url tls) in
          match c with
          | Err e => Ret (Some (wrapf "dialing amqp broker: " e))
          | Ok _ =>
              let! r := consume091 trigger t in
              let! _ := emit ACloseConn in
              Ret r
          end
      end
  end.

Definition consume10 (trigger : Trigger) (t : AmqpTrigger) : Prog AEv (option gerr) :=
  let! s := emit ASession in
  match s with
  | Err e => Ret (Some (wrapf "creating amqp 1.0 session: " e))
  | Ok _ =>
      let! r := emit (AReceiver (at_Topic t)) in
      match r with
      | Err e => Ret (Some (wrapf ("creating amqp 1.0 receiver for " +:+ Quote (at_Topic t) +:+ ": ") e))
      | Ok _ =>
          let! received := emit AReceive in
          let! _ := handling (Run10 (amqpHandler trigger) received) in
          let! _ := emit ACloseReceiver in
          Ret None
      end
  end.

Definition connect10 (trigger : Trigger) (t : AmqpTrigger) (spec : AmqpIntegrationSpec) : Prog AEv (option gerr) :=
  let ns := m_Namespace (tg_Meta trigger) in
  let! c := watching (connTLS buildTLSConfig10 ns spec (ai_URL spec)) in
  match c with
  | Err e => Ret (Some e)
  | Ok tls =>
      let! u := watching (readUser ns spec) in
      match u with
      | Err e => Ret (Some e)
      | Ok sasl =>
          let! c := emit (ADial10 (ai_URL spec) tls sasl) in
          match c with
          | Err e => Ret (Some (wrapf "dialing amqp 1.0 broker: " e))
          | Ok _ =>
              let! r := consume10 trigger t in
              let! _ := emit ACloseConn in
              Ret r
          end
      end
  end.

(** ** The callbacks of the AMQP gateway *)

Definition amqp_newWatcher : Watcher AmqpConf := newWatcher.
Definition amqp_shutdown : Watcher AmqpConf → Watcher AmqpConf := shutdown.
Definition amqp_stopSubscription : NamespacedName → Watcher AmqpConf → Watcher AmqpConf := stopSubscription.
Definition amqp_readSecretKey : string → string → string → Prog WEv (result string) := readSecret.
Definition amqp_recordCredentialFailure : NamespacedName → string → gerr → Watcher AmqpConf → Prog WEv (Watcher AmqpConf) :=
  recordCredentialFailure (B := AmqpBroker).
Definition amqp_recordCredentialSuccess : NamespacedName → string → Watcher AmqpConf → Prog WEv (Watcher AmqpConf) :=
  recordCredentialSuccess (B := AmqpBroker).
Definition amqp_reconcileTrigger : Trigger → Watcher AmqpConf → Prog WEv (Watcher AmqpConf) :=
  reconcileTrigger (B := AmqpBroker).
Definition amqp_onTriggerAdd : InformerObj → Watcher AmqpConf → Prog WEv (Watcher AmqpConf) := onTriggerAdd (B := AmqpBroker).
Definition amqp_onTriggerUpdate : InformerObj → Watcher AmqpConf → Prog WEv (Watcher AmqpConf) := onTriggerUpdate (B := AmqpBroker).
Definition amqp_onTriggerDelete : InformerObj → Watcher AmqpConf → Watcher AmqpConf := onTriggerDelete (B := AmqpBroker).
Definition amqp_handleSecretChange : NamespacedName → Watcher AmqpConf → Prog WEv (Watcher AmqpConf) :=
  handleSecretChange (B := AmqpBroker).
Definition amqp_handleIntegrationChange : NamespacedName → Watcher AmqpConf → Prog WEv (Watcher AmqpConf) :=
  handleIntegrationChange (B := AmqpBroker).

End amqp.

(** ** The goroutines: exponential backoff between connections *)

Definition initialBackoff : Z := 5 * Second.
Definition maxBackoff : Z := 60 * Second.

Definition nextBackoff (backoff : Z) : Z := if (maxBackoff <? backoff * 2)%Z then maxBackoff else (backoff * 2)%Z.

(** [LSession] is one call of [connect091].  At most [fuel] rounds; the result
    tells whether the loop returned. *)
Fixpoint retry091 (fuel : nat) (backoff : Z) : Prog LEv bool :=
  match fuel with
  | O => Ret false
  | S fuel =>
      let! dn := emit LDone in
      if dn : bool then Ret true else
      let! e := emit LSession in
      match e with
      | None => retry091 fuel initialBackoff
      | Some _ =>
          let! dn := emit LDone in
          if dn : bool then Ret true else
          let! dn := emit (LSleep backoff) in
          if dn : bool then Ret true else retry091 fuel (nextBackoff backoff)
      end
  end.

Definition runSubscription091 (fuel : nat) : Prog LEv bool := retry091 fuel initialBackoff.

(** The same loop around [connect10]. *)
Definition runSubscription10 : nat → Prog LEv bool := runSubscription091.
