(* ===== verification/BrokerProps.v ===== *)
(** * The broker watchers: invariants, rotation, reporting

    What a broker's credentials and connections promise to the watcher is the
    class [BrokerLaws], which the three gateways meet.  The effect of
    [reconcileTrigger] is the step relation [reconciled]; the theorems are
    proved from it. *)

From S2P Require Import Prelude SecretIndex GoStd Api Net Effects Interp Kube Publish WebhookWatcher Delivery BrokerWatcher KafkaWatcher NatsWatcher AmqpWatcher.

Local Open Scope string_scope.
Local Open Scope list_scope.
Local Open Scope go_scope.

(** ** Environments *)

(** The events recorded so far: Trigger, reason. *)
Definition Log := list (NamespacedName * string).

(** Any answers; recorded events are logged. *)
Definition log_spec : Spec WEv Log := λ X e,
  match e in WEv X return Log → (X → Log → Prop) → Prop with
  | WEventf key _ reason _ => λ s Q, Q tt (s ++ [(key, reason)])
  | WGetIntegration _ _ => λ s Q, ∀ x, Q x s
  | WGetSecret _ _ => λ s Q, ∀ x, Q x s
  | WNewConsumerGroup _ _ _ => λ s Q, ∀ x, Q x s
  | WCreateTemp => λ s Q, ∀ x, Q x s
  | WWriteFile _ _ => λ s Q, ∀ x, Q x s
  | WCloseFile _ => λ s Q, ∀ x, Q x s
  | WRemoveFile _ => λ s Q, ∀ x, Q x s
  | WNatsConnect _ _ => λ s Q, ∀ x, Q x s
  | WNatsClose _ => λ s Q, ∀ x, Q x s
  | WJetStream _ => λ s Q, ∀ x, Q x s
  | WJsSubscribe _ _ _ => λ s Q, ∀ x, Q x s
  | WNatsSubscribe _ _ => λ s Q, ∀ x, Q x s
  end.

#[global] Instance log_spec_mono : MonoSpec log_spec.
Proof. intros X e s P Q H. destruct e; simpl; auto. Qed.

(** No event is recorded, and Secrets are read in one namespace only. *)
Definition quiet (ns : string) (X : Type) (e : WEv X) : Prop :=
  match e with
  | WEventf _ _ _ _ => False
  | WGetSecret n _ => n = ns
  | WGetIntegration _ _ => False
  | _ => True
  end.

Lemma wp_quiet_log ns {A} (p : Prog WEv A) s Q :
  wp (any_spec (quiet ns)) p tt (λ a _, Q a) → wp log_spec p s (λ a s', s' = s ∧ Q a).
Proof.
  induction p as [a|X e k IH]; cbn [wp]; [done|]. intros [Hq Hk].
  destruct e; simpl in *; try done; intros x; apply IH, Hk.
Qed.

Lemma wp_any_pure {E : Type → Type} (chk : ∀ X, E X → Prop) {A} (h : ∀ X, E X → X) (p : Prog E A) Q :
  wp (any_spec chk) p tt (λ a _, Q a) → Q (run_pure h p).
Proof. induction p as [a|X e k IH]; cbn [wp run_pure]; [done|]. intros [_ Hk]. apply IH, Hk. Qed.

(** ** What a broker promises *)

Section laws.
  Context `{B : Broker}.
  Implicit Types (w : Watcher b_Conf).

(** The outcomes of [startSubscription] when the Trigger has no subscription:
    one new subscription with a new context, or nothing. *)
Inductive sub_started (trigger : Trigger) (t : b_TSpec) (creds : b_Creds) w
    : Watcher b_Conf → option gerr → Prop :=
  | started_ok ctx conf next :
      (w_next w ≤ ctx)%nat → (ctx < next)%nat → b_same conf trigger t = true →
      sub_started trigger t creds w
        (set_subs (<[trigger_key trigger := MkSub ctx (b_ref t) conf (b_fingerprint creds)]> (w_subs w))
           ({[ctx]} ∪ w_live w) next w) None
  | started_err next e :
      (w_next w ≤ next)%nat → sub_started trigger t creds w (set_subs (w_subs w) (w_live w) next w) (Some e).

Definition fresh w : Prop := ∀ c, c ∈ w_live w → (c < w_next w)%nat.

Class BrokerLaws : Prop := {
  resolve_law ns spec :
    wp (any_spec (quiet ns)) (b_resolve ns spec) tt (λ r _, ∀ k, k ∈ b_secretRefs r.1 → k.1 = ns);
  start_law trigger t spec creds w :
    w_subs w !! trigger_key trigger = None → fresh w →
    wp (any_spec (quiet (m_Namespace (tg_Meta trigger)))) (b_start trigger t spec creds w) tt
       (λ r _, sub_started trigger t creds w r.1 r.2);
  (** Whether a start succeeds does not depend on the other subscriptions. *)
  start_state trigger t spec creds h w w' :
    (run_pure h (b_start trigger t spec creds w)).2 = (run_pure h (b_start trigger t spec creds w')).2
}.
End laws.
Arguments BrokerLaws B : clear implicits.

Lemma set_subs_same {Conf} (w : Watcher Conf) : set_subs (w_subs w) (w_live w) (w_next w) w = w.
Proof. by destruct w. Qed.

Lemma started_none `{B : Broker} trigger t creds (w : Watcher b_Conf) e : sub_started trigger t creds w w (Some e).
Proof. destruct w. exact (started_err _ _ _ (MkBrokerWatcher _ _ _ _ _ _ _) _ e (le_n _)). Qed.

(** A context that was made and cancelled again. *)
Lemma started_undone `{B : Broker} trigger t creds (w : Watcher b_Conf) e :
  fresh w → sub_started trigger t creds w (cancel (w_next w) (snd (withCancel w))) (Some e).
Proof.
  intros Hf. assert (cancel (w_next w) (snd (withCancel w)) = set_subs (w_subs w) (w_live w) (S (w_next w)) w) as ->.
  { destruct w as [subs si ii tr fl live next]. unfold cancel, set_subs. simpl. f_equal. unfold fresh in Hf; simpl in Hf.
    apply set_eq. intros c. specialize (Hf c). destruct (decide (c = next)) as [->|]; set_solver by lia. }
  apply started_err. lia.
Qed.

(** A new context and the subscription stored. *)
Lemma started_stored `{B : Broker} trigger t creds (w w0 : Watcher b_Conf) ctx conf :
  withCancel w = (ctx, w0) → b_same conf trigger t = true →
  sub_started trigger t creds w (storeSub (trigger_key trigger) (MkSub ctx (b_ref t) conf (b_fingerprint creds)) w0) None.
Proof. intros [= <- <-] Hs. destruct w. by refine (started_ok _ _ _ (MkBrokerWatcher _ _ _ _ _ _ _) _ _ _ _ _ Hs); simpl; lia. Qed.

Lemma wp_readSecret ns name key s (Q : result string → unit → Prop) :
  (∀ r, Q r s) → wp (any_spec (quiet ns)) (readSecret ns name key) s Q.
Proof. intros HQ. unfold readSecret. repeat first [progress wp_step | apply HQ | done]. Qed.

(** Reads of a [b_resolve] function. *)
Ltac resolve_step :=
  first [ progress wp_step
        | apply wp_readSecret; intros ?
        | progress cbn [fst snd]
        | done ].

#[global] Instance kafka_laws `{HttpLib} : BrokerLaws KafkaBroker.
Proof.
  split.
  - intros ns spec. cbn [b_resolve KafkaBroker b_secretRefs]. unfold resolveKafkaCredentials, resolveKafkaCA.
    repeat resolve_step; simpl; set_solver.
  - intros trigger t spec creds w Hnone Hfresh. cbn [b_start KafkaBroker]. unfold kafka_startSubscription.
    repeat wp_step; cbn [fst snd]; try done; try apply (started_none (B := KafkaBroker)).
    apply (started_stored (B := KafkaBroker)); [done|]. cbn. unfold kafka_same. simpl. by rewrite !String.eqb_refl.
  - intros. cbn [b_start KafkaBroker]. unfold kafka_startSubscription.
    destruct (consumerTLS _ _ _); [|done]. destruct (consumerSASL _ _); [|done]. simpl. by destruct (h _ _).
Qed.

#[global] Instance nats_laws `{HttpLib} : BrokerLaws NatsBroker.
Proof.
  split.
  - intros ns spec. cbn [b_resolve NatsBroker b_secretRefs]. unfold resolveNatsCredentials, resolveNatsCA.
    repeat resolve_step; simpl; set_solver.
  - intros trigger t spec creds w Hnone Hfresh. cbn [b_start NatsBroker].
    unfold nats_startSubscription, natsAuth, writeCredsFile, natsSubscribe.
    repeat wp_step; cbn [fst snd]; try done; try apply (started_none (B := NatsBroker)).
    all: try (apply (started_stored (B := NatsBroker)); [done|]; cbn; unfold nats_same; simpl; apply String.eqb_refl).
    all: match goal with H : withCancel _ = _ |- _ => injection H as <- <- end.
    all: by apply (started_undone (B := NatsBroker)).
  - intros. cbn [b_start NatsBroker]. unfold nats_startSubscription.
    destruct (natsTLS _ _ _); [|done]. rewrite !run_pure_bind. destruct (run_pure h (natsAuth _ _)) as [[??]|?]; [|done].
    rewrite !run_pure_bind. destruct (run_pure h (emit _)) as [nc|?]; [|done]. cbn [withCancel].
    rewrite !run_pure_bind. by destruct (run_pure h (natsSubscribe _ _ _ _)).
Qed.

#[global] Instance amqp_laws `{HttpLib} : BrokerLaws AmqpBroker.
Proof.
  split.
  - intros ns spec. cbn [b_resolve AmqpBroker b_secretRefs]. unfold resolveAmqpCredentials, resolveRef.
    repeat resolve_step; simplify_eq/=; set_solver.
  - intros trigger t spec creds w Hnone Hfresh. cbn [b_start AmqpBroker]. unfold amqp_startSubscription.
    assert (∀ e s ctx w0, withCancel w = (ctx, w0) → sub_started (B := AmqpBroker) trigger t creds w
              (deleteSub (trigger_key trigger) (cancel ctx (storeSub (trigger_key trigger) s w0))) (Some e)) as Hundo.
    { intros e s ctx w0 Hw. assert (ctx = w_next w) as -> by by injection Hw. assert (w0 = snd (withCancel w)) as -> by by rewrite Hw.
      assert (deleteSub (trigger_key trigger) (cancel (w_next w) (storeSub (trigger_key trigger) s (snd (withCancel w))))
              = cancel (w_next w) (snd (withCancel w))) as ->; [|by apply (started_undone (B := AmqpBroker))].
      destruct w as [subs si ii tr fl live next]. unfold deleteSub, cancel, storeSub, set_subs. simpl in *. f_equal.
      by rewrite delete_insert_id. }
    repeat wp_step; cbn [fst snd]; try by apply Hundo.
    all:
      (apply (started_stored (B := AmqpBroker)); [done|]; cbn; unfold amqp_same; simpl; by rewrite !String.eqb_refl).
  - intros. cbn [b_start AmqpBroker]. unfold amqp_startSubscription. cbn [withCancel].
    by repeat case_match.
Qed.

(** ** One reconciliation *)

Section watcher.
  Context `{B : Broker} `{!BrokerLaws B}.
  Implicit Types (w : Watcher b_Conf).

(** The Trigger remembered and its Integration indexed. *)
Definition indexed (trigger : Trigger) (t : b_TSpec) w : Watcher b_Conf :=
  let key := trigger_key trigger in
  let w := set_wtriggers (<[key := trigger]> (w_triggers w)) w in
  set_integrationIndex (Update key [(m_Namespace (tg_Meta trigger), b_ref t)] (w_integrationIndex w)) w.

Definition withRefs (trigger : Trigger) (refs : list NamespacedName) w : Watcher b_Conf :=
  set_secretIndex (Update (trigger_key trigger) refs (w_secretIndex w)) w.

Definition marked (trigger : Trigger) (b : bool) w : Watcher b_Conf :=
  set_failed (<[trigger_key trigger := b]> (w_credentialFailed w)) w.

Definition dropped (trigger : Trigger) w : Watcher b_Conf :=
  let key := trigger_key trigger in
  let w := set_wtriggers (<[key := trigger]> (w_triggers w)) w in
  let w := set_secretIndex (Remove key (w_secretIndex w)) w in
  set_integrationIndex (Remove key (w_integrationIndex w)) w.

(** The event that reports a recovery. *)
Definition recovery (trigger : Trigger) w : Log :=
  if default false (w_credentialFailed w !! trigger_key trigger)
  then [(trigger_key trigger, credentialResolutionSucceededReason)] else [].

Definition own_refs (trigger : Trigger) (refs : list NamespacedName) : Prop :=
  ∀ k, k ∈ refs → k.1 = m_Namespace (tg_Meta trigger).

Definition matches (sub : subscription b_Conf) (trigger : Trigger) (t : b_TSpec) (creds : b_Creds) : bool :=
  b_same (s_conf sub) trigger t && (s_integrationName sub =? b_ref t)
  && (s_fingerprint sub =? b_fingerprint creds).

Inductive reconciled (trigger : Trigger) w : Watcher b_Conf → Log → Prop :=
  | rec_unwanted :
      wanted trigger = None →
      reconciled trigger w (stopSubscription (trigger_key trigger) (dropped trigger w)) []
  | rec_unread t :
      wanted trigger = Some t →
      reconciled trigger w (marked trigger true (indexed trigger t w))
        [(trigger_key trigger, credentialResolutionFailedReason)]
  | rec_unresolved t refs :
      wanted trigger = Some t → own_refs trigger refs →
      reconciled trigger w (marked trigger true (withRefs trigger refs (indexed trigger t w)))
        [(trigger_key trigger, credentialResolutionFailedReason)]
  | rec_kept t creds sub :
      wanted trigger = Some t → own_refs trigger (b_secretRefs creds) →
      w_subs w !! trigger_key trigger = Some sub → matches sub trigger t creds = true →
      reconciled trigger w (marked trigger false (withRefs trigger (b_secretRefs creds) (indexed trigger t w)))
        (recovery trigger w)
  | rec_started t creds w' e :
      wanted trigger = Some t → own_refs trigger (b_secretRefs creds) →
      sub_started trigger t creds
        (stopSubscription (trigger_key trigger)
           (marked trigger false (withRefs trigger (b_secretRefs creds) (indexed trigger t w)))) w' e →
      reconciled trigger w w' (recovery trigger w).

(** Live contexts are those of the subscriptions, one each. *)
Record contexts_ok w : Prop := {
  co_live c : c ∈ w_live w ↔ ∃ k s, w_subs w !! k = Some s ∧ s_ctx s = c;
  co_inj k1 k2 s1 s2 : w_subs w !! k1 = Some s1 → w_subs w !! k2 = Some s2 → s_ctx s1 = s_ctx s2 → k1 = k2;
  co_next : fresh w
}.

Lemma stop_none key w : w_subs (stopSubscription key w) !! key = None.
Proof.
  unfold stopSubscription. destruct (w_subs w !! key) eqn:Hk; [|done]. simpl. apply lookup_delete_eq.
Qed.

Lemma stop_other key k w : k ≠ key → w_subs (stopSubscription key w) !! k = w_subs w !! k.
Proof.
  intros Hne. unfold stopSubscription. destruct (w_subs w !! key) eqn:Hk; [|done]. simpl. by apply lookup_delete_ne.
Qed.

Lemma stop_contexts key w : contexts_ok w → contexts_ok (stopSubscription key w).
Proof.
  intros [Hl Hi Hn]. unfold stopSubscription. destruct (w_subs w !! key) as [s|] eqn:Hk; [|by split].
  split; simpl.
  - intros c. rewrite elem_of_difference, Hl, elem_of_singleton. split.
    + intros [(k' & s' & Hk' & Hc) Hne]. exists k', s'. split; [|done].
      apply lookup_delete_Some. split; [|done]. intros <-. by simplify_eq.
    + intros (k' & s' & [Hne Hk']%lookup_delete_Some & Hc). split; [by eauto|]. intros ->. eauto.
  - intros k1 k2 s1 s2 [_ H1]%lookup_delete_Some [_ H2]%lookup_delete_Some. eauto.
  - unfold fresh. simpl. intros c Hc. apply Hn. set_solver.
Qed.

Lemma started_contexts trigger t creds w w' e :
  w_subs w !! trigger_key trigger = None → contexts_ok w → sub_started trigger t creds w w' e → contexts_ok w'.
Proof.
  intros Hnone [Hl Hi Hn] Hs. destruct Hs as [ctx conf next Hge Hlt Hsame|next e Hle].
  - assert (∀ k s, w_subs w !! k = Some s → s_ctx s ≠ ctx) as Hnew.
    { intros k s Hk <-. assert (s_ctx s < w_next w)%nat; [|lia]. apply Hn, Hl. eauto. }
    split; simpl.
    + intros c. rewrite elem_of_union, elem_of_singleton, Hl. split.
      * intros [->|(k & s & Hk & Hc)]; [by eexists _, _; rewrite lookup_insert_eq|].
        exists k, s. split; [|done]. rewrite lookup_insert_ne; [done|]. intros <-. congruence.
      * intros (k & s & [[<- <-]|[Hne Hk]]%lookup_insert_Some & Hc); [by left|right; eauto].
    + intros k1 k2 s1 s2 [[<- <-]|[Hn1 H1]]%lookup_insert_Some [[<- <-]|[Hn2 H2]]%lookup_insert_Some Hc; simpl in *;
        [done|by edestruct Hnew|by edestruct Hnew|eauto].
    + unfold fresh. simpl. intros c [->%elem_of_singleton|Hc]%elem_of_union; [done|]. specialize (Hn c Hc). simpl in *. lia.
  - split; simpl; [done|done|]. intros c Hc. simpl in *. specialize (Hn c Hc). lia.
Qed.

Lemma contexts_ext w w' :
  w_subs w' = w_subs w → w_live w' = w_live w → w_next w' = w_next w → contexts_ok w → contexts_ok w'.
Proof.
  destruct w, w'. simpl. intros -> -> -> [Hl Hi Hn]. by split.
Qed.

Lemma wp_recordSuccess trigger name w s :
  wp log_spec (recordCredentialSuccess (trigger_key trigger) name w) s
     (λ w' s', s' = s ++ recovery trigger w ∧ w' = marked trigger false w).
Proof.
  unfold recordCredentialSuccess, recovery. destruct (default false _); cbn; [done|]. by rewrite app_nil_r.
Qed.

Lemma wp_ensure trigger t spec creds w s :
  contexts_ok w →
  wp log_spec (ensureSubscription trigger t spec creds w) s
     (λ w' s', s' = s ∧
       ((∃ sub, w_subs w !! trigger_key trigger = Some sub ∧ matches sub trigger t creds = true ∧ w' = w)
        ∨ ∃ e, sub_started trigger t creds (stopSubscription (trigger_key trigger) w) w' e)).
Proof.
  intros Hc.
  assert (wp log_spec (let! r := b_start trigger t spec creds (stopSubscription (trigger_key trigger) w) in Ret (fst r)) s
    (λ w' s', s' = s ∧ ∃ e, sub_started trigger t creds (stopSubscription (trigger_key trigger) w) w' e)) as Hst.
  { apply wp_bind; [apply _|]. eapply wp_mono; [apply _| |eapply wp_quiet_log, start_law].
    - intros r s' [-> Hr]. simpl. eauto.
    - apply stop_none.
    - by apply co_next, stop_contexts. }
  unfold ensureSubscription.
  destruct (w_subs w !! trigger_key trigger) as [sub|] eqn:Hsub.
  - change (_ && _) with (matches sub trigger t creds). destruct (matches sub trigger t creds) eqn:Hm.
    + cbn. split; [done|]. left. eauto.
    + eapply wp_mono; [apply _| |exact Hst]. intros w' s' [-> He]. auto.
  - unfold stopSubscription in Hst at 1. rewrite Hsub in Hst.
    eapply wp_mono; [apply _| |exact Hst]. intros w' s' [-> He]. auto.
Qed.

Lemma reconcile_step trigger w s :
  contexts_ok w →
  wp log_spec (reconcileTrigger trigger w) s (λ w' s', ∃ l, s' = s ++ l ∧ reconciled trigger w w' l).
Proof.
  intros Hc. unfold reconcileTrigger. destruct (wanted trigger) as [t|] eqn:Hw.
  2: { cbn [wp]. exists []. rewrite app_nil_r. split; [done|]. by apply rec_unwanted. }
  unfold emit. cbn [wp pbind log_spec]. intros [integ|e]; [|cbn; eexists; split; [done|]; by apply rec_unread].
  destruct (b_ispec (in_Spec integ)) as [spec|]; [|cbn; eexists; split; [done|]; by apply rec_unread].
  apply wp_bind; [apply _|]. eapply wp_mono; [apply _| |eapply wp_quiet_log, resolve_law].
  intros [creds [e|]] s' [-> Hrefs]; cbn [fst] in Hrefs.
  { cbn. eexists. split; [done|]. by apply (rec_unresolved _ _ t (b_secretRefs creds)). }
  apply wp_bind; [apply _|]. eapply wp_mono; [apply _| |apply wp_recordSuccess].
  intros w1 s' [-> ->].
  eapply wp_mono; [apply _| |apply wp_ensure; by eapply contexts_ext; [| | |exact Hc]].
  intros w' s' [-> [(sub & Hsub & Hm & ->)|[e He]]]; exists (recovery trigger w); (split; [done|]).
  - by eapply (rec_kept _ _ t creds sub).
  - by eapply (rec_started _ _ t creds).
Qed.

(** ** The invariant of the watcher *)

(** The Integrations a Trigger refers to. *)
Definition integrationRefs (trigger : Trigger) : list NamespacedName :=
  match wanted trigger with
  | None => []
  | Some t => [(m_Namespace (tg_Meta trigger), b_ref t)]
  end.

Record watcher_ok w : Prop := {
  wo_contexts : contexts_ok w;
  wo_keys k trigger : w_triggers w !! k = Some trigger → trigger_key trigger = k;
  (** Only Triggers that are known, enabled and of this gateway's type run. *)
  wo_wanted k s : w_subs w !! k = Some s → ∃ trigger, w_triggers w !! k = Some trigger ∧ is_Some (wanted trigger);
  wo_secrets : index_ok (w_secretIndex w);
  wo_integrations : index_ok (w_integrationIndex w);
  (** A change of an Integration reaches exactly the Triggers that name it. *)
  wo_integration k i :
    uses (w_integrationIndex w) k i ↔ ∃ trigger, w_triggers w !! k = Some trigger ∧ i ∈ integrationRefs trigger;
  (** Secrets are those of the Trigger's namespace. *)
  wo_own k s : uses (w_secretIndex w) k s → s.1 = k.1
}.

Lemma stop_frame key w :
  w_triggers (stopSubscription key w) = w_triggers w
  ∧ w_secretIndex (stopSubscription key w) = w_secretIndex w
  ∧ w_integrationIndex (stopSubscription key w) = w_integrationIndex w
  ∧ w_credentialFailed (stopSubscription key w) = w_credentialFailed w.
Proof. unfold stopSubscription. by destruct (w_subs w !! key). Qed.

Lemma started_frame trigger t creds w w' e :
  sub_started trigger t creds w w' e →
  w_triggers w' = w_triggers w ∧ w_secretIndex w' = w_secretIndex w
  ∧ w_integrationIndex w' = w_integrationIndex w ∧ w_credentialFailed w' = w_credentialFailed w
  ∧ ∀ k, k ≠ trigger_key trigger → w_subs w' !! k = w_subs w !! k.
Proof. intros []; simpl; split_and!; try done. intros k Hk. by rewrite lookup_insert_ne. Qed.

(** What a reconciliation may change. *)
Lemma reconciled_frame trigger w w' l :
  contexts_ok w → reconciled trigger w w' l →
  contexts_ok w'
  ∧ w_triggers w' = <[trigger_key trigger := trigger]> (w_triggers w)
  ∧ w_integrationIndex w' = Update (trigger_key trigger) (integrationRefs trigger) (w_integrationIndex w)
  ∧ (w_secretIndex w' = w_secretIndex w
     ∨ ∃ refs, own_refs trigger refs ∧ w_secretIndex w' = Update (trigger_key trigger) refs (w_secretIndex w))
  ∧ (wanted trigger = None → w_subs w' !! trigger_key trigger = None)
  ∧ ∀ k, k ≠ trigger_key trigger →
      w_subs w' !! k = w_subs w !! k ∧ w_credentialFailed w' !! k = w_credentialFailed w !! k.
Proof.
  intros Hc Hr. unfold integrationRefs. destruct Hr as [Hw|t Hw|t refs Hw Ho|t creds sub Hw Ho Hs Hm|t creds w' e Hw Ho Hst];
    rewrite Hw.
  - set (w1 := dropped trigger w). destruct (stop_frame (trigger_key trigger) w1) as (-> & -> & -> & ->).
    split_and!; [by apply stop_contexts, (contexts_ext w)|done|done| |intros _; apply stop_none|].
    + right. exists []. split; [intros k; set_solver|done].
    + intros k Hk. split; [by rewrite stop_other|done].
  - split_and!; [by apply (contexts_ext w)|done|done|by left|done|]. intros k Hk. split; [done|]. simpl. by rewrite lookup_insert_ne.
  - split_and!; [by apply (contexts_ext w)|done|done|right; by exists refs|done|].
    intros k Hk. split; [done|]. simpl. by rewrite lookup_insert_ne.
  - split_and!; [by apply (contexts_ext w)|done|done|right; by eexists|done|].
    intros k Hk. split; [done|]. simpl. by rewrite lookup_insert_ne.
  - set (w1 := marked _ _ _) in Hst.
    destruct (stop_frame (trigger_key trigger) w1) as (E1 & E2 & E3 & E4).
    pose proof (started_frame _ _ _ _ _ _ Hst) as (-> & -> & -> & -> & Hsubs). rewrite E1, E2, E3, E4.
    split_and!; [|done|done|right; by eexists|done|].
    + eapply started_contexts; [apply stop_none| |done]. by apply stop_contexts, (contexts_ext w).
    + intros k Hk. split; [by rewrite Hsubs, stop_other|]. simpl. by rewrite lookup_insert_ne.
Qed.

Lemma reconciled_ok trigger w w' l : watcher_ok w → reconciled trigger w w' l → watcher_ok w'.
Proof.
  intros [Hc Hk Hwant Hs Hi Hint Hown] Hr.
  destruct (reconciled_frame _ _ _ _ Hc Hr) as (Hc' & Ht & Hii & Hsi & Hnone & Hrest).
  split; [done| | | | | |].
  - rewrite Ht. intros k tr [[<- <-]|[_ H]]%lookup_insert_Some; eauto.
  - intros k s Hks. rewrite Ht. destruct (decide (k = trigger_key trigger)) as [->|Hne].
    + exists trigger. rewrite lookup_insert_eq. split; [done|].
      destruct (wanted trigger) eqn:?; [by eexists|]. by rewrite Hnone in Hks.
    + rewrite lookup_insert_ne by done. apply (Hwant k s). by rewrite <- (proj1 (Hrest k Hne)).
  - destruct Hsi as [->|(refs & _ & ->)]; [done|by apply Update_ok].
  - rewrite Hii. by apply Update_ok.
  - intros k i. rewrite Hii, uses_Update, Ht. case_decide as He.
    + subst. rewrite lookup_insert_eq. naive_solver.
    + by rewrite lookup_insert_ne, Hint.
  - intros k s. destruct Hsi as [->|(refs & Ho & ->)]; [apply Hown|]. rewrite uses_Update. case_decide as He; [|apply Hown].
    intros Hin. by rewrite (Ho _ Hin), He.
Qed.

Lemma deleted_ok obj w : watcher_ok w → watcher_ok (onTriggerDelete obj w).
Proof.
  intros Hok. assert (∀ trigger, watcher_ok
    (stopSubscription (trigger_key trigger)
      (set_failed (delete (trigger_key trigger) (w_credentialFailed w))
        (set_integrationIndex (Remove (trigger_key trigger) (w_integrationIndex w))
          (set_secretIndex (Remove (trigger_key trigger) (w_secretIndex w))
            (set_wtriggers (delete (trigger_key trigger) (w_triggers w)) w)))))) as Hgo.
  2: { destruct obj as [t|[t|]|]; [apply Hgo|apply Hgo|done|done]. }
  intros trigger. destruct Hok as [Hc Hk Hwant Hs Hi Hint Hown]. set (w1 := set_failed _ _).
  destruct (stop_frame (trigger_key trigger) w1) as (E1 & E2 & E3 & E4).
  split; rewrite ?E1, ?E2, ?E3; simpl.
  - by apply stop_contexts, (contexts_ext w).
  - intros k tr [_ H]%lookup_delete_Some. eauto.
  - intros k s Hks. destruct (decide (k = trigger_key trigger)) as [->|Hne]; [by rewrite stop_none in Hks|].
    rewrite stop_other in Hks by done. rewrite lookup_delete_ne by done. eauto.
  - by apply Update_ok.
  - by apply Update_ok.
  - intros k i. unfold Remove. rewrite uses_Update. case_decide as He.
    + subst. rewrite lookup_delete_eq. set_solver.
    + by rewrite lookup_delete_ne, Hint.
  - intros k s. unfold Remove. rewrite uses_Update. case_decide; [set_solver|apply Hown].
Qed.

Lemma new_ok : watcher_ok newWatcher.
Proof.
  split; simpl; try apply New_ok; try done.
  - split; unfold fresh; simpl; [|set_solver|set_solver]. intros c. split; [set_solver|]. intros (k & s & Hk & _). by rewrite lookup_empty in Hk.
  - intros k i. unfold uses, SecretIndex.New. simpl. split; [rewrite lookup_empty; set_solver|]. intros (t & Ht & _). by rewrite lookup_empty in Ht.
Qed.

(** An invariant of single reconciliations and deletions holds after every
    callback. *)
Lemma wp_callbacks (I : Watcher b_Conf → Log → Prop) evs :
  (∀ trigger w w' s l, watcher_ok w → I w s → reconciled trigger w w' l → I w' (s ++ l)) →
  (∀ obj w s, OnDelete obj ∈ evs → watcher_ok w → I w s → I (onTriggerDelete obj w) s) →
  ∀ w s, watcher_ok w → I w s → wp log_spec (callbacks evs w) s (λ w' s', watcher_ok w' ∧ I w' s').
Proof.
  intros Hrec Hdel w s Hok HI.
  assert (∀ trigger w s, watcher_ok w ∧ I w s →
            wp log_spec (reconcileTrigger trigger w) s (λ w' s', watcher_ok w' ∧ I w' s')) as Hone.
  { intros tr w1 s1 [H1 H2]. eapply wp_mono; [apply _| |by apply reconcile_step, wo_contexts].
    intros w' s' (l & -> & Hl). split; [by eapply reconciled_ok|eauto]. }
  assert (∀ l w s, watcher_ok w ∧ I w s → wp log_spec (reprocess l w) s (λ w' s', watcher_ok w' ∧ I w' s')) as Hall.
  { intros l w1 s1 H1. apply wp_fold; [apply _| |done]. intros w2 s2 k _ H2. destruct (w_triggers w2 !! k); [by apply Hone|done]. }
  apply wp_fold; [apply _| |done]. intros w1 s1 e He H1. destruct e as [obj|obj|obj|k|k]; cbn [callback].
  - destruct obj; [by apply Hone|done|done].
  - destruct obj; [by apply Hone|done|done].
  - cbn [wp]. destruct H1. split; [by apply deleted_ok|by apply Hdel].
  - by apply Hall.
  - by apply Hall.
Qed.

(** ** Changes of Secrets and Integrations *)

(** What the cluster answers for a Trigger's Integration and its credentials
    while [h] describes the cluster. *)
Definition credentialsNow (h : ∀ X, WEv X → X) (trigger : Trigger) (t : b_TSpec) : result (b_ISpec * b_Creds) :=
  let ns := m_Namespace (tg_Meta trigger) in
  match h _ (WGetIntegration ns (b_ref t)) with
  | Err e => Err e
  | Ok integ =>
      match b_ispec (in_Spec integ) with
      | None => Err (errorf ("integration has no " +:+ b_type +:+ " spec"))
      | Some spec =>
          match run_pure h (b_resolve ns spec) with
          | (_, Some e) => Err e
          | (creds, None) => Ok (spec, creds)
          end
      end
  end.

(** The watcher is up to date with [h] for a Trigger: a failure is recorded;
    otherwise a subscription it has carries the current credentials, and it
    has one if a start now succeeds. *)
Definition settled (h : ∀ X, WEv X → X) (trigger : Trigger) w : Prop :=
  let key := trigger_key trigger in
  match wanted trigger with
  | None => w_subs w !! key = None
  | Some t =>
      match credentialsNow h trigger t with
      | Err _ => w_credentialFailed w !! key = Some true
      | Ok (spec, creds) =>
          w_credentialFailed w !! key = Some false
          ∧ (∀ sub, w_subs w !! key = Some sub → matches sub trigger t creds = true)
          ∧ ((run_pure h (b_start trigger t spec creds newWatcher)).2 = None → is_Some (w_subs w !! key))
      end
  end.

Lemma wp_log_pure h {A} (p : Prog WEv A) s Q : wp log_spec p s Q → ∃ s', Q (run_pure h p) s'.
Proof.
  revert s. induction p as [a|X e k IH]; cbn [wp run_pure]; intros s Hp; [eauto|].
  destruct e; simpl in Hp; try (eapply IH, Hp). destruct (h _ _). eapply IH, Hp.
Qed.

Lemma reconcile_pure h trigger w :
  contexts_ok w → ∃ l, reconciled trigger w (run_pure h (reconcileTrigger trigger w)) l.
Proof.
  intros Hc. destruct (wp_log_pure h _ _ _ (reconcile_step trigger w [] Hc)) as (s & l & _ & Hr). eauto.
Qed.

Lemma recordSuccess_pure h trigger name w :
  run_pure h (recordCredentialSuccess (trigger_key trigger) name w) = marked trigger false w.
Proof. unfold recordCredentialSuccess. by destruct (default false _). Qed.

Lemma started_matches trigger t creds w w' e :
  sub_started trigger t creds (stopSubscription (trigger_key trigger) w) w' e →
  w_credentialFailed w' = w_credentialFailed w
  ∧ (∀ sub, w_subs w' !! trigger_key trigger = Some sub → matches sub trigger t creds = true)
  ∧ (e = None → is_Some (w_subs w' !! trigger_key trigger)).
Proof.
  intros Hs. pose proof (started_frame _ _ _ _ _ _ Hs) as (_ & _ & _ & -> & _).
  destruct (stop_frame (trigger_key trigger) w) as (_ & _ & _ & ->). split; [done|].
  destruct Hs as [ctx conf next Hge Hlt Hsame|next e Hle]; cbn [w_subs set_subs].
  - rewrite lookup_insert_eq. split; [|by eexists]. intros sub [= <-]. unfold matches. simpl.
    by rewrite Hsame, !String.eqb_refl.
  - rewrite stop_none. done.
Qed.

Lemma ensure_settled h trigger t spec creds w :
  contexts_ok w →
  let w' := run_pure h (ensureSubscription trigger t spec creds w) in
  w_credentialFailed w' = w_credentialFailed w
  ∧ (∀ sub, w_subs w' !! trigger_key trigger = Some sub → matches sub trigger t creds = true)
  ∧ ((run_pure h (b_start trigger t spec creds newWatcher)).2 = None → is_Some (w_subs w' !! trigger_key trigger)).
Proof.
  intros Hc. simpl.
  pose proof (wp_any_pure _ h _ _ (start_law trigger t spec creds (stopSubscription (trigger_key trigger) w)
    (stop_none _ _) (co_next _ (stop_contexts _ _ Hc)))) as Hst.
  apply started_matches in Hst.
  rewrite (start_state trigger t spec creds h newWatcher (stopSubscription (trigger_key trigger) w)).
  unfold ensureSubscription. destruct (w_subs w !! trigger_key trigger) as [sub|] eqn:Hsub.
  - change (_ && _) with (matches sub trigger t creds). destruct (matches sub trigger t creds) eqn:Hm.
    + cbn [run_pure]. rewrite Hsub. split; [done|]. split; [by intros ? [= <-]|by eexists].
    + by rewrite run_pure_bind.
  - rewrite run_pure_bind. unfold stopSubscription in *. by rewrite Hsub in *.
Qed.

Lemma reconcile_settled h trigger w :
  contexts_ok w → settled h trigger (run_pure h (reconcileTrigger trigger w)).
Proof.
  intros Hc. unfold settled, reconcileTrigger, credentialsNow.
  destruct (wanted trigger) as [t|] eqn:Hw; [|apply stop_none].
  rewrite run_pure_bind. cbn [run_pure emit].
  destruct (h _ (WGetIntegration _ _)) as [integ|e]; [|apply lookup_insert_eq].
  destruct (b_ispec (in_Spec integ)) as [spec|]; [|apply lookup_insert_eq].
  rewrite run_pure_bind. destruct (run_pure h (b_resolve _ spec)) as [creds [e|]]; [apply lookup_insert_eq|].
  rewrite run_pure_bind, recordSuccess_pure.
  set (w1 := marked _ _ _). assert (contexts_ok w1) as Hc1 by by apply (contexts_ext w).
  destruct (ensure_settled h trigger t spec creds w1 Hc1) as (Hf & H1 & H2).
  split; [|done]. rewrite Hf. apply lookup_insert_eq.
Qed.

Lemma settled_ext h trigger w w' :
  w_subs w' !! trigger_key trigger = w_subs w !! trigger_key trigger →
  w_credentialFailed w' !! trigger_key trigger = w_credentialFailed w !! trigger_key trigger →
  settled h trigger w → settled h trigger w'.
Proof. unfold settled. by intros -> ->. Qed.

(** Reprocessing settles every Trigger on the list, and keeps the others. *)
Lemma reprocess_settled h l w :
  watcher_ok w →
  let w' := run_pure h (reprocess l w) in
  watcher_ok w' ∧ w_triggers w' = w_triggers w
  ∧ ∀ k trigger, w_triggers w !! k = Some trigger → (k ∈ l ∨ settled h trigger w) → settled h trigger w'.
Proof.
  revert w. induction l as [|k l IH]; intros w Hok; simpl.
  { split; [done|]. split; [done|]. intros k tr _ [H|H]; [set_solver|done]. }
  unfold reprocess. cbn [pfold]. rewrite run_pure_bind. fold (reprocess l).
  destruct (w_triggers w !! k) as [trigger|] eqn:Hk.
  - destruct (reconcile_pure h trigger w (wo_contexts _ Hok)) as [lg Hr].
    pose proof (reconcile_settled h trigger w (wo_contexts _ Hok)) as Hset.
    set (w1 := run_pure h (reconcileTrigger trigger w)) in *.
    pose proof (wo_keys _ Hok _ _ Hk) as Hkey.
    destruct (reconciled_frame _ _ _ _ (wo_contexts _ Hok) Hr) as (_ & Ht & _ & _ & _ & Hrest).
    rewrite Hkey, insert_id in Ht by done.
    destruct (IH w1 (reconciled_ok _ _ _ _ Hok Hr)) as (H1 & H2 & H3).
    split; [done|]. split; [exact (eq_trans H2 Ht)|]. intros k' tr Hk' Hor. apply H3 with k'; [by rewrite Ht|].
    destruct (decide (k' = k)) as [->|Hne]; [right; by simplify_eq|].
    destruct Hor as [[->|Hl]%elem_of_cons|Hs]; [done|by left|right].
    pose proof (wo_keys _ Hok _ _ Hk') as Hkey'.
    destruct (Hrest k') as [Hs1 Hs2]; [congruence|]. rewrite <- Hkey' in Hs1, Hs2. by eapply settled_ext.
  - cbn [run_pure]. destruct (IH w Hok) as (H1 & H2 & H3). split; [done|]. split; [done|].
    intros k' tr Hk' [[->|Hl]%elem_of_cons|Hs]; [congruence|eauto|eauto].
Qed.

(** A change of a Secret reaches the Triggers indexed under it. *)
Lemma secret_change_settled h secret w k trigger :
  watcher_ok w → uses (w_secretIndex w) k secret → w_triggers w !! k = Some trigger →
  settled h trigger (run_pure h (handleSecretChange secret w)).
Proof.
  intros Hok Hu Hk. unfold handleSecretChange.
  destruct (reprocess_settled h (ObjectsFor secret (w_secretIndex w)) w Hok) as (_ & _ & Hs).
  apply (Hs k); [done|]. left. unfold ObjectsFor. apply elem_of_elements. by apply (ix_agree _ (wo_secrets _ Hok)).
Qed.

(** A change of an Integration reaches the Triggers that name it. *)
Lemma integration_change_settled h integ w k trigger :
  watcher_ok w → w_triggers w !! k = Some trigger → integ ∈ integrationRefs trigger →
  settled h trigger (run_pure h (handleIntegrationChange integ w)).
Proof.
  intros Hok Hk Hi. unfold handleIntegrationChange.
  destruct (reprocess_settled h (ObjectsFor integ (w_integrationIndex w)) w Hok) as (_ & _ & Hs).
  apply (Hs k); [done|]. left. unfold ObjectsFor. apply elem_of_elements.
  apply (ix_agree _ (wo_integrations _ Hok)), (wo_integration _ Hok). eauto.
Qed.

Lemma shutdown_loop (l : list (NamespacedName * subscription b_Conf)) w :
  let w' := fold_left (λ w '(key, sub), deleteSub key (cancel (s_ctx sub) w)) l w in
  (∀ k, w_subs w' !! k = if decide (k ∈ l.*1) then None else w_subs w !! k)
  ∧ (∀ c, c ∈ w_live w' ↔ c ∈ w_live w ∧ c ∉ (λ p, s_ctx (snd p)) <$> l).
Proof.
  revert w. induction l as [|[k0 s0] l IH]; intros w; cbn [fold_left fmap list_fmap fst].
  { split; [intros k; by rewrite decide_False by (apply not_elem_of_nil)|intros c; pose proof (not_elem_of_nil c); tauto]. }
  destruct (IH (deleteSub k0 (cancel (s_ctx s0) w))) as [H1 H2]. split.
  - intros k. rewrite H1. cbn. destruct (decide (k = k0)) as [->|Hne].
    + rewrite lookup_delete_eq. repeat case_decide; set_solver.
    + rewrite lookup_delete_ne by done. repeat case_decide; set_solver.
  - intros c. rewrite H2. cbn. set_solver.
Qed.

(** Shutting down cancels every consumer. *)
Lemma shutdown_clean w : contexts_ok w → w_live (shutdown w) = ∅ ∧ w_subs (shutdown w) = ∅.
Proof.
  intros [Hl _ _]. unfold shutdown. destruct (shutdown_loop (map_to_list (w_subs w)) w) as [H1 H2]. split.
  - apply set_eq. intros c. rewrite H2, Hl. split; [|set_solver]. intros [(k & s & Hk & <-) Hn]. exfalso. apply Hn.
    apply list_elem_of_fmap. exists (k, s). split; [done|]. by apply elem_of_map_to_list.
  - apply map_eq. intros k. rewrite H1, lookup_empty. case_decide as Hk; [done|].
    destruct (w_subs w !! k) as [s|] eqn:He; [|done]. exfalso. apply Hk. apply list_elem_of_fmap. exists (k, s).
    split; [done|]. by apply elem_of_map_to_list.
Qed.

(** C19: As long as no two callbacks of the informers overlap (each runs to its
    end before the next one starts), then whatever callbacks run, in any order,
    and whatever the cluster and the broker answer, a gateway's watcher keeps its
    invariant: the live consumers are exactly those of the subscriptions it
    holds, one per Trigger, so none is leaked; only Triggers that are known, enabled and of its type have one;
    both indexes are consistent; the Triggers indexed under an Integration are
    exactly those that name it; and no Trigger depends on a Secret of another
    namespace.  Shutting down then leaves no consumer and no subscription. *)
Theorem watcher_invariant evs :
  wp log_spec (callbacks evs newWatcher) [] (λ w _,
    watcher_ok w ∧ w_live (shutdown w) = ∅ ∧ w_subs (shutdown w) = ∅).
Proof.
  eapply wp_mono; [apply _| |apply (wp_callbacks (λ _ _, True)); [done|done|apply new_ok|done]].
  intros w s [Hok _]. split; [done|]. by apply shutdown_clean, wo_contexts.
Qed.

(** After any history of callbacks, handling a change of an Integration or
    of an indexed Secret brings every dependent Trigger up to date with the
    cluster: its subscription (if it has one) carries the fingerprint of the
    credentials as they now read, it has one whenever the broker accepts a
    start, and credentials that do not resolve are recorded as failed. *)
Theorem credential_change_applied evs :
  wp log_spec (callbacks evs newWatcher) [] (λ w _,
    ∀ h k trigger, w_triggers w !! k = Some trigger →
      (∀ secret, uses (w_secretIndex w) k secret →
         settled h trigger (run_pure h (handleSecretChange secret w)))
      ∧ (∀ integ, integ ∈ integrationRefs trigger →
         settled h trigger (run_pure h (handleIntegrationChange integ w)))).
Proof.
  eapply wp_mono; [apply _| |apply (wp_callbacks (λ _ _, True)); [done|done|apply new_ok|done]].
  intros w s [Hok _] h k trigger Hk. split; intros x Hx.
  - by eapply secret_change_settled.
  - by eapply integration_change_settled.
Qed.

(** ** What a callback may do to contexts *)

(** Contexts that were not there before are new ones. *)
Definition evolves w w' : Prop :=
  (w_next w ≤ w_next w')%nat ∧
  ∀ k s, w_subs w' !! k = Some s → w_subs w !! k = Some s ∨ (w_next w ≤ s_ctx s)%nat.

Lemma evolves_trans a b c : evolves a b → evolves b c → evolves a c.
Proof.
  intros [H1 H2] [H3 H4]. split; [lia|]. intros k s Hs. destruct (H4 k s Hs) as [Hb|Hb]; [auto|right; lia].
Qed.

Lemma stop_evolves key w : evolves w (stopSubscription key w).
Proof.
  unfold stopSubscription. destruct (w_subs w !! key) as [sub0|]; [|by split; [|left]].
  split; simpl; [done|]. intros k sub [_ Hs]%lookup_delete_Some. by left.
Qed.

Lemma reconciled_evolves trigger w w' l : reconciled trigger w w' l → evolves w w'.
Proof.
  destruct 1 as [Hw|t Hw|t refs Hw Ho|t creds sub Hw Ho Hs Hm|t creds w' e Hw Ho Hst]; try (by split; [|left]).
  - apply (evolves_trans _ (dropped trigger w)); [by split; [|left]|apply stop_evolves].
  - set (w1 := marked _ _ _) in Hst. apply (evolves_trans _ w1); [by split; [|left]|].
    eapply evolves_trans; [apply (stop_evolves (trigger_key trigger))|]. destruct Hst as [ctx conf next Hge Hlt _|next e Hle]; (split; [cbn [w_next set_subs]; lia|]); cbn [w_subs set_subs]; [|by auto].
    intros k sub [[<- <-]|[_ Hs]]%lookup_insert_Some; auto.
Qed.

Lemma reprocess_evolves h l w :
  watcher_ok w → watcher_ok (run_pure h (reprocess l w)) ∧ evolves w (run_pure h (reprocess l w)).
Proof.
  revert w. induction l as [|k l IH]; intros w Hok; [by split; [|split; [|left]]|].
  unfold reprocess. cbn [pfold]. rewrite run_pure_bind. fold (reprocess l).
  destruct (w_triggers w !! k) as [trigger|]; [|by apply IH].
  destruct (reconcile_pure h trigger w (wo_contexts _ Hok)) as [lg Hr].
  destruct (IH _ (reconciled_ok _ _ _ _ Hok Hr)) as [H1 H2]. split; [done|].
  by eapply evolves_trans; [eapply reconciled_evolves|].
Qed.

(** Reprocessing other Triggers leaves a Trigger's subscription alone. *)
Lemma reprocess_other h k l w :
  watcher_ok w → k ∉ l →
  let w' := run_pure h (reprocess l w) in
  watcher_ok w' ∧ w_triggers w' = w_triggers w ∧ w_subs w' !! k = w_subs w !! k.
Proof.
  revert w. induction l as [|k0 l IH]; intros w Hok Hk; simpl; [done|].
  apply not_elem_of_cons in Hk as [Hne Hk]. unfold reprocess. cbn [pfold]. rewrite run_pure_bind. fold (reprocess l).
  destruct (w_triggers w !! k0) as [trigger|] eqn:Hk0; [|by apply IH].
  destruct (reconcile_pure h trigger w (wo_contexts _ Hok)) as [lg Hr]. pose proof (wo_keys _ Hok _ _ Hk0) as Hkey.
  destruct (reconciled_frame _ _ _ _ (wo_contexts _ Hok) Hr) as (_ & Ht & _ & _ & _ & Hrest).
  rewrite Hkey, insert_id in Ht by done. set (w1 := run_pure h (reconcileTrigger trigger w)) in *.
  destruct (IH w1 (reconciled_ok _ _ _ _ Hok Hr) Hk) as (H1 & H2 & H3). split_and!; [done| |].
  - etransitivity; [exact H2|exact Ht].
  - etransitivity; [exact H3|]. apply Hrest. congruence.
Qed.

Lemma calls_reprocess_app h a b w :
  calls h (reprocess (a ++ b) w) = calls h (reprocess a w) ++ calls h (reprocess b (run_pure h (reprocess a w))).
Proof.
  revert w. induction a as [|x a IH]; intros w; [done|]. unfold reprocess. cbn [app pfold]. fold (reprocess (a ++ b)). fold (reprocess a).
  rewrite !calls_bind, run_pure_bind, <- app_assoc. f_equal. apply IH.
Qed.

(** A reconcile whose credentials resolve indexes their Secrets, and starts a
    consumer unless the one there is matches them. *)
Lemma reconcile_indexes h trigger t spec creds w :
  contexts_ok w → wanted trigger = Some t → credentialsNow h trigger t = Ok (spec, creds) →
  w_secretIndex (run_pure h (reconcileTrigger trigger w)) = Update (trigger_key trigger) (b_secretRefs creds) (w_secretIndex w) ∧
  (∀ sub, w_subs w !! trigger_key trigger = Some sub → matches sub trigger t creds = false →
     ∃ w1, calls h (b_start trigger t spec creds w1) ⊆ calls h (reconcileTrigger trigger w)).
Proof.
  intros Hc Hw Hnow. unfold credentialsNow in Hnow. unfold reconcileTrigger. rewrite Hw. cbv zeta.
  destruct (h _ (WGetIntegration _ _)) as [integ|e] eqn:Hi; [|done].
  destruct (b_ispec (in_Spec integ)) as [spec'|] eqn:Hspec; [|done].
  destruct (run_pure h (b_resolve _ spec')) as [creds' [e|]] eqn:Hres; [done|]. injection Hnow as -> ->.
  rewrite run_pure_bind, calls_bind. cbn [run_pure emit]. rewrite Hi, Hspec, run_pure_bind, calls_bind, Hres.
  cbn [fst snd]. rewrite run_pure_bind, calls_bind, recordSuccess_pure. set (w1 := marked _ _ _).
  assert (contexts_ok w1) as Hc1 by by apply (contexts_ext w). split.
  - destruct (wp_log_pure h _ _ _ (wp_ensure trigger t spec creds w1 [] Hc1)) as (s' & _ & [(sub & _ & _ & ->)|[e Hst]]); [done|].
    destruct (started_frame _ _ _ _ _ _ Hst) as (_ & -> & _). by destruct (stop_frame (trigger_key trigger) w1) as (_ & -> & _).
  - intros sub Hsub Hm. exists (stopSubscription (trigger_key trigger) w1). unfold ensureSubscription.
    change (w_subs w1 !! trigger_key trigger) with (w_subs w !! trigger_key trigger). rewrite Hsub.
    change (b_same _ _ _ && _ && _) with (matches sub trigger t creds). rewrite Hm, calls_bind. set_solver.
Qed.

(** A Secret change that leaves a Trigger with credentials its consumer does not
    match replaces the consumer. *)
Lemma secret_change_replaces h secret w1 trigger t spec creds old new :
  let k := trigger_key trigger in
  let w2 := run_pure h (handleSecretChange secret w1) in
  watcher_ok w1 → uses (w_secretIndex w1) k secret → w_triggers w1 !! k = Some trigger →
  wanted trigger = Some t → credentialsNow h trigger t = Ok (spec, creds) →
  w_subs w1 !! k = Some old → matches old trigger t creds = false →
  w_subs w2 !! k = Some new → matches new trigger t creds = true →
  s_ctx old ∈ w_live w1 ∧ (s_ctx old ∉ w_live w2) ∧ s_ctx new ∈ w_live w2 ∧
  ∃ ws, calls h (b_start trigger t spec creds ws) ⊆ calls h (handleSecretChange secret w1).
Proof.
  intros k w2 Hok1 Huse Hkn Hw Hnow Hold Hmis Hnew Hmatch. pose proof (wo_contexts _ Hok1) as Hctx1. subst k.
  destruct (reprocess_evolves h (ObjectsFor secret (w_secretIndex w1)) w1 Hok1) as [Hok2 Hev].
  change (run_pure h (reprocess _ w1)) with w2 in Hok2, Hev. pose proof (wo_contexts _ Hok2) as Hctx2.
  assert (s_ctx old ∈ w_live w1) as Holdlive by (apply (co_live _ Hctx1); eauto).
  split_and!; [done| |apply (co_live _ Hctx2); by eauto|].
  - intros (k' & sub & Hsub & Hc)%(co_live _ Hctx2). destruct (proj2 Hev k' sub Hsub) as [Hsub1|Hge].
    + pose proof (co_inj _ Hctx1 _ _ _ _ Hsub1 Hold Hc) as ->. rewrite Hsub1 in Hold. rewrite Hsub in Hnew. simplify_eq.
      by rewrite Hmatch in Hmis.
    + pose proof (co_next _ Hctx1 _ Holdlive). lia.
  - (* The pass over the affected Triggers, split at this one. *)
    assert (trigger_key trigger ∈ ObjectsFor secret (w_secretIndex w1)) as Hin.
    { unfold ObjectsFor. apply elem_of_elements. by apply (ix_agree _ (wo_secrets _ Hok1)). }
    apply list_elem_of_split_l in Hin as (a & b & Hl & Ha).
    destruct (reprocess_other h (trigger_key trigger) a w1 Hok1 Ha) as (Hoka & Htra & Hsuba). set (wa := run_pure h (reprocess a w1)) in *.
    destruct (reconcile_indexes h trigger t spec creds wa (wo_contexts _ Hoka) Hw Hnow) as [_ Hcalls].
    destruct (Hcalls old) as [ws Hcw]; [by rewrite Hsuba|done|]. exists ws. intros c Hc.
    unfold handleSecretChange. rewrite Hl, calls_reprocess_app. fold wa.
    unfold reprocess at 2. cbn [pfold]. rewrite Htra, Hkn, calls_bind. apply elem_of_app. right. apply elem_of_app. left. by apply Hcw.
Qed.

End watcher.

(** ** Rotation of Kafka credentials *)

Section rotation.
  Context `{HttpLib}.

(** A cluster in which a Trigger's Integration is [integ], the Secrets of its
    namespace hold [secrets], and the broker accepts consumers. *)
Definition cluster (h : ∀ X, WEv X → X) (ns ref : string) (integ : Integration) (secrets : string → gmap string string) : Prop :=
  h _ (WGetIntegration ns ref) = Ok integ ∧ (∀ name, h _ (WGetSecret ns name) = Ok (secrets name)) ∧
  ∀ servers group cfg, h _ (WNewConsumerGroup servers group cfg) = Ok tt.

(** The certificate, user name and password of an Integration with SASL. *)
Definition holds (spec : KafkaIntegrationSpec) (sasl : KafkaSASLConfig) (secrets : string → gmap string string) (ca user password : string) : Prop :=
  let value (ref : SecretKeySelector) := secrets (sr_Name ref) !! sr_Key ref in
  value (ksasl_UsernameSecretRef sasl) = Some user ∧ value (ksasl_PasswordSecretRef sasl) = Some password ∧
  match ki_TLS spec with
  | Some tls =>
      match ktls_Enabled tls, ktls_CASecretRef tls with
      | true, Some ref => value ref = Some ca ∧ AppendCertsFromPEM ca = true
      | _, _ => ca = ""
      end
  | None => ca = ""
  end.

Lemma kafka_resolved h trigger t integ spec sasl secrets ca u p :
  cluster h (m_Namespace (tg_Meta trigger)) (kt_IntegrationRef t) integ secrets →
  is_Kafka (in_Spec integ) = Some spec → ki_SASL spec = Some sasl → holds spec sasl secrets ca u p →
  ∃ refs, credentialsNow (B := KafkaBroker) h trigger t = Ok (spec, MkKafkaCreds ca u p refs (sha256_hex (ca +:+ u +:+ p))) ∧
    (m_Namespace (tg_Meta trigger), sr_Name (ksasl_UsernameSecretRef sasl)) ∈ refs ∧
    (m_Namespace (tg_Meta trigger), sr_Name (ksasl_PasswordSecretRef sasl)) ∈ refs.
Proof.
  intros (Hi & Hs & _) Hk Hsasl (Hu & Hp & Hca). unfold credentialsNow. cbn [b_ref KafkaBroker b_ispec b_resolve]. rewrite Hi, Hk.
  unfold resolveKafkaCredentials. rewrite run_pure_bind.
  assert (∃ refs, run_pure h (resolveKafkaCA (m_Namespace (tg_Meta trigger)) spec) = Ok (ca, refs)) as [refs ->].
  { unfold resolveKafkaCA. destruct (ki_TLS spec) as [tls|]; [|subst; by eexists]. destruct (ktls_Enabled tls); [|subst; by eexists].
    destruct (ktls_CASecretRef tls) as [ref|]; [|subst; by eexists]. destruct Hca as [Hca _]. rewrite run_pure_bind. unfold readSecret.
    rewrite run_pure_bind. cbn [run_pure emit]. rewrite Hs, Hca. by eexists. }
  rewrite Hsasl. unfold readSecret. rewrite !run_pure_bind. cbn [run_pure emit]. rewrite Hs, Hu. cbn [run_pure].
  rewrite !run_pure_bind. cbn [run_pure emit]. rewrite Hs, Hp. cbn [run_pure]. eexists. split; [done|]. split; set_solver.
Qed.

Lemma kafka_starts h trigger t spec sasl m secrets ca u p refs fp w integ :
  cluster h (m_Namespace (tg_Meta trigger)) (kt_IntegrationRef t) integ secrets →
  ki_SASL spec = Some sasl → saslMechanism (ksasl_Mechanism sasl) = Some m → holds spec sasl secrets ca u p →
  (run_pure h (kafka_startSubscription trigger t spec (MkKafkaCreds ca u p refs fp) w)).2 = None ∧
  ∃ tls, (existT _ (WNewConsumerGroup (ki_BootstrapServers spec) (consumerGroupID trigger t) (MkKafkaConfig tls (Some (u, p, m))))) ∈
    calls h (kafka_startSubscription trigger t spec (MkKafkaCreds ca u p refs fp) w).
Proof.
  intros (_ & _ & Hg) Hsasl Hm (_ & _ & Hca). unfold kafka_startSubscription, consumerSASL. rewrite Hsasl, Hm.
  assert (∃ tls, consumerTLS (m_Namespace (tg_Meta trigger)) spec (MkKafkaCreds ca u p refs fp) = Ok tls) as [tls ->].
  { unfold consumerTLS. destruct (ki_TLS spec) as [tls|]; [|by eexists]. destruct (ktls_Enabled tls); [|by eexists].
    destruct (ktls_CASecretRef tls) as [ref|]; [|by eexists]. destruct Hca as [_ Hca]. cbn [kcr_caPEM]. rewrite Hca. by eexists. }
  rewrite run_pure_bind, calls_bind. cbn [run_pure emit calls]. rewrite Hg. cbn. split; [done|]. exists tls. by left.
Qed.


End rotation.
