(* ===== verification/AmqpProps.v ===== *)
(** * AMQP connections: protocol order and backoff *)

From S2P Require Import Prelude SecretIndex GoStd Api Net Effects Interp Kube WebhookWatcher Delivery BrokerWatcher KafkaWatcher AmqpWatcher.

Local Open Scope string_scope.
Local Open Scope list_scope.
Local Open Scope go_scope.

(** ** The order of requests on one connection *)

(** What has been set up on the broker, and what is open. *)
Record ConnState := MkConnState {
  cs_conn : bool;
  cs_chan : bool;
  cs_exchange : bool;
  cs_queue : bool;
  cs_bound : bool;
  cs_consuming : bool
}.

Definition closed : ConnState := MkConnState false false false false false false.

Section protocol.
  Context (topic : string) (exchange : option AmqpExchangeSpec) (flow : string).

(** When a request is allowed. *)
Definition allowed {X} (e : AEv X) (s : ConnState) : Prop :=
  match e with
  | AWatch _ => cs_conn s = false
  | ADial091 _ _ => cs_conn s = false
  | ADial10 _ _ _ => cs_conn s = false
  | AChannel => cs_conn s = true
  | ASession => cs_conn s = true
  | AExchangeDeclare name kind durable =>
      cs_chan s = true ∧ exchange = Some (MkAmqpExchange name kind) ∧ durable = true
  | AQueueDeclare name durable =>
      cs_chan s = true ∧ name = topic ∧ durable = true ∧ (is_Some exchange → cs_exchange s = true)
  | AQueueBind name _ x => cs_queue s = true ∧ name = topic ∧ (ae_Name <$> exchange) = Some x
  | AConsume queue _ autoAck =>
      cs_queue s = true ∧ (is_Some exchange → cs_bound s = true) ∧ queue = topic ∧ autoAck = false
  | AReceiver t => cs_chan s = true ∧ t = topic
  | AReceive => cs_queue s = true
  | AHandle (HCreate fr) => cs_consuming s = true ∧ frs_FlowRef (fr_Spec fr) = flow
  | AHandle _ => cs_consuming s = true
  | ACloseReceiver => cs_conn s = true
  | ACloseChannel => cs_conn s = true
  | ACloseConn => cs_conn s = true
  end.

(** The state after a request, given its answer. *)
Definition after {X} (e : AEv X) (s : ConnState) : X → ConnState :=
  match e in AEv X return X → ConnState with
  | ADial091 _ _ => λ r, if is_ok r then MkConnState true false false false false false else s
  | ADial10 _ _ _ => λ r, if is_ok r then MkConnState true false false false false false else s
  | AChannel => λ r, if is_ok r then MkConnState true true false false false false else s
  | ASession => λ r, if is_ok r then MkConnState true true false false false false else s
  | AExchangeDeclare _ _ _ => λ r, match r with None => MkConnState true true true false false false | Some _ => s end
  | AQueueDeclare _ _ => λ r, match r with None => MkConnState true true (cs_exchange s) true false false | Some _ => s end
  | AQueueBind _ _ _ => λ r, match r with None => MkConnState true true (cs_exchange s) true true false | Some _ => s end
  | AConsume _ _ _ => λ r, if is_ok r then MkConnState true true (cs_exchange s) true (cs_bound s) true else s
  | AReceiver _ => λ r, if is_ok r then MkConnState true true false true false false else s
  | AReceive => λ _, MkConnState true true false true false true
  | ACloseReceiver => λ _, MkConnState true false false false false false
  | ACloseChannel => λ _, MkConnState true false false false false false
  | ACloseConn => λ _, closed
  | AWatch _ => λ _, s
  | AHandle _ => λ _, s
  end.

Definition conn_spec : Spec AEv ConnState := λ X e s Q, allowed e s ∧ ∀ x, Q x (after e s x).

#[global] Instance conn_spec_mono : MonoSpec conn_spec.
Proof. intros X e s P Q H [? ?]. split; [done|]. auto. Qed.

Lemma wp_watching {A} (p : Prog WEv A) s (Q : A → ConnState → Prop) :
  cs_conn s = false → (∀ a, Q a s) → wp conn_spec (watching p) s Q.
Proof.
  intros Hs HQ. unfold watching. induction p as [a|X e k IH]; cbn [plift wp]; [apply HQ|]. split; [done|]. auto.
Qed.

(** A program of the message handler creates FlowRuns of one Flow only. *)
Definition flow_only (X : Type) (e : HEv X) : Prop :=
  match e with HCreate fr => frs_FlowRef (fr_Spec fr) = flow | _ => True end.

Lemma wp_handling {A} (p : Prog HEv A) s (Q : A → ConnState → Prop) :
  cs_consuming s = true → wp (any_spec flow_only) p tt (λ _ _, True) → (∀ a, Q a s) → wp conn_spec (handling p) s Q.
Proof.
  intros Hs Hp HQ. unfold handling. revert Hp. induction p as [a|X e k IH]; cbn [plift wp]; [auto|].
  intros [He Hk]. split; [destruct e; simpl in *; done|]. auto.
Qed.

Lemma createFlowRun_flow fr : frs_FlowRef (fr_Spec fr) = flow → wp (any_spec flow_only) (createFlowRun fr) tt (λ _ _, True).
Proof. intros Hf. unfold createFlowRun. repeat first [progress wp_step | done]. Qed.

Lemma Run091_flow h sels : mh_flowRefName h = flow → wp (any_spec flow_only) (Run091 h sels) tt (λ _ _, True).
Proof.
  intros Hf. induction sels as [|[| |d] sels IH]; cbn [Run091]; try done.
  unfold handleDelivery. do 2 (apply wp_bind; [apply _|]).
  eapply wp_mono; [apply _| |by apply createFlowRun_flow]. intros [e|] [] _; cbn.
  - split; [done|]. intros ?. apply IH.
  - split; [done|]. intros [e|]; cbn; [split; [done|]; intros ?|]; apply IH.
Qed.

Lemma Run10_flow h l : mh_flowRefName h = flow → wp (any_spec flow_only) (Run10 h l) tt (λ _ _, True).
Proof.
  intros Hf. induction l as [|[m|e] l IH]; cbn [Run10]; try done.
  unfold handleMessage10. do 2 (apply wp_bind; [apply _|]).
  assert (∀ name, wp (any_spec flow_only) (createFlowRun (messageFlowRun h name m)) tt
            (λ (e : option gerr) s, wp (any_spec flow_only)
               (pbind (match e with Some _ => emit (HNack (In10 m)) | None => emit (HAck (In10 m)) end)
                      (λ _, Run10 h l)) s (λ _ _, True))) as Hgo.
  { intros name. eapply wp_mono; [apply _| |by apply createFlowRun_flow].
    intros [e|] [] _; (split; [done|]); intros ?; exact IH. }
  destruct (am_MessageID m); cbn; [apply Hgo|]. split; [done|]. intros ts. apply Hgo.
Qed.

End protocol.

Section connect.
  Context `{HttpLib}.

Lemma wp_declareAndBind topic routingKey exchange flow tag (Q : result (list Select091) → ConnState → Prop) s :
  s = MkConnState true true false false false false →
  (∀ e s', cs_conn s' = true → Q (Err e) s') →
  (∀ d s', cs_conn s' = true → cs_consuming s' = true → Q (Ok d) s') →
  wp (conn_spec topic exchange flow) (declareAndBind091 topic routingKey exchange tag) s Q.
Proof.
  intros -> Herr Hok. unfold declareAndBind091. destruct exchange as [[xn xt]|]; cbn.
  - split; [done|]. intros [e|]; [by apply Herr|]. split; [done|]. intros [e|]; [by apply Herr|].
    split; [done|]. intros [e|]; [by apply Herr|]. split; [done|]. intros [d|e]; [by apply Hok|by apply Herr].
  - split; [split_and!; try done; by intros []|]. intros [e|]; [by apply Herr|].
    split; [split_and!; try done; by intros []|]. intros [d|e]; [by apply Hok|by apply Herr].
Qed.

Lemma wp_consume091 trigger t (Q : option gerr → ConnState → Prop) :
  (∀ r s, cs_conn s = true → Q r s) →
  wp (conn_spec (at_Topic t) (at_Exchange t) (ts_FlowRef (tg_Spec trigger))) (consume091 trigger t)
     (MkConnState true false false false false false) Q.
Proof.
  intros HQ. unfold consume091. split; [done|]. intros [c|e]; cbn -[declareAndBind091]; [|by apply HQ].
  apply wp_bind; [apply _|]. apply wp_declareAndBind; [done| |].
  - intros e s Hs. cbn. split; [done|]. intros ?. by apply HQ.
  - intros d s Hs Hc. apply wp_bind; [apply _|]. apply wp_bind; [apply _|].
    apply wp_handling; [done|by apply Run091_flow|]. intros _. cbn. split; [done|]. intros ?. by apply HQ.
Qed.

(** On an AMQP connection, of either protocol version and whatever the
    cluster and the broker answer, requests come in protocol order: Secrets are
    read before dialing; the exchange (when one is configured) is declared
    before the queue, and the queue is bound before it is consumed, always with
    manual acknowledgement; FlowRuns are only created while consuming, and of
    the Trigger's Flow; and the connection is closed again on every path. *)
Theorem connect_protocol trigger t spec :
  wp (conn_spec (at_Topic t) (at_Exchange t) (ts_FlowRef (tg_Spec trigger))) (connect091 trigger t spec) closed
     (λ _ s, s = closed) ∧
  wp (conn_spec (at_Topic t) (at_Exchange t) (ts_FlowRef (tg_Spec trigger))) (connect10 trigger t spec) closed
     (λ _ s, s = closed).
Proof.
  split.
  - unfold connect091. apply wp_bind; [apply _|]. apply wp_watching; [done|]. intros [u|e]; [|done].
    apply wp_bind; [apply _|]. apply wp_watching; [done|]. intros [c|e]; [|done].
    split; [done|]. intros [[]|e]; cbn -[consume091]; [|done].
    apply wp_bind; [apply _|]. apply wp_consume091. intros r s Hs. cbn. split; [done|]. done.
  - unfold connect10. apply wp_bind; [apply _|]. apply wp_watching; [done|]. intros [u|e]; [|done].
    apply wp_bind; [apply _|]. apply wp_watching; [done|]. intros [c|e]; [|done].
    split; [done|]. intros [[]|e]; cbn -[handling]; [|done].
    split; [done|]. intros [[]|e]; cbn -[handling]; [|by split].
    split; [done|]. intros [[]|e]; cbn -[handling]; [|by split].
    split; [done|]. intros l. apply wp_bind; [apply _|]. apply wp_bind; [apply _|].
    apply wp_handling; [done|by apply Run10_flow|]. intros _. cbn. by repeat split.
Qed.

End connect.

(** ** Backoff *)

Definition backoff_bound (X : Type) (e : LEv X) : Prop :=
  match e with LSleep d => (5 * Second <= d <= 60 * Second)%Z | _ => True end.

Lemma nextBackoff_bound b : (5 * Second <= b <= 60 * Second)%Z → (5 * Second <= nextBackoff b <= 60 * Second)%Z.
Proof. unfold nextBackoff, maxBackoff. intros. destruct (Z.ltb_spec (60 * Second) (b * 2)); lia. Qed.

Lemma retry_bound fuel : ∀ b, (5 * Second <= b <= 60 * Second)%Z →
  wp (any_spec backoff_bound) (retry091 fuel b) tt (λ _ _, True).
Proof.
  induction fuel as [|fuel IH]; intros b Hb; cbn [retry091]; [done|].
  repeat first [progress wp_step | done | apply IH].
  - by apply nextBackoff_bound.
Qed.

(** The waits of a run. *)
Definition waits {A} (h : ∀ X, LEv X → X) (p : Prog LEv A) : list Z :=
  omap (λ c : { X & LEv X }, match projT2 c with LSleep d => Some d | _ => None end) (calls h p).

Definition failing (e : gerr) (X : Type) (c : LEv X) : X :=
  match c with LDone => false | LSession => Some e | LSleep _ => false | LClose => tt end.

Lemma waits_retry e n : ∀ i,
  waits (failing e) (retry091 n (Z.min (initialBackoff * 2 ^ Z.of_nat i) maxBackoff))
  = map (λ j, Z.min (initialBackoff * 2 ^ Z.of_nat j) maxBackoff) (seq i n).
Proof.
  induction n as [|n IH]; intros i; [done|]. cbn [retry091 seq map]. cbn. f_equal. rewrite <- IH. unfold waits. do 3 f_equal.
  unfold nextBackoff, maxBackoff, initialBackoff, Second. rewrite Nat2Z.inj_succ, Z.pow_succ_r by lia.
  set (p := (2 ^ Z.of_nat i)%Z). destruct (Z.ltb_spec (60 * 1000000000) (Z.min (5 * 1000000000 * p) (60 * 1000000000) * 2)); lia.
Qed.

(** The AMQP subscription loop backs off exponentially within bounds: every
    wait is between 5 and 60 seconds whatever the connections do, and while
    connections keep failing the i-th wait is 5s doubled i times, capped at
    60s. *)
Theorem amqp_backoff n :
  wp (any_spec backoff_bound) (runSubscription091 n) tt (λ _ _, True)
  ∧ (∀ e, waits (failing e) (runSubscription091 n)
          = map (λ i, Z.min (5 * Second * 2 ^ Z.of_nat i) (60 * Second)) (seq 0 n)).
Proof.
  split; [apply retry_bound; unfold initialBackoff, Second; lia|]. intros e. apply (waits_retry e n 0).
Qed.
