(* ===== verification/ResourceWatcher.v ===== *)
(** * The resource watcher

    [internal/controller/resource_watcher.go]: for every Trigger of type
    resource a dynamic informer whose events become FlowRuns, subject to a
    cooldown per Trigger, resource and event type.  A context is a number, as
    in BrokerWatcher; the methods that hold the mutex run one at a time.  The
    informer machinery and discovery are requests ([REv]); the label selector
    library is the class [SelectorLib]. *)

From S2P Require Import Prelude SecretIndex GoStd Runes Api Net Effects Interp Ssrf Executor Webhook Delivery.

Local Open Scope string_scope.
Local Open Scope list_scope.
Local Open Scope go_scope.

(** [metav1.LabelSelectorAsSelector] and [Matches] on a label set. *)
Class SelectorLib := {
  LabelSelectorAsSelector : LabelSelector → result (gmap string string → bool)
}.

Definition resourceType : string := "resource".
Definition cooldownEvictionWindow : Z := 1 * Hour.
Definition cooldownEvictionInterval : Z := 10 * Minute.

(** [watch.EventType] *)
Inductive EventType := Added | Modified | Deleted.
Definition event_string (e : EventType) : string :=
  match e with Added => "ADDED" | Modified => "MODIFIED" | Deleted => "DELETED" end.

Record ResourceWatcher := MkResourceWatcher {
  rw_dynamicClient : bool;
  rw_discoveryClient : bool;
  rw_mgrCtx : bool;
  rw_watchers : gmap string nat;
  rw_cooldownTracker : gmap string Z;
  rw_live : gset nat;
  rw_next : nat
}.

Definition NewResourceWatcher (dynamic discovery : bool) : ResourceWatcher :=
  MkResourceWatcher dynamic discovery false ∅ ∅ ∅ 0.

(** [Start], up to the wait for the end of the context. *)
Definition startWatcher (rw : ResourceWatcher) : ResourceWatcher :=
  MkResourceWatcher (rw_dynamicClient rw) (rw_discoveryClient rw) true (rw_watchers rw) (rw_cooldownTracker rw)
    (rw_live rw) (rw_next rw).

Definition set_tracker (m : gmap string Z) (rw : ResourceWatcher) : ResourceWatcher :=
  MkResourceWatcher (rw_dynamicClient rw) (rw_discoveryClient rw) (rw_mgrCtx rw) (rw_watchers rw) m
    (rw_live rw) (rw_next rw).

Definition set_watchers (ws : gmap string nat) (live : gset nat) (next : nat) (rw : ResourceWatcher) : ResourceWatcher :=
  MkResourceWatcher (rw_dynamicClient rw) (rw_discoveryClient rw) (rw_mgrCtx rw) ws (rw_cooldownTracker rw) live next.

Definition watcherKey (t : Trigger) : string := m_Namespace (tg_Meta t) +:+ "/" +:+ m_Name (tg_Meta t).

Definition Deregister (key : string) (rw : ResourceWatcher) : ResourceWatcher :=
  let rw := match rw_watchers rw !! key with
            | Some ctx => set_watchers (delete key (rw_watchers rw)) (rw_live rw ∖ {[ctx]}) (rw_next rw) rw
            | None => rw
            end in
  set_tracker (filter (λ kv, HasPrefix kv.1 (key +:+ "/") = false) (rw_cooldownTracker rw)) rw.

(** The new state, and the context of the goroutine started if any. *)
Definition Register (trigger : Trigger) (rw : ResourceWatcher) : ResourceWatcher * option nat :=
  let key := watcherKey trigger in
  let rw := Deregister key rw in
  match ts_Resource (tg_Spec trigger) with
  | None => (rw, None)
  | Some _ =>
      if negb (rw_dynamicClient rw) then (rw, None)
      else if negb (rw_mgrCtx rw) then (rw, None)
      else (set_watchers (<[key := rw_next rw]> (rw_watchers rw)) ({[rw_next rw]} ∪ rw_live rw) (S (rw_next rw)) rw,
            Some (rw_next rw))
  end.

(** One tick of [runCooldownEviction]. *)
Definition evictCooldowns (now : Z) (rw : ResourceWatcher) : ResourceWatcher :=
  let cutoff := (now - cooldownEvictionWindow)%Z in
  set_tracker (filter (λ kv, (kv.2 <? cutoff)%Z = false) (rw_cooldownTracker rw)) rw.

Inductive REv : Type → Type :=
  | RNow : REv Z
  (** [rand.Read] of that many bytes. *)
  | RRandBytes (n : nat) : REv (result string)
  | RCreate (fr : FlowRun) : REv (result unit)
  (** Kind and plural name of each resource of a group version. *)
  | RDiscovery (apiVersion : string) : REv (result (list (string * string)))
  (** A new informer with the event handlers, its error if any. *)
  | RInformer (group version resource ns : string) : REv (option gerr)
  (** Start it and wait: whether the context is done, whether it synced. *)
  | RSync : REv (bool * bool)
  | RSleep (d : Z) : REv bool
  | RWaitDone : REv unit.

(** ** Pure helpers *)

(** [strings.SplitN(apiVersion, "/", 2)] *)
Definition parseAPIVersion (apiVersion : string) : string * string :=
  match Index apiVersion "/" with
  | Some n => (stake n apiVersion, sdrop (S n) apiVersion)
  | None => ("", apiVersion)
  end.

Definition allowedEventSet (events : list string) : gset string :=
  match events with
  | [] => {["create"]}
  | _ => list_to_set (ToLower <$> events)
  end.

(** [hex.EncodeToString] of [(length+1)/2] random bytes, cut to [length]. *)
Definition resourceWatcherRandomHex (length : Z) : Prog REv string :=
  if (length <=? 0)%Z then Ret "" else
  let! b := emit (RRandBytes (Z.to_nat ((length + 1) / 2))) in
  match b with
  | Err _ => Ret (of_chars (replicate (Z.to_nat length) "0"%char))
  | Ok b => let s := hexstr b in
            Ret (if (Z.to_nat length <? slen s)%nat then stake (Z.to_nat length) s else s)
  end.

Section watcher.
  Context `{GoLib, SelectorLib}.

(** [unstructured.Unstructured] is its object. *)
Definition Unstructured : Type := gmap string (jval f64).

(** [unstructured.NestedFieldNoCopy]; [None] is a missing field or an error. *)
Fixpoint NestedField (obj : jval f64) (path : list string) : option (jval f64) :=
  match path with
  | [] => Some obj
  | f :: path => match obj with
                 | JObj m => match m !! f with Some v => NestedField v path | None => None end
                 | _ => None
                 end
  end.

Definition NestedString (u : Unstructured) (path : list string) : string :=
  match NestedField (JObj u) path with Some (JStr s) => s | _ => "" end.

Definition GetName (u : Unstructured) : string := NestedString u ["metadata"; "name"].
Definition GetNamespace (u : Unstructured) : string := NestedString u ["metadata"; "namespace"].

Definition json_string (v : jval f64) : option string := match v with JStr s => Some s | _ => None end.

(** No labels when a value is not a string. *)
Definition GetLabels (u : Unstructured) : gmap string string :=
  match NestedField (JObj u) ["metadata"; "labels"] with
  | Some (JObj m) =>
      if forallb (λ kv, bool_decide (is_Some (json_string kv.2))) (map_to_list m) then omap json_string m else ∅
  | _ => ∅
  end.

(** What an informer hands to a callback. *)
Inductive RObj := RUnstructured (u : Unstructured) | RTombstone (u : option Unstructured) | ROther.

Definition toUnstructured (obj : RObj) : option Unstructured :=
  match obj with
  | RUnstructured u => Some u
  | RTombstone (Some u) => Some u
  | _ => None
  end.

(** [fmt.Sprintf("%v", ...)] of a nested field, [nil] when it is missing. *)
Definition fieldValue (u : Unstructured) (field : string) : string :=
  Sprintv (default JNull (NestedField (JObj u) (split_char "." (TrimPrefix field ".")))).

Definition fieldsChanged (oldObj newObj : RObj) (fields : list string) : bool :=
  match toUnstructured oldObj, toUnstructured newObj with
  | Some oldU, Some newU => existsb (λ field, negb (fieldValue oldU field =? fieldValue newU field)) fields
  | _, _ => true
  end.

(** ** An event *)

(** The label selector; one that does not parse is ignored. *)
Definition selected (spec : ResourceTrigger) (u : Unstructured) : bool :=
  match rt_LabelSelector spec with
  | None => true
  | Some ls => match LabelSelectorAsSelector ls with
               | Ok matches => matches (GetLabels u)
               | Err _ => true
               end
  end.

Definition cooldownKey (trigger : Trigger) (resNS resName eventStr : string) : string :=
  watcherKey trigger +:+ "/" +:+ resNS +:+ "/" +:+ resName +:+ "/" +:+ eventStr.

(** The cooldown block: whether the event passes, and the tracker after it. *)
Definition cooldownPass (spec : ResourceTrigger) (key : string) (rw : ResourceWatcher)
    : Prog REv (bool * ResourceWatcher) :=
  match rt_Cooldown spec with
  | None => Ret (true, rw)
  | Some d =>
      if negb (0 <? d)%Z then Ret (true, rw) else
      let! hit := match rw_cooldownTracker rw !! key with
                  | None => Ret false
                  | Some last => let! t := emit RNow in Ret (t - last <? d)%Z
                  end in
      if hit : bool then Ret (false, rw)
      else let! t := emit RNow in Ret (true, set_tracker (<[key := t]> (rw_cooldownTracker rw)) rw)
  end.

Definition resourceFlowRun (trigger : Trigger) (spec : ResourceTrigger) (name : string) (u : Unstructured)
    (eventType : EventType) : FlowRun :=
  let flowRef := ts_FlowRef (tg_Spec trigger) in
  MkFlowRun
    (MkMeta name (m_Namespace (tg_Meta trigger)) "" 0 0
       (<["kubezap.io/trigger" := m_Name (tg_Meta trigger)]>
        (<["kubezap.io/trigger-type" := resourceType]> {["kubezap.io/flow" := flowRef]}))
       ∅ [] 0 None)
    (MkFlowRunSpec flowRef [] (Some (MkTriggerRef (m_Name (tg_Meta trigger)) resourceType))
       (Some (MkTriggerData (event_string eventType) (GetName u) (GetNamespace u) (rt_APIVersion spec) (rt_Kind spec)
                "" "" "" ∅ "" 0 0 "" "" None (default "" (json_Marshal (JObj u))) false "" ""))
       None)
    (MkFlowRunStatus 0 PhaseEmpty [] None None [] "" None).

Definition handleEvent (trigger : Trigger) (spec : ResourceTrigger) (obj : RObj) (eventType : EventType)
    (rw : ResourceWatcher) : Prog REv ResourceWatcher :=
  match toUnstructured obj with
  | None => Ret rw
  | Some u =>
      if negb (selected spec u) then Ret rw else
      let resName := GetName u in
      let eventStr := ToLower (event_string eventType) in
      let! p := cooldownPass spec (cooldownKey trigger (GetNamespace u) resName eventStr) rw in
      let '(pass, rw) := p in
      if negb pass then Ret rw
      else if (ts_FlowRef (tg_Spec trigger) =? "") then Ret rw
      else
        let! t := emit RNow in
        let! hex := resourceWatcherRandomHex 4 in
        let name := m_Name (tg_Meta trigger) +:+ "-" +:+ sanitizeName resName +:+ "-" +:+ eventStr +:+ "-"
                    +:+ Itoa (t / Second) +:+ "-" +:+ hex in
        let! _ := emit (RCreate (resourceFlowRun trigger spec name u eventType)) in
        Ret rw
  end.

(** The three informer callbacks of [runWatcher]. *)
Definition onAdd (trigger : Trigger) (spec : ResourceTrigger) (obj : RObj) (rw : ResourceWatcher) : Prog REv ResourceWatcher :=
  if bool_decide ("create" ∈ allowedEventSet (rt_Events spec)) then handleEvent trigger spec obj Added rw else Ret rw.

Definition onUpdate (trigger : Trigger) (spec : ResourceTrigger) (oldObj newObj : RObj) (rw : ResourceWatcher)
    : Prog REv ResourceWatcher :=
  if negb (bool_decide ("update" ∈ allowedEventSet (rt_Events spec))) then Ret rw
  else if (0 <? length (rt_WatchFields spec))%nat && negb (fieldsChanged oldObj newObj (rt_WatchFields spec)) then Ret rw
  else handleEvent trigger spec newObj Modified rw.

Definition onDelete (trigger : Trigger) (spec : ResourceTrigger) (obj : RObj) (rw : ResourceWatcher) : Prog REv ResourceWatcher :=
  if bool_decide ("delete" ∈ allowedEventSet (rt_Events spec)) then handleEvent trigger spec obj Deleted rw else Ret rw.

(** ** The goroutine of a watcher *)

Definition resolvePlural (discovery : bool) (apiVersion kind : string) : Prog REv string :=
  let naivePlural := ToLower kind +:+ "s" in
  if negb discovery then Ret naivePlural else
  let! l := emit (RDiscovery apiVersion) in
  match l with
  | Err _ => Ret naivePlural
  | Ok l => match find_by (λ r, (r.1 =? kind)) l with
            | Some (_, name) => Ret name
            | None => Ret naivePlural
            end
  end.

Definition maxAttempts : nat := 5.

(** [n] attempts left; true when the watcher gave up. *)
Fixpoint syncAttempts (group version resource ns : string) (n : nat) (backoff : Z) : Prog REv bool :=
  match n with
  | O => Ret true
  | S n =>
      let! e := emit (RInformer group version resource ns) in
      match e with
      | Some _ => Ret false
      | None =>
          let! s := emit RSync in
          let '(dn, synced) := s in
          if dn : bool then Ret false
          else if synced : bool then let! _ := emit RWaitDone in Ret false
          else match n with
               | O => Ret true
               | _ => let! dn := emit (RSleep backoff) in
                      if dn : bool then Ret false else syncAttempts group version resource ns n (backoff * 2)
               end
      end
  end.

(** The state changes only at the end: a watcher that gave up removes itself. *)
Definition runWatcher (trigger : Trigger) (spec : ResourceTrigger) (rw : ResourceWatcher) : Prog REv ResourceWatcher :=
  let '(group, version) := parseAPIVersion (rt_APIVersion spec) in
  let! resource := resolvePlural (rw_discoveryClient rw) (rt_APIVersion spec) (rt_Kind spec) in
  let watchNS := if (rt_Namespace spec =? "") then m_Namespace (tg_Meta trigger) else rt_Namespace spec in
  let! gaveUp := syncAttempts group version resource watchNS maxAttempts Second in
  Ret (if gaveUp : bool then Deregister (watcherKey trigger) rw else rw).

(** ** Sequences of operations *)

Inductive RwOp :=
  | RwAdd (t : Trigger) (spec : ResourceTrigger) (obj : RObj)
  | RwUpdate (t : Trigger) (spec : ResourceTrigger) (oldObj newObj : RObj)
  | RwDelete (t : Trigger) (spec : ResourceTrigger) (obj : RObj)
  | RwRegister (t : Trigger)
  | RwDeregister (key : string)
  | RwEvict.

Definition rwStep (rw : ResourceWatcher) (op : RwOp) : Prog REv ResourceWatcher :=
  match op with
  | RwAdd t spec obj => onAdd t spec obj rw
  | RwUpdate t spec oldObj newObj => onUpdate t spec oldObj newObj rw
  | RwDelete t spec obj => onDelete t spec obj rw
  | RwRegister t => Ret (fst (Register t rw))
  | RwDeregister key => Ret (Deregister key rw)
  | RwEvict => let! t := emit RNow in Ret (evictCooldowns t rw)
  end.

End watcher.
