(* ===== verification/ResourceProps.v ===== *)
(** * The resource watcher: filtering, cooldown, attempts *)

From S2P Require Import Prelude SecretIndex GoStd Runes Api Net Effects Interp Delivery ResourceWatcher.

Local Open Scope string_scope.
Local Open Scope list_scope.
Local Open Scope go_scope.

Section props.
  Context `{GoLib, SelectorLib}.

(** ** Which events become FlowRuns *)

(** The FlowRun is the one of an event the Trigger asks for. *)
Definition created_ok (op : RwOp) (fr : FlowRun) : Prop :=
  let run t spec obj et event :=
    ∃ u name, toUnstructured obj = Some u ∧ fr = resourceFlowRun t spec name u et
      ∧ event ∈ allowedEventSet (rt_Events spec) ∧ selected spec u = true ∧ ts_FlowRef (tg_Spec t) ≠ "" in
  match op with
  | RwAdd t spec obj => run t spec obj Added "create"
  | RwUpdate t spec oldObj newObj =>
      run t spec newObj Modified "update"
      ∧ (rt_WatchFields spec ≠ [] → fieldsChanged oldObj newObj (rt_WatchFields spec) = true)
  | RwDelete t spec obj => run t spec obj Deleted "delete"
  | _ => False
  end.

Definition creates_only (P : FlowRun → Prop) (X : Type) (e : REv X) : Prop :=
  match e with RCreate fr => P fr | _ => True end.

Lemma wp_randomHex P n s (Q : string → unit → Prop) :
  (∀ x, Q x s) → wp (any_spec (creates_only P)) (resourceWatcherRandomHex n) s Q.
Proof. intros HQ. unfold resourceWatcherRandomHex. repeat first [progress wp_step | apply HQ | done]. Qed.

Lemma wp_cooldownPass P spec key rw s (Q : bool * ResourceWatcher → unit → Prop) :
  (∀ x, Q x s) → wp (any_spec (creates_only P)) (cooldownPass spec key rw) s Q.
Proof. intros HQ. unfold cooldownPass. repeat first [progress wp_step | apply HQ | done]. Qed.

Lemma handleEvent_creates P t spec obj et rw :
  (∀ u name, toUnstructured obj = Some u → selected spec u = true → ts_FlowRef (tg_Spec t) ≠ "" →
     P (resourceFlowRun t spec name u et)) →
  wp (any_spec (creates_only P)) (handleEvent t spec obj et rw) tt (λ _ _, True).
Proof.
  intros HP. unfold handleEvent. destruct (toUnstructured obj) as [u|] eqn:Hu; [|done].
  destruct (selected spec u) eqn:Hsel; [|done]. cbn [negb].
  apply wp_bind; [apply _|]. apply wp_cooldownPass. intros [pass rw']. destruct pass; [|done]. cbn [negb].
  destruct (String.eqb_spec (ts_FlowRef (tg_Spec t)) "") as [Hf|Hf]; [done|].
  split; [done|]. intros now. cbn -[resourceWatcherRandomHex].
  apply wp_bind; [apply _|]. apply wp_randomHex. intros hex. split; [|done]. by apply HP.
Qed.

(** A FlowRun is created only for an event the resource Trigger asks for:
    its type is among the configured events (creations by default), the object
    satisfies the label selector, an update changed one of the watched fields
    if any are listed, and the FlowRun is in the Trigger's namespace, of its
    Flow, and carries that object.  No other operation creates one. *)
Theorem resource_events_filtered op rw :
  wp (any_spec (creates_only (created_ok op))) (rwStep rw op) tt (λ _ _, True).
Proof.
  destruct op as [t spec obj|t spec oldObj newObj|t spec obj|t|key|]; cbn [rwStep]; try done.
  - unfold onAdd. case_bool_decide; [|done]. apply handleEvent_creates. intros u name ???. by exists u, name.
  - unfold onUpdate. case_bool_decide; [|done]. cbn [negb].
    destruct (0 <? length (rt_WatchFields spec))%nat eqn:Hw; cbn [andb].
    + destruct (fieldsChanged oldObj newObj (rt_WatchFields spec)) eqn:Hf; [|done].
      apply handleEvent_creates. intros u name ???. split; [by exists u, name|done].
    + apply handleEvent_creates. intros u name ???. split; [by exists u, name|].
      intros Hne. destruct (rt_WatchFields spec); done.
  - unfold onDelete. case_bool_decide; [|done]. apply handleEvent_creates. intros u name ???. by exists u, name.
Qed.

(** ** Cooldown *)

(** The cooldown key a FlowRun was created under. *)
Definition runKey (fr : FlowRun) : string :=
  let td := default (MkTriggerData "" "" "" "" "" "" "" "" ∅ "" 0 0 "" "" None "" false "" "") (frs_TriggerData (fr_Spec fr)) in
  let name := match frs_TriggerRef (fr_Spec fr) with Some r => tr_Name r | None => "" end in
  m_Namespace (fr_Meta fr) +:+ "/" +:+ name +:+ "/" +:+ td_ResourceNamespace td +:+ "/" +:+ td_ResourceName td
  +:+ "/" +:+ ToLower (td_EventType td).

(** A clock that does not run backwards, and the FlowRuns created under [K]. *)
Definition clock_spec (K : string) : Spec REv (Z * nat) := λ X e,
  match e in REv X return Z * nat → (X → Z * nat → Prop) → Prop with
  | RNow => λ '(c, n) Q, ∀ t, (c <= t)%Z → Q t (t, n)
  | RCreate fr => λ '(c, n) Q, ∀ r, Q r (c, if decide (runKey fr = K) then S n else n)
  | RRandBytes _ => λ s Q, ∀ r, Q r s
  | RDiscovery _ => λ s Q, ∀ r, Q r s
  | RInformer _ _ _ _ => λ s Q, ∀ r, Q r s
  | RSync => λ s Q, ∀ r, Q r s
  | RSleep _ => λ s Q, ∀ r, Q r s
  | RWaitDone => λ s Q, ∀ r, Q r s
  end.

#[local] Instance clock_spec_mono K : MonoSpec (clock_spec K).
Proof. intros X e [c n] P Q HPQ. destruct e; simpl; eauto. Qed.

(** The operations that leave the Trigger of [K] registered, with cooldown [d]. *)
Definition op_ok (K : string) (d : Z) (op : RwOp) : Prop :=
  match op with
  | RwAdd t spec _ => ∀ a b c, cooldownKey t a b c = K → rt_Cooldown spec = Some d
  | RwUpdate t spec _ _ => ∀ a b c, cooldownKey t a b c = K → rt_Cooldown spec = Some d
  | RwDelete t spec _ => ∀ a b c, cooldownKey t a b c = K → rt_Cooldown spec = Some d
  | RwRegister t => HasPrefix K (watcherKey t +:+ "/") = false
  | RwDeregister key => HasPrefix K (key +:+ "/") = false
  | RwEvict => True
  end.

Section cooldown.
  Context (K : string) (d c0 : Z) (Hd : (0 < d <= cooldownEvictionWindow)%Z).

(** [last] is the time the cooldown was last recorded under [K]. *)
Definition paced (rw : ResourceWatcher) (s : Z * nat) : Prop :=
  let '(c, n) := s in
  (c0 <= c)%Z ∧ (∀ last, rw_cooldownTracker rw !! K = Some last → (last <= c)%Z) ∧
  (n ≠ O → ∃ last, (Z.of_nat (n - 1) * d <= last - c0)%Z ∧ (last <= c)%Z ∧
     (rw_cooldownTracker rw !! K = Some last
      ∨ (rw_cooldownTracker rw !! K = None ∧ last < c - cooldownEvictionWindow)%Z)).
#[local] Arguments paced : simpl never.

Lemma paced_ext rw rw' c c' n :
  rw_cooldownTracker rw' !! K = rw_cooldownTracker rw !! K → (c <= c')%Z → paced rw (c, n) → paced rw' (c', n).
Proof.
  unfold paced. intros -> Hc (H1 & H2 & H3). split; [lia|]. split; [intros last Hl; specialize (H2 last Hl); lia|].
  intros Hn. destruct (H3 Hn) as (last & ? & ? & [?|[? ?]]); exists last; (split; [done|]); (split; [lia|]).
  - by left.
  - right. split; [done|lia].
Qed.

(** After the cooldown block has passed, one more FlowRun is affordable. *)
Definition affordable (rw : ResourceWatcher) (s : Z * nat) : Prop :=
  let '(c, n) := s in
  (c0 <= c)%Z ∧ ∃ last, (Z.of_nat n * d <= last - c0)%Z ∧ (last <= c)%Z ∧ rw_cooldownTracker rw !! K = Some last.

#[local] Arguments affordable : simpl never.

Lemma affordable_paced rw c n : affordable rw (c, n) → paced rw (c, n) ∧ paced rw (c, S n).
Proof.
  intros (H1 & last & H2 & H3 & H4). split; (split; [done|]); (split; [intros l; rewrite H4; by intros [= <-]|]);
    intros Hn; exists last; (split; [|split; [done|by left]]).
  - destruct n; [done|]. replace (S n - 1)%nat with n by lia. nia.
  - by replace (S n - 1)%nat with n by lia.
Qed.

Lemma wp_pass_own spec rw s :
  rt_Cooldown spec = Some d → paced rw s →
  wp (clock_spec K) (cooldownPass spec K rw) s
     (λ r s', if r.1 then affordable r.2 s' else paced r.2 s').
Proof.
  intros Hc Hp. destruct s as [c n]. destruct Hp as (H1 & H2 & H3). unfold cooldownPass. rewrite Hc.
  destruct (Z.ltb_spec 0 d) as [_|]; [|lia]. cbn [negb].
  destruct (rw_cooldownTracker rw !! K) as [last|] eqn:Hk.
  - cbn. intros t Ht. destruct (Z.ltb_spec (t - last) d) as [Hlt|Hge]; cbn.
    + apply (paced_ext rw rw c t n eq_refl Ht). unfold paced. rewrite Hk. eauto.
    + intros t' Ht'. split; [lia|]. exists t'. cbn. rewrite lookup_insert_eq. split; [|split; [lia|done]].
      destruct (decide (n = O)) as [->|Hn]; [lia|].
      destruct (H3 Hn) as (l & Hl1 & Hl2 & [[= <-]|[Hnone _]]); [|done].
      destruct n; [done|]. replace (S n - 1)%nat with n in Hl1 by lia. nia.
  - cbn. intros t Ht. split; [lia|]. exists t. cbn. rewrite lookup_insert_eq. split; [|split; [lia|done]].
    destruct (decide (n = O)) as [->|Hn]; [lia|].
    destruct (H3 Hn) as (l & Hl1 & Hl2 & [Hsome|[_ Hlt]]); [done|].
    destruct n; [done|]. replace (S n - 1)%nat with n in Hl1 by lia. nia.
Qed.

Lemma wp_pass_other spec key rw s :
  key ≠ K → paced rw s → wp (clock_spec K) (cooldownPass spec key rw) s (λ r s', paced r.2 s').
Proof.
  intros Hne Hp. destruct s as [c n]. unfold cooldownPass.
  destruct (rt_Cooldown spec) as [d'|]; [|done]. destruct (0 <? d')%Z; [|done]. cbn [negb].
  destruct (rw_cooldownTracker rw !! key) as [last|]; cbn.
  - intros t Ht. destruct (t - last <? d')%Z; cbn; [by eapply paced_ext|].
    intros t' Ht'. eapply paced_ext; [|exact (Z.le_trans _ _ _ Ht Ht')|done]. simpl. by rewrite lookup_insert_ne.
  - intros t Ht. eapply paced_ext; [|done|done]. simpl. by rewrite lookup_insert_ne.
Qed.

Lemma wp_hex_clock n s (Q : string → Z * nat → Prop) :
  (∀ x, Q x s) → wp (clock_spec K) (resourceWatcherRandomHex n) s Q.
Proof. intros HQ. unfold resourceWatcherRandomHex. destruct (n <=? 0)%Z; [apply HQ|]. cbn. intros [b|e]; apply HQ. Qed.

Lemma wp_handleEvent_paced t spec obj et rw s :
  (∀ a b c, cooldownKey t a b c = K → rt_Cooldown spec = Some d) →
  paced rw s → wp (clock_spec K) (handleEvent t spec obj et rw) s paced.
Proof.
  intros Hcd Hp. unfold handleEvent. destruct (toUnstructured obj) as [u|]; [|done].
  destruct (selected spec u); [|done]. cbn [negb]. apply wp_bind; [apply _|].
  set (key := cooldownKey t (GetNamespace u) (GetName u) (ToLower (event_string et))).
  assert (∀ name, runKey (resourceFlowRun t spec name u et) = key) as Hrun.
  { intros name. unfold runKey, key, cooldownKey, watcherKey. simpl. by rewrite <- !(assoc String.append). }
  assert (∀ rw' s', (key = K → affordable rw' s') → paced rw' s' →
    wp (clock_spec K) (if (ts_FlowRef (tg_Spec t) =? "") then Ret rw' else
      let! now := emit RNow in let! hex := resourceWatcherRandomHex 4 in
      let! _ := emit (RCreate (resourceFlowRun t spec
        (m_Name (tg_Meta t) +:+ "-" +:+ sanitizeName (GetName u) +:+ "-" +:+ ToLower (event_string et) +:+ "-"
         +:+ Itoa (now / Second) +:+ "-" +:+ hex) u et)) in Ret rw') s' paced) as Hcreate.
  { intros rw' [c n] Haff Hp'. destruct (ts_FlowRef (tg_Spec t) =? ""); [done|]. unfold emit. cbn [pbind wp clock_spec].
    intros now Hnow. apply wp_bind; [apply _|]. apply wp_hex_clock. intros hex. cbn [pbind wp clock_spec]. intros r.
    rewrite Hrun. case_decide as Hk; [|by eapply paced_ext].
    destruct (Haff Hk) as (H1 & l & H2 & H3 & H4).
    apply (affordable_paced rw' now n). split; [lia|]. exists l. split; [done|]. split; [lia|done]. }
  destruct (decide (key = K)) as [Hk|Hk].
  - rewrite Hk. eapply wp_mono; [apply _| |apply wp_pass_own; [by eapply Hcd|done]].
    intros [[] rw'] [c n]; cbn [fst snd negb]; [|done]. intros Haff. apply Hcreate; [done|by apply affordable_paced].
  - eapply wp_mono; [apply _| |by apply wp_pass_other].
    intros [[] rw'] [c n]; cbn [fst snd negb]; [|done]. intros Hp'. by apply Hcreate.
Qed.

Lemma deregister_tracker key rw :
  HasPrefix K (key +:+ "/") = false → rw_cooldownTracker (Deregister key rw) !! K = rw_cooldownTracker rw !! K.
Proof.
  intros Hp. unfold Deregister. simpl.
  assert (∀ m : gmap string Z, filter (λ kv, HasPrefix kv.1 (key +:+ "/") = false) m !! K = m !! K) as Hf.
  { intros m. destruct (m !! K) as [v|] eqn:Hm; [by apply map_lookup_filter_Some|].
    apply map_lookup_filter_None. by left. }
  rewrite Hf. by destruct (rw_watchers rw !! key).
Qed.

Lemma register_tracker t rw : rw_cooldownTracker (fst (Register t rw)) = rw_cooldownTracker (Deregister (watcherKey t) rw).
Proof. unfold Register. by repeat case_match. Qed.

Lemma evict_paced t rw n : paced rw (t, n) → paced (evictCooldowns t rw) (t, n).
Proof.
  intros (H1 & H2 & H3). unfold evictCooldowns.
  assert (rw_cooldownTracker (evictCooldowns t rw) !! K = rw_cooldownTracker rw !! K
          ∨ (rw_cooldownTracker (evictCooldowns t rw) !! K = None
             ∧ ∀ last, rw_cooldownTracker rw !! K = Some last → (last < t - cooldownEvictionWindow)%Z)) as [He|[He Hold]].
  { unfold evictCooldowns. simpl. destruct (rw_cooldownTracker rw !! K) as [last|] eqn:Hk.
    - destruct (Z.ltb_spec last (t - cooldownEvictionWindow)).
      + right. split; [|by intros ? [= <-]]. apply map_lookup_filter_None. right. intros x Hx. simplify_eq/=. by rewrite (proj2 (Z.ltb_lt _ _)).
      + left. apply map_lookup_filter_Some. split; [done|]. simpl. by apply Z.ltb_ge.
    - left. apply map_lookup_filter_None. by left. }
  - apply (paced_ext rw _ t t); [done|lia|done].
  - unfold paced. fold (evictCooldowns t rw). rewrite He. split; [done|]. split; [done|]. intros Hn.
    destruct (H3 Hn) as (last & Hl1 & Hl2 & [Hs|[Hs Hlt]]); exists last; (split; [done|]); (split; [done|]); right; auto.
Qed.

Lemma rwStep_paced op rw s : op_ok K d op → paced rw s → wp (clock_spec K) (rwStep rw op) s paced.
Proof.
  intros Hop Hp. destruct op as [t spec obj|t spec oldObj newObj|t spec obj|t|key|]; cbn [rwStep] in *.
  - unfold onAdd. case_bool_decide; [by apply wp_handleEvent_paced|done].
  - unfold onUpdate. case_bool_decide; [|done]. cbn [negb]. destruct (_ && _); [done|by apply wp_handleEvent_paced].
  - unfold onDelete. case_bool_decide; [by apply wp_handleEvent_paced|done].
  - destruct s as [c n]. cbn [wp]. eapply paced_ext; [|done|done]. rewrite register_tracker. by apply deregister_tracker.
  - destruct s as [c n]. cbn [wp]. eapply paced_ext; [|done|done]. by apply deregister_tracker.
  - destruct s as [c n]. cbn. intros t Ht. apply evict_paced. by eapply paced_ext.
Qed.

End cooldown.

(** C31: The cooldown bounds the rate of FlowRuns: while a Trigger stays
    registered, over any sequence of events, evictions and operations on other
    Triggers, [n] FlowRuns for one resource and event type take at least
    [n - 1] cooldown periods (for a cooldown of at most the eviction window of
    one hour, on a clock that does not run backwards). *)
Theorem resource_cooldown_rate K d c0 ops rw :
  (0 < d <= cooldownEvictionWindow)%Z →
  Forall (op_ok K d) ops →
  (∀ last, rw_cooldownTracker rw !! K = Some last → (last <= c0)%Z) →
  wp (clock_spec K) (pfold rwStep ops rw) (c0, O)
     (λ _ '(c, n), (Z.of_nat (n - 1) * d <= c - c0)%Z).
Proof.
  intros Hd Hops Hlast. eapply wp_mono; [apply _| |apply (wp_fold _ _ _ (paced K d c0))].
  - intros rw' [c n] (H1 & H2 & H3). destruct (decide (n = O)) as [->|Hn]; [simpl; lia|].
    destruct (H3 Hn) as (last & ? & ? & _). lia.
  - intros rw' s op Hin Hp. apply rwStep_paced; [done| |done]. rewrite Forall_forall in Hops. auto.
  - split; [lia|]. split; [done|]. done.
Qed.

(** A registration, which every reconcile of the Trigger performs, forgets the
    cooldowns of the Trigger. *)
Lemma register_clears_cooldown t rw a b c :
  rw_cooldownTracker (fst (Register t rw)) !! cooldownKey t a b c = None.
Proof.
  rewrite register_tracker. unfold Deregister. simpl. apply map_lookup_filter_None. right. intros x _. simpl.
  enough (HasPrefix (cooldownKey t a b c) (watcherKey t +:+ "/") = true) as -> by done.
  apply HasPrefix_spec. eexists. unfold cooldownKey. by rewrite <- (assoc String.append).
Qed.

(** ** Attempts *)

(** The informers made and the time slept by a watcher goroutine. *)
Definition attempt_spec : Spec REv (nat * Z) := λ X e s Q,
  match e with
  | RInformer _ _ _ _ => ∀ x, Q x (S (fst s), snd s)
  | RSleep d => ∀ x, Q x (fst s, snd s + d)%Z
  | RCreate _ => False
  | _ => ∀ x, Q x s
  end.

#[local] Instance attempt_spec_mono : MonoSpec attempt_spec.
Proof. intros X e [i z] P Q HPQ. destruct e; simpl; eauto. Qed.

Lemma wp_syncAttempts g v r ns n : ∀ b i z,
  (0 <= b)%Z →
  wp attempt_spec (syncAttempts g v r ns n b) (i, z)
     (λ gaveUp s, (i <= fst s <= i + n)%nat ∧ (z <= snd s <= z + b * (2 ^ Z.of_nat (n - 1) - 1))%Z
                  ∧ (gaveUp = true → fst s = i + n)%nat).
Proof.
  induction n as [|n IH]; intros b i z Hb; [cbn; lia|].
  assert (1 <= 2 ^ Z.of_nat n)%Z as Hpow by (apply (Z.pow_le_mono_r 2 0); lia).
  replace (S n - 1)%nat with n by lia.
  assert (∀ gaveUp : bool, (gaveUp = true → n = O) →
    (i ≤ S i ≤ i + S n)%nat ∧ (z <= z <= z + b * (2 ^ Z.of_nat n - 1))%Z ∧ (gaveUp = true → S i = i + S n)%nat) as Hstop.
  { intros gaveUp Hg. split; [lia|]. split; [nia|]. intros Ht. rewrite (Hg Ht). lia. }
  cbn [syncAttempts]. unfold emit. cbn [pbind wp attempt_spec fst snd].
  intros [e|]; cbn [pbind wp attempt_spec fst snd]; [by apply Hstop|].
  intros [[] synced]; cbn [wp]; [by apply Hstop|].
  destruct synced; cbn [pbind wp attempt_spec]; [intros _; by apply Hstop|].
  destruct n as [|m]; [by apply Hstop|]. cbn [pbind wp attempt_spec fst snd]. intros [].
  { cbn [wp fst snd]. split; [lia|]. split; [|done]. rewrite Nat2Z.inj_succ, Z.pow_succ_r in * by lia.
    assert (1 <= 2 ^ Z.of_nat m)%Z by (apply (Z.pow_le_mono_r 2 0); lia). nia. }
  eapply wp_mono; [apply _| |apply (IH (b * 2) (S i) (z + b))%Z; lia].
  intros gaveUp s (H1 & H2 & H3). replace (S m - 1)%nat with m in H2 by lia.
  split; [lia|]. split; [|intros Ht; rewrite (H3 Ht); lia].
  rewrite Nat2Z.inj_succ, Z.pow_succ_r by lia. nia.
Qed.

(** A watcher goroutine makes at most five attempts and sleeps at most 15
    seconds in all, whatever discovery and the informers answer; it creates no
    FlowRun itself; and it removes itself from the table exactly when all five
    attempts have failed to sync. *)
Theorem runWatcher_bounded trigger spec rw :
  wp attempt_spec (runWatcher trigger spec rw) (O, 0%Z)
     (λ rw' s, (fst s <= 5)%nat ∧ (0 <= snd s <= 15 * Second)%Z
               ∧ (rw' = rw ∨ (rw' = Deregister (watcherKey trigger) rw ∧ fst s = 5%nat))).
Proof.
  unfold runWatcher. destruct (parseAPIVersion _) as [g v].
  assert (∀ res, wp attempt_spec
     (let! gaveUp := syncAttempts g v res (if (rt_Namespace spec =? "") then m_Namespace (tg_Meta trigger) else rt_Namespace spec)
                       maxAttempts Second in
      Ret (if gaveUp : bool then Deregister (watcherKey trigger) rw else rw)) (O, 0%Z)
     (λ rw' s, (fst s <= 5)%nat ∧ (0 <= snd s <= 15 * Second)%Z
               ∧ (rw' = rw ∨ (rw' = Deregister (watcherKey trigger) rw ∧ fst s = 5%nat)))) as Hgo.
  { intros res. apply wp_bind; [apply _|]. eapply wp_mono; [apply _| |apply wp_syncAttempts; unfold Second; lia].
    intros gaveUp [i z] (H1 & H2 & H3). unfold maxAttempts in *. cbn in *. unfold Second in *.
    split; [lia|]. split; [lia|]. destruct gaveUp; [right; split; [done|]; apply H3; done|by left]. }
  apply wp_bind; [apply _|]. unfold resolvePlural. destruct (negb _); [apply Hgo|]. unfold emit. cbn [pbind wp attempt_spec].
  intros [l|e]; [destruct (find_by _ l) as [[??]|]|]; apply Hgo.
Qed.

(** ** The table of watchers *)

(** Live watcher goroutines are those of the table, one per Trigger. *)
Record table_ok (rw : ResourceWatcher) : Prop := {
  tb_live c : c ∈ rw_live rw ↔ ∃ k, rw_watchers rw !! k = Some c;
  tb_inj k1 k2 c : rw_watchers rw !! k1 = Some c → rw_watchers rw !! k2 = Some c → k1 = k2;
  tb_next c : c ∈ rw_live rw → (c < rw_next rw)%nat
}.

Lemma Deregister_table key rw : table_ok rw → table_ok (Deregister key rw) ∧ rw_watchers (Deregister key rw) !! key = None.
Proof.
  intros [Hl Hi Hn]. unfold Deregister. destruct (rw_watchers rw !! key) as [ctx|] eqn:Hk; [|split; [by split|done]].
  split; [|apply lookup_delete_eq]. split; simpl.
  - intros c. rewrite elem_of_difference, Hl, elem_of_singleton. split.
    + intros [[k Hc] Hne]. exists k. apply lookup_delete_Some. split; [|done]. intros <-. congruence.
    + intros [k [Hne Hc]%lookup_delete_Some]. split; [by eauto|]. intros ->. eauto.
  - intros k1 k2 c [_ H1]%lookup_delete_Some [_ H2]%lookup_delete_Some. eauto.
  - intros c Hc. apply Hn. set_solver.
Qed.

Lemma Register_table t rw : table_ok rw → table_ok (fst (Register t rw)).
Proof.
  intros Hok. unfold Register. destruct (Deregister_table (watcherKey t) rw Hok) as [[Hl Hi Hn] Hnone].
  set (rw1 := Deregister (watcherKey t) rw) in *. clearbody rw1.
  destruct (ts_Resource _); [|by split]. destruct (negb (rw_dynamicClient rw1)); [by split|].
  destruct (negb (rw_mgrCtx rw1)); [by split|]. cbn [fst].
  assert (∀ k, rw_watchers rw1 !! k ≠ Some (rw_next rw1)) as Hnew.
  { intros k Hk. assert (rw_next rw1 < rw_next rw1)%nat; [|lia]. apply Hn, Hl. eauto. }
  split; simpl.
  - intros c. rewrite elem_of_union, elem_of_singleton, Hl. split.
    + intros [->|[k Hk]]; [exists (watcherKey t); apply lookup_insert_eq|].
      exists k. rewrite lookup_insert_ne; [done|]. intros <-. congruence.
    + intros [k [[_ <-]|[_ Hk]]%lookup_insert_Some]; [by left|right; eauto].
  - intros k1 k2 c [[<- <-]|[_ H1]]%lookup_insert_Some [[<- Hc]|[_ H2]]%lookup_insert_Some; simplify_eq;
      [done|by edestruct Hnew|by edestruct Hnew|eauto].
  - intros c [->%elem_of_singleton|Hc]%elem_of_union; [lia|]. specialize (Hn c Hc). lia.
Qed.

End props.
