(* ===== verification/AwsPlugin.v ===== *)
(** * The AWS messaging plugin: configuration, health, publisher, TLS

    [internal/plugin/awsmessaging]: [config.go], [health.go], [publisher.go]
    and [mtls.go] (the subscriber is in file AwsSubscriber).  The process
    environment is the argument [getenv]; SNS, the files of the certificates
    and the order in which Go visits a map are requests; parsers of URLs, ARNs
    and JSON are the class [AwsLib]. *)

From stdpp Require Import sorting.
From S2P Require Import Prelude SecretIndex GoStd Runes Api Effects Interp Kube.

Local Open Scope string_scope.
Local Open Scope list_scope.
Local Open Scope go_scope.

(** ** Library operations *)

(** [url.URL] and [arn.ARN], the fields that are read. *)
Record URL := MkURL { u_Scheme : string; u_Host : string; u_Path : string }.
Record ARN := MkARN { arn_Service : string; arn_Region : string; arn_AccountID : string; arn_Resource : string }.

Record PublishRequest := MkPublishRequest {
  pq_Integration : string;
  pq_Namespace : string;
  pq_Destination : string;
  pq_Headers : gmap string string;
  pq_Body : string;
  pq_IdempotencyKey : string
}.

(** What decoding a size-limited body yields. *)
Inductive Decoded := DecRequest (r : PublishRequest) | DecTooLarge | DecInvalid (msg : string).

Class AwsLib := {
  url_Parse : string → result URL;
  arn_Parse : string → result ARN;
  (** [json.NewDecoder(http.MaxBytesReader(w, body, limit)).Decode] *)
  DecodePublish : Z → string → Decoded
}.

(** ** Configuration *)

Definition DefaultMTLSCertFile : string := "/etc/kubezap/mtls/tls.crt".
Definition DefaultMTLSKeyFile : string := "/etc/kubezap/mtls/tls.key".
Definition DefaultMTLSCAFile : string := "/etc/kubezap/mtls/ca.crt".
Definition DefaultPublisherPort : Z := 8090.
Definition TriggerConfigQueueURL : string := "queueUrl".

Record Config := MkConfig {
  cf_Namespace : string;
  cf_IntegrationName : string;
  cf_LogLevel : string;
  cf_PublisherPort : Z;
  cf_HealthPort : Z;
  cf_MTLSEnabled : bool;
  cf_MTLSCertFile : string;
  cf_MTLSKeyFile : string;
  cf_MTLSCAFile : string;
  cf_Region : string;
  cf_EndpointURL : string;
  cf_AccessKeyID : string;
  cf_SecretAccessKey : string;
  cf_SessionToken : string
}.

Definition envOr (getenv : string → string) (key def : string) : string :=
  let v := TrimSpace (getenv key) in if negb (v =? "") then v else def.

Definition parsePort (v : string) : result Z :=
  match ParseInt v with
  | Some p => if (p <? 1)%Z || (65535 <? p)%Z then Err (errorf ("invalid port " +:+ Quote v)) else Ok p
  | None => Err (errorf ("invalid port " +:+ Quote v))
  end.

Section config.
  Context `{AwsLib}.

Definition httpURL (u : URL) : bool := ((u_Scheme u =? "http") || (u_Scheme u =? "https")) && negb (u_Host u =? "").

Definition ParseQueueURL (raw : string) : option gerr :=
  let what := "plugin.config[" +:+ Quote TriggerConfigQueueURL +:+ "] " in
  if (TrimSpace raw =? "") then Some (errorf (what +:+ "is missing or empty"))
  else match url_Parse raw with
       | Err e => Some (wrapf (what +:+ "is not a valid URL: ") e)
       | Ok u =>
           if negb (httpURL u) then Some (errorf (what +:+ Quote raw +:+ " must be an http(s) URL"))
           else if (Trim (u_Path u) "/"%char =? "") then Some (errorf (what +:+ Quote raw +:+ " has no queue path"))
           else None
       end.

(** The publisher port, with the problem of its variable. *)
Definition publisherPort (getenv : string → string) : Z * list gerr :=
  let v := TrimSpace (getenv "KUBEZAP_PUBLISHER_PORT") in
  if (v =? "") then (DefaultPublisherPort, [])
  else match parsePort v with
       | Err e => (DefaultPublisherPort, [wrapf "KUBEZAP_PUBLISHER_PORT: " e])
       | Ok p => (p, [])
       end.

Definition mtlsOn (getenv : string → string) : bool := EqualFold (TrimSpace (getenv "KUBEZAP_MTLS_ENABLED")) "true".

Definition healthPort (getenv : string → string) (port : Z) : Z * list gerr :=
  if negb (mtlsOn getenv) then (port, [])
  else match parsePort (TrimSpace (getenv "KUBEZAP_MTLS_HEALTH_PORT")) with
       | Err e => (port, [wrapf "KUBEZAP_MTLS_HEALTH_PORT: " e])
       | Ok p => if (p =? port)%Z
                 then (port, [errorf ("KUBEZAP_MTLS_HEALTH_PORT must differ from KUBEZAP_PUBLISHER_PORT (" +:+ Itoa p
                                      +:+ "): the health port is plain HTTP")])
                 else (p, [])
       end.

(** The checks on values that must be present. *)
Definition requiredErrors (c : Config) : list gerr :=
  (if (cf_Namespace c =? "") then [errorf "KUBEZAP_NAMESPACE is required"] else [])
  ++ (if (cf_IntegrationName c =? "") then [errorf "KUBEZAP_INTEGRATION_NAME is required"] else [])
  ++ (if (cf_Region c =? "") then [errorf "AWS_REGION is required (set via spec.plugin.env)"] else [])
  ++ (if (cf_AccessKeyID c =? "") || (cf_SecretAccessKey c =? "")
      then [errorf "AWS_ACCESS_KEY_ID and AWS_SECRET_ACCESS_KEY are required (inject via spec.plugin.secretRefs + envVarMappings)"]
      else [])
  ++ (if (cf_EndpointURL c =? "") then []
      else match url_Parse (cf_EndpointURL c) with
           | Ok u => if httpURL u then [] else [errorf ("AWS_ENDPOINT_URL " +:+ Quote (cf_EndpointURL c) +:+ " is not a valid http(s) URL")]
           | Err _ => [errorf ("AWS_ENDPOINT_URL " +:+ Quote (cf_EndpointURL c) +:+ " is not a valid http(s) URL")]
           end).

(** [errors.Join] of a non-empty list. *)
Definition joinErrors (l : list gerr) : gerr := errorf (Join (map emsg l) (String (ascii_of_nat 10) "")).

Definition LoadConfig (getenv : string → string) : result Config :=
  let trimmed (k : string) := TrimSpace (getenv k) in
  let logLevel := if (trimmed "KUBEZAP_LOG_LEVEL" =? "") then "info" else trimmed "KUBEZAP_LOG_LEVEL" in
  let '(port, portErrs) := publisherPort getenv in
  let mtls := mtlsOn getenv in
  let '(hport, healthErrs) := healthPort getenv port in
  let file (k def : string) := if mtls then envOr getenv k def else "" in
  let c := MkConfig (trimmed "KUBEZAP_NAMESPACE") (trimmed "KUBEZAP_INTEGRATION_NAME") logLevel port hport mtls
             (file "KUBEZAP_MTLS_CERT_FILE" DefaultMTLSCertFile)
             (file "KUBEZAP_MTLS_KEY_FILE" DefaultMTLSKeyFile)
             (file "KUBEZAP_MTLS_CA_FILE" DefaultMTLSCAFile)
             (trimmed "AWS_REGION") (trimmed "AWS_ENDPOINT_URL")
             (getenv "AWS_ACCESS_KEY_ID") (getenv "AWS_SECRET_ACCESS_KEY") (getenv "AWS_SESSION_TOKEN") in
  match requiredErrors c ++ portErrs ++ healthErrs with
  | [] => Ok c
  | errs => Err (joinErrors errs)
  end.

End config.

(** ** Health *)

Record sessionState := MkSession { ses_ok : bool; ses_msg : string }.

(** [h_publisherCheck] is the registered probe: [None] when none is, else what
    it answers. *)
Record Health := MkHealth {
  h_started : bool;
  h_sessions : gmap NamespacedName sessionState;
  h_publisherCheck : option (option gerr)
}.

Definition NewHealth : Health := MkHealth false ∅ None.
Definition SetStarted (h : Health) : Health := MkHealth true (h_sessions h) (h_publisherCheck h).
Definition SetSession (key : NamespacedName) (ok : bool) (msg : string) (h : Health) : Health :=
  MkHealth (h_started h) (<[key := MkSession ok msg]> (h_sessions h)) (h_publisherCheck h).
Definition SetPublisherCheck (f : option gerr) (h : Health) : Health :=
  MkHealth (h_started h) (h_sessions h) (Some f).
Definition Forget (key : NamespacedName) (h : Health) : Health :=
  MkHealth (h_started h) (delete key (h_sessions h)) (h_publisherCheck h).

(** [sort.Strings] *)
Definition sort_Strings (l : list string) : list string := merge_sort (λ a b, Is_true (String.leb a b)) l.

Definition badSessions (h : Health) : list string :=
  omap (λ '(k, s), if ses_ok s then None else Some (k.2 +:+ ": " +:+ ses_msg s)) (map_to_list (h_sessions h)).

Definition Health_Check (h : Health) : option gerr :=
  if negb (h_started h) then Some (errorf "initial Trigger sync not complete")
  else match badSessions h with
       | [] => match h_publisherCheck h with
               | Some (Some e) => Some (wrapf "SNS publisher unavailable: " e)
               | _ => None
               end
       | bad => Some (errorf ("no SQS session for: " +:+ Join (sort_Strings bad) "; "))
       end.

(** GET /healthz: status and body. *)
Definition Health_ServeHTTP (h : Health) : Z * string :=
  match Health_Check h with
  | Some e => (503%Z, emsg e +:+ String (ascii_of_nat 10) "")
  | None => (200%Z, "ok")
  end.

(** ** Publisher *)

Definition MaxRequestBodyBytes : Z := 1048576.
Definition publishTimeout : Z := 25 * Second.
Definition maxMessageAttributes : nat := 10.
Definition maxFIFOIDLen : nat := 128.
Definition traceparentKey : string := "traceparent".

Fixpoint all_chars (p : ascii → bool) (s : string) : bool :=
  match s with EmptyString => true | String c s => p c && all_chars p s end.

(** [attrNameRE]: 1 to 256 letters, digits, underscores, dots and hyphens. *)
Definition attr_char (c : ascii) : bool :=
  let b := byte c in
  in_range 65 90 b || in_range 97 122 b || in_range 48 57 b || (b =? 95)%Z || (b =? 46)%Z || (b =? 45)%Z.
Definition attrNameRE (s : string) : bool :=
  (1 <=? slen s)%nat && (slen s <=? 256)%nat && all_chars attr_char s.

(** [fifoIDRE]: letters, digits and all punctuation, that is the printable
    ASCII characters but the space. *)
Definition fifo_char (c : ascii) : bool := in_range 33 126 (byte c).
Definition fifoIDRE (s : string) : bool := (1 <=? slen s)%nat && all_chars fifo_char s.

(** [traceparentRE]: version 00, 32, 16 and 2 lower-case hexadecimal digits. *)
Definition hex_char (c : ascii) : bool := in_range 48 57 (byte c) || in_range 97 102 (byte c).
Definition hexes (n : nat) (s : string) : bool := (slen s =? n)%nat && all_chars hex_char s.
Definition traceparentRE (s : string) : bool :=
  match split_char "-"%char s with
  | [v; trace; span; flags] => (v =? "00") && hexes 32 trace && hexes 16 span && hexes 2 flags
  | _ => false
  end.

(** [sns.PublishInput]; attributes are of type String, the optional
    identifiers are set on FIFO topics only. *)
Record PublishInput := MkPublishInput {
  pu_TopicArn : string;
  pu_Message : string;
  pu_Attributes : gmap string string;
  pu_GroupId : option string;
  pu_DeduplicationId : option string
}.

(** An error of the SDK, as [classifyError] looks at it. *)
Record SnsErr := MkSnsErr {
  sn_API : option (string * string * bool);
  sn_Deadline : bool;
  sn_Canceled : bool;
  sn_Text : string
}.

Inductive PubEv : Type → Type :=
  | PubMapOrder (m : gmap string string) : PubEv (list (string * string))
  (** [sns.Publish]: the message id, or an error. *)
  | PubPublish (i : PublishInput) : PubEv (string + SnsErr).

Record Publisher := MkPublisher { pb_hasSNS : bool; pb_namespace : string; pb_integrationName : string }.

(** The JSON answers. *)
Inductive PubBody := PubSuccess (messageId : string) | PubFailure (msg : string).
Record PubResponse := MkPubResponse { pr_Status : Z; pr_Allow : bool; pr_Body : PubBody }.

Definition NewPublisher (hasSNS : bool) (ns integrationName : string) : Publisher :=
  MkPublisher hasSNS ns integrationName.

Definition Ready (p : Publisher) : option gerr :=
  if pb_hasSNS p then None else Some (errorf "SNS client not initialised").

Definition defaultGroupID (p : Publisher) : string :=
  stake maxFIFOIDLen ("kubezap-" +:+ pb_namespace p +:+ "-" +:+ pb_integrationName p).

Definition inList (s : string) (l : list string) : bool := existsb (String.eqb s) l.

Definition classifyError (e : SnsErr) : Z * string :=
  match sn_API e with
  | Some (code, message, clientFault) =>
      let msg := "SNS error " +:+ code +:+ ": " +:+ message in
      if inList code ["AuthorizationError"; "AccessDenied"; "AccessDeniedException"; "InvalidClientTokenId";
           "UnrecognizedClientException"; "SignatureDoesNotMatch"; "ExpiredToken"; "ExpiredTokenException";
           "InvalidSecurity"; "KMSAccessDenied"; "OptInRequired"; "KMSOptInRequired"] then (403%Z, msg)
      else if inList code ["NotFound"; "NotFoundException"; "NoSuchEntity"; "KMSNotFound"] then (404%Z, msg)
      else if inList code ["InvalidParameter"; "InvalidParameterValue"; "ValidationError"; "ValidationException";
           "EndpointDisabled"; "PlatformApplicationDisabled"; "KMSDisabled"; "KMSInvalidState";
           "InvalidState"; "MissingParameter"] then (400%Z, msg)
      else if inList code ["Throttled"; "ThrottledException"; "Throttling"; "ThrottlingException"; "RequestLimitExceeded";
           "KMSThrottling"; "SlowDown"; "TooManyRequestsException"] then (503%Z, msg)
      else if inList code ["InternalError"; "InternalFailure"; "ServiceUnavailable"; "ServiceUnavailableException";
           "RequestTimeout"; "RequestTimeoutException"] then (502%Z, msg)
      else if clientFault : bool then (400%Z, msg) else (502%Z, msg)
  | None =>
      if sn_Deadline e then (504%Z, "timed out publishing to SNS")
      else if sn_Canceled e then (503%Z, "publish cancelled")
      else (502%Z, "failed to reach SNS: " +:+ sn_Text e)
  end.

(** A header that SNS would not take as an attribute. *)
Definition badAttrName (k : string) : bool :=
  negb (attrNameRE k) || HasPrefix k "." || HasSuffix k "." || Contains k ".."
  || HasPrefix (ToLower k) "aws." || HasPrefix (ToLower k) "amazon.".

(** The loop over the headers, in the order Go visits them. *)
Fixpoint headerAttrs (hdrs : list (string * string)) (acc : gmap string string) : result (gmap string string) :=
  match hdrs with
  | [] => Ok acc
  | (k, v) :: hdrs =>
      if badAttrName k then Err (errorf ("header " +:+ Quote k +:+ " is not a valid SNS message attribute name"))
      else if (v =? "") then Err (errorf ("header " +:+ Quote k +:+ " has an empty value (SNS requires non-empty String attributes)"))
      else headerAttrs hdrs (<[k := v]> acc)
  end.

Section publisher.
  Context `{AwsLib}.

Definition ValidateTopicARN (dest : string) : option gerr :=
  if (TrimSpace dest =? "") then
    Some (errorf "destination is required and must be the full SNS topic ARN (arn:aws:sns:<region>:<account-id>:<topic-name>)")
  else match arn_Parse dest with
       | Err _ => Some (errorf ("destination " +:+ Quote dest +:+ " is not a full SNS topic ARN (expected arn:aws:sns:<region>:<account-id>:<topic-name>); topic names are not resolved"))
       | Ok a =>
           if negb (arn_Service a =? "sns") || (arn_Region a =? "") || (arn_AccountID a =? "")
              || (arn_Resource a =? "") || Contains (arn_Resource a) ":"
           then Some (errorf ("destination " +:+ Quote dest +:+ " is not an SNS topic ARN (expected arn:aws:sns:<region>:<account-id>:<topic-name>)"))
           else None
       end.

(** The identifiers of a FIFO topic. *)
Definition fifoIDs (p : Publisher) (req : PublishRequest) : result (option string * option string) :=
  if HasSuffix (pq_Destination req) ".fifo" then
    let key := pq_IdempotencyKey req in
    if (key =? "") then Ok (Some (defaultGroupID p), None)
    else if (maxFIFOIDLen <? slen key)%nat || negb (fifoIDRE key)
    then Err (errorf ("idempotencyKey must be 1-128 chars of alphanumerics and punctuation to be used as an SNS FIFO MessageDeduplicationId"))
    else Ok (Some (defaultGroupID p), Some key)
  else Ok (None, None).

(** Every refusal carries status 400. *)
Definition buildInput (p : Publisher) (req : PublishRequest) (traceparent : string) : Prog PubEv (result PublishInput) :=
  match ValidateTopicARN (pq_Destination req) with
  | Some e => Ret (Err e)
  | None =>
      if (pq_Body req =? "") then Ret (Err (errorf "body is required (SNS rejects empty messages)"))
      else
        let! hdrs := emit (PubMapOrder (pq_Headers req)) in
        match headerAttrs hdrs ∅ with
        | Err e => Ret (Err e)
        | Ok attrs =>
            let attrs := if (traceparent =? "") then attrs else <[traceparentKey := traceparent]> attrs in
            if (maxMessageAttributes <? size attrs)%nat then
              Ret (Err (errorf (Itoa (Z.of_nat (size attrs)) +:+ " message attributes (headers"
                +:+ (if (traceparent =? "") then "" else " + traceparent") +:+ ") exceed the SNS limit of 10")))
            else match fifoIDs p req with
                 | Err e => Ret (Err e)
                 | Ok (group, dedup) => Ret (Ok (MkPublishInput (pq_Destination req) (pq_Body req) attrs group dedup))
                 end
        end
  end.

(** A malformed traceparent header is ignored. *)
Definition acceptTraceparent (tp : string) : string :=
  if negb (tp =? "") && negb (traceparentRE tp) then "" else tp.

(** POST /publish with the given method, traceparent header and body. *)
Definition Publisher_ServeHTTP (p : Publisher) (method traceparent body : string) : Prog PubEv PubResponse :=
  if negb (method =? "POST") then Ret (MkPubResponse 405 true (PubFailure "method not allowed; use POST"))
  else
    let tp := acceptTraceparent traceparent in
    match DecodePublish MaxRequestBodyBytes body with
    | DecTooLarge => Ret (MkPubResponse 413 false (PubFailure ("request body exceeds " +:+ Itoa MaxRequestBodyBytes +:+ " bytes")))
    | DecInvalid msg => Ret (MkPubResponse 400 false (PubFailure ("invalid JSON request body: " +:+ msg)))
    | DecRequest req =>
        let! i := buildInput p req tp in
        match i with
        | Err e => Ret (MkPubResponse 400 false (PubFailure (emsg e)))
        | Ok i =>
            let! out := emit (PubPublish i) in
            match out with
            | inl id => Ret (MkPubResponse 200 false (PubSuccess id))
            | inr e => let '(status, msg) := classifyError e in Ret (MkPubResponse status false (PubFailure msg))
            end
        end
    end.

End publisher.

(** ** Hot reload of the certificates *)

Inductive FileEv : Type → Type :=
  (** The modification time of a file. *)
  | FStat (f : string) : FileEv (result Z)
  (** [tls.LoadX509KeyPair]: the certificate chain. *)
  | FLoadKeyPair (certFile keyFile : string) : FileEv (result string)
  | FReadFile (f : string) : FileEv (result string).

(** The certificate and the pool of client CAs (its PEM) currently served. *)
Record tlsReloader := MkReloader {
  tr_certFile : string;
  tr_keyFile : string;
  tr_caFile : string;
  tr_mtimes : Z * Z * Z;
  tr_cert : option string;
  tr_clients : option string
}.

Definition set_material (mt : Z * Z * Z) (cert ca : string) (r : tlsReloader) : tlsReloader :=
  MkReloader (tr_certFile r) (tr_keyFile r) (tr_caFile r) mt (Some cert) (Some ca).

Definition reloader_stat (r : tlsReloader) : Prog FileEv (result (Z * Z * Z)) :=
  let! a := emit (FStat (tr_certFile r)) in
  match a with
  | Err e => Ret (Err e)
  | Ok a =>
      let! b := emit (FStat (tr_keyFile r)) in
      match b with
      | Err e => Ret (Err e)
      | Ok b => let! c := emit (FStat (tr_caFile r)) in
                Ret (match c with Err e => Err e | Ok c => Ok (a, b, c) end)
      end
  end.

(** [tls.Config], what the plugin sets of it. *)
Record ServerTLS := MkServerTLS {
  tc_MinTLS12 : bool; tc_Certificate : option string; tc_ClientCAs : option string; tc_RequireClientCert : bool }.

Section reload.
  Context `{HttpLib}.

Definition reloadLocked (r : tlsReloader) : Prog FileEv (option gerr * tlsReloader) :=
  let! mt := reloader_stat r in
  match mt with
  | Err e => Ret (Some (wrapf "mTLS files: " e), r)
  | Ok mt =>
      let! cert := emit (FLoadKeyPair (tr_certFile r) (tr_keyFile r)) in
      match cert with
      | Err e => Ret (Some (wrapf "loading server cert/key: " e), r)
      | Ok cert =>
          let! ca := emit (FReadFile (tr_caFile r)) in
          match ca with
          | Err e => Ret (Some (wrapf "reading CA file: " e), r)
          | Ok caPEM =>
              if negb (AppendCertsFromPEM caPEM)
              then Ret (Some (errorf "CA file contains no valid PEM certificates"), r)
              else Ret (None, set_material mt cert caPEM r)
          end
      end
  end.

Definition newTLSReloader (certFile keyFile caFile : string) : Prog FileEv (result tlsReloader) :=
  let! x := reloadLocked (MkReloader certFile keyFile caFile (0, 0, 0)%Z None None) in
  Ret (match x with (Some e, _) => Err e | (None, r) => Ok r end).

(** The state after, which holds the material served. *)
Definition current (r : tlsReloader) : Prog FileEv tlsReloader :=
  let! mt := reloader_stat r in
  match mt with
  | Ok mt => if bool_decide (mt = tr_mtimes r) then Ret r
             else let! x := reloadLocked r in Ret x.2
  | Err _ => Ret r
  end.

(** [build], also the [GetConfigForClient] of every handshake. *)
Definition buildServerTLS (r : tlsReloader) : Prog FileEv (ServerTLS * tlsReloader) :=
  let! r := current r in
  Ret (MkServerTLS true (tr_cert r) (tr_clients r) true, r).

Definition ServerTLSConfig (certFile keyFile caFile : string) : Prog FileEv (result (ServerTLS * tlsReloader)) :=
  let! r := newTLSReloader certFile keyFile caFile in
  match r with
  | Err e => Ret (Err e)
  | Ok r => let! x := buildServerTLS r in Ret (Ok x)
  end.

(** *** Listeners *)

Inductive Route := RoutePublish | RouteHealthz.

Record HTTPServer := MkHTTPServer { hs_Port : Z; hs_Routes : list Route; hs_TLS : option ServerTLS }.

Record Servers := MkServers { sr_Publisher : HTTPServer; sr_Health : option HTTPServer }.

Definition NewServers (cfg : Config) : Prog FileEv (result Servers) :=
  if negb (cf_MTLSEnabled cfg)
  then Ret (Ok (MkServers (MkHTTPServer (cf_PublisherPort cfg) [RoutePublish; RouteHealthz] None) None))
  else
    let! t := ServerTLSConfig (cf_MTLSCertFile cfg) (cf_MTLSKeyFile cfg) (cf_MTLSCAFile cfg) in
    Ret (match t with
         | Err e => Err e
         | Ok (tls, _) => Ok (MkServers (MkHTTPServer (cf_PublisherPort cfg) [RoutePublish] (Some tls))
                                (Some (MkHTTPServer (cf_HealthPort cfg) [RouteHealthz] None)))
         end).

End reload.
