(* ===== verification/AwsSubscriber.v ===== *)
(** * The AWS messaging plugin: the SQS subscriber

    [internal/plugin/awsmessaging/subscriber.go].  A selected Trigger gets a
    goroutine that polls its queue; the goroutines run beside the informer
    callbacks and share the health state with them.  [poll] is a program over
    its requests, of at most [fuel] rounds; [sys_step] interleaves the
    goroutines, one request at a time, with the sections of the callbacks: the
    changes of the subscription table, which its mutex makes one step, and the
    updates of the health state, which has a mutex of its own.  The callbacks
    of the one informer follow each other. *)

From S2P Require Import Prelude SecretIndex GoStd Runes Api Net Effects Interp Kube Ssrf Executor Webhook WebhookWatcher Delivery BrokerWatcher AwsPlugin.

Local Open Scope string_scope.
Local Open Scope list_scope.
Local Open Scope go_scope.

Definition TriggerTypePlugin : string := "plugin".
Definition traceparentAnnotation : string := "kubezap.io/traceparent".

(** ** Options *)

Record Options := MkOptions {
  op_MaxMessages : Z; op_WaitTimeSeconds : Z; op_RetryBase : Z; op_RetryMax : Z; op_DeleteTimeout : Z }.

Definition withDefaults (o : Options) : Options :=
  MkOptions
    (if (op_MaxMessages o <=? 0)%Z || (10 <? op_MaxMessages o)%Z then 10 else op_MaxMessages o)
    (if (op_WaitTimeSeconds o <? 0)%Z || (20 <? op_WaitTimeSeconds o)%Z then 20 else op_WaitTimeSeconds o)
    (if (op_RetryBase o <=? 0)%Z then Second else op_RetryBase o)
    (if (op_RetryMax o <=? 0)%Z then 30 * Second else op_RetryMax o)
    (if (op_DeleteTimeout o <=? 0)%Z then 5 * Second else op_DeleteTimeout o).

(** ** Messages *)

Record SqsAttribute := MkSqsAttribute { sa_StringValue : option string; sa_BinaryValue : string }.

(** [sqstypes.Message]; absent pointers are [None]. *)
Record SqsMessage := MkSqsMessage {
  sm_MessageId : option string;
  sm_ReceiptHandle : option string;
  sm_Body : option string;
  sm_Attributes : gmap string SqsAttribute
}.

Record subscriptionSnapshot := MkSnapshot { sn_key : NamespacedName; sn_queueURL : string; sn_flowRefName : string }.

(** [<trigger>-msg-<id>], lower-cased, sanitized, cut, without trailing dashes. *)
Definition FlowRunName (triggerName messageID : string) : string :=
  TrimRight (sanitizeFlowRunName (triggerName +:+ "-msg-" +:+ messageID)) "-"%char.

Definition attrHeaders (m : gmap string SqsAttribute) : gmap string string :=
  omap (λ v, match sa_StringValue v with
             | Some s => Some s
             | None => if (sa_BinaryValue v =? "") then None else Some (base64_EncodeStd (sa_BinaryValue v))
             end) m.

Definition BuildFlowRun (ns triggerName flowRefName : string) (msg : SqsMessage) : FlowRun :=
  let '(body, bodyEncoding) := storeBytes (default "" (sm_Body msg)) in
  let hdrs := attrHeaders (sm_Attributes msg) in
  let tp := default "" (hdrs !! traceparentKey) in
  let hdrs := redact_StringMap hdrs [] in
  MkFlowRun
    (MkMeta (FlowRunName triggerName (default "" (sm_MessageId msg))) ns "" 0 0
       (<["kubezap.io/trigger" := triggerName]>
        (<["kubezap.io/trigger-type" := TriggerTypePlugin]> {["kubezap.io/flow" := flowRefName]}))
       (if (tp =? "") then ∅ else {[traceparentAnnotation := tp]}) [] 0 None)
    (MkFlowRunSpec flowRefName [] (Some (MkTriggerRef triggerName TriggerTypePlugin))
       (Some (MkTriggerData "" "" "" "" "" TriggerTypePlugin "" "" hdrs "" 0 0 "" "" None body false bodyEncoding "")) None)
    (MkFlowRunStatus 0 PhaseEmpty [] None None [] "" None).

(** ** The poll loop *)

Inductive PollEv : Type → Type :=
  (** [ctx.Err() != nil] *)
  | QDone : PollEv bool
  | QGetAttributes (queueURL : string) : PollEv (result unit)
  | QSetSession (key : NamespacedName) (ok : bool) (msg : string) : PollEv unit
  (** [sleepCtx]: false if the context ended first. *)
  | QSleep (d : Z) : PollEv bool
  | QReceive (queueURL : string) (max wait : Z) : PollEv (result (list SqsMessage))
  | QCreate (fr : FlowRun) : PollEv (result unit)
  (** [DeleteMessage], under its own timeout. *)
  | QDelete (queueURL : string) (receipt : option string) (timeout : Z) : PollEv (result unit).

Definition sqs_nextBackoff (cur max : Z) : Z := if (max <? wrap64 (cur * 2))%Z then max else wrap64 (cur * 2).

Definition handleSqsMessage (o : Options) (snap : subscriptionSnapshot) (msg : SqsMessage) : Prog PollEv unit :=
  match sm_MessageId msg with
  | None | Some "" => Ret tt
  | Some _ =>
      let! c := emit (QCreate (BuildFlowRun (sn_key snap).1 (sn_key snap).2 (sn_flowRefName snap) msg)) in
      let delete := let! _ := emit (QDelete (sn_queueURL snap) (sm_ReceiptHandle msg) (op_DeleteTimeout o)) in Ret tt in
      match c with
      | Ok _ => delete
      | Err e => if bool_decide (ekind_of e = EKAlreadyExists) then delete
                 else let! _ := emit QDone in Ret tt
      end
  end.

(** The messages of one answer; true when the context ended. *)
Definition handleBatch (o : Options) (snap : subscriptionSnapshot) (msgs : list SqsMessage) : Prog PollEv bool :=
  let! r := pfold_ret (λ _ msg,
    let! dn := emit QDone in
    if dn : bool then Ret (inl tt)
    else let! _ := handleSqsMessage o snap msg in Ret (inr tt)) msgs tt in
  Ret (match r with inl _ => true | inr _ => false end).

(** After an SQS error: the session is down, wait, and how to go on ([None] is
    the return of the goroutine). *)
Definition pollFailed (o : Options) (snap : subscriptionSnapshot) (e : gerr) (backoff : Z) : Prog PollEv (option Z) :=
  let! dn := emit QDone in
  if dn : bool then Ret None
  else
    let! _ := emit (QSetSession (sn_key snap) false (emsg e)) in
    let! more := emit (QSleep backoff) in
    Ret (if more : bool then Some (sqs_nextBackoff backoff (op_RetryMax o)) else None).

(** At most [fuel] rounds; the result tells whether the loop returned. *)
Fixpoint poll (fuel : nat) (o : Options) (snap : subscriptionSnapshot) (backoff : Z) (established : bool)
    : Prog PollEv bool :=
  match fuel with
  | O => Ret false
  | S fuel =>
      let! dn := emit QDone in
      if dn : bool then Ret true
      else
        let receive (backoff : Z) :=
          let! out := emit (QReceive (sn_queueURL snap) (op_MaxMessages o) (op_WaitTimeSeconds o)) in
          match out with
          | Err e =>
              let! b := pollFailed o snap e backoff in
              match b with None => Ret true | Some b => poll fuel o snap b false end
          | Ok msgs =>
              let! dn := handleBatch o snap msgs in
              if dn : bool then Ret true else poll fuel o snap (op_RetryBase o) true
          end in
        if established then receive backoff
        else
          let! a := emit (QGetAttributes (sn_queueURL snap)) in
          match a with
          | Err e =>
              let! b := pollFailed o snap e backoff in
              match b with None => Ret true | Some b => poll fuel o snap b false end
          | Ok _ =>
              let! _ := emit (QSetSession (sn_key snap) true "") in
              receive (op_RetryBase o)
          end
  end.

(** ** The Subscriber *)

(** A subscription; one with an invalid queue URL has no goroutine. *)
Record sqsSubscription := MkSqsSub { sq_ctx : option nat; sq_fingerprint : string }.

(** [sb_live] are the contexts not cancelled, [sb_parentDone] whether their
    parent is; [sb_threads] are the goroutines with what is left of each. *)
Record Subscriber := MkSubscriber {
  sb_namespace : string;
  sb_integrationName : string;
  sb_opts : Options;
  sb_subs : gmap NamespacedName sqsSubscription;
  sb_live : gset nat;
  sb_next : nat;
  sb_parentDone : bool;
  sb_threads : gmap nat (subscriptionSnapshot * Prog PollEv bool);
  sb_health : Health
}.

Definition set_sqs (subs : gmap NamespacedName sqsSubscription) (live : gset nat) (s : Subscriber) : Subscriber :=
  MkSubscriber (sb_namespace s) (sb_integrationName s) (sb_opts s) subs live (sb_next s) (sb_parentDone s)
    (sb_threads s) (sb_health s).
Definition set_health (h : Health) (s : Subscriber) : Subscriber :=
  MkSubscriber (sb_namespace s) (sb_integrationName s) (sb_opts s) (sb_subs s) (sb_live s) (sb_next s) (sb_parentDone s)
    (sb_threads s) h.
Definition set_threads (t : gmap nat (subscriptionSnapshot * Prog PollEv bool)) (s : Subscriber) : Subscriber :=
  MkSubscriber (sb_namespace s) (sb_integrationName s) (sb_opts s) (sb_subs s) (sb_live s) (sb_next s) (sb_parentDone s)
    t (sb_health s).

Definition NewSubscriber (ns integrationName : string) (o : Options) (h : Health) : Subscriber :=
  MkSubscriber ns integrationName (withDefaults o) ∅ ∅ 0 false ∅ h.

Definition Selects (s : Subscriber) (t : Trigger) : bool :=
  (m_Namespace (tg_Meta t) =? sb_namespace s) && (ts_Type (tg_Spec t) =? TriggerTypePlugin)
  && match ts_Plugin (tg_Spec t) with
     | Some p => (pt_IntegrationRef p =? sb_integrationName s) && ts_Enabled (tg_Spec t)
     | None => false
     end.

(** [sub.cancel()] *)
Definition cancelSub (sub : sqsSubscription) (live : gset nat) : gset nat :=
  match sq_ctx sub with Some c => live ∖ {[c]} | None => live end.

(** The subscription of a key leaves the table and its context is cancelled. *)
Definition dropSub (key : NamespacedName) (s : Subscriber) : Subscriber :=
  match sb_subs s !! key with
  | Some sub => set_sqs (delete key (sb_subs s)) (cancelSub sub (sb_live s)) s
  | None => s
  end.

(** What a callback has still to do: nothing, forget the session of a key,
    record the first session of a Trigger, start its subscription.  The last
    two are done with the Subscriber's mutex held. *)
Inductive Callback := Idle | Forgetting (key : NamespacedName) | Reporting (t : Trigger) | Starting (t : Trigger).

Definition Subscriber_Remove (key : NamespacedName) (s : Subscriber) : Subscriber * Callback :=
  (dropSub key s, Forgetting key).

Definition nulSep : string := String (ascii_of_nat 0) "".

Definition queueOf (t : Trigger) : string :=
  match ts_Plugin (tg_Spec t) with Some p => default "" (pt_Config p !! TriggerConfigQueueURL) | None => "" end.

Definition fingerprintOf (t : Trigger) : string := queueOf t +:+ nulSep +:+ ts_FlowRef (tg_Spec t).

Section subscriber.
  Context `{AwsLib} (rounds : nat).

(** A new context and goroutine for the key. *)
Definition startPoll (key : NamespacedName) (fp : string) (snap : subscriptionSnapshot) (s : Subscriber) : Subscriber :=
  let id := sb_next s in
  MkSubscriber (sb_namespace s) (sb_integrationName s) (sb_opts s)
    (<[key := MkSqsSub (Some id) fp]> (sb_subs s)) ({[id]} ∪ sb_live s) (S id) (sb_parentDone s)
    (<[id := (snap, poll rounds (sb_opts s) snap (op_RetryBase (sb_opts s)) false)]> (sb_threads s))
    (sb_health s).

(** The session recorded for a selected Trigger before its goroutine runs. *)
Definition firstSession (t : Trigger) (h : Health) : Health :=
  SetSession (trigger_key t) false
    (match ParseQueueURL (queueOf t) with Some e => emsg e | None => "session not yet established" end) h.

(** The subscription of a selected Trigger; the table is read only under the
    mutex, so the entry is made together with the start of the goroutine. *)
Definition subscribe (t : Trigger) (s : Subscriber) : Subscriber :=
  let key := trigger_key t in
  match ParseQueueURL (queueOf t) with
  | Some _ => set_sqs (<[key := MkSqsSub None (fingerprintOf t)]> (sb_subs s)) (sb_live s) s
  | None => startPoll key (fingerprintOf t) (MkSnapshot key (queueOf t) (ts_FlowRef (tg_Spec t))) s
  end.

Definition Subscriber_Reconcile (t : Trigger) (s : Subscriber) : Subscriber * Callback :=
  let key := trigger_key t in
  if negb (Selects s t) then Subscriber_Remove key s
  else match sb_subs s !! key with
       | Some cur => if (sq_fingerprint cur =? fingerprintOf t) then (s, Idle) else (dropSub key s, Reporting t)
       | None => (s, Reporting t)
       end.

(** The next section of a callback. *)
Definition resume (cb : Callback) (s : Subscriber) : Subscriber * Callback :=
  match cb with
  | Idle => (s, Idle)
  | Forgetting key => (set_health (Forget key (sb_health s)) s, Idle)
  | Reporting t => (set_health (firstSession t (sb_health s)) s, Starting t)
  | Starting t => (subscribe t s, Idle)
  end.

Definition Active (s : Subscriber) : list NamespacedName := (map_to_list (sb_subs s)).*1.

(** [Stop], up to the point where it waits for the goroutines. *)
Definition Subscriber_Stop (s : Subscriber) : Subscriber :=
  set_sqs ∅ (fold_left (λ live kv, cancelSub kv.2 live) (map_to_list (sb_subs s)) (sb_live s)) s.

(** [EventHandler] *)
Inductive TriggerEvent := EvAdd (o : InformerObj) | EvUpdate (o : InformerObj) | EvDelete (o : InformerObj).

Definition EventHandler (e : TriggerEvent) (s : Subscriber) : Subscriber * Callback :=
  match e with
  | EvAdd (ObjTrigger t) | EvUpdate (ObjTrigger t) => Subscriber_Reconcile t s
  | EvDelete (ObjTrigger t) | EvDelete (ObjTombstone (Some t)) => Subscriber_Remove (trigger_key t) s
  | _ => (s, Idle)
  end.

(** ** Interleaving *)

(** A goroutine sees its context ended only when it is cancelled or its parent
    is; everything else may be answered at will. *)
Definition ctx_done (id : nat) (s : Subscriber) : Prop := id ∉ sb_live s ∨ sb_parentDone s = true.

Definition may_answer (id : nat) (s : Subscriber) {X} (e : PollEv X) : X → Prop :=
  match e in PollEv X return X → Prop with
  | QDone => λ b, b = true ↔ ctx_done id s
  | QSleep _ => λ more, more = false → ctx_done id s
  | _ => λ _, True
  end.

Definition perform {X} (e : PollEv X) (h : Health) : Health :=
  match e with QSetSession key ok msg => SetSession key ok msg h | _ => h end.

(** The Subscriber's mutex is held. *)
Definition locked (cb : Callback) : Prop := match cb with Reporting _ | Starting _ => True | _ => False end.

Inductive sys_step : Subscriber * Callback → Subscriber * Callback → Prop :=
  | ss_event e s : sys_step (s, Idle) (EventHandler e s)
  | ss_resume cb s : sys_step (s, cb) (resume cb s)
  | ss_stop s cb : ¬ locked cb → sys_step (s, cb) (Subscriber_Stop s, cb)
  | ss_started s cb : sys_step (s, cb) (set_health (SetStarted (sb_health s)) s, cb)
  | ss_parent s cb : sys_step (s, cb) (MkSubscriber (sb_namespace s) (sb_integrationName s) (sb_opts s) (sb_subs s) (sb_live s)
                                         (sb_next s) true (sb_threads s) (sb_health s), cb)
  | ss_poll id snap X (e : PollEv X) k x s cb :
      sb_threads s !! id = Some (snap, Vis e k) → may_answer id s e x →
      sys_step (s, cb) (set_health (perform e (sb_health s)) (set_threads (<[id := (snap, k x)]> (sb_threads s)) s), cb)
  | ss_exit id snap s cb :
      sb_threads s !! id = Some (snap, Ret true) → sys_step (s, cb) (set_threads (delete id (sb_threads s)) s, cb).

End subscriber.
