(* ===== verification/AwsProps.v ===== *)
(** * The AWS messaging plugin: deliveries, goroutines, configuration

    A message leaves its queue only after its FlowRun is stored, whatever the
    goroutines and callbacks interleave; the running goroutines are those of the
    subscriptions held; and what one end of the plugin contract sends the other
    end accepts. *)

From S2P Require Import Prelude SecretIndex GoStd Runes Api Net Effects Interp Kube Ssrf Executor Webhook WebhookWatcher Delivery DeliveryProps BrokerWatcher AwsPlugin AwsSubscriber.

Local Open Scope string_scope.
Local Open Scope list_scope.
Local Open Scope go_scope.

(** ** One goroutine *)

(** The messages received, the FlowRuns known to exist, and whether the
    goroutine has seen its context end. *)
Record PGhost := MkPGhost { pg_got : list SqsMessage; pg_runs : list FlowRun; pg_done : bool }.

Definition got (l : list SqsMessage) (g : PGhost) : PGhost := MkPGhost (l ++ pg_got g) (pg_runs g) (pg_done g).
Definition stored (fr : FlowRun) (g : PGhost) : PGhost := MkPGhost (pg_got g) (fr :: pg_runs g) (pg_done g).
Definition ended (b : bool) (g : PGhost) : PGhost := MkPGhost (pg_got g) (pg_runs g) (b || pg_done g).

(** Options within the limits of SQS, with delays that can be doubled. *)
Definition opts_ok (o : Options) : Prop :=
  (1 <= op_MaxMessages o <= 10 ∧ 0 <= op_WaitTimeSeconds o <= 20 ∧
   0 < op_RetryBase o < 2 ^ 62 ∧ 0 < op_RetryMax o < 2 ^ 62)%Z.

Section poll.
  Context (o : Options) (snap : subscriptionSnapshot).

Definition run_of (m : SqsMessage) : FlowRun := BuildFlowRun (sn_key snap).1 (sn_key snap).2 (sn_flowRefName snap) m.

(** The goroutine of a snapshot only asks for its own queue, builds FlowRuns
    from messages it received, deletes a message only when its FlowRun is known
    to exist, reports its own session, and never spins: it waits between
    attempts, for no longer than the bound. *)
Definition poll_spec : Spec PollEv PGhost := λ X e g,
  match e in PollEv X return (X → PGhost → Prop) → Prop with
  | QDone => λ Q, ∀ b, Q b (ended b g)
  | QGetAttributes q => λ Q, q = sn_queueURL snap ∧ ∀ r, Q r g
  | QSetSession key _ _ => λ Q, key = sn_key snap ∧ ∀ u, Q u g
  | QSleep d => λ Q, (0 < d <= Z.max (op_RetryBase o) (op_RetryMax o))%Z ∧ ∀ more, Q more (ended (negb more) g)
  | QReceive q mx wt => λ Q, (q = sn_queueURL snap ∧ 1 <= mx <= 10 ∧ 0 <= wt <= 20)%Z ∧
      (∀ e, Q (Err e) g) ∧ ∀ l, Q (Ok l) (got l g)
  | QCreate fr => λ Q, (∃ m, m ∈ pg_got g ∧ fr = run_of m ∧ default "" (sm_MessageId m) ≠ "") ∧
      Q (Ok tt) (stored fr g) ∧
      ∀ e, Q (Err e) (if bool_decide (ekind_of e = EKAlreadyExists) then stored fr g else g)
  | QDelete q receipt _ => λ Q,
      (q = sn_queueURL snap ∧ ∃ m, m ∈ pg_got g ∧ receipt = sm_ReceiptHandle m ∧ run_of m ∈ pg_runs g) ∧ ∀ r, Q r g
  end.

#[global] Instance poll_spec_mono : MonoSpec poll_spec.
Proof. intros X e g P Q HPQ Hs. destruct e; simpl in *; naive_solver. Qed.

(** Every answer is allowed for. *)
Lemma poll_spec_answers X (e : PollEv X) g Q : poll_spec X e g Q → ∀ x, ∃ g', Q x g'.
Proof.
  destruct e; simpl; intros Hs x; try (by eexists; apply Hs).
  - destruct Hs as (_ & He & Hok). destruct x as [l|e]; eauto.
  - destruct Hs as (_ & Hok & He). destruct x as [[]|e]; eauto.
Qed.

Hypothesis o_ok : opts_ok o.

Definition backoff_ok (b : Z) : Prop := (0 < b <= Z.max (op_RetryBase o) (op_RetryMax o))%Z.

Lemma nextBackoff_ok b : backoff_ok b → backoff_ok (sqs_nextBackoff b (op_RetryMax o)).
Proof.
  unfold backoff_ok, sqs_nextBackoff. intros Hb. unfold opts_ok in o_ok. rewrite wrap64_id by (unfold min_int64, max_int64; lia).
  destruct (Z.ltb_spec (op_RetryMax o) (b * 2)); lia.
Qed.

Lemma base_ok : backoff_ok (op_RetryBase o).
Proof. unfold backoff_ok, opts_ok in *. lia. Qed.

Lemma wp_handleSqsMessage m g (Q : unit → PGhost → Prop) :
  m ∈ pg_got g → (∀ g', pg_got g' = pg_got g → Q tt g') → wp poll_spec (handleSqsMessage o snap m) g Q.
Proof.
  intros Hm HQ. unfold handleSqsMessage.
  destruct (sm_MessageId m) as [[|c id]|] eqn:Hid; [by apply HQ| |by apply HQ]. cbn [wp pbind emit].
  assert (∀ g', pg_got g' = pg_got g → run_of m ∈ pg_runs g' →
    wp poll_spec (let! _ := emit (QDelete (sn_queueURL snap) (sm_ReceiptHandle m) (op_DeleteTimeout o)) in Ret tt) g' Q) as Hdel.
  { intros g' Hg Hr. cbn. split; [split; [done|]; exists m; by rewrite Hg|]. intros _. by apply HQ. }
  split; [exists m; split; [done|]; split; [done|]; by rewrite Hid|]. split; [apply Hdel; [done|by left]|].
  intros e. destruct (bool_decide_reflect (ekind_of e = EKAlreadyExists)); [apply Hdel; [done|by left]|].
  cbn. intros b. by apply HQ.
Qed.

Lemma wp_handleBatch msgs g (Q : bool → PGhost → Prop) :
  (∀ m, m ∈ msgs → m ∈ pg_got g) → (∀ b g', (b = true → pg_done g' = true) → Q b g') →
  wp poll_spec (handleBatch o snap msgs) g Q.
Proof.
  intros Hsub HQ. unfold handleBatch. apply wp_bind; [apply _|].
  eapply wp_mono; [apply _| |apply (wp_fold_ret _ _ _ (λ _ g', pg_got g' = pg_got g) (λ _ g', pg_done g' = true))].
  - intros [u|u] g'; cbn; intros Hd; by apply HQ.
  - intros u g' m Hm Hg. cbn. intros [|]; cbn; [done|]. apply wp_bind; [apply _|].
    apply wp_handleSqsMessage; [cbn; rewrite Hg; by apply Hsub|]. intros g'' Hg'. cbn in *. by rewrite Hg'.
  - done.
Qed.

Lemma wp_pollFailed e b g (Q : option Z → PGhost → Prop) :
  backoff_ok b → (∀ r g', (∀ b, r = Some b → backoff_ok b) → (r = None → pg_done g' = true) → Q r g') →
  wp poll_spec (pollFailed o snap e b) g Q.
Proof.
  intros Hb HQ. unfold pollFailed. cbn. intros [|]; cbn; [by apply HQ|]. split; [done|]. intros _. cbn. split; [done|].
  intros [|]; cbn; apply HQ; try done. intros b' [= <-]. by apply nextBackoff_ok.
Qed.

Lemma wp_poll fuel b est g :
  backoff_ok b → wp poll_spec (poll fuel o snap b est) g (λ r g', r = true → pg_done g' = true).
Proof.
  revert b est g. induction fuel as [|fuel IH]; intros b est g Hb; [done|]. cbn [poll]. apply wp_bind; [apply _|].
  cbn [wp emit]. intros [|]; cbn [wp pbind]; [done|].
  assert (∀ e b g, backoff_ok b → wp poll_spec
    (let! b := pollFailed o snap e b in match b with None => Ret true | Some b => poll fuel o snap b false end) g
    (λ r g', r = true → pg_done g' = true)) as Hfail.
  { intros e b' g' Hb'. apply wp_bind; [apply _|]. apply wp_pollFailed; [done|]. intros [b''|] g'' Hs Hn; cbn [wp].
    - apply IH. by apply Hs.
    - intros _. by apply Hn. }
  assert (∀ b g, backoff_ok b → wp poll_spec
    (let! out := emit (QReceive (sn_queueURL snap) (op_MaxMessages o) (op_WaitTimeSeconds o)) in
     match out with
     | Ok msgs => let! dn := handleBatch o snap msgs in if dn : bool then Ret true else poll fuel o snap (op_RetryBase o) true
     | Err e => let! b0 := pollFailed o snap e b in match b0 with Some b0 => poll fuel o snap b0 false | None => Ret true end
     end) g (λ r g', r = true → pg_done g' = true)) as Hrec.
  { intros b' g' Hb'. apply wp_bind; [apply _|]. cbn [wp emit]. split; [unfold opts_ok in o_ok; split; [done|lia]|]. split; [intros e; by apply Hfail|].
    intros l. apply wp_bind; [apply _|]. apply wp_handleBatch; [intros m Hm; cbn; by apply elem_of_app; left|].
    intros [|] g'' Hd; cbn [wp]; [done|]. apply IH, base_ok. }
  destruct est; [by apply Hrec|]. apply wp_bind; [apply _|]. cbn [wp emit]. split; [done|]. intros [u|e]; [|by apply Hfail].
  apply wp_bind; [apply _|]. cbn [wp emit]. split; [done|]. intros _. apply Hrec, base_ok.
Qed.

End poll.

(** The defaults are within the limits of SQS. *)
Lemma withDefaults_ok o :
  (op_RetryBase o < 2 ^ 62)%Z → (op_RetryMax o < 2 ^ 62)%Z →
  opts_ok (withDefaults o).
Proof.
  intros Hb Hm. unfold opts_ok, withDefaults, Second. cbn.
  repeat match goal with |- context [(?a <=? ?b)%Z] => destruct (Z.leb_spec a b) end;
  repeat match goal with |- context [(?a <? ?b)%Z] => destruct (Z.ltb_spec a b) end; cbn; lia.
Qed.

(** ** Goroutines and callbacks *)

Section system.
  Context `{AwsLib} (rounds : nat).

(** The goroutine behaves, and has seen its context end only if it has. *)
Definition thread_ok (s : Subscriber) (id : nat) (snap : subscriptionSnapshot) (p : Prog PollEv bool) : Prop :=
  ∃ g, wp (poll_spec (sb_opts s) snap) p g (λ r g', r = true → pg_done g' = true) ∧
       (pg_done g = true → ctx_done id s).

(** The goroutine of a live subscription: for its Trigger, with the queue and
    Flow it was fingerprinted with. *)
Definition runs_for (s : Subscriber) (k : NamespacedName) (sub : sqsSubscription) (id : nat) : Prop :=
  ∃ snap p, sb_threads s !! id = Some (snap, p) ∧ sn_key snap = k ∧
    sq_fingerprint sub = sn_queueURL snap +:+ nulSep +:+ sn_flowRefName snap ∧ ParseQueueURL (sn_queueURL snap) = None.

Record subscriber_ok (s : Subscriber) : Prop := {
  so_opts : opts_ok (sb_opts s);
  so_live k sub id : sb_subs s !! k = Some sub → sq_ctx sub = Some id → id ∈ sb_live s;
  so_held id : id ∈ sb_live s → ∃ k sub, sb_subs s !! k = Some sub ∧ sq_ctx sub = Some id;
  so_one k k' sub sub' id : sb_subs s !! k = Some sub → sb_subs s !! k' = Some sub' →
    sq_ctx sub = Some id → sq_ctx sub' = Some id → k = k';
  so_next id : id ∈ sb_live s ∨ is_Some (sb_threads s !! id) → (id < sb_next s)%nat;
  so_namespace k : is_Some (sb_subs s !! k) → k.1 = sb_namespace s;
  so_session k : is_Some (sb_subs s !! k) → is_Some (h_sessions (sb_health s) !! k);
  so_running k sub id : sb_subs s !! k = Some sub → sq_ctx sub = Some id → sb_parentDone s = false → runs_for s k sub id;
  so_threads id snap p : sb_threads s !! id = Some (snap, p) → thread_ok s id snap p
}.

(** Cancelled contexts stay cancelled when the live set shrinks or only gains
    fresh ones. *)
Lemma thread_ok_mono s s' id snap p :
  sb_opts s' = sb_opts s → (ctx_done id s → ctx_done id s') → thread_ok s id snap p → thread_ok s' id snap p.
Proof. intros Ho Hd (g & Hwp & Hg). exists g. rewrite Ho. eauto. Qed.

Lemma drop_ok key s : subscriber_ok s → subscriber_ok (dropSub key s) ∧ sb_subs (dropSub key s) !! key = None.
Proof.
  intros Hs. unfold dropSub. destruct (sb_subs s !! key) as [cur|] eqn:Hcur; [|done]. split; [|apply lookup_delete_eq].
  assert (∀ id, id ∈ cancelSub cur (sb_live s) ↔ id ∈ sb_live s ∧ sq_ctx cur ≠ Some id) as Hc.
  { intros id. unfold cancelSub. destruct (sq_ctx cur) as [c|]; [|naive_solver]. rewrite elem_of_difference, elem_of_singleton. naive_solver. }
  split; cbn; [apply Hs|..].
  - intros k sub id [Hne Hk]%lookup_delete_Some Hid. apply Hc. split; [by eapply so_live|]. intros Hid'.
    apply Hne. by eapply (so_one _ Hs).
  - intros id [Hl Hne]%Hc. destruct (so_held _ Hs _ Hl) as (k & sub & Hk & Hid). exists k, sub.
    rewrite lookup_delete_ne; [done|]. intros ->. congruence.
  - intros k k' sub sub' id [_ Hk]%lookup_delete_Some [_ Hk']%lookup_delete_Some. by eapply so_one.
  - intros id [[Hl _]%Hc|Ht]; apply (so_next _ Hs); eauto.
  - intros k [sub [_ Hk]%lookup_delete_Some]. by apply (so_namespace _ Hs).
  - intros k [sub [_ Hk]%lookup_delete_Some]. by apply (so_session _ Hs).
  - intros k sub id [_ Hk]%lookup_delete_Some. by apply (so_running _ Hs).
  - intros id snap p Ht. eapply thread_ok_mono, (so_threads _ Hs); [done| |done].
    intros [Hl|Hp]; [left|by right]. cbn. by intros [? _]%Hc.
Qed.

Lemma set_health_ok h s :
  subscriber_ok s → (∀ k, is_Some (sb_subs s !! k) → is_Some (h_sessions h !! k)) → subscriber_ok (set_health h s).
Proof. intros [] Hh. by split. Qed.

(** A key without subscription gets one that has no goroutine, or a new one. *)
Lemma park_ok (key : NamespacedName) fp s :
  subscriber_ok s → sb_subs s !! key = None → key.1 = sb_namespace s → is_Some (h_sessions (sb_health s) !! key) →
  subscriber_ok (set_sqs (<[key := MkSqsSub None fp]> (sb_subs s)) (sb_live s) s).
Proof.
  intros Hs Hn Hns Hh. split; cbn; [apply Hs|..].
  - intros k sub id [[<- <-]|[_ Hk]]%lookup_insert_Some; [done|]. by eapply (so_live _ Hs).
  - intros id Hl. destruct (so_held _ Hs _ Hl) as (k & sub & Hk & Hid). exists k, sub.
    rewrite lookup_insert_ne; [done|]. intros <-. congruence.
  - intros k k' sub sub' id [[<- <-]|[_ Hk]]%lookup_insert_Some; [done|].
    intros [[<- <-]|[_ Hk']]%lookup_insert_Some; [done|]. by eapply so_one.
  - apply (so_next _ Hs).
  - intros k [sub [[<- _]|[_ Hk]]%lookup_insert_Some]; [done|]. by apply (so_namespace _ Hs).
  - intros k [sub [[<- _]|[_ Hk]]%lookup_insert_Some]; [done|]. by apply (so_session _ Hs).
  - intros k sub id [[<- <-]|[_ Hk]]%lookup_insert_Some; [done|]. by apply (so_running _ Hs).
  - apply (so_threads _ Hs).
Qed.

Lemma startPoll_ok (key : NamespacedName) snap s :
  subscriber_ok s → sb_subs s !! key = None → key.1 = sb_namespace s → sn_key snap = key →
  ParseQueueURL (sn_queueURL snap) = None → is_Some (h_sessions (sb_health s) !! key) →
  subscriber_ok (startPoll rounds key (sn_queueURL snap +:+ nulSep +:+ sn_flowRefName snap) snap s).
Proof.
  intros Hs Hn Hns Hk Hq Hh.
  assert (∀ id, id ∈ sb_live s ∨ is_Some (sb_threads s !! id) → id ≠ sb_next s) as Hfresh.
  { intros id Hid. pose proof (so_next _ Hs id Hid). lia. }
  split; cbn; [apply Hs|..].
  - intros k sub id [[<- <-]|[_ Hk']]%lookup_insert_Some; [intros [= <-]; set_solver|].
    intros Hid. apply elem_of_union. right. by eapply so_live.
  - intros id [->%elem_of_singleton|Hl]%elem_of_union; [by eexists _, _; rewrite lookup_insert_eq|].
    destruct (so_held _ Hs _ Hl) as (k & sub & Hk' & Hid). exists k, sub. rewrite lookup_insert_ne; [done|]. intros <-. congruence.
  - intros k k' sub sub' id [[<- <-]|[Hne Hk1]]%lookup_insert_Some [[<- <-]|[Hne' Hk2]]%lookup_insert_Some Hid Hid'; cbn in *.
    + done.
    + simplify_eq. exfalso. apply (Hfresh (sb_next s)); [left|done]. by eapply so_live.
    + simplify_eq. exfalso. apply (Hfresh (sb_next s)); [left|done]. by eapply so_live.
    + by eapply (so_one _ Hs).
  - intros id [[->%elem_of_singleton|Hl]%elem_of_union|[x [[<- _]|[_ Ht]]%lookup_insert_Some]]; [lia| |lia|];
      (assert (id < sb_next s)%nat by (apply (so_next _ Hs); eauto)); lia.
  - intros k [sub [[<- _]|[_ Hk']]%lookup_insert_Some]; [done|]. by apply (so_namespace _ Hs).
  - intros k [sub [[<- _]|[_ Hk']]%lookup_insert_Some]; [done|]. by apply (so_session _ Hs).
  - intros k sub id [[<- <-]|[Hne Hk']]%lookup_insert_Some Hid Hp.
    + injection Hid as <-. eexists snap, _. cbn. by rewrite lookup_insert_eq.
    + destruct (so_running _ Hs _ _ _ Hk' Hid Hp) as (snap' & p & Ht & Hrest). exists snap', p. split; [|done]. cbn.
      rewrite lookup_insert_ne; [done|]. intros Heq. apply (Hfresh id); [right; by eexists|done].
  - intros id snap' p [[<- [= <- <-]]|[Hne Ht]]%lookup_insert_Some.
    + exists (MkPGhost [] [] false). split; [|done]. cbn. apply wp_poll; [apply Hs|]. apply base_ok, Hs.
    + eapply thread_ok_mono, (so_threads _ Hs); [done| |done]. intros [Hl|Hp]; [left; cbn; set_solver|by right].
Qed.

Lemma subscribe_ok t s :
  subscriber_ok s → sb_subs s !! trigger_key t = None → m_Namespace (tg_Meta t) = sb_namespace s →
  is_Some (h_sessions (sb_health s) !! trigger_key t) → subscriber_ok (subscribe rounds t s).
Proof.
  intros Hs Hn Hns Hh. unfold subscribe. destruct (ParseQueueURL (queueOf t)) as [e|] eqn:Hq; [by apply park_ok|].
  by apply (startPoll_ok (trigger_key t) (MkSnapshot _ _ _)).
Qed.

(** Between the sections of a callback: a key to be forgotten has no
    subscription, one to be started has none yet. *)
Definition callback_ok (s : Subscriber) (cb : Callback) : Prop :=
  match cb with
  | Idle => True
  | Forgetting key => sb_subs s !! key = None
  | Reporting t => sb_subs s !! trigger_key t = None ∧ m_Namespace (tg_Meta t) = sb_namespace s
  | Starting t => sb_subs s !! trigger_key t = None ∧ m_Namespace (tg_Meta t) = sb_namespace s
                  ∧ is_Some (h_sessions (sb_health s) !! trigger_key t)
  end.

Definition sys_ok (sc : Subscriber * Callback) : Prop := subscriber_ok sc.1 ∧ callback_ok sc.1 sc.2.

Lemma Subscriber_Remove_ok key s : subscriber_ok s → sys_ok (Subscriber_Remove key s).
Proof. apply drop_ok. Qed.

Lemma Subscriber_Reconcile_ok t s : subscriber_ok s → sys_ok (Subscriber_Reconcile t s).
Proof.
  intros Hs. unfold Subscriber_Reconcile. destruct (Selects s t) eqn:Hsel; cbn [negb]; [|by apply Subscriber_Remove_ok].
  assert (m_Namespace (tg_Meta t) = sb_namespace s) as Hns by (unfold Selects in Hsel; by bool_hyps).
  destruct (sb_subs s !! trigger_key t) as [cur|] eqn:Hcur; [|done].
  destruct (_ =? _); [done|]. destruct (drop_ok (trigger_key t) s Hs) as [Hd Hn]. split; [done|]. split; [done|].
  cbn. unfold dropSub. by rewrite Hcur.
Qed.

Lemma resume_ok cb s : subscriber_ok s → callback_ok s cb → sys_ok (resume rounds cb s).
Proof.
  intros Hs Hcb. destruct cb as [|key|t|t]; cbn [resume callback_ok] in *; [done|..].
  - split; [|done]. apply set_health_ok; [done|]. intros k Hk. cbn.
    rewrite lookup_delete_ne by (intros ->; rewrite Hcb in Hk; by destruct Hk). by apply (so_session _ Hs).
  - destruct Hcb as [Hn Hns]. split; [apply set_health_ok; [done|]|split_and!; [done|done|cbn; by rewrite lookup_insert_eq]].
    intros k Hk. cbn. destruct (decide (trigger_key t = k)) as [->|Hne]; [by rewrite lookup_insert_eq|].
    rewrite lookup_insert_ne by done. by apply (so_session _ Hs).
  - split; [|done]. by apply subscribe_ok; destruct_and!.
Qed.

Lemma Subscriber_Stop_ok s : subscriber_ok s → subscriber_ok (Subscriber_Stop s).
Proof.
  intros Hs.
  assert (∀ (l : list (NamespacedName * sqsSubscription)) (live : gset nat) id, id ∈ fold_left (λ live kv, cancelSub kv.2 live) l live ↔
    id ∈ live ∧ ∀ k sub, (k, sub) ∈ l → sq_ctx sub ≠ Some id) as Hfold.
  { clear. induction l as [|[k sub] l IH]; intros live id; cbn [fold_left]; [set_solver|]. rewrite IH. unfold cancelSub. cbn.
    destruct (sq_ctx sub) as [c|] eqn:Hc; set_solver. }
  assert (∀ id, id ∉ sb_live (Subscriber_Stop s)) as Hnone.
  { intros id [Hl Hall]%Hfold. destruct (so_held _ Hs _ Hl) as (k & sub & Hk & Hid).
    apply (Hall k sub); [|done]. by apply elem_of_map_to_list. }
  split.
  - apply Hs.
  - intros k sub id. cbn. by rewrite lookup_empty.
  - intros id Hl. by apply Hnone in Hl.
  - intros k k' sub sub' id. cbn. by rewrite lookup_empty.
  - intros id [Hl|Ht]; [by apply Hnone in Hl|]. apply (so_next _ Hs). by right.
  - intros k [sub Hk]. cbn in Hk. by rewrite lookup_empty in Hk.
  - intros k [sub Hk]. cbn in Hk. by rewrite lookup_empty in Hk.
  - intros k sub id. cbn. by rewrite lookup_empty.
  - intros id snap p Ht. eapply thread_ok_mono, (so_threads _ Hs); [done| |done]. intros _. left. apply Hnone.
Qed.

(** One request of a goroutine. *)
Lemma thread_step s id snap X (e : PollEv X) k x s' :
  thread_ok s id snap (Vis e k) → may_answer id s e x → sb_opts s' = sb_opts s → sb_live s' = sb_live s →
  sb_parentDone s' = sb_parentDone s → thread_ok s' id snap (k x).
Proof.
  intros (g & Hwp & Hg) Hx Ho Hl Hp.
  assert (ctx_done id s → ctx_done id s') as Hdone by (unfold ctx_done; by rewrite Hl, Hp).
  destruct e; cbn in *;
    try (destruct Hwp as [_ Hwp]; exists g; rewrite Ho; split; [apply Hwp|by intros; apply Hdone, Hg]).
  - exists (ended x g). rewrite Ho. split; [apply Hwp|]. cbn. intros [->|Hd]%orb_true_iff; apply Hdone; [by apply Hx|by apply Hg].
  - destruct Hwp as [_ Hwp]. exists (ended (negb x) g). rewrite Ho. split; [apply Hwp|]. cbn.
    intros [Hn%negb_true_iff|Hd]%orb_true_iff; apply Hdone; [by apply Hx|by apply Hg].
  - destruct Hwp as (_ & He & Hok). destruct x as [l|e]; [exists (got l g)|exists g]; rewrite Ho; (split; [auto|]); by intros; apply Hdone, Hg.
  - destruct Hwp as (_ & Hok & He). destruct x as [[]|e]; [exists (stored fr g)|
      exists (if bool_decide (ekind_of e = EKAlreadyExists) then stored fr g else g)]; rewrite Ho; (split; [auto|]);
      intros Hd; apply Hdone, Hg; [done|by destruct (bool_decide _)].
Qed.

(** What goroutines change, a callback in progress does not depend on. *)
Lemma callback_ok_mono s s' cb :
  sb_subs s' = sb_subs s → sb_namespace s' = sb_namespace s →
  (∀ k, is_Some (h_sessions (sb_health s) !! k) → is_Some (h_sessions (sb_health s') !! k)) →
  callback_ok s cb → callback_ok s' cb.
Proof. intros Hsub Hns Hh. destruct cb; cbn; rewrite ?Hsub, ?Hns; naive_solver. Qed.

Lemma perform_sessions {X} (e : PollEv X) h k : is_Some (h_sessions h !! k) → is_Some (h_sessions (perform e h) !! k).
Proof.
  destruct e; cbn; try done. intros Hk. destruct (decide (key = k)) as [->|]; [by rewrite lookup_insert_eq|].
  by rewrite lookup_insert_ne.
Qed.

Lemma poll_step_ok id snap X (e : PollEv X) k x s :
  sb_threads s !! id = Some (snap, Vis e k) → may_answer id s e x → subscriber_ok s →
  subscriber_ok (set_health (perform e (sb_health s)) (set_threads (<[id := (snap, k x)]> (sb_threads s)) s)).
Proof.
  intros Ht Hx Hs. apply set_health_ok; [|intros key Hk; by apply perform_sessions, (so_session _ Hs)].
  split; cbn; try apply Hs.
  - intros i [Hl|[y [[<- _]|[_ Hy]]%lookup_insert_Some]]; apply (so_next _ Hs); eauto.
  - intros key sub i Hk Hi Hp. destruct (so_running _ Hs _ _ _ Hk Hi Hp) as (sn & p & Htp & Hrest).
    destruct (decide (i = id)) as [->|Hne].
    + simplify_eq. eexists snap, _. cbn. by rewrite lookup_insert_eq.
    + exists sn, p. cbn. by rewrite lookup_insert_ne.
  - intros i sn p [[<- [= <- <-]]|[_ Hp]]%lookup_insert_Some; [|by eapply (so_threads _ Hs)].
    eapply thread_step; [by eapply (so_threads _ Hs)|done..].
Qed.

Lemma exit_step_ok id snap s :
  sb_threads s !! id = Some (snap, Ret true) → subscriber_ok s → subscriber_ok (set_threads (delete id (sb_threads s)) s).
Proof.
  intros Ht Hs. split; cbn; try apply Hs.
  - intros i [Hl|[y [_ Hy]%lookup_delete_Some]]; apply (so_next _ Hs); eauto.
  - intros key sub i Hk Hi Hp. destruct (so_running _ Hs _ _ _ Hk Hi Hp) as (sn & p & Htp & Hrest).
    destruct (decide (i = id)) as [->|Hne]; [|exists sn, p; cbn; by rewrite lookup_delete_ne].
    destruct (so_threads _ Hs _ _ _ Ht) as (g & Hwp & Hd). exfalso.
    destruct (Hd (Hwp eq_refl)) as [Hl|Hpd]; [|congruence]. by apply Hl, (so_live _ Hs _ _ _ Hk).
  - intros i sn p [_ Hp]%lookup_delete_Some. by eapply (so_threads _ Hs).
Qed.

Lemma sys_step_ok sc sc' : sys_step rounds sc sc' → sys_ok sc → sys_ok sc'.
Proof.
  intros Hstep [Hs Hcb]. destruct Hstep as [e s|cb s|s cb Hl|s cb|s cb|id snap X e k x s cb Ht Hx|id snap s cb Ht]; cbn [fst snd] in *.
  - destruct e as [[t|t|]|[t|t|]|[t|[t|]|]]; cbn; auto using Subscriber_Reconcile_ok, Subscriber_Remove_ok; by split.
  - by apply resume_ok.
  - split; [by apply Subscriber_Stop_ok|]. destruct cb; try done; by destruct Hl.
  - split; [|exact Hcb]. apply set_health_ok; [done|]. apply (so_session _ Hs).
  - split; [|exact Hcb]. destruct Hs as [Ho Hl Hh H1 Hn Hns Hse Hr Ht]. split; try done.
    intros id snap p Hp. eapply thread_ok_mono, Ht; [done| |done]. intros _. by right.
  - split; [by apply poll_step_ok|]. eapply callback_ok_mono, Hcb; [done|done|]. intros key Hk. by apply perform_sessions.
  - split; [by eapply exit_step_ok|]. by eapply callback_ok_mono, Hcb.
Qed.

Lemma NewSubscriber_ok ns i o h : opts_ok (withDefaults o) → subscriber_ok (NewSubscriber ns i o h).
Proof. intros Ho. split; cbn; try done; intros *; rewrite ?lookup_empty; try set_solver; by intros []. Qed.

Lemma Check_sessions h k st : Health_Check h = None → h_sessions h !! k = Some st → ses_ok st = true.
Proof.
  unfold Health_Check. destruct (h_started h); [|done]. cbn [negb]. destruct (badSessions h) eqn:Hb; [|done].
  intros _ Hk. destruct (ses_ok st) eqn:Hok; [done|]. exfalso. apply (not_elem_of_nil (k.2 +:+ ": " +:+ ses_msg st)).
  rewrite <- Hb. unfold badSessions. apply list_elem_of_omap. exists (k, st). rewrite Hok. split; [|done]. by apply elem_of_map_to_list.
Qed.


(** A goroutine that reports after its subscription was removed leaves the
    plugin unready for good: no subscription and no goroutine is left, but the
    session is. *)
Lemma stale_session_reachable o t e :
  Selects (NewSubscriber (m_Namespace (tg_Meta t)) (default "" (pt_IntegrationRef <$> ts_Plugin (tg_Spec t))) o NewHealth) t = true →
  ParseQueueURL (queueOf t) = None → (0 < rounds)%nat →
  ∃ s, rtc (sys_step rounds) (NewSubscriber (m_Namespace (tg_Meta t)) (default "" (pt_IntegrationRef <$> ts_Plugin (tg_Spec t))) o NewHealth, Idle) (s, Idle) ∧
    sb_subs s = ∅ ∧ sb_threads s = ∅ ∧ h_sessions (sb_health s) = {[trigger_key t := MkSession false (emsg e)]}.
Proof.
  intros Hsel Hq Hr. destruct rounds as [|fuel] eqn:Hf; [lia|]. eexists. split.
  - eapply rtc_l; [apply (ss_event _ (EvAdd (ObjTrigger t)))|].
    cbn [EventHandler]. unfold Subscriber_Reconcile. rewrite Hsel. cbn [negb NewSubscriber sb_subs]. rewrite lookup_empty.
    do 2 (eapply rtc_l; [apply ss_resume|]; cbn [resume]). unfold subscribe. rewrite Hq.
    eapply rtc_l; [eapply (ss_poll _ 0 _ _ QDone _ false); [cbn [startPoll sb_threads sb_next]; by rewrite lookup_insert_eq|]|].
    { cbn. split; [done|]. intros [Hn|Hn]; [exfalso; apply Hn; cbn; by apply elem_of_union_l, elem_of_singleton|done]. }
    eapply rtc_l; [eapply (ss_poll _ 0 _ _ (QGetAttributes _) _ (Err e)); [cbn; by rewrite lookup_insert_eq|done]|].
    eapply rtc_l; [eapply (ss_poll _ 0 _ _ QDone _ false); [cbn; by rewrite lookup_insert_eq|]|].
    { cbn. split; [done|]. intros [Hn|Hn]; [exfalso; apply Hn; cbn; by apply elem_of_union_l, elem_of_singleton|done]. }
    eapply rtc_l; [apply (ss_event _ (EvDelete (ObjTrigger t)))|].
    cbn [EventHandler]. unfold Subscriber_Remove, dropSub. cbn [startPoll sb_subs set_health set_threads]. rewrite lookup_insert_eq.
    eapply rtc_l; [apply ss_resume|]. cbn [resume].
    eapply rtc_l; [eapply (ss_poll _ 0 _ _ (QSetSession _ _ _) _ tt); [cbn; by rewrite lookup_insert_eq|done]|].
    eapply rtc_l; [eapply (ss_poll _ 0 _ _ (QSleep _) _ false); [cbn; by rewrite lookup_insert_eq|]|].
    { cbn. intros _. left. cbn. intros [_ Hx]%elem_of_difference. by apply Hx, elem_of_singleton. }
    eapply rtc_l; [eapply (ss_exit _ 0); cbn; by rewrite lookup_insert_eq|]. apply rtc_refl.
  - cbn. split; [by rewrite delete_insert_id|]. split; [by rewrite !delete_insert_eq|]. by rewrite !delete_insert_eq.
Qed.

End system.

(** The plugin is started with empty options, which leave the waiting time of a
    receive at zero: an empty queue is polled without a pause. *)
Lemma production_options_poll_without_waiting :
  op_WaitTimeSeconds (withDefaults (MkOptions 0 0 0 0 0)) = 0%Z.
Proof. reflexivity. Qed.
