(* ===== verification/AwsContract.v ===== *)
(** * The two ends of the plugin contract

    [docs/api/plugin-contract.md]: what the FlowRun controller posts to a plugin
    the AWS plugin turns into one SNS publication.  What SNS takes (topic ARNs,
    attribute names, traceparents) is written down on its own and the plugin's
    checks are proved to be exactly that. *)

From S2P Require Import Prelude SecretIndex GoStd Runes Api Effects Interp Kube KObjects FlowCtl IntegrationCtl Steps Publish AwsPlugin.

Local Open Scope string_scope.
Local Open Scope list_scope.
Local Open Scope go_scope.

(** ** What SNS takes *)

(** [arn:<partition>:sns:<region>:<account>:<topic>]. *)
Definition topic_arn (dest : string) : Prop :=
  ∃ partition region account topic,
    dest = "arn:" +:+ partition +:+ ":sns:" +:+ region +:+ ":" +:+ account +:+ ":" +:+ topic ∧
    (∀ t, t ∈ [partition; region; account; topic] → has_char ":" t = false) ∧
    region ≠ "" ∧ account ≠ "" ∧ topic ≠ "".

Definition letters : string := "ABCDEFGHIJKLMNOPQRSTUVWXYZabcdefghijklmnopqrstuvwxyz".
Definition among (set : string) (s : string) : Prop := ∀ c, c ∈ list_ascii_of_string s → c ∈ list_ascii_of_string set.

(** Names of message attributes: up to 256 letters, digits, [_], [-] and [.],
    no dot at an end or after another, and not in the name space of AWS. *)
Definition attribute_name (k : string) : Prop :=
  (1 <= slen k <= 256)%nat ∧ among (letters +:+ "0123456789_-.") k ∧
  (∀ t, k ≠ "." +:+ t) ∧ (∀ t, k ≠ t +:+ ".") ∧ (∀ a b, k ≠ a +:+ ".." +:+ b) ∧
  ∀ a b, k = a +:+ b → ToLower a ≠ "aws." ∧ ToLower a ≠ "amazon.".

(** A W3C traceparent of version 00. *)
Definition trace_context (t : string) : Prop :=
  ∃ trace span flags, t = "00-" +:+ trace +:+ "-" +:+ span +:+ "-" +:+ flags ∧
    among "0123456789abcdef" (trace +:+ span +:+ flags) ∧ slen trace = 32%nat ∧ slen span = 16%nat ∧ slen flags = 2%nat.

(** What is forwarded of the traceparent of a request. *)
Definition forwarded (traceparent tp : string) : Prop :=
  (trace_context traceparent ∧ tp = traceparent) ∨ (¬ trace_context traceparent ∧ tp = "").

Lemma all_chars_impl (f g : ascii → bool) s : (∀ c, f c = true → g c = true) → all_chars f s = true → all_chars g s = true.
Proof. intros Hfg. induction s as [|c s IH]; [done|]. cbn. intros Hs. bool_hyps. by rewrite Hfg, IH. Qed.

Lemma all_chars_app f s t : all_chars f (s +:+ t) = all_chars f s && all_chars f t.
Proof.
  induction s as [|c s IH]; [done|]. change (f c && all_chars f (s +:+ t) = (f c && all_chars f s) && all_chars f t).
  rewrite IH. apply andb_assoc.
Qed.

Lemma all_chars_among f set s :
  (∀ c, f c = true ↔ c ∈ list_ascii_of_string set) → all_chars f s = true ↔ among set s.
Proof.
  intros Hf. unfold among. induction s as [|c s IH]; cbn [all_chars list_ascii_of_string].
  - split; [|done]. by intros _ c ?%not_elem_of_nil.
  - rewrite andb_true_iff, IH, Hf. setoid_rewrite elem_of_cons. naive_solver.
Qed.

Lemma attr_chars c : attr_char c = true ↔ c ∈ list_ascii_of_string (letters +:+ "0123456789_-.").
Proof.
  rewrite <-(bool_decide_eq_true (c ∈ _)).
  enough (attr_char c = bool_decide (c ∈ list_ascii_of_string (letters +:+ "0123456789_-."))) as -> by done.
  by destruct c as [[] [] [] [] [] [] [] []].
Qed.

Lemma hex_chars c : hex_char c = true ↔ c ∈ list_ascii_of_string "0123456789abcdef".
Proof.
  rewrite <-(bool_decide_eq_true (c ∈ _)).
  enough (hex_char c = bool_decide (c ∈ list_ascii_of_string "0123456789abcdef")) as -> by done.
  by destruct c as [[] [] [] [] [] [] [] []].
Qed.

Lemma Contains_infix s sub : Contains s sub = true ↔ ∃ a b, s = a +:+ sub +:+ b.
Proof.
  unfold Contains. split.
  - destruct (Index s sub) as [n|] eqn:Hn; [|done]. intros _. apply Index_Some in Hn as [_ [t Ht]%HasPrefix_spec].
    exists (stake n s), t. by rewrite <-Ht, stake_sdrop.
  - intros (a & b & ->). by destruct (Index_infix a sub b) as [n ->].
Qed.

Lemma has_char_infix c s : has_char c s = true ↔ ∃ a b, s = a +:+ String c b.
Proof.
  split.
  - induction s as [|d s IH]; [done|]. cbn [has_char]. intros [->%Ascii.eqb_eq|Hs]%orb_true_iff; [by exists "", s|].
    destruct (IH Hs) as (a & b & ->). by exists (String d a), b.
  - intros (a & b & ->). rewrite has_char_app. cbn [has_char]. rewrite Ascii.eqb_refl. apply orb_true_r.
Qed.

Lemma Contains_char c s : Contains s (String c "") = has_char c s.
Proof. apply eq_iff_eq_true. by rewrite Contains_infix, has_char_infix. Qed.

Lemma lower_prefix k p : HasPrefix (ToLower k) p = true ↔ ∃ a b, k = a +:+ b ∧ ToLower a = p.
Proof.
  unfold ToLower. split.
  - revert k. induction p as [|c p IH]; intros k; [intros _; by exists "", k|]. destruct k as [|d k]; [done|].
    unfold HasPrefix. cbn [smap String.prefix]. destruct (ascii_dec c (lower_char d)) as [->|]; [|done].
    intros (a & b & -> & Ha)%IH. exists (String d a), b. split; [done|]. cbn [smap]. by rewrite Ha.
  - intros (a & b & -> & <-). apply HasPrefix_spec. exists (smap lower_char b). induction a as [|d a IH]; [done|].
    change (String d a +:+ b) with (String d (a +:+ b)). cbn [smap]. by rewrite IH.
Qed.

Lemma badAttrName_spec k : badAttrName k = false ↔ attribute_name k.
Proof.
  unfold badAttrName, attrNameRE, attribute_name. rewrite !orb_false_iff, negb_false_iff, !andb_true_iff, !Nat.leb_le.
  rewrite (all_chars_among _ _ _ attr_chars), <-!not_true_iff_false, HasPrefix_spec, HasSuffix_spec, Contains_infix, !lower_prefix.
  split.
  - intros [[[[[[[Hl Hu] Hc] H1] H2] H3] H4] H5]. split_and!; [done|done|done| | | |].
    + intros t Ht. apply H1. by exists t.
    + intros t Ht. apply H2. by exists t.
    + intros a b Ht. apply H3. by exists a, b.
    + intros a b Hk. split; intros Ha; [apply H4|apply H5]; by exists a, b.
  - intros ([Hl Hu] & Hc & H1 & H2 & H3 & H4). split_and!; try done.
    + intros [t ?]. by apply (H1 t).
    + intros [t ?]. by apply (H2 t).
    + intros (a & b & ?). by apply (H3 a b).
    + intros (a & b & Hk & Ha). by destruct (H4 a b Hk).
    + intros (a & b & Hk & Ha). by destruct (H4 a b Hk).
Qed.

Lemma split_char_join c s : s = Join (split_char c s) (String c "").
Proof.
  induction s as [|d s IH]; [done|]. cbn [split_char]. destruct (Ascii.eqb_spec d c) as [->|Hne].
  - destruct (split_char c s) as [|x l] eqn:Hs; [|by rewrite IH at 1]. exfalso. clear -Hs. destruct s as [|e s]; [done|].
    cbn in Hs. destruct (e =? c)%char; [done|]. by destruct (split_char c s).
  - rewrite IH at 1. by destruct (split_char c s) as [|x [|y l]].
Qed.

Lemma hexes_spec n s : hexes n s = true ↔ slen s = n ∧ among "0123456789abcdef" s.
Proof. unfold hexes. by rewrite andb_true_iff, Nat.eqb_eq, (all_chars_among _ _ _ hex_chars). Qed.

Lemma among_app set a b : among set (a +:+ b) ↔ among set a ∧ among set b.
Proof.
  unfold among. assert (list_ascii_of_string (a +:+ b) = list_ascii_of_string a ++ list_ascii_of_string b) as ->.
  { induction a as [|c a IH]; [done|]. change (String c a +:+ b) with (String c (a +:+ b)). cbn. by rewrite IH. }
  setoid_rewrite elem_of_app. naive_solver.
Qed.

Lemma among_no_dash s : among "0123456789abcdef" s → has_char "-" s = false.
Proof.
  intros Ha. apply not_true_iff_false. intros (a & b & ->)%has_char_infix.
  apply among_app in Ha as [_ Ha]. specialize (Ha "-"%char ltac:(left)). apply hex_chars in Ha. done.
Qed.

Lemma traceparentRE_spec t : traceparentRE t = true ↔ trace_context t.
Proof.
  unfold traceparentRE, trace_context. split.
  - destruct (split_char "-" t) as [|v [|tr [|sp [|fl [|]]]]] eqn:Hs; try done. rewrite !andb_true_iff, String.eqb_eq, !hexes_spec.
    intros [[[-> [Htr ?]] [Hsp ?]] [Hfl ?]]. exists tr, sp, fl. rewrite (split_char_join "-" t), Hs.
    split_and!; try done. by rewrite !among_app.
  - intros (tr & sp & fl & -> & Ha & ? & ? & ?). rewrite !among_app in Ha. destruct Ha as (Htr & Hsp & Hfl).
    assert (split_char "-" ("00-" +:+ tr +:+ "-" +:+ sp +:+ "-" +:+ fl) = ["00"; tr; sp; fl]) as ->.
    { change ("00-" +:+ tr +:+ "-" +:+ sp +:+ "-" +:+ fl) with ("00" +:+ String "-" (tr +:+ String "-" (sp +:+ String "-" fl))).
      rewrite !split_char_app. rewrite (split_char_one "-" tr), (split_char_one "-" sp), (split_char_one "-" fl) by by apply among_no_dash. done. }
    rewrite !andb_true_iff, !hexes_spec. done.
Qed.

Lemma acceptTraceparent_spec t tp : forwarded t tp ↔ tp = acceptTraceparent t.
Proof.
  unfold forwarded, acceptTraceparent. rewrite <-traceparentRE_spec. destruct (String.eqb_spec t "") as [->|Hne]; cbn [negb andb].
  - split; [naive_solver|]. intros ->. right. by split.
  - destruct (traceparentRE t); cbn [negb]; naive_solver.
Qed.

(** ** Publishing *)

Definition attr_ok (kv : string * string) : bool := negb (badAttrName kv.1) && negb (kv.2 =? "").

Lemma headerAttrs_spec l acc :
  if forallb attr_ok l then headerAttrs l acc = Ok (fold_left (λ m kv, <[kv.1 := kv.2]> m) l acc)
  else ∃ e, headerAttrs l acc = Err e.
Proof.
  revert acc. induction l as [|[k v] l IH]; intros acc; [done|]. cbn [forallb headerAttrs fold_left fst snd].
  unfold attr_ok at 1. cbn [fst snd]. destruct (badAttrName k); cbn [negb andb]; [by eexists|].
  destruct (v =? ""); cbn [negb andb]; [by eexists|]. apply IH.
Qed.

Lemma fold_insert_map (l : list (string * string)) (m : gmap string string) :
  l ≡ₚ map_to_list m → fold_left (λ m kv, <[kv.1 := kv.2]> m) l (∅ : gmap string string) = m.
Proof.
  intros Hp. rewrite <- (list_to_map_to_list m). rewrite <- fold_left_rev_right.
  assert (NoDup (rev l).*1) as Hnd.
  { eapply (NoDup_Permutation_proper _ (map_to_list m).*1); [|apply NoDup_fst_map_to_list].
    apply fmap_Permutation. by rewrite <- Permutation_rev. }
  transitivity (list_to_map (M := gmap string string) (rev l)).
  - clear. induction (rev l) as [|[k v] l' IH]; [done|]. cbn. by rewrite IH.
  - apply list_to_map_proper; [done|]. by rewrite <- Permutation_rev.
Qed.

Definition attributes (headers : gmap string string) (tp : string) : gmap string string :=
  if (tp =? "") then headers else <[traceparentKey := tp]> headers.

Section contract.
  Context `{AL : AwsLib} `{HL : HttpLib}.

(** A message SNS can take. *)
Definition publishable (dest body : string) (headers : gmap string string) (tp : string) : Prop :=
  topic_arn dest ∧ body ≠ "" ∧ map_Forall (λ k v, attribute_name k ∧ v ≠ "") headers ∧
  (size (attributes headers tp) <= 10)%nat.

(** On a FIFO topic, the group of the Integration and the key against
    duplicates. *)
Definition topicIDs (p : Publisher) (dest key : string) : option string * option string :=
  if HasSuffix dest ".fifo"
  then (Some (stake 128 ("kubezap-" +:+ pb_namespace p +:+ "-" +:+ pb_integrationName p)), if (key =? "") then None else Some key)
  else (None, None).

Definition key_ok (key : string) : Prop := (slen key <= maxFIFOIDLen)%nat ∧ (key = "" ∨ fifoIDRE key = true).

(** *** What travels between the two processes *)

(** [arn.Parse] of the SDK: six sections separated by colons, the last with the
    rest.  [encoding/json] and [crypto/sha256] on the messages of the contract:
    [EncodeResponse] is the body [writeJSON] produces. *)
Class PluginWire := {
  EncodeResponse : PubBody → string;
  arn_parses partition service region account resource :
    (∀ t, t ∈ [partition; service; region; account] → has_char ":" t = false) →
    arn_Parse ("arn:" +:+ partition +:+ ":" +:+ service +:+ ":" +:+ region +:+ ":" +:+ account +:+ ":" +:+ resource) =
      Ok (MkARN service region account resource);
  arn_sections d a : arn_Parse d = Ok a →
    ∃ partition, (∀ t, t ∈ [partition; arn_Service a; arn_Region a; arn_AccountID a] → has_char ":" t = false) ∧
      d = "arn:" +:+ partition +:+ ":" +:+ arn_Service a +:+ ":" +:+ arn_Region a +:+ ":" +:+ arn_AccountID a +:+ ":" +:+ arn_Resource a;
  envelope_decodes i ns d h b k env :
    MarshalEnvelope i ns d h b k = Ok env →
    utf8_valid i → utf8_valid ns → utf8_valid d → utf8_valid b → utf8_valid k →
    map_Forall (λ hk hv, utf8_valid hk ∧ utf8_valid hv) h →
    DecodePublish MaxRequestBodyBytes env =
      (if (MaxRequestBodyBytes <? Z.of_nat (slen env))%Z then DecTooLarge else DecRequest (MkPublishRequest i ns d h b k));
  (** A reply whose escaped identifier fits in the bytes the controller reads. *)
  success_decodes id : utf8_valid id → (slen id <= 128)%nat → DecodePublishSuccess (stake 1024 (EncodeResponse (PubSuccess id))) = Some id;
  sha256_hex_digits s : hexes 64 (sha256_hex s) = true
}.

(** What becomes of one HTTP exchange. *)
Inductive Exchange := Delivered | ReplyLost (e : gerr) | Unreachable (e : gerr).

Context `{PW : !PluginWire} `{CL : CelLib}.

(** SNS keeps the publications it is asked for. *)
Definition sns_handler (order : gmap string string → list (string * string)) (sns : PublishInput → string + SnsErr)
    {X} (e : PubEv X) (log : list PublishInput) : X * list PublishInput :=
  match e with
  | PubMapOrder m => (order m, log)
  | PubPublish i => (sns i, log ++ [i])
  end.

(** The controller's requests, those to the plugin answered by the plugin's
    server. *)
Definition plugin_handler (order : gmap string string → list (string * string)) (sns : PublishInput → string + SnsErr)
    (p : Publisher) (traceparent : string) (x : Exchange) (other : ∀ X, Ev X → X)
    {X} (e : Ev X) (log : list PublishInput) : X * list PublishInput :=
  match e with
  | EvPluginDo _ envelope _ =>
      match x with
      | Unreachable err => (Err err, log)
      | _ =>
          let '(resp, log) := run (@sns_handler order sns) (Publisher_ServeHTTP p "POST" traceparent envelope) log in
          (match x with
           | ReplyLost err => Err err
           | _ => Ok (pr_Status resp, EncodeResponse (pr_Body resp))
           end, log)
      end
  | e => (other _ e, log)
  end.

Definition reached (x : Exchange) : bool := match x with Unreachable _ => false | _ => true end.
Definition answered (x : Exchange) : bool := match x with Delivered => true | _ => false end.

(** The publication SNS is asked for. *)
Definition publication (p : Publisher) (dest body : string) (headers : gmap string string) (key tp : string) : PublishInput :=
  MkPublishInput dest body (attributes headers tp) (topicIDs p dest key).1 (topicIDs p dest key).2.

Lemma ascii_utf8 s : all_chars (in_range 0 127 ∘ byte) s = true → utf8_valid s = true.
Proof.
  induction s as [|c s IH]; [done|]. cbn [all_chars]. intros Hs. bool_hyps. unfold compose, in_range in *. bool_hyps.
  unfold utf8_valid. rewrite runes_cons_ascii by lia. cbn [forallb].
  replace (byte c =? RuneError)%Z with false; [by apply IH|]. symmetry. apply Z.eqb_neq. unfold RuneError. lia.
Qed.

Lemma hex_ascii c : hex_char c = true → in_range 33 126 (byte c) = true ∧ in_range 0 127 (byte c) = true.
Proof. unfold hex_char, in_range. rewrite orb_true_iff, !andb_true_iff, !Z.leb_le. lia. Qed.

Lemma ValidateTopicARN_spec dest : ValidateTopicARN dest = None ↔ topic_arn dest.
Proof.
  unfold ValidateTopicARN, topic_arn. split.
  - destruct (_ =? ""); [done|]. destruct (arn_Parse dest) as [a|] eqn:Ha; [|done].
    destruct (_ || _) eqn:Hbad; [done|]. intros _. rewrite !orb_false_iff, negb_false_iff, !String.eqb_neq, String.eqb_eq in Hbad.
    destruct Hbad as [[[[Hsns Hr] Hacc] Hres] Hcol]. rewrite Contains_char in Hcol.
    destruct (arn_sections _ _ Ha) as (p & Hc & ->). rewrite Hsns in *.
    exists p, (arn_Region a), (arn_AccountID a), (arn_Resource a). split_and!; [done| |done..].
    intros t Ht. rewrite !elem_of_cons, elem_of_nil in Ht. destruct Ht as [->|[->|[->|[->|[]]]]]; [apply Hc; set_solver..|done].
  - intros (p & rg & acc & tp & -> & Hc & Hr & Ha & Ht).
    assert (∀ t, TrimSpace (String "a" t) ≠ "") as Htrim by 
      (intros t; change (trim_right_by is_space (String "a" t) ≠ ""); cbn; destruct (trim_right_by is_space t); discriminate).
    set (dest := "arn:" +:+ _). assert ((TrimSpace dest =? "") = false) as -> by (apply String.eqb_neq, Htrim). subst dest.
    pose proof (arn_parses p "sns" rg acc tp) as Hparse.
    change (":" +:+ "sns" +:+ ":" +:+ rg +:+ ":" +:+ acc +:+ ":" +:+ tp) with (":sns:" +:+ rg +:+ ":" +:+ acc +:+ ":" +:+ tp) in Hparse.
    rewrite Hparse; clear Hparse.
    + cbn [arn_Service arn_Region arn_AccountID arn_Resource]. rewrite Contains_char, (Hc tp) by set_solver.
      by rewrite (proj2 (String.eqb_neq rg "") Hr), (proj2 (String.eqb_neq acc "") Ha), (proj2 (String.eqb_neq tp "") Ht).
    + intros t Hin. rewrite !elem_of_cons in Hin. destruct Hin as [->|[->|Hin]]; [apply Hc; set_solver|done|]. apply Hc. set_solver.
Qed.

#[global] Instance publishable_dec dest body headers tp : Decision (publishable dest body headers tp).
Proof.
  assert (Decision (topic_arn dest)).
  { destruct (ValidateTopicARN dest) eqn:Hv; [right|left]; rewrite <-ValidateTopicARN_spec, Hv; done. }
  assert (∀ k, Decision (attribute_name k)).
  { intros k. destruct (badAttrName k) eqn:Hb; [right|left]; rewrite <-badAttrName_spec, Hb; done. }
  apply _.
Defined.

(** Whatever the order in which the headers are visited. *)
Lemma buildInput_spec order sns p req tp log :
  (∀ m, order m ≡ₚ map_to_list m) → key_ok (pq_IdempotencyKey req) →
  let r := run (@sns_handler order sns) (buildInput p req tp) log in
  r.2 = log ∧
  (publishable (pq_Destination req) (pq_Body req) (pq_Headers req) tp →
   r.1 = Ok (publication p (pq_Destination req) (pq_Body req) (pq_Headers req) (pq_IdempotencyKey req) tp)) ∧
  (¬ publishable (pq_Destination req) (pq_Body req) (pq_Headers req) tp → ∃ e, r.1 = Err e).
Proof.
  intros Horder [Hlen Hkey]. unfold buildInput, publishable. rewrite <-ValidateTopicARN_spec. cbn zeta.
  destruct (ValidateTopicARN (pq_Destination req)) as [e|]; [split_and!; [done|by intros [? _]|by intros _; eexists]|].
  destruct (String.eqb_spec (pq_Body req) "") as [Hb|Hb]; [split_and!; [done|by intros (_ & ? & _)|by intros _; eexists]|].
  rewrite run_bind. cbn [run emit sns_handler]. set (l := order (pq_Headers req)).
  pose proof (Horder (pq_Headers req)) as Hl. fold l in Hl. pose proof (headerAttrs_spec l ∅) as Hattrs.
  assert (forallb attr_ok l = true ↔ ∀ k v, pq_Headers req !! k = Some v → attribute_name k ∧ v ≠ "") as Hall.
  { rewrite forallb_forall. split; intros Hf.
    - intros k v Hk%elem_of_map_to_list. rewrite <- Hl in Hk. apply list_elem_of_In in Hk. apply Hf in Hk.
      unfold attr_ok in Hk. cbn in Hk. rewrite <-badAttrName_spec. by bool_hyps.
    - intros [k v] Hk%list_elem_of_In. rewrite Hl in Hk. apply elem_of_map_to_list in Hk. destruct (Hf _ _ Hk) as [Hk'%badAttrName_spec Hv].
      unfold attr_ok. cbn. rewrite Hk'. by apply String.eqb_neq in Hv as ->. }
  destruct (forallb attr_ok l).
  2: { destruct Hattrs as [e ->]. split_and!; [done| |by intros _; eexists]. intros (_ & _ & Hf & _). by apply Hall in Hf. }
  rewrite Hattrs, (fold_insert_map _ _ Hl).
  fold (attributes (pq_Headers req) tp). destruct (Nat.ltb_spec maxMessageAttributes (size (attributes (pq_Headers req) tp))) as [Hsz|Hsz]; unfold maxMessageAttributes in Hsz.
  { split_and!; [done|intros (_ & _ & _ & ?); lia|by intros _; eexists]. }
  assert (fifoIDs p req = Ok (topicIDs p (pq_Destination req) (pq_IdempotencyKey req))) as ->.
  { unfold fifoIDs, topicIDs. destruct (HasSuffix _ _); [|done].
    destruct (String.eqb_spec (pq_IdempotencyKey req) ""); [done|]. destruct Hkey as [?|Hk]; [done|].
    rewrite Hk. by apply Nat.ltb_ge in Hlen as ->. }
  unfold publication. destruct (topicIDs p (pq_Destination req) (pq_IdempotencyKey req)) as [g d]. split_and!; [done..|].
  intros Hn. exfalso. apply Hn. split_and!; try done. unfold map_Forall. by apply Hall.
Qed.

(** The idempotency key is always fit for a FIFO topic. *)
Lemma key_fit uid step :
  key_ok (pluginPublishIdempotencyKey uid step) ∧ utf8_valid (pluginPublishIdempotencyKey uid step) ∧
  pluginPublishIdempotencyKey uid step ≠ "".
Proof.
  unfold key_ok, pluginPublishIdempotencyKey, pluginPublishIdempotencyKeyPrefix.
  pose proof (sha256_hex_digits (uid +:+ nul +:+ step)) as Hh. unfold hexes in Hh. apply andb_true_iff in Hh as [Hl%Nat.eqb_eq Hh]. set (h := sha256_hex _) in *.
  rewrite slen_app. split_and!; [cbn; unfold maxFIFOIDLen; lia| |apply Is_true_eq_left, ascii_utf8|done].
  - right. unfold fifoIDRE. rewrite slen_app, Hl, all_chars_app. apply (all_chars_impl hex_char); [|done]. by intros c [? _]%hex_ascii.
  - rewrite all_chars_app. apply (all_chars_impl hex_char); [|done]. by intros c [_ ?]%hex_ascii.
Qed.

Lemma classifyError_status e : (400 <= (classifyError e).1)%Z.
Proof. unfold classifyError. destruct (sn_API e) as [[[c m] []]|]; repeat case_match; cbn; lia. Qed.

(** One request to the plugin's server. *)
Lemma serve_spec order sns p tp env log i ns d h b k :
  (∀ m, order m ≡ₚ map_to_list m) → key_ok k →
  DecodePublish MaxRequestBodyBytes env =
    (if (MaxRequestBodyBytes <? Z.of_nat (slen env))%Z then DecTooLarge else DecRequest (MkPublishRequest i ns d h b k)) →
  let sendable := publishable d b h (acceptTraceparent tp) ∧ (Z.of_nat (slen env) <= MaxRequestBodyBytes)%Z in
  let pub := publication p d b h k (acceptTraceparent tp) in
  let r := run (@sns_handler order sns) (Publisher_ServeHTTP p "POST" tp env) log in
  (sendable → r.2 = log ++ [pub] ∧
     match sns pub with
     | inl id => pr_Status r.1 = 200%Z ∧ pr_Body r.1 = PubSuccess id
     | inr _ => (400 <= pr_Status r.1)%Z
     end) ∧
  (¬ sendable → r.2 = log ∧ (400 <= pr_Status r.1)%Z).
Proof.
  intros Hord Hk Hdec. cbn zeta. unfold Publisher_ServeHTTP. cbn [String.eqb Ascii.eqb Bool.eqb negb]. rewrite Hdec.
  destruct (Z.ltb_spec MaxRequestBodyBytes (Z.of_nat (slen env))) as [Hbig|Hfit].
  { split; [intros [_ ?]; lia|intros _]. split; [done|cbn; lia]. }
  rewrite run_bind. set (req := MkPublishRequest i ns d h b k).
  destruct (buildInput_spec order sns p req (acceptTraceparent tp) log Hord Hk) as (Hlog & Hpub & Hnot).
  destruct (run _ (buildInput _ _ _) log) as [res log'] eqn:Hrun. cbn in Hlog, Hpub, Hnot. subst log'.
  split.
  - intros [Hp _]. rewrite (Hpub Hp), run_bind. cbn [run emit sns_handler]. destruct (sns _) as [id|e]; [done|].
    pose proof (classifyError_status e) as He. by destruct (classifyError e).
  - intros Hn. destruct Hnot as [e ->]; [naive_solver|]. split; [done|cbn; lia].
Qed.

Definition is_ok {A} (x : result A) : Prop := ∃ a, x = Ok a.

(** What the controller makes of the exchange. *)
Lemma doPluginPublish_run order sns p tp x other r url name ns dest body headers key log env :
  MarshalEnvelope name ns dest headers body key = Ok env →
  (∀ u, u = url ∨ u = ReplaceAll url "http://" "https://" → NewRequestError u = None) →
  let out := run (@plugin_handler order sns p tp x other) (doPluginPublish r url name ns dest body headers key) log in
  let srv := run (@sns_handler order sns) (Publisher_ServeHTTP p "POST" tp env) log in
  out.2 = (if reached x then srv.2 else log) ∧
  (is_ok out.1 ↔ answered x ∧ (pr_Status srv.1 < 400)%Z) ∧
  (∀ id m, out.1 = Ok m → pr_Body srv.1 = PubSuccess id → utf8_valid id → (slen id <= 128)%nat →
     m = if (id =? "") then ∅ else {["messageId" := id]}).
Proof.
  intros Henv Hurl. cbn zeta. unfold doPluginPublish. rewrite Henv, run_bind.
  destruct (run _ (if HasPluginMTLSStore r then _ else _) log) as [mtls log0] eqn:Hm.
  assert (log0 = log) as -> by (destruct (HasPluginMTLSStore r); cbn in Hm; by simplify_eq).
  rewrite Hurl by (destruct mtls; auto). rewrite run_bind. cbn [run emit plugin_handler].
  destruct (run (@sns_handler order sns) _ log) as [resp log1] eqn:Hs. cbn [fst snd].
  unfold is_ok. destruct x as [|e|e]; cbn [run fst snd reached answered].
  2,3: split_and!; [done|split; [by intros [??]|by intros [[] _]]|done].
  destruct (Z.leb_spec 400 (pr_Status resp)) as [Hst|Hst].
  - repeat (case_match; cbn [run fst snd]); (split_and!; [done|split; [by intros [??]|intros [_ ?]; lia]|done]).
  - destruct (DecodePublishSuccess _) as [id'|] eqn:Hd; [destruct (id' =? "") eqn:Hid|]; cbn [negb run fst snd];
      (split_and!; [done|split; [by split|by eexists]|]); intros id m [= <-] Hb Hu Hl; rewrite Hb, success_decodes in Hd by done;
      simplify_eq; by rewrite ?Hid.
Qed.

(** C26: one publish request to the AWS plugin, end to end (a step that is
    retried makes one for each attempt), with texts in UTF-8 and a plugin URL a
    request can be built for.  It makes the plugin ask SNS for exactly one
    publication when the plugin is reached, the envelope is within 1 MiB and the
    message is one SNS can take (a full topic ARN, a body, at most 10 attributes
    with legal names and values), and for none otherwise.  The publication is faithful: the
    destination and body of the request, its headers (and a well-formed
    traceparent, no other) as attributes, and on a FIFO topic the key of the run
    and step as deduplication identifier, so the same at every attempt.  The
    controller reports success exactly when the reply arrived and SNS accepted
    the message, with the message identifier SNS gave. *)
Theorem plugin_publish_end_to_end order sns p traceparent tp x other r url name ns dest body headers uid step log env :
  let key := pluginPublishIdempotencyKey uid step in
  let pub := publication p dest body headers key tp in
  let sendable := publishable dest body headers tp ∧ (Z.of_nat (slen env) <= 1048576)%Z in
  let out := run (@plugin_handler order sns p traceparent x other) (doPluginPublish r url name ns dest body headers key) log in
  (∀ m, order m ≡ₚ map_to_list m) → forwarded traceparent tp →
  Forall utf8_valid [name; ns; dest; body] → map_Forall (λ hk hv, utf8_valid hk ∧ utf8_valid hv) headers →
  MarshalEnvelope name ns dest headers body key = Ok env →
  (∀ u, u = url ∨ u = ReplaceAll url "http://" "https://" → NewRequestError u = None) →
  (reached x ∧ sendable → out.2 = log ++ [pub]) ∧
  (¬ (reached x ∧ sendable) → out.2 = log) ∧
  (is_ok out.1 ↔ answered x ∧ sendable ∧ ∃ id, sns pub = inl id) ∧
  (∀ m id, out.1 = Ok m → sns pub = inl id → utf8_valid id → (slen id <= 128)%nat →
     m = if (id =? "") then ∅ else {["messageId" := id]}) ∧
  (HasSuffix dest ".fifo" → pu_DeduplicationId pub = Some key ∧ is_Some (pu_GroupId pub)).
Proof.
  cbn zeta. intros Hord ->%acceptTraceparent_spec Hutf Hhdr Henv Hurl. destruct (key_fit uid step) as (Hkok & Hku & Hkne).
  set (key := pluginPublishIdempotencyKey uid step) in *. rewrite !Forall_cons in Hutf. destruct Hutf as (Hn & Hns & Hd & Hb & _).
  pose proof (envelope_decodes _ _ _ _ _ _ _ Henv Hn Hns Hd Hb Hku Hhdr) as Hdec.
  destruct (serve_spec order sns p traceparent env log _ _ _ _ _ _ Hord Hkok Hdec) as [Hyes Hno].
  destruct (doPluginPublish_run order sns p traceparent x other r url name ns dest body headers key log env Henv Hurl) as (Hlog & Hok & Hid).
  set (out := run _ (doPluginPublish _ _ _ _ _ _ _ _) log) in *. set (srv := run _ (Publisher_ServeHTTP _ _ _ _) log) in *.
  set (sendable := publishable _ _ _ _ ∧ _) in *. set (pub := publication _ _ _ _ _ _) in *.
  assert (HasSuffix dest ".fifo" → pu_DeduplicationId pub = Some key ∧ is_Some (pu_GroupId pub)) as Hfifo.
  { intros Hf%Is_true_eq_true. subst pub. unfold publication, topicIDs. rewrite Hf. by apply String.eqb_neq in Hkne as ->. }
  assert (Decision sendable) as [Hs|Hs] by apply _.
  - destruct (Hyes Hs) as [Hl Hst]. rewrite Hlog, Hl, Hok. split_and!.
    + by intros [->%Is_true_eq_true _].
    + destruct x; naive_solver.
    + destruct (sns pub) as [id|e]; [|naive_solver lia]. destruct Hst as [-> _]. naive_solver.
    + intros m id Hm Hsns. rewrite Hsns in Hst. apply Hid; [done|apply Hst].
    + done.
  - destruct (Hno Hs) as [Hl Hst]. rewrite Hlog, Hl, Hok. split_and!; [by intros [_ ?]|by destruct x|split; [intros [_ ?]; lia|by intros (_ & ? & _)]| |done].
    + intros m id Hm. assert (is_ok out.1) as [_ ?]%Hok by (by eexists). lia.
Qed.

End contract.
