(* ===== verification/AwsDeployment.v ===== *)
(** * The plugin starts with the environment it is given

    The Integration controller writes the environment of a plugin's container
    ([desiredPluginDeployment]); the AWS plugin reads its configuration from
    that environment ([LoadConfig]) and opens its listeners from the
    configuration ([NewServers]). *)

From S2P Require Import Prelude SecretIndex GoStd Runes Api Effects Interp Kube KObjects FlowCtl IntegrationCtl Delivery DeliveryProps AwsPlugin.

Local Open Scope string_scope.
Local Open Scope list_scope.
Local Open Scope go_scope.

(** ** Decimal ports *)

Lemma digit_val_char (x : N) : (x < 10)%N → digit_val (pretty_N_char x) = Some (Z.of_N x).
Proof. intros Hx. destruct x as [|p]; [done|]. do 4 (destruct p as [p|p|]; try done; try lia). Qed.

Lemma parse_pretty x s : parse_digits 0 (pretty_N_go x s) = parse_digits (Z.of_N x) s.
Proof.
  revert s. induction (N.lt_wf_0 x) as [x _ IH]; intros s.
  destruct (decide (0 < x)%N) as [Hx|Hx]; [|by assert (x = 0%N) as -> by lia].
  rewrite pretty_N_go_step by done. rewrite IH by (by apply N.div_lt). cbn [parse_digits].
  rewrite digit_val_char by (by apply N.mod_lt). f_equal.
  rewrite N2Z.inj_div, N2Z.inj_mod. pose proof (Z.div_mod (Z.of_N x) 10). lia.
Qed.

Lemma digit_not_space c : in_range 48 57 (byte c) = true → is_space c = false.
Proof. by destruct c as [[] [] [] [] [] [] [] []]. Qed.

Lemma TrimSpace_digits s : digits s = true → TrimSpace s = s.
Proof.
  intros Hs. assert (∀ s, digits s = true → trim_right_by is_space s = s) as Hright.
  { clear. induction s as [|c s IH]; [done|]. cbn [digits trim_right_by]. intros [Hc Hs]%andb_true_iff. rewrite (IH Hs).
    destruct s; [|done]. by rewrite digit_not_space. }
  unfold TrimSpace. destruct s as [|c s]; [done|]. cbn [trim_left_by]. cbn [digits] in Hs.
  destruct (andb_true_iff (in_range 48 57 (byte c)) (digits s)) as [Hc _]. rewrite digit_not_space by (by apply Hc).
  by apply Hright.
Qed.

Lemma parsePort_Itoa p : (1 <= p <= 65535)%Z → parsePort (TrimSpace (Itoa p)) = Ok p.
Proof.
  intros Hp. rewrite TrimSpace_digits by (apply Itoa_digits; lia). unfold parsePort.
  assert (ParseInt (Itoa p) = Some p) as ->.
  - assert (digits (Itoa p) = true ∧ parse_digits 0 (Itoa p) = Some p) as [Hd Hv].
    { split; [apply Itoa_digits; lia|]. destruct p as [|p|p]; [lia| |lia]. change (Itoa (Z.pos p)) with (pretty (N.pos p)).
      unfold pretty, pretty_N. rewrite decide_False by done. by rewrite parse_pretty. }
    destruct (Itoa p) as [|c s]; [cbn in Hv; simplify_eq; lia|]. cbn [digits] in Hd. apply andb_true_iff in Hd as [Hc _].
    assert (ParseInt (String c s) = match parse_digits 0 (String c s) with
              | None => None
              | Some v => if (min_int64 <=? v)%Z && (v <=? max_int64)%Z then Some v else None end) as ->.
    { by destruct c as [[] [] [] [] [] [] [] []]. }
    rewrite Hv. unfold min_int64, max_int64. destruct (Z.leb_spec (- 2 ^ 63) p), (Z.leb_spec p (2 ^ 63 - 1)); [done|lia..].
  - destruct (Z.ltb_spec p 1), (Z.ltb_spec 65535 p); [lia..|done].
Qed.

(** ** The environment of a container *)

(** The kubelet: of the entries with one name the last one wins; [resolve] reads
    a key of a Secret. *)
Definition envValue (resolve : SecretKeySelector → string) (e : EnvVar) : string :=
  match ev_secret e with Some ref => resolve ref | None => ev_value e end.

Definition containerEnv (resolve : SecretKeySelector → string) (l : list EnvVar) (name : string) : string :=
  fold_left (λ acc e, if (ev_name e =? name) then envValue resolve e else acc) l "".

Definition names_none (name : string) (l : list EnvVar) : Prop := ∀ e, e ∈ l → ev_name e ≠ name.

Lemma containerEnv_none resolve l name acc :
  names_none name l → fold_left (λ acc e, if (ev_name e =? name) then envValue resolve e else acc) l acc = acc.
Proof.
  revert acc. induction l as [|e l IH]; intros acc Hl; [done|]. cbn.
  rewrite (proj2 (String.eqb_neq _ _)) by (apply Hl; set_solver). apply IH. intros e' He'. apply Hl. set_solver.
Qed.

(** The names the operator keeps for itself. *)
Definition operator_name (s : string) : Prop := HasPrefix s "KUBEZAP_" = true.

Definition user_env (plugin : PluginIntegrationSpec) : Prop :=
  (∀ e, e ∈ pi_Env plugin → ¬ operator_name (ev_name e)) ∧
  (∀ ref k v, ref ∈ pi_SecretRefs plugin → ps_EnvVarMappings ref !! k = Some v → ¬ operator_name v).

Lemma secretEnv_names (h : ∀ X, IEv X → X) refs (P : string → Prop) :
  (∀ m, h _ (IMapOrder m) ≡ₚ map_to_list m) →
  (∀ ref k v, ref ∈ refs → ps_EnvVarMappings ref !! k = Some v → P v) →
  ∀ e, e ∈ run_pure h (secretEnv refs) → P (ev_name e).
Proof.
  intros Hord HP. unfold secretEnv. assert (∀ e : EnvVar, e ∈ [] → P (ev_name e)) as Hacc by set_solver.
  revert Hacc. generalize (@nil EnvVar) as acc. induction refs as [|ref refs IH]; intros acc Hacc; [done|].
  cbn [pfold]. rewrite run_pure_bind. apply IH; [intros; eapply HP; [by right|done]|]. rewrite run_pure_bind. cbn [run_pure emit].
  intros e [He|He]%elem_of_app; [by apply Hacc|]. apply list_elem_of_fmap in He as ([k v] & -> & Hkv).
  rewrite (Hord (ps_EnvVarMappings ref)) in Hkv. apply elem_of_map_to_list in Hkv. cbn. eapply HP; [by left|done].
Qed.

Section deployment.
  Context `{AL : AwsLib} `{HL : HttpLib}.
  Variable h : ∀ X, IEv X → X.
  Hypothesis Horder : ∀ m, h _ (IMapOrder m) ≡ₚ map_to_list m.
  Variables (plugin : PluginIntegrationSpec) (i : Integration) (resolve : SecretKeySelector → string).

Definition pluginPort : Z := if (pi_PublisherPort plugin =? 0)%Z then 8090%Z else pi_PublisherPort plugin.

Definition pluginPod : PodSpec := d_Pod (o_Body (run_pure h (desiredPluginDeployment plugin i))).

Definition pluginEnv (name : string) : string := containerEnv resolve (flat_map ct_Env (po_Containers pluginPod)) name.

Definition portClash : Prop := mtlsEnabled plugin = true ∧ pluginPort = defaultPluginMTLSHealthPort.

(** The values the operator sets. *)
Lemma pluginEnv_operator : user_env plugin →
  pluginEnv "KUBEZAP_NAMESPACE" = in_ns i ∧ pluginEnv "KUBEZAP_INTEGRATION_NAME" = in_name i ∧
  pluginEnv "KUBEZAP_PUBLISHER_PORT" = Itoa pluginPort ∧
  (if mtlsEnabled plugin then
     pluginEnv "KUBEZAP_MTLS_ENABLED" = "true" ∧ pluginEnv "KUBEZAP_MTLS_HEALTH_PORT" = Itoa defaultPluginMTLSHealthPort ∧
     pluginEnv "KUBEZAP_MTLS_CERT_FILE" = "/etc/kubezap/mtls/tls.crt" ∧
     pluginEnv "KUBEZAP_MTLS_KEY_FILE" = "/etc/kubezap/mtls/tls.key" ∧
     pluginEnv "KUBEZAP_MTLS_CA_FILE" = "/etc/kubezap/mtls/ca.crt"
   else pluginEnv "KUBEZAP_MTLS_ENABLED" = "").
Proof.
  intros [Henv Href]. unfold pluginEnv, pluginPod, desiredPluginDeployment. rewrite run_pure_bind.
  pose proof (secretEnv_names h (pi_SecretRefs plugin) (λ v, ¬ operator_name v) Horder Href) as Hsec.
  set (sec := run_pure h (secretEnv _)) in *. fold pluginPort.
  assert (∀ nm, operator_name nm → names_none nm (pi_Env plugin ++ sec)) as Hnone.
  { intros nm Hnm e [He|He]%elem_of_app <-; [by apply Henv in He|by apply Hsec in He]. }
  cbn [run_pure o_Body d_Pod po_Containers flat_map ct_Env]. rewrite !app_nil_r, !(app_assoc (pi_Env plugin)).
  set (user := pi_Env plugin ++ sec) in *. unfold containerEnv.
  split_and!; [..|destruct (mtlsEnabled plugin); split_and?]; rewrite !fold_left_app, (containerEnv_none _ user) by (by apply Hnone);
    destruct (mtlsEnabled plugin); reflexivity.
Qed.

(** What the user has to supply, and what the API server guarantees. *)
Definition aws_env : Prop :=
  TrimSpace (pluginEnv "AWS_REGION") ≠ "" ∧ pluginEnv "AWS_ACCESS_KEY_ID" ≠ "" ∧ pluginEnv "AWS_SECRET_ACCESS_KEY" ≠ "" ∧
  TrimSpace (pluginEnv "AWS_ENDPOINT_URL") = "".

Definition name_valid (s : string) : Prop := s ≠ "" ∧ TrimSpace s = s.

(** A listener that answers the kubelet's probe of a port. *)
Definition answers_probe (srv : Servers) (pr : Probe) : Prop :=
  ∃ s, (s = sr_Publisher srv ∨ sr_Health srv = Some s) ∧ hs_Port s = pb_Port pr ∧ RouteHealthz ∈ hs_Routes s ∧ hs_TLS s = None.

(** A listener that publishes for holders of a client certificate only. *)
Definition guarded (s : HTTPServer) : Prop := ∃ t, hs_TLS s = Some t ∧ tc_RequireClientCert t = true ∧ tc_MinTLS12 t = true.

Lemma ServerTLSConfig_guards (fs : ∀ X, FileEv X → X) c k a t r :
  run_pure fs (ServerTLSConfig c k a) = Ok (t, r) → tc_RequireClientCert t = true ∧ tc_MinTLS12 t = true.
Proof.
  unfold ServerTLSConfig, buildServerTLS. rewrite run_pure_bind. destruct (run_pure fs (newTLSReloader _ _ _)) as [r0|e]; [|done].
  rewrite !run_pure_bind. cbn [run_pure]. by intros [= <- _].
Qed.

Lemma NewServers_ok (fs : ∀ X, FileEv X → X) cfg srv :
  run_pure fs (NewServers cfg) = Ok srv →
  hs_Port (sr_Publisher srv) = cf_PublisherPort cfg ∧
  (cf_MTLSEnabled cfg = true → guarded (sr_Publisher srv) ∧
     sr_Health srv = Some (MkHTTPServer (cf_HealthPort cfg) [RouteHealthz] None)) ∧
  (cf_MTLSEnabled cfg = false → hs_Routes (sr_Publisher srv) = [RoutePublish; RouteHealthz] ∧ hs_TLS (sr_Publisher srv) = None).
Proof.
  unfold NewServers. destruct (cf_MTLSEnabled cfg); cbn [negb]; [|by intros [= <-]].
  rewrite run_pure_bind. cbn [run_pure]. destruct (run_pure fs (ServerTLSConfig _ _ _)) as [[t r]|e] eqn:Ht; [|done].
  intros [= <-]. split_and!; [done| |done]. intros _. split; [|done]. exists t. split; [done|].
  by eapply ServerTLSConfig_guards.
Qed.

(** The configuration the plugin reads when the ports do not clash. *)
Lemma LoadConfig_plugin : user_env plugin → name_valid (in_ns i) → name_valid (in_name i) → (1 <= pluginPort <= 65535)%Z → aws_env →
  let health := if mtlsEnabled plugin then defaultPluginMTLSHealthPort else pluginPort in
  let file (f : string) := if mtlsEnabled plugin then pluginMTLSMountPath +:+ f else "" in
  (portClash → ∃ e, LoadConfig pluginEnv = Err e) ∧
  (¬ portClash → ∃ cfg, LoadConfig pluginEnv = Ok cfg ∧
     cf_Namespace cfg = in_ns i ∧ cf_IntegrationName cfg = in_name i ∧ cf_PublisherPort cfg = pluginPort ∧
     cf_HealthPort cfg = health ∧ cf_MTLSEnabled cfg = mtlsEnabled plugin ∧
     cf_MTLSCertFile cfg = file "/tls.crt" ∧ cf_MTLSKeyFile cfg = file "/tls.key" ∧ cf_MTLSCAFile cfg = file "/ca.crt").
Proof.
  intros Huser [Hns Hns'] [Hnm Hnm'] Hport (Hreg & Hak & Hsk & Hep). cbn zeta. unfold portClash, LoadConfig.
  destruct (pluginEnv_operator Huser) as (Ens & Enm & Epp & Emt).
  assert (publisherPort pluginEnv = (pluginPort, [])) as ->.
  { unfold publisherPort. rewrite Epp, parsePort_Itoa by done.
    destruct (String.eqb_spec (TrimSpace (Itoa pluginPort)) "") as [H0|]; [|done].
    pose proof (parsePort_Itoa _ Hport) as Hp. by rewrite H0 in Hp. }
  assert (mtlsOn pluginEnv = mtlsEnabled plugin) as Hmt.
  { unfold mtlsOn. destruct (mtlsEnabled plugin); [by destruct Emt as [-> _]|by rewrite Emt]. }
  unfold healthPort. rewrite Hmt, Ens, Enm, Hns', Hnm', Hep. unfold requiredErrors.
  apply String.eqb_neq in Hns as Hns0, Hnm as Hnm0, Hreg, Hak, Hsk.
  cbn [cf_Namespace cf_IntegrationName cf_Region cf_AccessKeyID cf_SecretAccessKey cf_EndpointURL].
  destruct (mtlsEnabled plugin); cbn [negb].
  - destruct Emt as (_ & -> & Ec & Ek & Ea). rewrite parsePort_Itoa by done. unfold envOr. rewrite Ec, Ek, Ea.
    destruct (Z.eqb_spec defaultPluginMTLSHealthPort pluginPort) as [He|He]; rewrite Hns0, Hnm0, Hreg, Hak, Hsk; cbn [orb app String.eqb].
    + split; [by eexists|]. intros []. by rewrite <- He.
    + split; [intros [_ ?]; by destruct He|]. intros _. by eexists.
  - rewrite Hns0, Hnm0, Hreg, Hak, Hsk. cbn [orb app String.eqb]. split; [by intros [? _]|]. intros _. by eexists.
Qed.

(** The AWS plugin starts with the environment the Integration controller
    gives its container, whatever order Go visits the maps of Secret keys in,
    as long as the user's variables leave the operator's names alone and supply
    the AWS credentials: configuration loads exactly when mTLS is off or the
    publisher port is not the fixed health port.  It then names the Integration
    and its namespace and the certificate files mounted from the Integration's
    own Secret; the readiness probe reaches an unencrypted listener that serves
    the health route, and with mTLS the publisher only answers clients that
    present a certificate. *)
Theorem plugin_deployment_config :
  user_env plugin → name_valid (in_ns i) → name_valid (in_name i) → (1 <= pluginPort <= 65535)%Z → aws_env →
  (portClash ↔ ∃ e, LoadConfig pluginEnv = Err e) ∧
  ∀ cfg, LoadConfig pluginEnv = Ok cfg →
    cf_Namespace cfg = in_ns i ∧ cf_IntegrationName cfg = in_name i ∧ cf_MTLSEnabled cfg = mtlsEnabled plugin ∧
    (mtlsEnabled plugin = true →
       po_Volumes pluginPod = [MkVolume pluginMTLSVolumeName (pluginMTLSSecretName (in_name i))] ∧
       flat_map ct_VolumeMounts (po_Containers pluginPod) = [MkMount pluginMTLSVolumeName pluginMTLSMountPath true] ∧
       cf_MTLSCertFile cfg = pluginMTLSMountPath +:+ "/tls.crt" ∧ cf_MTLSKeyFile cfg = pluginMTLSMountPath +:+ "/tls.key" ∧
       cf_MTLSCAFile cfg = pluginMTLSMountPath +:+ "/ca.crt") ∧
    ∀ (fs : ∀ X, FileEv X → X) srv, run_pure fs (NewServers cfg) = Ok srv →
      hs_Port (sr_Publisher srv) = pluginPort ∧
      (∀ c pr, c ∈ po_Containers pluginPod → ct_Readiness c = Some pr → answers_probe srv pr) ∧
      (mtlsEnabled plugin = true → guarded (sr_Publisher srv)).
Proof.
  intros Huser Hns Hnm Hport Haws. destruct (LoadConfig_plugin Huser Hns Hnm Hport Haws) as [Hclash Hfine].
  split.
  { split; [done|]. intros [e He]. destruct (decide (mtlsEnabled plugin = true)), (decide (pluginPort = defaultPluginMTLSHealthPort)); [done|..].
    all: destruct Hfine as (cfg & Hc & _); [by intros []|by rewrite He in Hc]. }
  intros cfg Hcfg. destruct (decide (mtlsEnabled plugin = true ∧ pluginPort = defaultPluginMTLSHealthPort)) as [Hx|Hx].
  { destruct (Hclash Hx) as [e He]. by rewrite Hcfg in He. }
  destruct (Hfine Hx) as (cfg' & Hc' & Hn1 & Hn2 & Hpp & Hhp & Hm & Hf1 & Hf2 & Hf3).
  rewrite Hcfg in Hc'. injection Hc' as <-. split_and!; [done..| |].
  { unfold pluginPod, desiredPluginDeployment. rewrite run_pure_bind. intros Hmt. rewrite Hmt in *. by cbn. }
  intros fs srv (Hp & Ht & Hf)%NewServers_ok. rewrite Hm in Ht, Hf. split_and!; [by rewrite Hp| |by intros [? _]%Ht].
  unfold pluginPod, desiredPluginDeployment. rewrite run_pure_bind. cbn [run_pure o_Body d_Pod po_Containers].
  intros c pr ->%list_elem_of_singleton [= <-]. unfold answers_probe. cbn [pb_Port].
  destruct (mtlsEnabled plugin).
  - destruct (Ht eq_refl) as [_ Hh]. eexists. split; [by right|]. cbn. rewrite Hhp. split_and!; [done|set_solver|done].
  - destruct (Hf eq_refl) as [Hr Htls]. eexists. split; [by left|]. rewrite Hp, Hpp, Hr, Htls. split_and!; [done|set_solver|done].
Qed.

End deployment.
