(* ===== verification/CertUtil.v ===== *)
(** * Certificates: generation, encoding, the mTLS bundles

    [internal/certutil/certutil.go], [internal/controller/executor_mtls.go] and
    the client side of [internal/controller/plugin_mtls.go].  Keys, DER and PEM
    are the classes [Crypto] and [X509Lib]; randomness, signing and the clock
    are requests.  Times are nanoseconds; the encoding of a certificate keeps
    whole seconds. *)

From S2P Require Import Prelude SecretIndex GoStd Api Effects.

Local Open Scope string_scope.
Local Open Scope list_scope.
Local Open Scope go_scope.

(** ** Library operations *)

Class Crypto := { Key : Type; PubKey : Type; Public : Key → PubKey }.

(** [pkix.Name] *)
Record PkixName := MkName { nm_Organization : list string; nm_OrganizationalUnit : list string; nm_CommonName : string }.

Inductive KeyUsage := KeyUsageCertSign | KeyUsageCRLSign | KeyUsageDigitalSignature.
Inductive ExtKeyUsage := ExtKeyUsageServerAuth | ExtKeyUsageClientAuth.

#[global] Instance ExtKeyUsage_eq_dec : EqDecision ExtKeyUsage.
Proof. solve_decision. Defined.

Section types.
  Context `{Crypto}.

(** [x509.Certificate]; a template has neither [x_Raw] nor [x_PublicKey]. *)
Record Certificate := MkCertificate {
  x_Raw : string;
  x_SerialNumber : Z;
  x_Subject : PkixName;
  x_Issuer : PkixName;
  x_NotBefore : Z;
  x_NotAfter : Z;
  x_IsCA : bool;
  x_BasicConstraintsValid : bool;
  x_KeyUsage : list KeyUsage;
  x_ExtKeyUsage : list ExtKeyUsage;
  x_DNSNames : list string;
  x_PublicKey : option PubKey
}.

(** [crypto.PrivateKey], of which [certutil] encodes ECDSA keys only. *)
Inductive PrivateKey := ECKey (k : Key) | OtherKey (type : string).

(** [tls.Certificate]: the DER of the chain and the key. *)
Record TLSCert := MkTLSCert { tls_Certificate : list string; tls_PrivateKey : PrivateKey }.

Inductive CertEv : Type → Type :=
  | XNow : CertEv Z
  (** [ecdsa.GenerateKey] *)
  | XGenerateKey : CertEv (result Key)
  (** [rand.Int] below a bound. *)
  | XRandInt (bound : Z) : CertEv (result Z)
  (** [x509.CreateCertificate]: the DER. *)
  | XCreateCertificate (template parent : Certificate) (pub : PubKey) (priv : Key) : CertEv (result string).

End types.

Class X509Lib `{Crypto} := {
  ParseCertificate : string → result Certificate;
  MarshalECPrivateKey : Key → result string;
  ParseECPrivateKey : string → result Key;
  (** [pem.EncodeToMemory] of a block and [pem.Decode]: the first block. *)
  pem_Encode : string → string → string;
  pem_Decode : string → option (string * string);
  (** [tls.X509KeyPair] *)
  X509KeyPair : string → string → result TLSCert;
  (** Does the signature of a DER certificate verify under a public key? *)
  CheckSignature : string → PubKey → bool
}.

(** ** [certutil] *)

Definition pemBlockTypeCertificate : string := "CERTIFICATE".
Definition pemBlockTypeECKey : string := "EC PRIVATE KEY".

Section certutil.
  Context `{X509Lib}.

Definition randomSerial : Prog CertEv (result Z) := emit (XRandInt (Z.shiftl 1 128)).

Definition EncodeCertPEM (der : string) : string := pem_Encode pemBlockTypeCertificate der.

Definition EncodeECPrivateKeyPEM (key : Key) : result string :=
  match MarshalECPrivateKey key with
  | Err e => Err e
  | Ok der => Ok (pem_Encode pemBlockTypeECKey der)
  end.

Definition caTemplate (serial : Z) (subject : PkixName) (notBefore notAfter : Z) : Certificate :=
  MkCertificate "" serial subject (MkName [] [] "") notBefore notAfter true true [KeyUsageCertSign; KeyUsageCRLSign] [] [] None.

Definition leafTemplate (serial : Z) (subject : PkixName) (dnsNames : list string) (usage : ExtKeyUsage)
    (notBefore notAfter : Z) : Certificate :=
  MkCertificate "" serial subject (MkName [] [] "") notBefore notAfter false true [KeyUsageDigitalSignature] [usage] dnsNames None.

Definition GenerateCA (subject : PkixName) (notBefore notAfter : Z) : Prog CertEv (result (Certificate * Key)) :=
  let! caKey := emit XGenerateKey in
  match caKey with
  | Err e => Ret (Err e)
  | Ok caKey =>
      let! serial := randomSerial in
      match serial with
      | Err e => Ret (Err e)
      | Ok serial =>
          let template := caTemplate serial subject notBefore notAfter in
          let! der := emit (XCreateCertificate template template (Public caKey) caKey) in
          Ret (match der with
               | Err e => Err e
               | Ok der => match ParseCertificate der with
                           | Err e => Err e
                           | Ok cert => Ok (cert, caKey)
                           end
               end)
      end
  end.

Definition IssueLeafCert (caCert : Certificate) (caKey : Key) (subject : PkixName) (dnsNames : list string)
    (usage : ExtKeyUsage) (notBefore notAfter : Z) : Prog CertEv (result TLSCert) :=
  let! leafKey := emit XGenerateKey in
  match leafKey with
  | Err e => Ret (Err e)
  | Ok leafKey =>
      let! serial := randomSerial in
      match serial with
      | Err e => Ret (Err e)
      | Ok serial =>
          let template := leafTemplate serial subject dnsNames usage notBefore notAfter in
          let! certDER := emit (XCreateCertificate template caCert (Public leafKey) caKey) in
          Ret (match certDER with
               | Err e => Err e
               | Ok certDER => match EncodeECPrivateKeyPEM leafKey with
                               | Err e => Err e
                               | Ok keyPEM => X509KeyPair (EncodeCertPEM certDER) keyPEM
                               end
               end)
      end
  end.

Definition CertChainPEM (cert : TLSCert) : string :=
  fold_left (λ buf der, buf +:+ EncodeCertPEM der) (tls_Certificate cert) "".

Definition PrivateKeyPEM (key : PrivateKey) : result string :=
  match key with
  | ECKey k => EncodeECPrivateKeyPEM k
  | OtherKey t => Err (errorf ("certutil: unsupported private key type " +:+ t))
  end.

Definition ParseCertPEM (pemBytes : string) : result Certificate :=
  match pem_Decode pemBytes with
  | Some (type, bytes) => if (type =? pemBlockTypeCertificate) then ParseCertificate bytes
                          else Err (errorf "certutil: no PEM certificate block found")
  | None => Err (errorf "certutil: no PEM certificate block found")
  end.

Definition ParseECPrivateKeyPEM (pemBytes : string) : result Key :=
  match pem_Decode pemBytes with
  | Some (type, bytes) => if (type =? pemBlockTypeECKey) then ParseECPrivateKey bytes
                          else Err (errorf "certutil: no PEM EC PRIVATE KEY block found")
  | None => Err (errorf "certutil: no PEM EC PRIVATE KEY block found")
  end.

(** ** The executor's bundle *)

Record MTLSBundle := MkMTLSBundle {
  mb_CACert : Certificate;
  mb_CAKey : Key;
  mb_ServerCert : TLSCert;
  mb_ClientCert : TLSCert;
  mb_ExpiresAt : Z
}.

(** [tls.Config] of a client. *)
Record ClientTLS := MkClientTLS { cl_Certificate : TLSCert; cl_RootCAs : list Certificate; cl_MinTLS13 : bool }.

(** A CA of the given subject, a server and a client certificate of it, valid
    for 24 hours. *)
Definition generateBundle (ca server : PkixName) (serverDNSNames : list string) : Prog CertEv (result MTLSBundle) :=
  let! now := emit XNow in
  let expiry := (now + 24 * Hour)%Z in
  let! c := GenerateCA ca now expiry in
  match c with
  | Err e => Ret (Err e)
  | Ok (caCert, caKey) =>
      let! s := IssueLeafCert caCert caKey server serverDNSNames ExtKeyUsageServerAuth now expiry in
      match s with
      | Err e => Ret (Err e)
      | Ok serverCert =>
          let! k := IssueLeafCert caCert caKey (MkName [] [] "kubezap-controller") [] ExtKeyUsageClientAuth now expiry in
          Ret (match k with
               | Err e => Err e
               | Ok clientCert => Ok (MkMTLSBundle caCert caKey serverCert clientCert expiry)
               end)
      end
  end.

Definition GenerateMTLSBundle (serverDNSNames : list string) : Prog CertEv (result MTLSBundle) :=
  generateBundle (MkName ["kubezap.io"] ["executor-ca"] "kubezap-executor-ca") (MkName [] [] "kubezap-http-executor")
    serverDNSNames.

Definition generatePluginBundle (integrationName : string) (serverDNSNames : list string) : Prog CertEv (result MTLSBundle) :=
  generateBundle (MkName ["kubezap.io"] ["plugin-mtls-ca"] ("kubezap-plugin-" +:+ integrationName +:+ "-ca"))
    (MkName [] [] ("kubezap-plugin-" +:+ integrationName)) serverDNSNames.

Definition ClientTLSConfig (b : MTLSBundle) : ClientTLS := MkClientTLS (mb_ClientCert b) [mb_CACert b] true.
Definition ServerCertPEM (b : MTLSBundle) : string := CertChainPEM (mb_ServerCert b).
Definition ServerKeyPEM (b : MTLSBundle) : string :=
  match PrivateKeyPEM (tls_PrivateKey (mb_ServerCert b)) with Err _ => "" | Ok pemBytes => pemBytes end.
Definition CACertPEM (b : MTLSBundle) : string := EncodeCertPEM (x_Raw (mb_CACert b)).
Definition bundleNeedsRotation (now : Z) (b : MTLSBundle) : bool := (mb_ExpiresAt b <? now + Hour)%Z.

(** *** The store of plugin bundles *)

Definition NewPluginMTLSStore : gmap string MTLSBundle := ∅.

Definition storeKey (ns name : string) : string := ns +:+ "/" +:+ name.

Definition ClientTLSConfigFor (s : gmap string MTLSBundle) (ns name : string) : option ClientTLS :=
  match s !! storeKey ns name with None => None | Some b => Some (ClientTLSConfig b) end.

Definition PluginMTLSStore_Remove (s : gmap string MTLSBundle) (ns name : string) : gmap string MTLSBundle := delete (storeKey ns name) s.

(** [GetOrGenerate]: the bundle and the store after. *)
Definition storeGetOrGenerate (s : gmap string MTLSBundle) (ns name : string) (serverDNSNames : list string)
    : Prog CertEv (result MTLSBundle * gmap string MTLSBundle) :=
  let generate :=
    let! b := generatePluginBundle name serverDNSNames in
    Ret (match b with Err e => (Err e, s) | Ok b => (Ok b, <[storeKey ns name := b]> s) end) in
  match s !! storeKey ns name with
  | Some existing =>
      let! now := emit XNow in
      if negb (bundleNeedsRotation now existing) then Ret (Ok existing, s) else generate
  | None => generate
  end.

End certutil.
