(* ===== verification/CertProps.v ===== *)
(** * Properties of the certificates

    What [crypto/x509], [crypto/tls] and [encoding/pem] document ([X509Laws],
    [cert_spec]), when one certificate vouches for another, and that what
    [certutil] issues always verifies: the two ends of an mTLS channel accept
    each other for as long as the bundle is in use. *)

From S2P Require Import Prelude SecretIndex GoStd Api Effects CertUtil.

Local Open Scope string_scope.
Local Open Scope list_scope.
Local Open Scope go_scope.

(** [encoding/pem], and ECDSA keys in DER. *)
Class X509Laws `{XL : X509Lib} : Prop := {
  pem_round type bytes rest : type ∈ [pemBlockTypeCertificate; pemBlockTypeECKey] →
    pem_Decode (pem_Encode type bytes +:+ rest) = Some (type, bytes);
  key_round k der : MarshalECPrivateKey k = Ok der → ParseECPrivateKey der = Ok k;
  (** A pair loads when the key is the certificate's. *)
  key_pair_load cert certDER k keyDER t :
    ParseCertificate certDER = Ok cert → MarshalECPrivateKey k = Ok keyDER →
    X509KeyPair (pem_Encode pemBlockTypeCertificate certDER) (pem_Encode pemBlockTypeECKey keyDER) = Ok t →
    t = MkTLSCert [certDER] (ECKey k) ∧ x_PublicKey cert = Some (Public k);
  parse_raw der cert : ParseCertificate der = Ok cert → x_Raw cert = der
}.

Section props.
  Context `{L : X509Laws}.

Definition seconds (t : Z) : Z := (t / Second * Second)%Z.

(** The certificate [x509.CreateCertificate] encodes. *)
Definition issued (template parent : Certificate) (pub : PubKey) (der : string) : Certificate :=
  MkCertificate der (x_SerialNumber template) (x_Subject template) (x_Subject parent)
    (seconds (x_NotBefore template)) (seconds (x_NotAfter template)) (x_IsCA template) (x_BasicConstraintsValid template)
    (x_KeyUsage template) (x_ExtKeyUsage template) (x_DNSNames template) (Some pub).

(** The clock, the state, never goes back. *)
Definition cert_spec : Spec CertEv Z := λ X e,
  match e in CertEv X return Z → (X → Z → Prop) → Prop with
  | XNow => λ t Q, ∀ t', (t <= t')%Z → Q t' t'
  | XGenerateKey => λ t Q, ∀ r, Q r t
  | XRandInt _ => λ t Q, ∀ r, Q r t
  | XCreateCertificate template parent pub priv => λ t Q,
      (∀ e, Q (Err e) t) ∧
      ∀ der, ParseCertificate der = Ok (issued template parent pub der) → CheckSignature der (Public priv) = true →
        (x_PublicKey parent = None ∨ x_PublicKey parent = Some (Public priv)) → Q (Ok der) t
  end.

#[global] Instance cert_spec_mono : MonoSpec cert_spec.
Proof.
  intros X e s P Q HPQ. destruct e; cbn; intros HP.
  - intros t' Ht. by apply HPQ, HP.
  - intros r. apply HPQ, HP.
  - intros r. apply HPQ, HP.
  - destruct HP as [He Hok]. split; [intros e; apply HPQ, He|]. intros der H1 H2 H3. apply HPQ. by apply Hok.
Qed.

(** ** Verification of a chain of two *)

Definition valid_at (t : Z) (c : Certificate) : Prop := (x_NotBefore c <= t <= x_NotAfter c)%Z.

Definition signs (root c : Certificate) : Prop :=
  x_IsCA root = true ∧ x_Issuer c = x_Subject root ∧ ∃ pub, x_PublicKey root = Some pub ∧ CheckSignature (x_Raw c) pub = true.

(** [x509.Certificate.Verify] with one root, for a name and a usage. *)
Definition verifies (t : Z) (root : Certificate) (usage : ExtKeyUsage) (c : Certificate) : Prop :=
  signs root c ∧ valid_at t root ∧ valid_at t c ∧ usage ∈ x_ExtKeyUsage c.

(** A CA and its key. *)
Definition ca_pair (ca : Certificate) (key : Key) : Prop :=
  x_IsCA ca = true ∧ x_PublicKey ca = Some (Public key) ∧ ParseCertificate (x_Raw ca) = Ok ca.

(** A certificate with the key it was issued for. *)
Definition issued_leaf (ca : Certificate) (subject : PkixName) (dns : list string) (usage : ExtKeyUsage) (nb na : Z)
    (t : TLSCert) (c : Certificate) : Prop :=
  ∃ k, t = MkTLSCert [x_Raw c] (ECKey k) ∧ ParseCertificate (x_Raw c) = Ok c ∧ x_PublicKey c = Some (Public k) ∧
    signs ca c ∧ x_Subject c = subject ∧ x_DNSNames c = dns ∧ x_ExtKeyUsage c = [usage] ∧
    x_NotBefore c = seconds nb ∧ x_NotAfter c = seconds na ∧ ∃ keyDER, MarshalECPrivateKey k = Ok keyDER.

Lemma wp_GenerateCA subject nb na t (Q : result (Certificate * Key) → Z → Prop) :
  (∀ e, Q (Err e) t) →
  (∀ ca key, ca_pair ca key → x_Subject ca = subject → x_NotBefore ca = seconds nb → x_NotAfter ca = seconds na → Q (Ok (ca, key)) t) →
  wp cert_spec (GenerateCA subject nb na) t Q.
Proof.
  intros He Hok. unfold GenerateCA, randomSerial. cbn [wp pbind emit cert_spec]. intros [key|e]; [|by apply He].
  cbn. intros [serial|e]; [|by apply He]. cbn. split; [done|]. intros der Hder Hsig _. rewrite Hder.
  apply Hok; [|done..]. split_and!; [done..|]. cbn. by rewrite Hder.
Qed.

Lemma wp_IssueLeafCert ca key subject dns usage nb na t (Q : result TLSCert → Z → Prop) :
  ParseCertificate (x_Raw ca) = Ok ca → x_IsCA ca = true → x_PublicKey ca ≠ None →
  (∀ e, Q (Err e) t) →
  (∀ tc c, ca_pair ca key → issued_leaf ca subject dns usage nb na tc c → Q (Ok tc) t) →
  wp cert_spec (IssueLeafCert ca key subject dns usage nb na) t Q.
Proof.
  intros Hp Hca Hpub He Hok. unfold IssueLeafCert, randomSerial. cbn [wp pbind emit cert_spec]. intros [k|e]; [|by apply He].
  cbn. intros [serial|e]; [|by apply He]. cbn. split; [done|]. intros der Hder Hsig [?|Hmatch]; [done|].
  unfold EncodeECPrivateKeyPEM, EncodeCertPEM. destruct (MarshalECPrivateKey k) as [keyDER|e] eqn:Hk; [|by apply He].
  destruct (X509KeyPair _ _) as [tc|e] eqn:Hpair; [|by apply He].
  destruct (key_pair_load _ _ _ _ _ Hder Hk Hpair) as [-> Hpk].
  eapply (Hok _ (issued _ ca (Public k) der)); [done|]. exists k. cbn. split_and!; try done; [|by eexists].
  split_and!; [done..|]. by exists (Public key).
Qed.

(** ** Bundles *)

(** The two ends of the channel, while the certificates are valid. *)
Definition mutual (t : Z) (dns : list string) (b : MTLSBundle) : Prop :=
  ∃ sc cc, tls_Certificate (mb_ServerCert b) = [x_Raw sc] ∧ tls_Certificate (mb_ClientCert b) = [x_Raw cc] ∧
    ParseCertificate (x_Raw sc) = Ok sc ∧ ParseCertificate (x_Raw cc) = Ok cc ∧
    (∀ root, root ∈ cl_RootCAs (ClientTLSConfig b) → verifies t root ExtKeyUsageServerAuth sc) ∧ x_DNSNames sc = dns ∧
    (∃ root, ParseCertPEM (CACertPEM b) = Ok root ∧ verifies t root ExtKeyUsageClientAuth cc) ∧
    ParseCertPEM (ServerCertPEM b) = Ok sc ∧
    (∃ k keyDER, tls_PrivateKey (mb_ServerCert b) = ECKey k ∧ MarshalECPrivateKey k = Ok keyDER ∧
       ParseECPrivateKeyPEM (ServerKeyPEM b) = Ok k ∧ x_PublicKey sc = Some (Public k)).

(** The certificate a [tls.Certificate] presents. *)
Definition presents (tc : TLSCert) (c : Certificate) : Prop :=
  ∃ raw rest, tls_Certificate tc = raw :: rest ∧ ParseCertificate raw = Ok c.

(** A bundle in use: its ends accept each other until it expires, but for the
    fraction of a second the encoding drops, and the client's certificate does
    not outlive it. *)
Definition bundle_ok (dns : list string) (b : MTLSBundle) : Prop :=
  ∃ since, mb_ExpiresAt b = (since + 24 * Hour)%Z ∧
    (∀ t, (since <= t)%Z → (t <= mb_ExpiresAt b - Second)%Z → mutual t dns b) ∧
    ∀ c, presents (mb_ClientCert b) c → (x_NotAfter c <= mb_ExpiresAt b)%Z.

Lemma seconds_bounds t : (t - Second < seconds t <= t)%Z.
Proof. unfold seconds. pose proof (Z.mod_pos_bound t Second). pose proof (Z.div_mod t Second). unfold Second in *. lia. Qed.

Lemma ParseCertPEM_encode der rest : ParseCertPEM (EncodeCertPEM der +:+ rest) = ParseCertificate der.
Proof. unfold ParseCertPEM, EncodeCertPEM. by rewrite pem_round by by left. Qed.

Lemma sapp_nil_r s : s +:+ "" = s.
Proof. induction s as [|c s IH]; [done|]. change (String c (s +:+ "") = String c s). by rewrite IH. Qed.

Lemma ParseCertPEM_one der : ParseCertPEM (EncodeCertPEM der) = ParseCertificate der.
Proof. rewrite <- (sapp_nil_r (EncodeCertPEM der)). apply ParseCertPEM_encode. Qed.

Lemma ParseECPrivateKeyPEM_one k keyDER :
  MarshalECPrivateKey k = Ok keyDER → ParseECPrivateKeyPEM (pem_Encode pemBlockTypeECKey keyDER) = Ok k.
Proof.
  intros Hk. unfold ParseECPrivateKeyPEM. rewrite <- (sapp_nil_r (pem_Encode _ _)), pem_round by (right; left).
  change (pemBlockTypeECKey =? pemBlockTypeECKey) with true. cbn iota. by apply key_round.
Qed.

Lemma wp_generateBundle ca server dns t (Q : result MTLSBundle → Z → Prop) :
  (∀ e t', (t <= t')%Z → Q (Err e) t') →
  (∀ b t', (t <= t')%Z → mb_ExpiresAt b = (t' + 24 * Hour)%Z → bundle_ok dns b → Q (Ok b) t') →
  wp cert_spec (generateBundle ca server dns) t Q.
Proof.
  intros He Hok. unfold generateBundle. cbn [wp pbind emit cert_spec]. intros now Hnow. apply wp_bind; [apply _|].
  apply wp_GenerateCA; [intros; by apply He|]. intros cert key Hca Hsub Hnb Hna. pose proof Hca as (HisCA & Hpub & Hparse).
  apply wp_bind; [apply _|]. apply wp_IssueLeafCert; [done..|by rewrite Hpub|intros; by apply He|].
  intros st sc _ (sk & -> & Hsp & Hspk & Hss & _ & Hsd & Hsu & Hsnb & Hsna & skd & Hskd).
  apply wp_bind; [apply _|]. apply wp_IssueLeafCert; [done..|by rewrite Hpub|intros; by apply He|].
  intros ct cc _ (ck & -> & Hcp & Hcpk & Hcs & _ & _ & Hcu & Hcnb & Hcna & _). cbn [wp].
  apply Hok; [done..|]. exists now. split; [done|]. cbn [mb_ExpiresAt]. split.
  2: { intros c (raw & rest & [= <- <-] & Hc). rewrite Hcp in Hc. injection Hc as <-. rewrite Hcna.
       pose proof (seconds_bounds (now + 24 * Hour)). lia. }
  intros t' Ht1 Ht2.
  assert (∀ c, x_NotBefore c = seconds now → x_NotAfter c = seconds (now + 24 * Hour) → valid_at t' c) as Hv.
  { intros c H1 H2. unfold valid_at. rewrite H1, H2. pose proof (seconds_bounds now). pose proof (seconds_bounds (now + 24 * Hour)). lia. }
  exists sc, cc. cbn [mb_ServerCert mb_ClientCert tls_Certificate mb_CACert]. split_and!; [done..| |done| | |].
  - intros root ->%list_elem_of_singleton. split_and!; [done|by apply Hv..|]. rewrite Hsu. set_solver.
  - exists cert. unfold CACertPEM. cbn [mb_CACert]. rewrite ParseCertPEM_one. split; [done|].
    split_and!; [done|by apply Hv..|]. rewrite Hcu. set_solver.
  - unfold ServerCertPEM, CertChainPEM. cbn [mb_ServerCert tls_Certificate fold_left]. change ("" +:+ EncodeCertPEM (x_Raw sc)) with (EncodeCertPEM (x_Raw sc)). by rewrite ParseCertPEM_one.
  - exists sk, skd. unfold ServerKeyPEM. cbn. unfold EncodeECPrivateKeyPEM. rewrite Hskd. split_and!; [done..| |done].
    by apply ParseECPrivateKeyPEM_one.
Qed.

(** *** The store of plugin bundles *)

(** Kubernetes namespaces contain no slash. *)
Fixpoint slashless (s : string) : bool :=
  match s with EmptyString => true | String c s => negb (Ascii.eqb c "/") && slashless s end.

Lemma storeKey_inj ns name ns' name' :
  slashless ns = true → slashless ns' = true → storeKey ns name = storeKey ns' name' → ns = ns' ∧ name = name'.
Proof.
  unfold storeKey. revert ns'. induction ns as [|c ns IH]; intros [|c' ns'] Hs Hs' He; cbn in Hs, Hs'.
  - by injection He.
  - injection He as <- _. done.
  - injection He as -> _. done.
  - apply andb_true_iff in Hs as [_ Hs], Hs' as [_ Hs']. injection He as <- He. by destruct (IH ns' Hs Hs' He) as [-> ->].
Qed.

Section store.
  Variable dnsOf : string → string → list string.

(** Every bundle kept was made for the Integration it is kept for, and is not
    from the future. *)
Definition store_ok (t : Z) (s : gmap string MTLSBundle) : Prop :=
  ∀ ns name b, slashless ns = true → s !! storeKey ns name = Some b →
    bundle_ok (dnsOf ns name) b ∧ (mb_ExpiresAt b - 24 * Hour <= t)%Z.

Lemma store_ok_later t t' s : (t <= t')%Z → store_ok t s → store_ok t' s.
Proof. intros Ht Hs ns name b Hns Hb. destruct (Hs _ _ _ Hns Hb). split; [done|lia]. Qed.

Lemma store_ok_insert t s ns name b :
  slashless ns = true → bundle_ok (dnsOf ns name) b → (mb_ExpiresAt b - 24 * Hour <= t)%Z →
  store_ok t s → store_ok t (<[storeKey ns name := b]> s).
Proof.
  intros Hns Hb Ht Hs ns' name' b' Hns' [[Heq <-]|[_ ?]]%lookup_insert_Some; [|by eapply Hs].
  by destruct (storeKey_inj _ _ _ _ Hns Hns' Heq) as [<- <-].
Qed.

Lemma bundle_serves t dns b :
  bundle_ok dns b → (mb_ExpiresAt b - 24 * Hour <= t)%Z → bundleNeedsRotation t b = false →
  ∀ u, (t <= u <= t + Hour - Second)%Z → mutual u dns b.
Proof.
  intros (since & Hexp & Hm & _) Ht Hrot%Z.ltb_ge u Hu. apply Hm; lia.
Qed.

(** The mTLS channel to a plugin.  What the store hands out for an
    Integration at any moment is a bundle whose two ends accept each other for
    the next hour at least (the controller's client configuration verifies the
    server certificate for the Integration's own names and nothing else, the CA
    file mounted into the plugin verifies the controller's certificate, and the
    key file is the server certificate's), the FlowRun controller's client uses
    that very bundle, no other Integration's entry changes, and a failure
    leaves the store as it was. *)
Theorem plugin_channel_mutual t s ns name :
  store_ok t s → slashless ns = true →
  wp cert_spec (storeGetOrGenerate s ns name (dnsOf ns name)) t (λ r t',
    store_ok t' r.2 ∧
    (∀ key, key ≠ storeKey ns name → r.2 !! key = s !! key) ∧
    match r.1 with
    | Err _ => r.2 = s
    | Ok b => ClientTLSConfigFor r.2 ns name = Some (ClientTLSConfig b) ∧
              ∀ u, (t' <= u <= t' + Hour - Second)%Z → mutual u (dnsOf ns name) b
    end).
Proof.
  intros Hs Hns. unfold storeGetOrGenerate.
  assert (∀ t0, (t <= t0)%Z → wp cert_spec
    (let! b := generatePluginBundle name (dnsOf ns name) in
     Ret (match b with Err e => (Err e, s) | Ok b => (Ok b, <[storeKey ns name := b]> s) end)) t0 (λ r t',
    store_ok t' r.2 ∧ (∀ key, key ≠ storeKey ns name → r.2 !! key = s !! key) ∧
    match r.1 with
    | Err _ => r.2 = s
    | Ok b => ClientTLSConfigFor r.2 ns name = Some (ClientTLSConfig b) ∧
              ∀ u, (t' <= u <= t' + Hour - Second)%Z → mutual u (dnsOf ns name) b
    end)) as Hgen.
  { intros t0 Ht0. apply wp_bind; [apply _|]. apply wp_generateBundle; cbn [wp fst snd].
    - intros e t' Ht'. split; [|done]. eapply store_ok_later; [|done]. lia.
    - intros b t' Ht' Hexp Hb. split; [apply store_ok_insert; [done..|lia|]|].
      { eapply store_ok_later; [|done]. lia. }
      split; [intros key Hne; by rewrite lookup_insert_ne|]. unfold ClientTLSConfigFor. rewrite lookup_insert_eq. split; [done|].
      apply bundle_serves; [done|lia|]. apply Z.ltb_ge. unfold Hour, Minute, Second in *. lia. }
  destruct (s !! storeKey ns name) as [b|] eqn:Hb; [|apply Hgen; lia].
  cbn [wp pbind emit cert_spec]. intros t' Ht'. destruct (bundleNeedsRotation t' b) eqn:Hrot; cbn [negb]; [by apply Hgen|].
  cbn [wp fst snd]. destruct (Hs _ _ _ Hns Hb) as [Hok Hexp]. split; [by eapply store_ok_later|]. split; [done|].
  split; [unfold ClientTLSConfigFor; by rewrite Hb|]. apply bundle_serves; [done|lia|done].
Qed.

End store.

End props.
