(* ===== verification/WebhookCerts.v ===== *)
(** * The admission webhook's own certificate

    [internal/webhookcerts/webhookcerts.go] and [rotator.go]: a CA and a serving
    certificate kept in a Secret that all replicas share, the files each replica
    serves from, and the CA bundles of the webhook registration.  The API
    server, the file system and the tick of the rotator are requests;
    [filepath.Join] is a parameter. *)

From S2P Require Import Prelude SecretIndex GoStd Api Effects CertUtil.

Local Open Scope string_scope.
Local Open Scope list_scope.
Local Open Scope go_scope.

Definition KeyCACert : string := "ca.crt".
Definition KeyCAKey : string := "ca.key".
Definition KeyTLSCert : string := "tls.crt".
Definition KeyTLSKey : string := "tls.key".

Record CertOptions := MkCertOptions {
  op_Namespace : string;
  op_SecretName : string;
  op_ServiceName : string;
  op_WebhookConfigurationName : string;
  op_CertDir : string;
  op_CertFileName : string;
  op_KeyFileName : string;
  op_CAValidity : Z;
  op_CertValidity : Z;
  op_RotateBefore : Z
}.

Definition orString (s def : string) : string := if (s =? "") then def else s.
Definition orZ (z def : Z) : Z := if (z =? 0)%Z then def else z.

Definition setDefaults (o : CertOptions) : CertOptions :=
  MkCertOptions (op_Namespace o) (op_SecretName o) (op_ServiceName o) (op_WebhookConfigurationName o) (op_CertDir o)
    (orString (op_CertFileName o) "tls.crt") (orString (op_KeyFileName o) "tls.key")
    (orZ (op_CAValidity o) (10 * 365 * 24 * Hour)) (orZ (op_CertValidity o) (365 * 24 * Hour))
    (orZ (op_RotateBefore o) (30 * 24 * Hour)).

Definition dnsNames (o : CertOptions) : list string :=
  [op_ServiceName o +:+ "." +:+ op_Namespace o +:+ ".svc";
   op_ServiceName o +:+ "." +:+ op_Namespace o +:+ ".svc.cluster.local"].

(** The Secret; a key that is absent reads as the empty string. *)
Record CertSecret := MkCertSecret {
  cs_Namespace : string; cs_Name : string; cs_ResourceVersion : Z; cs_Data : gmap string string }.

Definition data (s : CertSecret) (key : string) : string := default "" (cs_Data s !! key).

(** [ValidatingWebhookConfiguration]: its webhooks with their bundles. *)
Record AdmWebhook := MkAdmWebhook { wh_Name : string; wh_CABundle : string }.
Record WebhookConfiguration := MkWebhookConfiguration { wc_ResourceVersion : Z; wc_Webhooks : list AdmWebhook }.

Section ev.
  Context `{Crypto}.

Inductive WEv : Type → Type :=
  | WCert {X} (e : CertEv X) : WEv X
  | WGetSecret (ns name : string) : WEv (result CertSecret)
  (** [Create] and [Update] fill their argument with the object stored. *)
  | WCreateSecret (s : CertSecret) : WEv (result CertSecret)
  | WUpdateSecret (s : CertSecret) : WEv (result CertSecret)
  | WGetCfg (name : string) : WEv (result WebhookConfiguration)
  | WUpdateCfg (name : string) (c : WebhookConfiguration) : WEv (option gerr)
  | WMkdirAll (dir : string) : WEv (option gerr)
  | WReadFile (path : string) : WEv (result string)
  | WWriteFile (path content : string) : WEv (option gerr)
  (** [select] on the context and the ticker: is the context done? *)
  | WSelect : WEv bool.

Fixpoint onCert {A} (p : Prog CertEv A) : Prog WEv A :=
  match p with
  | Ret a => Ret a
  | Vis e k => Vis (WCert e) (λ x, onCert (k x))
  end.

(** [retry.RetryOnConflict]: up to [steps] attempts while the error is a
    conflict; the last error is returned. *)
Fixpoint RetryOnConflict {A} (steps : nat) (f : Prog WEv (result A)) : Prog WEv (result A) :=
  let! r := f in
  match r with
  | Ok a => Ret (Ok a)
  | Err e => match ekind_of e, steps with
             | EKConflict, S (S _ as steps) => RetryOnConflict steps f
             | _, _ => Ret (Err e)
             end
  end.

(** [retry.DefaultRetry.Steps] *)
Definition DefaultRetry : nat := 5.

End ev.

Section certs.
  Context `{X509Lib}.
  Variable filepath_Join : string → string → string.

Definition secretData (caCert : Certificate) (caKey : Key) (leaf : TLSCert) : result (gmap string string) :=
  match EncodeECPrivateKeyPEM caKey with
  | Err e => Err e
  | Ok caKeyPEM =>
      match PrivateKeyPEM (tls_PrivateKey leaf) with
      | Err e => Err e
      | Ok leafKeyPEM =>
          Ok (<[KeyCACert := EncodeCertPEM (x_Raw caCert)]> (<[KeyCAKey := caKeyPEM]>
              (<[KeyTLSCert := CertChainPEM leaf]> {[KeyTLSKey := leafKeyPEM]})))
      end
  end.

Definition createSecret (opts : CertOptions) : Prog WEv (result CertSecret) :=
  let! now := emit (WCert XNow) in
  let! ca := onCert (GenerateCA (MkName ["kubezap.io"] [] "kubezap-webhook-ca") now (now + op_CAValidity opts)) in
  match ca with
  | Err e => Ret (Err e)
  | Ok (caCert, caKey) =>
      let! leaf := onCert (IssueLeafCert caCert caKey (MkName [] [] (op_ServiceName opts)) (dnsNames opts)
                             ExtKeyUsageServerAuth now (now + op_CertValidity opts)) in
      match leaf with
      | Err e => Ret (Err e)
      | Ok leaf =>
          match secretData caCert caKey leaf with
          | Err e => Ret (Err e)
          | Ok d => emit (WCreateSecret (MkCertSecret (op_Namespace opts) (op_SecretName opts) 0 d))
          end
      end
  end.

(** One attempt of the rotation. *)
Definition rotateOnce (opts : CertOptions) (secret : CertSecret) (caCert : Certificate) (caKey : Key)
    : Prog WEv (result CertSecret) :=
  let! current := emit (WGetSecret (cs_Namespace secret) (cs_Name secret)) in
  match current with
  | Err e => Ret (Err e)
  | Ok current =>
      let! now := emit (WCert XNow) in
      let! leaf := onCert (IssueLeafCert caCert caKey (MkName [] [] (op_ServiceName opts)) (dnsNames opts)
                             ExtKeyUsageServerAuth now (now + op_CertValidity opts)) in
      match leaf with
      | Err e => Ret (Err e)
      | Ok leaf =>
          match secretData caCert caKey leaf with
          | Err e => Ret (Err e)
          | Ok d => emit (WUpdateSecret (MkCertSecret (cs_Namespace current) (cs_Name current) (cs_ResourceVersion current) d))
          end
      end
  end.

Definition rotateLeaf (opts : CertOptions) (secret : CertSecret) : Prog WEv (result CertSecret) :=
  match ParseCertPEM (data secret KeyCACert), ParseECPrivateKeyPEM (data secret KeyCAKey) with
  | Ok caCert, Ok caKey => RetryOnConflict DefaultRetry (rotateOnce opts secret caCert caKey)
  | _, _ => createSecret opts
  end.

Definition needsLeafRotation (secret : CertSecret) (opts : CertOptions) : Prog WEv bool :=
  let certPEM := data secret KeyTLSCert in
  if (slen certPEM =? 0)%nat || (slen (data secret KeyTLSKey) =? 0)%nat || (slen (data secret KeyCACert) =? 0)%nat
  then Ret true
  else match ParseCertPEM certPEM with
       | Err _ => Ret true
       | Ok cert => let! now := emit (WCert XNow) in Ret (x_NotAfter cert <? now + op_RotateBefore opts)%Z
       end.

(** The end of [ensureSecret]: rotate when needed. *)
Definition freshen (opts : CertOptions) (secret : CertSecret) : Prog WEv (result CertSecret) :=
  let! rot := needsLeafRotation secret opts in
  if rot : bool then rotateLeaf opts secret else Ret (Ok secret).

Definition ensureSecret (opts : CertOptions) : Prog WEv (result CertSecret) :=
  let! r := emit (WGetSecret (op_Namespace opts) (op_SecretName opts)) in
  match r with
  | Ok secret => freshen opts secret
  | Err e =>
      match ekind_of e with
      | EKNotFound =>
          let! created := createSecret opts in
          match created with
          | Ok s => Ret (Ok s)
          | Err cerr =>
              match ekind_of cerr with
              | EKAlreadyExists =>
                  let! again := emit (WGetSecret (op_Namespace opts) (op_SecretName opts)) in
                  match again with
                  | Err gerr => Ret (Err gerr)
                  | Ok secret => freshen opts secret
                  end
              | _ => Ret (Err cerr)
              end
          end
      | _ => Ret (Err e)
      end
  end.

Definition writeIfChanged (path content : string) : Prog WEv (option gerr) :=
  let! existing := emit (WReadFile path) in
  match existing with
  | Ok old => if (old =? content) then Ret None else emit (WWriteFile path content)
  | Err _ => emit (WWriteFile path content)
  end.

Definition certPath (opts : CertOptions) : string := filepath_Join (op_CertDir opts) (op_CertFileName opts).
Definition keyPath (opts : CertOptions) : string := filepath_Join (op_CertDir opts) (op_KeyFileName opts).

Definition writeCertFiles (opts : CertOptions) (secret : CertSecret) : Prog WEv (option gerr) :=
  let! e := emit (WMkdirAll (op_CertDir opts)) in
  match e with
  | Some e => Ret (Some e)
  | None =>
      let! e := writeIfChanged (certPath opts) (data secret KeyTLSCert) in
      match e with
      | Some e => Ret (Some e)
      | None => writeIfChanged (keyPath opts) (data secret KeyTLSKey)
      end
  end.

(** One attempt of the patch. *)
Definition patchOnce (opts : CertOptions) (caCertPEM : string) : Prog WEv (result unit) :=
  let! cfg := emit (WGetCfg (op_WebhookConfigurationName opts)) in
  match cfg with
  | Err e => Ret (Err e)
  | Ok cfg =>
      let changed := existsb (λ w, negb (wh_CABundle w =? caCertPEM)) (wc_Webhooks cfg) in
      if negb changed then Ret (Ok tt)
      else
        let webhooks := map (λ w, MkAdmWebhook (wh_Name w) caCertPEM) (wc_Webhooks cfg) in
        let! e := emit (WUpdateCfg (op_WebhookConfigurationName opts) (MkWebhookConfiguration (wc_ResourceVersion cfg) webhooks)) in
        Ret (match e with Some e => Err e | None => Ok tt end)
  end.

Definition patchCABundle (opts : CertOptions) (caCertPEM : string) : Prog WEv (result unit) :=
  RetryOnConflict DefaultRetry (patchOnce opts caCertPEM).

Definition Ensure (o : CertOptions) : Prog WEv (option gerr) :=
  let opts := setDefaults o in
  let! secret := ensureSecret opts in
  match secret with
  | Err e => Ret (Some (wrapf "ensuring cert secret: " e))
  | Ok secret =>
      let! e := writeCertFiles opts secret in
      match e with
      | Some e => Ret (Some (wrapf "writing cert files to disk: " e))
      | None =>
          let! p := patchCABundle opts (data secret KeyCACert) in
          Ret (match p with
               | Ok _ => None
               | Err e => match ekind_of e with
                          | EKNotFound => None
                          | _ => Some (wrapf "patching webhook caBundle: " e)
                          end
               end)
      end
  end.

(** ** The rotator *)

Record Rotator := MkRotator { ro_Options : CertOptions; ro_Interval : Z }.

Definition NeedLeaderElection (r : Rotator) : bool := false.

Definition rotatorInterval (r : Rotator) : Z := if (ro_Interval r =? 0)%Z then Hour else ro_Interval r.

(** [Start] for at most [ticks] turns of its loop; [true] when it returned. *)
Fixpoint Rotator_Start (ticks : nat) (r : Rotator) : Prog WEv bool :=
  match ticks with
  | 0 => Ret false
  | S ticks =>
      let! done := emit WSelect in
      if done : bool then Ret true
      else let! _ := Ensure (ro_Options r) in Rotator_Start ticks r
  end.

(** [webhookCertOptions] of the manager. *)
Definition webhookConfigurationName : string := "validating-webhook-configuration".
Definition webhookCertOptions (namespace serviceName certDir certName certKey : string) : CertOptions :=
  MkCertOptions namespace "kubezap-webhook-server-cert" serviceName webhookConfigurationName certDir certName certKey 0 0 0.

End certs.
