(* ===== verification/WebhookCertsProps.v ===== *)
(** * Properties of the webhook certificates

    All replicas run [Ensure] on one Secret.  [world_spec] is the API server,
    the replica's disk and the clock, with the other replicas acting between
    any two requests: the Secret they leave is a good one of the same CA, which
    is what this replica's own writes are shown to be (rely and guarantee). *)

From S2P Require Import Prelude SecretIndex GoStd Api Effects CertUtil CertProps WebhookCerts.

Local Open Scope string_scope.
Local Open Scope list_scope.
Local Open Scope go_scope.

Section props.
  Context `{L : X509Laws}.
  Variable filepath_Join : string → string → string.
  Variable opts : CertOptions.
  Hypothesis paths_differ : certPath filepath_Join opts ≠ keyPath filepath_Join opts.

(** ** The Secret *)

(** The CA a Secret holds. *)
Definition holds_ca (s : CertSecret) (ca : Certificate) (key : Key) : Prop :=
  ca_pair ca key ∧ data s KeyCACert = EncodeCertPEM (x_Raw ca) ∧ EncodeECPrivateKeyPEM key = Ok (data s KeyCAKey).

(** The serving certificate it holds. *)
Definition holds_leaf (s : CertSecret) (ca leaf : Certificate) : Prop :=
  ParseCertPEM (data s KeyTLSCert) = Ok leaf ∧ signs ca leaf ∧ x_DNSNames leaf = dnsNames opts ∧
  ExtKeyUsageServerAuth ∈ x_ExtKeyUsage leaf ∧
  ∃ k, ParseECPrivateKeyPEM (data s KeyTLSKey) = Ok k ∧ x_PublicKey leaf = Some (Public k).

Definition secret_good (s : CertSecret) : Prop :=
  cs_Namespace s = op_Namespace opts ∧ cs_Name s = op_SecretName opts ∧
  ∃ ca key leaf, holds_ca s ca key ∧ holds_leaf s ca leaf.

Definition same_ca (s s' : CertSecret) : Prop :=
  data s' KeyCACert = data s KeyCACert ∧ data s' KeyCAKey = data s KeyCAKey.

(** What may have become of a Secret read before. *)
Definition newer (s s' : CertSecret) : Prop :=
  secret_good s' ∧ same_ca s s' ∧ (cs_ResourceVersion s <= cs_ResourceVersion s')%Z ∧
  (cs_ResourceVersion s = cs_ResourceVersion s' → s' = s).

(** ** The world of one replica *)

(** [w_cfgSeen]: the bundles of the registration as this replica last read or
    wrote it. *)
Record World := MkWorld {
  w_now : Z;
  w_secret : option CertSecret;
  w_disk : gmap string string;
  w_cfgSeen : option (list string)
}.

Definition set_now (t : Z) (w : World) : World := MkWorld t (w_secret w) (w_disk w) (w_cfgSeen w).
Definition set_secret (s : CertSecret) (w : World) : World := MkWorld (w_now w) (Some s) (w_disk w) (w_cfgSeen w).
Definition set_disk (d : gmap string string) (w : World) : World := MkWorld (w_now w) (w_secret w) d (w_cfgSeen w).
Definition set_seen (c : option (list string)) (w : World) : World := MkWorld (w_now w) (w_secret w) (w_disk w) c.

Definition bundles (c : WebhookConfiguration) : list string := map wh_CABundle (wc_Webhooks c).

(** The others: they may create the Secret or replace it, and never delete it. *)
Definition others (w w' : World) : Prop :=
  w_now w' = w_now w ∧ w_disk w' = w_disk w ∧ w_cfgSeen w' = w_cfgSeen w ∧
  match w_secret w with
  | None => ∀ s, w_secret w' = Some s → secret_good s
  | Some s => ∃ s', w_secret w' = Some s' ∧ newer s s'
  end.

(** A write: refused, lost, or applied, with or without a reply. *)
Definition stored (s : CertSecret) (rv : Z) : CertSecret := MkCertSecret (cs_Namespace s) (cs_Name s) rv (cs_Data s).

Definition world_spec : Spec WEv World := λ X e,
  match e in WEv X return World → (X → World → Prop) → Prop with
  | WCert e => λ w Q, cert_spec _ e (w_now w) (λ x t, Q x (set_now t w))
  | WGetSecret ns name => λ w Q,
      ns = op_Namespace opts ∧ name = op_SecretName opts ∧
      ∀ w', others w w' →
        (∀ e, ekind_of e ≠ EKNotFound → Q (Err e) w') ∧
        match w_secret w' with
        | None => ∀ e, ekind_of e = EKNotFound → Q (Err e) w'
        | Some s => Q (Ok s) w'
        end
  | WCreateSecret s => λ w Q,
      secret_good s ∧
      ∀ w', others w w' →
        (∀ e, ekind_of e ≠ EKAlreadyExists → Q (Err e) w') ∧
        match w_secret w' with
        | None => (∀ rv, Q (Ok (stored s rv)) (set_secret (stored s rv) w')) ∧
                  (∀ e rv, ekind_of e ≠ EKAlreadyExists → Q (Err e) (set_secret (stored s rv) w'))
        | Some _ => ∀ e, ekind_of e = EKAlreadyExists → Q (Err e) w'
        end
  | WUpdateSecret s => λ w Q,
      secret_good s ∧
      ∀ w', others w w' →
        (∀ e, Q (Err e) w') ∧
        (∀ old, w_secret w' = Some old → cs_ResourceVersion old = cs_ResourceVersion s →
           same_ca old s ∧
           ∀ rv, (cs_ResourceVersion old < rv)%Z →
             Q (Ok (stored s rv)) (set_secret (stored s rv) w') ∧ ∀ e, Q (Err e) (set_secret (stored s rv) w'))
  | WGetCfg name => λ w Q,
      name = op_WebhookConfigurationName opts ∧
      ∀ w', others w w' → (∀ e, Q (Err e) (set_seen None w')) ∧ ∀ c, Q (Ok c) (set_seen (Some (bundles c)) w')
  | WUpdateCfg name c => λ w Q,
      name = op_WebhookConfigurationName opts ∧
      ∀ w', others w w' → (∀ e, Q (Some e) (set_seen None w')) ∧ Q None (set_seen (Some (bundles c)) w')
  | WMkdirAll _ => λ w Q, ∀ r, Q r w
  | WReadFile path => λ w Q,
      (∀ e, Q (Err e) w) ∧ ∀ content, w_disk w !! path = Some content → Q (Ok content) w
  | WWriteFile path content => λ w Q,
      Q None (set_disk (<[path := content]> (w_disk w)) w) ∧
      ∀ e content', Q (Some e) (set_disk (<[path := content']> (w_disk w)) w)
  | WSelect => λ w Q, ∀ b, Q b w
  end.

#[global] Instance world_spec_mono : MonoSpec world_spec.
Proof.
  intros X e s P Q HPQ. destruct e; cbn.
  - apply cert_spec_mono. intros x t. apply HPQ.
  - intros (? & ? & HP). split_and!; [done..|]. intros w' Hw. destruct (HP w' Hw) as [J1 J2].
    split; [auto|]. destruct (w_secret w'); auto.
  - intros [? HP]. split; [done|]. intros w' Hw. destruct (HP w' Hw) as [J1 J2].
    split; [auto|]. destruct (w_secret w'); [auto|]. destruct J2; auto.
  - intros [? HP]. split; [done|]. intros w' Hw. destruct (HP w' Hw) as [J1 J2].
    split; [auto|]. intros old Ho Hrv. destruct (J2 old Ho Hrv) as [? J3]. split; [done|]. intros rv Hlt. destruct (J3 rv Hlt). auto.
  - intros (? & HP). split; [done|]. intros w' Hw. destruct (HP w' Hw). auto.
  - intros (? & HP). split; [done|]. intros w' Hw. destruct (HP w' Hw). auto.
  - intros HP r. auto.
  - intros [HP1 HP2]. auto.
  - intros [HP1 HP2]. auto.
  - auto.
Qed.

(** ** Lemmas *)

Definition sound (w : World) : Prop := ∀ s, w_secret w = Some s → secret_good s.

(** The store holds [s] or what became of it. *)
Definition after (s : CertSecret) (w : World) : Prop := ∃ s', w_secret w = Some s' ∧ newer s s'.

Definition frame (w w' : World) : Prop :=
  (w_now w <= w_now w')%Z ∧ w_disk w' = w_disk w ∧ w_cfgSeen w' = w_cfgSeen w ∧ sound w' ∧
  ∀ s, after s w → after s w'.

Lemma newer_refl s : secret_good s → newer s s.
Proof. intros Hg. split_and!; [done|done|lia|done]. Qed.

Lemma newer_trans s1 s2 s3 : newer s1 s2 → newer s2 s3 → newer s1 s3.
Proof.
  intros (_ & [Ha Hb] & Hle & Heq) (Hg & [Hc Hd] & Hle' & Heq'). split_and!; [done|split; [by rewrite Hc|by rewrite Hd]|lia|].
  intros He. assert (s2 = s1) as -> by (apply Heq; lia). apply Heq'. lia.
Qed.

Lemma frame_refl w : sound w → frame w w.
Proof. intros Hs. split_and!; [lia|done..|auto]. Qed.

Lemma frame_trans w1 w2 w3 : frame w1 w2 → frame w2 w3 → frame w1 w3.
Proof. intros (?&J1&J1'&?&?) (?&J2&J2'&?&?). split_and!; [lia|by rewrite J2|by rewrite J2'|done|auto]. Qed.

Lemma others_frame w w' : sound w → others w w' → frame w w'.
Proof.
  intros Hs (Hn & Hd & Hc & Hsec). split_and!; [lia|done..| |].
  - intros s Hs'. destruct (w_secret w) as [s0|]; [|by apply Hsec]. destruct Hsec as (s1 & Hs1 & Hg & _). by simplify_eq.
  - intros s (s0 & Hs0 & Hnew). rewrite Hs0 in Hsec. destruct Hsec as (s1 & Hs1 & Hnew').
    exists s1. split; [done|by eapply newer_trans].
Qed.

Lemma frame_now w t : sound w → (w_now w <= t)%Z → frame w (set_now t w).
Proof. intros Hs Ht. split_and!; [done..|auto]. Qed.

Lemma wp_onCert {A} (p : Prog CertEv A) w Q :
  wp cert_spec p (w_now w) (λ a t, Q a (set_now t w)) → wp world_spec (onCert p) w Q.
Proof.
  revert w Q. induction p as [a|X e k IH]; intros w Q; cbn [onCert wp].
  - by destruct w.
  - apply cert_spec_mono. intros x t Hx. apply IH. cbn. eapply wp_mono; [apply _| |exact Hx]. done.
Qed.

Lemma wp_RetryOnConflict {A} (I : World → Prop) n (f : Prog WEv (result A)) w (Q : result A → World → Prop) :
  (∀ w, I w → wp world_spec f w (λ r w', Q r w' ∧ (∀ e, r = Err e → I w'))) → I w →
  wp world_spec (RetryOnConflict n f) w Q.
Proof.
  intros Hf. revert w. induction n as [|n IH]; intros w HI; cbn [RetryOnConflict]; apply wp_bind; try apply _;
    (eapply wp_mono; [apply _| |by apply Hf]); intros r w' [HQ HI']; (destruct r as [a|e]; [done|]); destruct (ekind_of e); try done.
  destruct n as [|n]; [done|]. apply IH. by eapply HI'.
Qed.

Lemma good_of_issue ca key tc c nb na s d ns :
  ca_pair ca key → issued_leaf ca (MkName [] [] ns) (dnsNames opts) ExtKeyUsageServerAuth nb na tc c →
  secretData ca key tc = Ok d → cs_Data s = d → cs_Namespace s = op_Namespace opts → cs_Name s = op_SecretName opts →
  secret_good s ∧ holds_ca s ca key ∧ ParseCertPEM (data s KeyTLSCert) = Ok c ∧ x_NotAfter c = seconds na.
Proof.
  intros Hca (k & -> & Hp & Hpk & Hs & _ & Hdns & Hu & _ & Hna & kd & Hkd) Hd <- Hns Hnm.
  unfold secretData in Hd. destruct (EncodeECPrivateKeyPEM key) as [cak|e] eqn:Hck; [|done]. cbn [tls_PrivateKey PrivateKeyPEM] in Hd.
  unfold EncodeECPrivateKeyPEM in Hd. rewrite Hkd in Hd. injection Hd as Hd.
  assert (holds_ca s ca key) as Hhold.
  { unfold holds_ca, data. rewrite <- Hd. split_and!; [done|by simplify_map_eq|by simplify_map_eq]. }
  assert (data s KeyTLSCert = EncodeCertPEM (x_Raw c)) as Htls.
  { unfold data. rewrite <- Hd. by simplify_map_eq. }
  assert (data s KeyTLSKey = pem_Encode pemBlockTypeECKey kd) as Htk.
  { unfold data. rewrite <- Hd. by simplify_map_eq. }
  assert (ParseCertPEM (data s KeyTLSCert) = Ok c) as Hparse by (by rewrite Htls, ParseCertPEM_one).
  split_and!; [|done..]. split_and!; [done..|]. exists ca, key, c. split; [done|]. split_and!; [done..| |].
  - rewrite Hu. set_solver.
  - exists k. split; [|done]. rewrite Htk. by apply ParseECPrivateKeyPEM_one.
Qed.

Definition fresh (t : Z) (s : CertSecret) : Prop :=
  ∃ leaf, ParseCertPEM (data s KeyTLSCert) = Ok leaf ∧
    (t + Z.min (op_RotateBefore opts) (op_CertValidity opts - Second) <= x_NotAfter leaf)%Z.

Lemma fresh_issued t s leaf now :
  ParseCertPEM (data s KeyTLSCert) = Ok leaf → x_NotAfter leaf = seconds (now + op_CertValidity opts) → (t <= now)%Z → fresh t s.
Proof. intros Hp Hna Ht. exists leaf. split; [done|]. rewrite Hna. pose proof (seconds_bounds (now + op_CertValidity opts)). lia. Qed.

Lemma fresh_earlier t t' s : (t <= t')%Z → fresh t' s → fresh t s.
Proof. intros Ht (leaf & Hp & Hna). exists leaf. split; [done|lia]. Qed.

Lemma good_stored s rv : secret_good s → secret_good (stored s rv).
Proof. done. Qed.

Lemma frame_store w w' s :
  frame w w' → secret_good s → (∀ old, w_secret w' = Some old → newer old s) → frame w (set_secret s w').
Proof.
  intros (?&?&?&Hs&Ha) Hg Hnew. split_and!; [done..| |].
  - intros s' [= <-]. done.
  - intros s' (s0 & Hs0 & Hn)%Ha. exists s. split; [done|]. eapply newer_trans; [done|by apply Hnew].
Qed.

(** What the calls promise: the outcome of an error is a frame. *)
Definition delivers (w : World) (r : result CertSecret) (w' : World) : Prop :=
  frame w w' ∧ match r with Err _ => True | Ok s => secret_good s ∧ after s w' ∧ fresh (w_now w) s end.

Lemma wp_createSecret w : sound w → wp world_spec (createSecret opts) w (delivers w).
Proof.
  intros Hs. unfold createSecret. cbn [wp pbind emit world_spec cert_spec]. intros now Hnow.
  assert (frame w (set_now now w)) as Hf by (by apply frame_now).
  apply wp_bind; [apply _|]. apply wp_onCert, wp_GenerateCA; [by intros|].
  intros ca key Hca _ _ _. pose proof Hca as (HisCA & Hpub & Hparse). cbn [w_now set_now].
  apply wp_bind; [apply _|]. apply wp_onCert, wp_IssueLeafCert; [done..|by rewrite Hpub|by intros|].
  intros tc c _ Hleaf. cbn [w_now set_now]. destruct (secretData ca key tc) as [d|e] eqn:Hd; [|done].
  set (s := MkCertSecret _ _ _ _). cbn [wp emit world_spec].
  destruct (good_of_issue ca key tc c _ _ s d _ Hca Hleaf Hd eq_refl eq_refl eq_refl) as (Hg & _ & Hpc & Hna).
  split; [done|]. intros w' Hw'. assert (frame w w') as Hfw.
  { eapply frame_trans; [exact Hf|]. apply others_frame; [apply Hf|exact Hw']. }
  split; [by intros|]. destruct (w_secret w') as [old|] eqn:Hold; [by intros|].
  assert (∀ rv, frame w (set_secret (stored s rv) w')) as Hst.
  { intros rv. apply frame_store; [done|by apply good_stored|]. intros old. by rewrite Hold. }
  split; [|by intros]. intros rv. split; [apply Hst|]. split_and!; [by apply good_stored| |by eapply fresh_issued].
  exists (stored s rv). split; [done|]. by apply newer_refl, good_stored.
Qed.

Lemma wp_rotateOnce w0 w s ca key :
  frame w0 w → after s w → secret_good s → holds_ca s ca key →
  wp world_spec (rotateOnce opts s ca key) w (λ r w', delivers w0 r w' ∧ after s w').
Proof.
  intros Hf0 Has Hg (Hca & Hcc & Hck). pose proof Hca as (HisCA & Hpub & Hparse). pose proof Hg as (Hns & Hnm & _).
  unfold rotateOnce. cbn [wp pbind emit world_spec]. split_and!; [done..|]. intros w1 Hw1.
  assert (frame w0 w1) as Hf1. { eapply frame_trans; [done|]. apply others_frame; [apply Hf0|done]. }
  assert (after s w1) as Has1. { apply (others_frame w w1); [apply Hf0|done..]. }
  split; [by intros|]. destruct Has1 as (cur & Hcur & Hnew). rewrite Hcur. cbn [wp pbind]. intros now Hnow.
  set (w2 := set_now now w1). assert (frame w0 w2) as Hf2.
  { eapply frame_trans; [done|]. apply frame_now; [apply Hf1|done]. }
  assert (after s w2) as Has2 by (by exists cur).
  apply wp_bind; [apply _|]. apply wp_onCert, wp_IssueLeafCert; [done..|by rewrite Hpub|by intros|].
  intros tc c _ Hleaf. cbn [w_now set_now]. destruct (secretData ca key tc) as [d|e] eqn:Hd; [|done].
  set (u := MkCertSecret _ _ _ _). destruct Hnew as (Hgc & Hsame & Hle & Heq). pose proof Hgc as (Hcns & Hcnm & _).
  destruct (good_of_issue ca key tc c _ _ u d _ Hca Hleaf Hd eq_refl Hcns Hcnm) as (Hgu & (_ & Hucc & Huck) & Hpc & Hna).
  cbn [wp emit world_spec]. split; [done|]. intros w3 Hw3. pose proof (others_frame w2 w3 (proj1 (proj2 (proj2 (proj2 Hf2)))) Hw3) as Hf23.
  assert (frame w0 w3) as Hf3 by (by eapply frame_trans). assert (after s w3) as Has3 by (by apply Hf23).
  split; [by intros|]. intros old Hold Hrv.
  assert (old = cur) as ->.
  { destruct Hw3 as (_ & _ & _ & Hx). cbn [w_secret w2 set_now] in Hx. rewrite Hcur in Hx. destruct Hx as (s' & Hs' & _ & _ & _ & He).
    rewrite Hold in Hs'. injection Hs' as <-. by apply He. }
  assert (same_ca cur u) as Hsu. { destruct Hsame as [Ha Hb]. split; [by rewrite Ha, Hucc, Hcc|]. rewrite Hb. congruence. }
  split; [done|]. intros rv Hlt.
  assert (frame w0 (set_secret (stored u rv) w3) ∧ frame w3 (set_secret (stored u rv) w3)) as [Hf4 Hf34].
  { split; (apply frame_store; [|by apply good_stored|]); try (apply frame_refl, Hf3); try done;
      intros o Ho; rewrite Hold in Ho; injection Ho as <-; (split_and!; [by apply good_stored|done|cbn; lia|cbn; lia]). }
  assert (after s (set_secret (stored u rv) w3)) as Has4 by (by apply Hf34).
  split; [|by intros]. split; [|done]. split; [done|]. split_and!; [by apply good_stored| |].
  - exists (stored u rv). split; [done|]. by apply newer_refl, good_stored.
  - eapply fresh_issued; [done..|]. destruct Hf1 as [? _]. lia.
Qed.

Lemma delivers_mono w0 w r w' : frame w0 w → delivers w r w' → delivers w0 r w'.
Proof.
  intros Hf [Hfr Hr]. split; [by eapply frame_trans|]. destruct r; [|done]. destruct Hr as (?&?&?). split_and!; [done..|].
  eapply fresh_earlier; [|done]. by destruct Hf.
Qed.

Lemma wp_rotateLeaf w s : sound w → after s w → secret_good s → wp world_spec (rotateLeaf opts s) w (delivers w).
Proof.
  intros Hs Has Hg. pose proof Hg as (_ & _ & ca & key & leaf & Hca & _). pose proof Hca as (Hpair & Hcc & Hck).
  unfold rotateLeaf. rewrite Hcc, ParseCertPEM_one. pose proof Hpair as (_ & _ & ->).
  assert (ParseECPrivateKeyPEM (data s KeyCAKey) = Ok key) as ->.
  { unfold EncodeECPrivateKeyPEM in Hck. destruct (MarshalECPrivateKey key) as [kd|] eqn:Hk; [|done].
    injection Hck as <-. by apply ParseECPrivateKeyPEM_one. }
  apply (wp_RetryOnConflict (λ w', frame w w' ∧ after s w')).
  - intros w' [Hf Ha]. eapply wp_mono; [apply _| |by apply (wp_rotateOnce w)]. intros r w'' [Hd Ha']. split; [done|].
    intros e _. split; [apply Hd|done].
  - split; [by apply frame_refl|done].
Qed.

Lemma wp_freshen w s : sound w → after s w → secret_good s → wp world_spec (freshen opts s) w (delivers w).
Proof.
  intros Hs Has Hg. unfold freshen, needsLeafRotation. pose proof Hg as (_ & _ & ca & key & leaf & _ & Hp & _).
  destruct (_ || _); [by apply wp_rotateLeaf|]. rewrite Hp. cbn [wp pbind emit world_spec cert_spec]. intros now Hnow.
  assert (frame w (set_now now w)) as Hf by (by apply frame_now).
  destruct (Z.ltb_spec (x_NotAfter leaf) (now + op_RotateBefore opts)) as [Hlt|Hge].
  - eapply wp_mono; [apply _| |apply wp_rotateLeaf; [done| |done]]; [|by apply Hf]. intros r w'. by apply delivers_mono.
  - cbn [wp]. split; [done|]. split_and!; [done|by apply Hf|]. exists leaf. split; [done|]. lia.
Qed.

Lemma wp_ensureSecret w : sound w → wp world_spec (ensureSecret opts) w (delivers w).
Proof.
  intros Hs.
  assert (∀ w1 s, frame w w1 → w_secret w1 = Some s → wp world_spec (freshen opts s) w1 (delivers w)) as Hfresh.
  { intros w1 s Hf Hs1. assert (secret_good s) by (by apply Hf). eapply wp_mono; [apply _| |apply wp_freshen; [apply Hf| |done]].
    - intros r w'. by apply delivers_mono.
    - exists s. split; [done|]. by apply newer_refl. }
  unfold ensureSecret. cbn [wp pbind emit world_spec]. split_and!; [done..|]. intros w1 Hw1.
  assert (frame w w1) as Hf1 by (by apply others_frame). split.
  { intros e He. by destruct (ekind_of e). }
  destruct (w_secret w1) as [s|] eqn:Hs1; [by apply Hfresh|]. intros e ->. apply wp_bind; [apply _|].
  eapply wp_mono; [apply _| |apply wp_createSecret, Hf1]. intros r w2 Hd%(delivers_mono w); [|done].
  destruct r as [s|e']; [done|]. pose proof Hd as [Hf2 _]. destruct (ekind_of e'); try done.
  cbn [wp pbind emit world_spec]. split_and!; [done..|]. intros w3 Hw3.
  assert (frame w w3) as Hf3. { eapply frame_trans; [done|]. apply others_frame; [apply Hf2|done]. }
  split; [done|]. destruct (w_secret w3) as [s|] eqn:Hs3; [by apply Hfresh|done].
Qed.

(** ** The files and the registration *)

Lemma wp_writeIfChanged path content w (Q : option gerr → World → Prop) :
  (∀ e c, Q (Some e) (set_disk (<[path := c]> (w_disk w)) w)) →
  (∀ d, d !! path = Some content → (∀ p, p ≠ path → d !! p = w_disk w !! p) → Q None (set_disk d w)) →
  wp world_spec (writeIfChanged path content) w Q.
Proof.
  intros He Hok. unfold writeIfChanged. cbn [wp pbind emit world_spec].
  assert (Q None (set_disk (<[path := content]> (w_disk w)) w)) as Hw.
  { apply Hok; [apply lookup_insert_eq|]. intros p Hp. by rewrite lookup_insert_ne. }
  split; [intros e; by split|]. intros old Hold. destruct (String.eqb_spec old content) as [->|]; [|by split].
  cbn [wp]. specialize (Hok (w_disk w) Hold (λ _ _, eq_refl)). by destruct w.
Qed.

(** The replica serves the Secret's certificate with its key. *)
Definition on_disk (s : CertSecret) (w : World) : Prop :=
  w_disk w !! certPath filepath_Join opts = Some (data s KeyTLSCert) ∧
  w_disk w !! keyPath filepath_Join opts = Some (data s KeyTLSKey).

(** Everything but the files. *)
Definition off_disk (w w' : World) : Prop :=
  w_now w' = w_now w ∧ w_secret w' = w_secret w ∧ w_cfgSeen w' = w_cfgSeen w.

Lemma wp_writeCertFiles s w (Q : option gerr → World → Prop) :
  (∀ e w', off_disk w w' → Q (Some e) w') → (∀ w', off_disk w w' → on_disk s w' → Q None w') →
  wp world_spec (writeCertFiles filepath_Join opts s) w Q.
Proof.
  intros He Hok. unfold writeCertFiles. cbn [wp pbind emit world_spec]. intros [e|]; [by apply He|].
  apply wp_bind; [apply _|]. apply wp_writeIfChanged; [intros e c; by apply He|]. intros d Hd _.
  apply wp_writeIfChanged; [intros e c; by apply He|]. intros d' Hd' Hrest. apply Hok; [done|].
  split; [|done]. cbn [w_disk set_disk]. rewrite Hrest by done. exact Hd.
Qed.

Definition bundles_patched (ca : string) (w : World) : Prop := ∃ l, w_cfgSeen w = Some l ∧ Forall (λ b, b = ca) l.

Lemma wp_patchCABundle ca w (Q : result unit → World → Prop) : sound w →
  (∀ r w', sound w' → w_disk w' = w_disk w → (∀ s, after s w → after s w') →
     match r with Ok _ => bundles_patched ca w' | Err _ => w_cfgSeen w' = None end → Q r w') →
  wp world_spec (patchCABundle opts ca) w Q.
Proof.
  intros Hs HQ. unfold patchCABundle.
  set (I := λ w', sound w' ∧ w_disk w' = w_disk w ∧ (∀ s, after s w → after s w')).
  assert (∀ w1 w2 c, I w1 → others w1 w2 → I (set_seen c w2)) as HI.
  { intros w1 w2 c (Hs1 & Hd & Ha) Ho. pose proof (others_frame _ _ Hs1 Ho) as (_ & Hd' & _ & Hs2 & Ha').
    split_and!; [done|cbn; congruence|]. intros s Has. apply Ha', Ha, Has. }
  assert (∀ r w', I w' → match r with Ok _ => bundles_patched ca w' | Err _ => w_cfgSeen w' = None end → Q r w') as HQI.
  { intros r w' (?&?&?). by apply HQ. }
  apply (wp_RetryOnConflict I); [|by split_and!]. intros w0 HI0. unfold patchOnce. cbn [wp pbind emit world_spec].
  split; [done|]. intros w1 Hw1. split; [intros e; split; [by apply HQI; [by eapply HI|]|by intros; eapply HI]|].
  intros cfg. destruct (existsb _ _) eqn:Hch; cbn [negb].
  - cbn [wp pbind emit world_spec]. split; [done|]. intros w2 Hw2. assert (I (set_seen (Some (bundles cfg)) w1)) as HI1 by (by eapply HI).
    split; [intros e; split; [by apply HQI; [by eapply HI|]|by intros; eapply HI]|]. split; [|done]. apply HQI; [by eapply HI|].
    eexists. split; [done|]. unfold bundles. cbn. rewrite Forall_forall. intros b (? & -> & (? & -> & _)%list_elem_of_fmap)%list_elem_of_fmap. done.
  - cbn [wp]. split; [|done]. apply HQI; [by eapply HI|]. eexists. split; [done|]. rewrite Forall_forall.
    intros b (wh & -> & Hin)%list_elem_of_fmap. apply not_true_iff_false in Hch. destruct (String.eqb_spec (wh_CABundle wh) ca) as [|Hne]; [done|].
    destruct Hch. apply existsb_exists. exists wh. split; [by apply list_elem_of_In|]. by apply String.eqb_neq in Hne as ->.
Qed.

(** A replica whose files and registration belong to the Secret the replicas
    share: the API server, trusting the bundles registered, accepts the
    certificate on disk for the webhook Service. *)
Definition serving (t : Z) (w : World) : Prop :=
  ∃ s ca leaf certPEM keyPEM k,
    after s w ∧ w_disk w !! certPath filepath_Join opts = Some certPEM ∧ w_disk w !! keyPath filepath_Join opts = Some keyPEM ∧
    ParseCertPEM certPEM = Ok leaf ∧ ParseECPrivateKeyPEM keyPEM = Ok k ∧ x_PublicKey leaf = Some (Public k) ∧
    x_DNSNames leaf = dnsNames opts ∧ ExtKeyUsageServerAuth ∈ x_ExtKeyUsage leaf ∧ signs ca leaf ∧
    (t + Z.min (op_RotateBefore opts) (op_CertValidity opts - Second) <= x_NotAfter leaf)%Z ∧
    match w_cfgSeen w with None => True | Some l => Forall (λ b, ParseCertPEM b = Ok ca ∧ b = data s KeyCACert) l end.

Lemma wp_Ensure o w : opts = setDefaults o → sound w →
  wp world_spec (Ensure filepath_Join o) w (λ e w', sound w' ∧ (∀ s, after s w → after s w') ∧ (e = None → serving (w_now w) w')).
Proof.
  intros Ho Hs. unfold Ensure. rewrite <- Ho. apply wp_bind; [apply _|]. eapply wp_mono; [apply _| |by apply wp_ensureSecret].
  intros r w1 [(_ & _ & _ & Hs1 & Ha1) Hr]. destruct r as [s|e]; [|done]. destruct Hr as (Hg & Has & Hfresh).
  apply wp_bind; [apply _|]. apply wp_writeCertFiles.
  { intros e w2 (_ & Hsec & _). unfold sound, after in *. cbn [wp]. rewrite Hsec. split_and!; [done..|by intros]. }
  intros w2 (_ & Hsec & _) [Hdc Hdk]. apply wp_bind; [apply _|]. apply wp_patchCABundle; [unfold sound; by rewrite Hsec|].
  intros p w3 Hs3 Hd3 Ha3 Hp. cbn [wp].
  assert (∀ s, after s w1 → after s w3) as Ha13. { intros s' Hs'. apply Ha3. unfold after in *. by rewrite Hsec. }
  split; [done|]. split; [auto|]. intros Hnone. destruct Hg as (_ & _ & ca & key & leaf & (Hpair & Hcc & _) & Hparse & Hsig & Hdns & Hu & k & Hk & Hpk).
  exists s, ca, leaf, (data s KeyTLSCert), (data s KeyTLSKey), k. rewrite Hd3. split_and!; try done; [by apply Ha13| |].
  - destruct Hfresh as (leaf' & Hl' & Hna). rewrite Hparse in Hl'. by injection Hl' as <-.
  - destruct p as [[]|e].
    + destruct Hp as (l & -> & Hl). eapply Forall_impl; [done|]. intros b ->. split; [|done]. rewrite Hcc, ParseCertPEM_one. apply Hpair.
    + by rewrite Hp.
Qed.

(** C27: the admission webhook's certificate.  Whatever the other replicas do
    to the shared Secret in the meantime, a call of [Ensure] that reports
    success leaves this replica with a certificate and key file that belong
    together, cover the webhook Service's names and are good for the rotation
    margin, signed by the CA that is in every bundle of the webhook registration
    (when that object exists); and that CA is still the one of the shared Secret.
    Succeeding or not, the call never leaves a Secret whose parts do not belong
    together and never changes its CA, so any number of ticks of the rotator of
    any number of replicas keeps all of this. *)
Theorem webhook_certificates_consistent o w ticks interval : opts = setDefaults o → sound w →
  wp world_spec (Ensure filepath_Join o) w (λ e w', sound w' ∧ (∀ s, after s w → after s w') ∧ (e = None → serving (w_now w) w')) ∧
  wp world_spec (Rotator_Start filepath_Join ticks (MkRotator o interval)) w (λ _ w', sound w' ∧ ∀ s, after s w → after s w').
Proof.
  intros Ho Hs. split; [by apply wp_Ensure|]. revert w Hs. induction ticks as [|n IH]; intros w Hs; [by cbn|].
  cbn [Rotator_Start wp pbind emit world_spec]. intros [|]; [by cbn|]. apply wp_bind; [apply _|].
  eapply wp_mono; [apply _| |by apply wp_Ensure]. intros e w1 (Hs1 & Ha & _). eapply wp_mono; [apply _| |by apply IH].
  intros b w2 [Hs2 Ha2]. split; [done|auto].
Qed.

(** A Secret whose CA does not parse is never repaired: the rotation falls back
    to creating a Secret that exists, and reports that. *)
Lemma corrupt_ca_not_repaired (h : ∀ X, WEv X → X) s :
  (∃ e, ParseCertPEM (data s KeyCACert) = Err e) → (∀ s', ∃ e, h _ (WCreateSecret s') = Err e) →
  ∃ e, run_pure h (rotateLeaf opts s) = Err e.
Proof.
  intros [e He] Hex. unfold rotateLeaf. rewrite He. unfold createSecret. cbn [run_pure emit pbind]. rewrite run_pure_bind.
  destruct (run_pure h (onCert _)) as [[ca key]|e']; [|by eexists]. rewrite run_pure_bind.
  destruct (run_pure h (onCert _)) as [tc|e']; [|by eexists]. destruct (secretData _ _ _) as [d|e']; [|by eexists]. apply Hex.
Qed.

End props.
