(* ===== verification/ClusterSpec.v ===== *)
(** * Demands on what a controller writes

    A specification of the requests on cluster objects: every object written
    must meet a demand, reads stay in one namespace, and the objects known to be
    in the cluster (written, or found as wanted) are kept. *)

From S2P Require Import Prelude GoStd Api Effects Kube KObjects.

Local Open Scope string_scope.
Local Open Scope list_scope.
Local Open Scope go_scope.

Definition AnyObj := { K & Obj K }.
Definition any {K} (o : Obj K) : AnyObj := existT K o.

Section demand.
  Variable ns : string.
  Variable demand : ∀ K, Obj K → Prop.
  (** What may be deleted. *)
  Variable deletable : Kind → string → Prop.

(** What a read of an object yields. *)
Definition named {K} (n name : string) (o : Obj K) : Prop := k_Namespace (o_Meta o) = n ∧ k_Name (o_Meta o) = name.

Definition cluster_spec : Spec CEv (list AnyObj) := λ X e,
  match e in CEv X return list AnyObj → (X → list AnyObj → Prop) → Prop with
  | CGet K n name => λ l Q, n = ns ∧ (∀ e, Q (Err e) l) ∧ ∀ o, named n name o → Q (Ok o) l
  | CCreate o => λ l Q, demand _ o ∧ (∀ e, Q (Err e) l) ∧ Q (Ok tt) (any o :: l)
  | CUpdate o => λ l Q, demand _ o ∧ (∀ e, Q (Err e) l) ∧ Q (Ok tt) (any o :: l)
  | CDelete K n name => λ l Q, n = ns ∧ deletable K name ∧ ∀ r, Q r l
  | CUnchanged live o => λ l Q, Q false l ∧ Q true (any o :: l)
  end.

#[global] Instance cluster_spec_mono : MonoSpec cluster_spec.
Proof. intros X e s P Q HPQ. destruct e; cbn; naive_solver. Qed.

(** An object that meets the demand is in the cluster. *)
Definition present (K : Kind) (name : string) (l : list AnyObj) : Prop :=
  ∃ o : Obj K, any o ∈ l ∧ named ns name o ∧ demand K o.

Lemma present_cons K name a l : present K name l → present K name (a :: l).
Proof. intros (o & Ho & Hn). exists o. split; [by right|done]. Qed.

Lemma wp_applied {K} (o : Obj K) mutate l (Q : option CouErr → list AnyObj → Prop) :
  k_Namespace (o_Meta o) = ns →
  (∀ live, named ns (k_Name (o_Meta o)) live →
     ∃ o', mutate live = Ok o' ∧ named ns (k_Name (o_Meta o)) o' ∧ demand K o') →
  (∀ e, Q (Some e) l) →
  (∀ o', named ns (k_Name (o_Meta o)) o' → demand K o' → Q None (any o' :: l)) →
  wp cluster_spec (CreateOrUpdate o mutate) l Q.
Proof.
  intros Hns Hmut Herr Hok. unfold CreateOrUpdate. cbn [wp pbind emit cluster_spec]. rewrite Hns. split; [done|]. split.
  - intros e. destruct (isNotFound e); cbn [negb wp]; [|apply Herr].
    destruct (Hmut o) as (o' & -> & Hn & Hd); [done|]. cbn [wp pbind emit cluster_spec]. split; [done|]. split; [intros; apply Herr|by apply Hok].
  - intros live Hlive. destruct (Hmut live Hlive) as (o' & -> & Hn & Hd). cbn [wp pbind emit cluster_spec].
    split; [|by apply Hok]. split; [done|]. split; [intros; apply Herr|by apply Hok].
Qed.

(** The form the controllers use: the error is dropped or wrapped, the object
    is present after. *)
Lemma wp_ensured {K} (o : Obj K) mutate l (Q : option CouErr → list AnyObj → Prop) :
  k_Namespace (o_Meta o) = ns →
  (∀ live, named ns (k_Name (o_Meta o)) live →
     ∃ o', mutate live = Ok o' ∧ named ns (k_Name (o_Meta o)) o' ∧ demand K o') →
  (∀ e, Q (Some e) l) →
  (∀ l', present K (k_Name (o_Meta o)) l' → (∀ K' n, present K' n l → present K' n l') → Q None l') →
  wp cluster_spec (CreateOrUpdate o mutate) l Q.
Proof.
  intros Hns Hmut Herr Hok. apply wp_applied; [done..|]. intros o' Hn Hd. apply Hok.
  - exists o'. split; [by left|done].
  - intros K' n. apply present_cons.
Qed.

End demand.
