(* ===== verification/ExecutorCtl.v ===== *)
(** * The executor's resources

    [internal/controller/executor_reconciler.go]: the Deployment, Service,
    NetworkPolicy and certificate Secret of the HTTP executor in a managed
    namespace.  The process environment is the argument [env]. *)

From S2P Require Import Prelude GoStd Api Net Effects Interp Kube KObjects FlowCtl IntegrationCtl Ssrf Executor CertUtil.

Local Open Scope string_scope.
Local Open Scope list_scope.
Local Open Scope go_scope.

Definition executorDeploymentName : string := "kubezap-http-executor".
Definition executorNetworkPolicyName : string := "kubezap-executor-ingress".
Definition executorMTLSSecretName : string := "kubezap-executor-mtls-cert".
Definition defaultExecutorImage : string := "ghcr.io/kubezap/http-executor:latest".
Definition DefaultExecutorPort : Z := 8091.
Definition executorHealthPort : Z := 8092.
Definition portNameHealth : string := "health".
Definition portNameHTTP : string := "http".
Definition portNameHTTPS : string := "https".
Definition labelAppKubernetesIOName : string := "app.kubernetes.io/name".
Definition labelAppKubernetesIOComponent : string := "app.kubernetes.io/component".
Definition appNameKubezap : string := "kubezap".
Definition componentHTTPExecutor : string := "http-executor".

Definition executorLabels : gmap string string :=
  <[labelAppKubernetesIOName := appNameKubezap]> (<[labelAppKubernetesIOComponent := componentHTTPExecutor]>
    {["app.kubernetes.io/managed-by" := "kubezap-operator"]}).

(** The selector of the Deployment, the Service and the NetworkPolicy. *)
Definition executorSelector : gmap string string :=
  <[labelAppKubernetesIOName := appNameKubezap]> {[labelAppKubernetesIOComponent := componentHTTPExecutor]}.

Section executor.
  Context `{X509Lib}.

Record ExecutorReconciler := MkExecutorReconciler {
  er_ExecutorImage : string;
  er_ExecutorPort : Z;
  er_MTLSEnabled : bool;
  er_MTLSBundle : option MTLSBundle;
  er_SSRFAllowClusterInternal : bool;
  er_OperatorNamespace : string
}.

Implicit Types (r : ExecutorReconciler) (ns : string) (env : string → string).

Definition executorImage r : string :=
  if negb (er_ExecutorImage r =? "") then er_ExecutorImage r else defaultExecutorImage.
Definition executorPort r : Z :=
  if negb (er_ExecutorPort r =? 0)%Z then er_ExecutorPort r else DefaultExecutorPort.
Definition egressExceptCIDRs r : list string := if er_SSRFAllowClusterInternal r then [] else SSRFBlockedCIDRsV4.
Definition egressExceptCIDRsV6 r : list string := if er_SSRFAllowClusterInternal r then [] else SSRFBlockedCIDRsV6.
Definition operatorNamespace r : string :=
  if negb (er_OperatorNamespace r =? "") then er_OperatorNamespace r else "kubezap-system".

Definition set_Labels {K} (labels : gmap string string) (o : Obj K) : Obj K :=
  let m := o_Meta o in
  MkObj (MkKMeta (k_Name m) (k_Namespace m) labels (k_Owner m) (k_ResourceVersion m)) (o_Body o).

Definition executorArgs r : list string :=
  ["--port=" +:+ Itoa (executorPort r); "--health-port=" +:+ Itoa executorHealthPort]
  ++ (if er_SSRFAllowClusterInternal r then ["--ssrf-allow-in-cluster=true"] else [])
  ++ (if er_MTLSEnabled r then
        ["--mtls=true"; "--tls-cert-file=/etc/kubezap/tls/tls.crt"; "--tls-key-file=/etc/kubezap/tls/tls.key";
         "--tls-ca-file=/etc/kubezap/tls/ca.crt"]
      else []).

Definition executorProbe (delay period : Z) : Probe := MkProbe healthzPath executorHealthPort "HTTP" delay period 0.

Definition executorPod r env : PodSpec :=
  let mounts := if er_MTLSEnabled r then [MkMount "mtls-certs" "/etc/kubezap/tls" true] else [] in
  let volumes := if er_MTLSEnabled r then [MkVolume "mtls-certs" executorMTLSSecretName] else [] in
  MkPodSpec "" (Some false) true volumes
    [MkContainer componentHTTPExecutor (executorImage r) "IfNotPresent" (executorArgs r) (otelPassthroughEnv env)
       [MkPort portNameHTTP (executorPort r); MkPort portNameHealth executorHealthPort] mounts
       (MkSecurity true true false (Some 65534%Z) true true) None
       (Some (executorProbe 5 15)) (Some (executorProbe 2 10))].

(** Without its status, which the API server keeps. *)
Definition reconcileExecutorDeployment r env ns : Prog CEv (option CouErr) :=
  CreateOrUpdate (MkObj (K := KDep) (MkKMeta executorDeploymentName ns executorLabels None "")
                    (MkDeployment 0 ∅ ∅ (MkPodSpec "" None false [] []) 0))
    (λ live, Ok (set_Labels executorLabels (set_Body (K := KDep)
       (MkDeployment 1 executorSelector executorLabels (executorPod r env) (d_AvailableReplicas (o_Body live))) live))).

Definition reconcileExecutorCertSecret r ns : Prog CEv (option CouErr) :=
  match er_MTLSBundle r with
  | None => Ret (Some (CouMutate (errorf "mTLS enabled but MTLSBundle is nil — bundle must be set before reconciliation")))
  | Some b =>
      CreateOrUpdate (MkObj (K := KSec) (newMeta executorMTLSSecretName ns) (MkSecretBody "" ∅))
        (λ live, Ok (set_Body (K := KSec) (MkSecretBody "Opaque"
           (<["tls.crt" := ServerCertPEM b]> (<["tls.key" := ServerKeyPEM b]> {["ca.crt" := CACertPEM b]}))) live))
  end.

Definition reconcileExecutorService r ns : Prog CEv (option CouErr) :=
  CreateOrUpdate (MkObj (K := KSvc) (MkKMeta executorDeploymentName ns executorLabels None "") (MkService ∅ [] ""))
    (λ live, Ok (set_Labels executorLabels (set_Body (K := KSvc)
       (MkService executorSelector [MkServicePort portNameHTTP (executorPort r) (executorPort r)] "") live))).

Definition executorPolicy r : NetworkPolicyBody :=
  MkNetworkPolicy executorSelector
    [MkNetRule [PeerPods {["control-plane" := "controller-manager"]} {["kubernetes.io/metadata.name" := operatorNamespace r]}]
       [MkNetPort "TCP" (executorPort r)]]
    [MkNetRule [PeerIPBlock "0.0.0.0/0" (egressExceptCIDRs r); PeerIPBlock "::/0" (egressExceptCIDRsV6 r)] [];
     MkNetRule [] [MkNetPort "UDP" 53; MkNetPort "TCP" 53]]
    ["Ingress"; "Egress"].

Definition reconcileExecutorNetworkPolicy r ns : Prog CEv (option CouErr) :=
  CreateOrUpdate (MkObj (K := KNet) (newMeta executorNetworkPolicyName ns) (MkNetworkPolicy ∅ [] [] []))
    (λ live, Ok (set_Body (K := KNet) (executorPolicy r) live)).

(** [Reconcile] for a request in a namespace: its error. *)
Definition Executor_Reconcile r env ns : Prog CEv (option gerr) :=
  let! e := reconcileExecutorDeployment r env ns in
  match e with
  | Some e => Ret (Some (couErr e))
  | None =>
      let! e := reconcileExecutorService r ns in
      match e with
      | Some e => Ret (Some (couErr e))
      | None =>
          let! e := reconcileExecutorNetworkPolicy r ns in
          match e with
          | Some e => Ret (Some (couErr e))
          | None =>
              if er_MTLSEnabled r then
                let! e := reconcileExecutorCertSecret r ns in
                Ret (match e with Some e => Some (couErr e) | None => None end)
              else Ret None
          end
      end
  end.

(** The request a Trigger event leads to. *)
Definition executorRequestOf (objNamespace : string) : string * string := ("executor-preprovisioning", objNamespace).

End executor.
