(* ===== verification/ExecutorCtlProps.v ===== *)
(** * Properties of the executor's resources

    The semantics of a NetworkPolicy, the equality of the executor's network
    rule with its own SSRF check, and what a reconcile of the executor's
    resources writes. *)

From S2P Require Import Prelude GoStd Api Net Effects Interp Kube KObjects FlowCtl IntegrationCtl Ssrf Executor CertUtil ClusterSpec ExecutorCtl.

Local Open Scope string_scope.
Local Open Scope list_scope.
Local Open Scope go_scope.

(** ** NetworkPolicy *)

(** A label selector. *)
Definition matchLabels (sel labels : gmap string string) : bool := bool_decide (sel ⊆ labels).

Definition portMatches (ports : list NetPort) (proto : string) (port : Z) : bool :=
  match ports with [] => true | _ => existsb (λ p, (np_Protocol p =? proto) && (np_Port p =? port)%Z) ports end.

Definition inCIDR (ip : IP) (cidr : string) : bool := match ParseCIDR cidr with Some n => IPNet_Contains n ip | None => false end.

Definition addressMatches (peers : list NetPeer) (ip : IP) : bool :=
  match peers with
  | [] => true
  | _ => existsb (λ p, match p with PeerIPBlock cidr except => inCIDR ip cidr && negb (existsb (inCIDR ip) except) | PeerPods _ _ => false end) peers
  end.

Definition podMatches (peers : list NetPeer) (pod namespace : gmap string string) : bool :=
  match peers with
  | [] => true
  | _ => existsb (λ p, match p with PeerPods ps ns => matchLabels ps pod && matchLabels ns namespace | PeerIPBlock _ _ => false end) peers
  end.

(** Traffic from the selected pods to an address outside the cluster's pods. *)
Definition egressAllowed (b : NetworkPolicyBody) (ip : IP) (proto : string) (port : Z) : bool :=
  negb (existsb (String.eqb "Egress") (ny_PolicyTypes b))
  || existsb (λ r, addressMatches (nr_Peers r) ip && portMatches (nr_Ports r) proto port) (ny_Egress b).

(** Traffic from a pod to the selected pods. *)
Definition ingressAllowed (b : NetworkPolicyBody) (pod namespace : gmap string string) (proto : string) (port : Z) : bool :=
  negb (existsb (String.eqb "Ingress") (ny_PolicyTypes b))
  || existsb (λ r, podMatches (nr_Peers r) pod namespace && portMatches (nr_Ports r) proto port) (ny_Ingress b).

(** ** The rule and the check *)

Definition address (ip : IP) : Prop := length ip = 4%nat ∨ length ip = 16%nat.

Definition is4 (ip : IP) : bool := match To4 ip with Some _ => true | None => false end.

Lemma To4_four ip v : To4 ip = Some v → length v = 4%nat.
Proof.
  unfold To4. repeat case_match; intros; simplify_eq; try done.
  all: rewrite ?length_skipn; repeat match goal with H : context [Nat.eqb] |- _ => apply Nat.eqb_eq in H end; try lia.
  all: bool_hyps; repeat match goal with H : (_ =? _)%nat = true |- _ => apply Nat.eqb_eq in H end; lia.
Qed.

Lemma all_v4 ip : address ip → inCIDR ip "0.0.0.0/0" = is4 ip.
Proof.
  intros Ha. change (inCIDR ip "0.0.0.0/0") with (IPNet_Contains (MkIPNet [0;0;0;0]%Z [0;0;0;0]%Z) ip).
  unfold IPNet_Contains, is4. cbn -[To4]. destruct (To4 ip) as [v|] eqn:Hv.
  - pose proof (To4_four _ _ Hv). destruct v as [|a [|b [|c [|d [|]]]]]; try done. cbn. by rewrite !Z.land_0_r.
  - destruct Ha as [Ha|Ha]; [|by rewrite Ha]. destruct ip as [|a [|b [|c [|d [|]]]]]; try done.
Qed.

Lemma all_v6 ip : address ip → inCIDR ip "::/0" = negb (is4 ip).
Proof.
  intros Ha. change (inCIDR ip "::/0") with (IPNet_Contains (MkIPNet (repeat 0%Z 16) (repeat 0%Z 16)) ip).
  unfold IPNet_Contains, is4. change (networkNumberAndMask _) with (Some (repeat 0%Z 16, repeat 0%Z 16)). cbn iota beta.
  destruct (To4 ip) as [v|] eqn:Hv; [by rewrite (To4_four _ _ Hv)|]. destruct Ha as [Ha|Ha].
  { destruct ip as [|a [|b [|c [|d [|]]]]]; done. }
  do 17 (destruct ip as [|? ip]; try discriminate Ha). cbn -[To4]. by rewrite !Z.land_0_r.
Qed.

(** Ranges of one family hold addresses of that family only. *)
Lemma v4_ranges ip : address ip → is4 ip = false → existsb (inCIDR ip) SSRFBlockedCIDRsV4 = false.
Proof.
  unfold is4. intros Ha H4. destruct (To4 ip) eqn:Hv; [done|]. destruct Ha as [Ha|Ha].
  { by destruct ip as [|a [|b [|c [|d [|]]]]]. }
  apply not_true_iff_false. rewrite existsb_exists. intros (c & Hc & Hin). unfold inCIDR in Hin. apply list_elem_of_In in Hc.
  unfold SSRFBlockedCIDRsV4 in Hc. rewrite !elem_of_cons, elem_of_nil in Hc.
  destruct Hc as [->|[->|[->|[->|[->|[->|[->|[]]]]]]]]; vm_compute (ParseCIDR _) in Hin;
    unfold IPNet_Contains in Hin; rewrite Hv in Hin; cbn -[mask_bytes] in Hin; by rewrite Ha in Hin.
Qed.

Lemma v6_ranges ip : is4 ip = true → existsb (inCIDR ip) SSRFBlockedCIDRsV6 = false.
Proof.
  unfold is4. intros H4. destruct (To4 ip) as [v|] eqn:Hv; [|done]. pose proof (To4_four _ _ Hv) as Hlen.
  apply not_true_iff_false. rewrite existsb_exists. intros (c & Hc & Hin). unfold inCIDR in Hin. apply list_elem_of_In in Hc.
  unfold SSRFBlockedCIDRsV6 in Hc. rewrite !elem_of_cons, elem_of_nil in Hc.
  destruct Hc as [->|[->|[->|[]]]]; vm_compute (ParseCIDR _) in Hin;
    unfold IPNet_Contains in Hin; rewrite Hv in Hin; cbn -[mask_bytes] in Hin; by rewrite Hlen in Hin.
Qed.

Lemma blocked_in_cidrs `{NetLib} ip l nets : parseCIDRs l = Some nets → (isBlockedIP ip nets).1 = existsb (inCIDR ip) l.
Proof.
  revert nets. induction l as [|c l IH]; cbn [parseCIDRs]; intros nets Hn; [by simplify_eq|].
  destruct (ParseCIDR c) as [n|] eqn:Hc; [|done]. destruct (parseCIDRs l) as [ns|]; [|done]. simplify_eq.
  cbn [isBlockedIP existsb]. unfold inCIDR at 1. rewrite Hc. destruct (IPNet_Contains n ip); [done|]. by apply IH.
Qed.

Section rules.
  Context `{NL : NetLib} `{XL : X509Lib}.
  Implicit Types r : ExecutorReconciler.

(** What the policy lets the executor send. *)
Lemma executorPolicy_egress r ip proto port : address ip →
  egressAllowed (executorPolicy r) ip proto port =
    (er_SSRFAllowClusterInternal r || negb (isBlockedIP ip defaultSSRFBlockedCIDRs).1)
    || (((proto =? "UDP") || (proto =? "TCP")) && (port =? 53)%Z).
Proof.
  intros Ha. rewrite (blocked_in_cidrs ip _ _ exe_default_list_parses), existsb_app.
  unfold egressAllowed. change (existsb (String.eqb "Egress") _) with true. unfold executorPolicy, egressExceptCIDRs, egressExceptCIDRsV6.
  cbn [ny_Egress existsb nr_Peers nr_Ports addressMatches portMatches np_Protocol np_Port orb negb andb].
  rewrite (all_v4 ip Ha), (all_v6 ip Ha), !orb_false_r, andb_true_r, (String.eqb_sym "UDP"), (String.eqb_sym "TCP"), (Z.eqb_sym 53 port).
  assert (∀ a b c d : bool, a || (b && d || c && d) = a || ((b || c) && d)) as Hfac by (by intros [] [] [] []).
  rewrite Hfac. f_equal. destruct (er_SSRFAllowClusterInternal r); [by cbn; destruct (is4 ip)|]. cbn [orb].
  destruct (is4 ip) eqn:H4; cbn [negb andb orb].
  - rewrite v6_ranges by done. by rewrite !orb_false_r.
  - by rewrite v4_ranges.
Qed.

(** Who may reach it. *)
Lemma executorPolicy_ingress r pod namespace proto port :
  ingressAllowed (executorPolicy r) pod namespace proto port =
    bool_decide (pod !! "control-plane" = Some "controller-manager") &&
    bool_decide (namespace !! "kubernetes.io/metadata.name" = Some (operatorNamespace r)) &&
    (proto =? "TCP") && (port =? executorPort r)%Z.
Proof.
  unfold ingressAllowed. change (existsb (String.eqb "Ingress") _) with true. unfold executorPolicy, podMatches, portMatches, matchLabels.
  cbn [ny_Ingress existsb nr_Peers nr_Ports np_Protocol np_Port orb negb].
  rewrite !orb_false_r, (String.eqb_sym "TCP"), (Z.eqb_sym (executorPort r)), !andb_assoc. do 2 f_equal.
  f_equal; apply bool_decide_ext, map_singleton_subseteq_l.
Qed.

(** ** What a reconcile writes *)

(** A pod without privileges or credentials of the cluster. *)
Definition powerless (p : PodSpec) : Prop :=
  po_AutomountServiceAccountToken p = Some false ∧ po_RunAsNonRoot p = true ∧
  ∀ c, c ∈ po_Containers p →
    let s := ct_Security c in
    sc_RunAsNonRoot s = true ∧ sc_ReadOnlyRootFilesystem s = true ∧ sc_AllowPrivilegeEscalation s = false ∧ sc_DropAll s = true ∧
    sc_Seccomp s = true.

(** The executor's flags say what the reconciler is configured with. *)
Definition flags_ok r (args : list string) : Prop :=
  ("--ssrf-allow-in-cluster=true" ∈ args ↔ er_SSRFAllowClusterInternal r = true) ∧ ("--mtls=true" ∈ args ↔ er_MTLSEnabled r = true) ∧
  "--port=" +:+ Itoa (executorPort r) ∈ args.

Definition executor_body r (K : Kind) : KMeta → Body K → Prop :=
  match K return KMeta → Body K → Prop with
  | KDep => λ m d, k_Name m = executorDeploymentName ∧ powerless (d_Pod d) ∧
      d_Selector d ⊆ d_TemplateLabels d ∧ d_TemplateLabels d = executorLabels ∧
      (∀ c, c ∈ po_Containers (d_Pod d) → flags_ok r (ct_Args c)) ∧
      (∀ v, v ∈ po_Volumes (d_Pod d) → er_MTLSEnabled r = true ∧ vo_SecretName v = executorMTLSSecretName)
  | KSvc => λ m s, k_Name m = executorDeploymentName ∧ sv_Selector s ⊆ executorLabels ∧
      sv_Ports s = [MkServicePort portNameHTTP (executorPort r) (executorPort r)]
  | KNet => λ m b, k_Name m = executorNetworkPolicyName ∧ ny_PodSelector b ⊆ executorLabels ∧
      (∀ ip proto port, address ip →
         egressAllowed b ip proto port =
           (er_SSRFAllowClusterInternal r || negb (isBlockedIP ip defaultSSRFBlockedCIDRs).1)
           || (((proto =? "UDP") || (proto =? "TCP")) && (port =? 53)%Z)) ∧
      (∀ pod namespace proto port, ingressAllowed b pod namespace proto port = true →
         pod !! "control-plane" = Some "controller-manager" ∧
         namespace !! "kubernetes.io/metadata.name" = Some (operatorNamespace r) ∧ proto = "TCP" ∧ port = executorPort r)
  | KSec => λ m s, k_Name m = executorMTLSSecretName ∧ ∃ b, er_MTLSBundle r = Some b ∧
      se_Data s !! "tls.crt" = Some (ServerCertPEM b) ∧ se_Data s !! "tls.key" = Some (ServerKeyPEM b) ∧
      se_Data s !! "ca.crt" = Some (CACertPEM b)
  | KSA | KRole | KRB | KHPA | KPDB => λ _ _, False
  end.

Definition executor_demand r ns K (o : Obj K) : Prop := k_Namespace (o_Meta o) = ns ∧ executor_body r K (o_Meta o) (o_Body o).

Lemma executorSelector_labels : executorSelector ⊆ executorLabels.
Proof. apply insert_mono, map_singleton_subseteq_l, lookup_insert_eq. Qed.

Lemma flags_executorArgs r : flags_ok r (executorArgs r).
Proof.
  assert (∀ f x, f ∈ ["--ssrf-allow-in-cluster=true"; "--mtls=true"] → f ≠ "--port=" +:+ x ∧ f ≠ "--health-port=" +:+ x) as Hne.
  { intros f x Hf. rewrite !elem_of_cons, elem_of_nil in Hf. destruct Hf as [->|[->|[]]]; split; intros [=]. }
  assert (∀ f, f ∈ ["--ssrf-allow-in-cluster=true"; "--mtls=true"] → f ∈ executorArgs r →
    (er_SSRFAllowClusterInternal r = true ∧ f = "--ssrf-allow-in-cluster=true") ∨ (er_MTLSEnabled r = true ∧ f ≠ "--ssrf-allow-in-cluster=true")) as Hin.
  { intros f Hf [Hin|[Hin|Hin]%elem_of_app]%elem_of_app.
    - rewrite !elem_of_cons, elem_of_nil in Hin. destruct Hin as [Hin|[Hin|[]]]; by apply Hne in Hin.
    - left. destruct (er_SSRFAllowClusterInternal r); [|by apply elem_of_nil in Hin]. by apply list_elem_of_singleton in Hin.
    - right. destruct (er_MTLSEnabled r); [|by apply elem_of_nil in Hin]. split; [done|]. intros ->.
      rewrite !elem_of_cons, elem_of_nil in Hin. by destruct Hin as [|[|[|[|]]]]. }
  unfold flags_ok. split_and!; [split|split|by left].
  - intros Hx. destruct (Hin "--ssrf-allow-in-cluster=true") as [[]|[]]; [by left|done..].
  - intros Hx. unfold executorArgs. rewrite Hx. right. right. by left.
  - intros Hx. destruct (Hin "--mtls=true") as [[_ [=]]|[]]; [by right; left|done..].
  - intros Hx. unfold executorArgs. rewrite Hx. apply elem_of_app. right. apply elem_of_app. right. by left.
Qed.

Lemma executorPod_powerless r env : powerless (executorPod r env).
Proof. split_and!; [done..|]. by intros c ->%list_elem_of_singleton. Qed.

(** C28: the executor's resources.  A reconcile of a namespace reads and writes in
    that namespace only, deletes nothing and writes nothing but the executor's
    Deployment, Service, NetworkPolicy and, with mTLS, its certificate Secret.
    The pods have no privileges and no credentials of the cluster; the policy
    selects exactly those pods, admits only the controller manager of the
    operator's namespace on the executor's port, and lets packets out to exactly
    the addresses the executor's own SSRF check lets through (and to DNS), unless
    the development switch turned that check off.  A reconcile that reports no
    error leaves all of them in the cluster. *)
Theorem executor_resources_confined r env ns l :
  wp (cluster_spec ns (executor_demand r ns) (λ _ _, False)) (Executor_Reconcile r env ns) l (λ e l',
    e = None →
      present ns (executor_demand r ns) KDep executorDeploymentName l' ∧
      present ns (executor_demand r ns) KSvc executorDeploymentName l' ∧
      present ns (executor_demand r ns) KNet executorNetworkPolicyName l' ∧
      (er_MTLSEnabled r = true → present ns (executor_demand r ns) KSec executorMTLSSecretName l')).
Proof.
  unfold Executor_Reconcile. apply wp_bind; [apply _|]. unfold reconcileExecutorDeployment. apply wp_ensured; [done| |done|].
  { intros live [Hns Hn]. eexists. split; [done|]. split; [done|]. split; [done|]. split_and!; [done|apply executorPod_powerless| |done| |].
    - apply executorSelector_labels.
    - intros c ->%list_elem_of_singleton. apply flags_executorArgs.
    - intros v Hv. cbn in Hv. destruct (er_MTLSEnabled r); [|by apply elem_of_nil in Hv]. by apply list_elem_of_singleton in Hv as ->. }
  intros l1 Hd _. apply wp_bind; [apply _|]. unfold reconcileExecutorService. apply wp_ensured; [done| |done|].
  { intros live [Hns Hn]. eexists. split; [done|]. split; [done|]. split; [done|]. split_and!; [done|apply executorSelector_labels|done]. }
  intros l2 Hs Hk2. apply wp_bind; [apply _|]. unfold reconcileExecutorNetworkPolicy. apply wp_ensured; [done| |done|].
  { intros live [Hns Hn]. eexists. split; [done|]. split; [done|]. split; [done|]. split_and!; [done|apply executorSelector_labels| |].
    - intros ip proto port. apply executorPolicy_egress.
    - intros pod namespace proto port. cbn [o_Body set_Body]. rewrite executorPolicy_ingress, !andb_true_iff, !bool_decide_eq_true, String.eqb_eq, Z.eqb_eq.
      naive_solver. }
  intros l3 Hp Hk3. destruct (er_MTLSEnabled r); [|cbn [wp]; intros _; split_and!; [by auto..|done]]. apply wp_bind; [apply _|].
  unfold reconcileExecutorCertSecret. destruct (er_MTLSBundle r) as [b|] eqn:Hb; [|done]. apply wp_ensured; [done| |done|].
  { intros live [Hns Hn]. eexists. split; [done|]. split; [done|]. split; [done|]. split; [done|]. exists b. cbn.
    split; [done|]. by simplify_map_eq. }
  intros l4 Hc Hk4 _. auto 10.
Qed.

End rules.
