(* ===== verification/ExecutorChannel.v ===== *)
(** * The mTLS channel to the executor over time

    Three processes share it: the manager, which generates the bundle at start
    and rotates it ([cmd/main.go]), whose executor reconciler writes the Secret
    and whose FlowRun controller makes the calls with a client built once
    ([executorMTLSClientOnce] of [flowrun_controller.go]); and the executor,
    which loads its certificates when it starts ([cmd/http-executor/main.go]).
    Their steps are a transition relation; generation is [GenerateMTLSBundle]. *)

From S2P Require Import Prelude SecretIndex GoStd Api Effects CertUtil CertProps.

Local Open Scope string_scope.
Local Open Scope list_scope.
Local Open Scope go_scope.

(** ** The manager *)

(** The names of the server certificate. *)
Definition executorDNSNames (operatorNamespace : string) : list string :=
  ["kubezap-http-executor." +:+ operatorNamespace +:+ ".svc.cluster.local"; "kubezap-http-executor." +:+ operatorNamespace +:+ ".svc"].

(** The host the FlowRun controller calls for a namespace, with the default base
    URL. *)
Definition executorHost (ns : string) : string := "kubezap-http-executor." +:+ ns +:+ ".svc.cluster.local".

(** The base URL of the calls: [fmt.Sprintf] turns the doubled percent sign of
    its format into one. *)
Definition defaultExecutorRPCBaseURL : string := "http://kubezap-http-executor.%s.svc.cluster.local:8091".
Definition rpcBaseURL (flag : string) (port : Z) (mtls : bool) : string :=
  let url := if (flag =? defaultExecutorRPCBaseURL) && negb (port =? 8091)%Z
             then "http://kubezap-http-executor.%s.svc.cluster.local:" +:+ Itoa port else flag in
  if mtls then ReplaceAll url "http://" "https://" else url.

Section channel.
  Context `{X509Lib}.

(** One turn of the rotation goroutine: the bundle that replaces the old one, if
    any. *)
Definition rotationTick (operatorNamespace : string) (b : MTLSBundle) : Prog CertEv (option MTLSBundle) :=
  let! now := emit XNow in
  if negb (bundleNeedsRotation now b) then Ret None
  else let! r := GenerateMTLSBundle (executorDNSNames operatorNamespace) in
       Ret (match r with Err _ => None | Ok newBundle => Some newBundle end).

(** The client of [callExecutor]: built from the configuration at its first use. *)
Definition executorClient (once : option ClientTLS) (cfg : ClientTLS) : ClientTLS :=
  match once with Some c => c | None => cfg end.

(** ** The executor *)

(** The Secret mounted into the pod. *)
Record ExecutorFiles := MkExecutorFiles { ef_cert : string; ef_key : string; ef_ca : string }.

Definition filesOf (b : MTLSBundle) : ExecutorFiles := MkExecutorFiles (ServerCertPEM b) (ServerKeyPEM b) (CACertPEM b).

(** The certificate served and the CA its clients are verified with, read at
    start; the CA file holds one certificate. *)
Definition executorServerTLS (f : ExecutorFiles) : result (TLSCert * Certificate) :=
  match X509KeyPair (ef_cert f) (ef_key f) with
  | Err e => Err e
  | Ok serverCert =>
      match ParseCertPEM (ef_ca f) with
      | Err _ => Err (errorf "failed to parse mTLS CA certificate")
      | Ok ca => Ok (serverCert, ca)
      end
  end.

(** ** The system *)

Record Channel := MkChannel {
  ch_now : Z;
  ch_bundle : MTLSBundle;
  ch_config : ClientTLS;
  ch_client : option ClientTLS;
  ch_secret : option ExecutorFiles;
  ch_server : option (TLSCert * Certificate)
}.

End channel.

Section system.
  Context `{L : X509Laws}.
  Variable operatorNamespace : string.

(** A result of a program that the specification of its requests allows. *)
Definition possible {A} (p : Prog CertEv A) (t : Z) (a : A) (t' : Z) : Prop :=
  ∀ Q : A → Z → Prop, wp cert_spec p t Q → Q a t'.

Definition bundleStarted (t : Z) (b : MTLSBundle) (t' : Z) : Prop :=
  possible (GenerateMTLSBundle (executorDNSNames operatorNamespace)) t (Ok b) t'.

Inductive chan_step : Channel → Channel → Prop :=
  | ch_rotated s b t : possible (rotationTick operatorNamespace (ch_bundle s)) (ch_now s) (Some b) t →
      chan_step s (MkChannel t b (ClientTLSConfig b) (ch_client s) (ch_secret s) (ch_server s))
  | ch_kept s t : possible (rotationTick operatorNamespace (ch_bundle s)) (ch_now s) None t →
      chan_step s (MkChannel t (ch_bundle s) (ch_config s) (ch_client s) (ch_secret s) (ch_server s))
  | ch_reconciled s : chan_step s (MkChannel (ch_now s) (ch_bundle s) (ch_config s) (ch_client s) (Some (filesOf (ch_bundle s))) (ch_server s))
  | ch_executor_starts s f srv : ch_secret s = Some f → executorServerTLS f = Ok srv →
      chan_step s (MkChannel (ch_now s) (ch_bundle s) (ch_config s) (ch_client s) (ch_secret s) (Some srv))
  | ch_call s : chan_step s (MkChannel (ch_now s) (ch_bundle s) (ch_config s) (Some (executorClient (ch_client s) (ch_config s))) (ch_secret s) (ch_server s)).

Definition chan_init (t : Z) (b : MTLSBundle) : Channel := MkChannel t b (ClientTLSConfig b) None None None.

(** A TLS handshake at an instant for a host name. *)
Definition handshake (t : Z) (host : string) (c : ClientTLS) (srv : TLSCert * Certificate) : Prop :=
  ∃ sc cc, presents srv.1 sc ∧ presents (cl_Certificate c) cc ∧
    (∃ root, root ∈ cl_RootCAs c ∧ verifies t root ExtKeyUsageServerAuth sc) ∧ host ∈ x_DNSNames sc ∧
    verifies t srv.2 ExtKeyUsageClientAuth cc.

(** ** Invariant *)

Definition made (b : MTLSBundle) : Prop := bundle_ok (executorDNSNames operatorNamespace) b.

Record chan_ok (s : Channel) : Prop := {
  co_bundle : made (ch_bundle s) ∧ (mb_ExpiresAt (ch_bundle s) - 24 * Hour <= ch_now s)%Z;
  co_config : ch_config s = ClientTLSConfig (ch_bundle s);
  co_client : ∀ c, ch_client s = Some c → ∃ b, made b ∧ c = ClientTLSConfig b ∧ (mb_ExpiresAt b - 24 * Hour <= ch_now s)%Z;
  co_secret : ∀ f, ch_secret s = Some f → ∃ b, made b ∧ f = filesOf b;
  co_server : ∀ srv, ch_server s = Some srv → ∃ b, made b ∧ executorServerTLS (filesOf b) = Ok srv
}.

Lemma bundleStarted_made t b t' : bundleStarted t b t' → made b ∧ (mb_ExpiresAt b - 24 * Hour <= t')%Z.
Proof.
  intros Hb. apply (Hb (λ r t', ∀ b, r = Ok b → made b ∧ (mb_ExpiresAt b - 24 * Hour <= t')%Z)); [|done].
  apply wp_generateBundle; [done|]. intros b' t0 _ Hexp Hok b0 [= <-]. split; [done|lia].
Qed.

Lemma tick_made s r t :
  possible (rotationTick operatorNamespace (ch_bundle s)) (ch_now s) r t →
  (ch_now s <= t)%Z ∧ ∀ b, r = Some b → made b ∧ (mb_ExpiresAt b - 24 * Hour <= t)%Z.
Proof.
  intros Hr. apply (Hr (λ r t, (ch_now s <= t)%Z ∧ ∀ b, r = Some b → made b ∧ (mb_ExpiresAt b - 24 * Hour <= t)%Z)).
  unfold rotationTick. cbn [wp pbind emit cert_spec]. intros now Hnow. destruct (bundleNeedsRotation _ _); cbn [negb]; [|by cbn].
  apply wp_bind; [apply _|]. apply wp_generateBundle; cbn [wp].
  - intros e t' Ht'. split; [lia|done].
  - intros b t' Ht' Hexp Hok. split; [lia|]. intros b0 [= <-]. split; [done|lia].
Qed.

Lemma chan_step_ok s s' : chan_step s s' → chan_ok s → chan_ok s'.
Proof.
  intros Hstep [Hb Hc Hcl Hs Hv]. destruct Hstep as [s b t Ht|s t Ht|s|s f srv Hf Hsrv|s].
  - apply tick_made in Ht as [Hle Hnew]. destruct (Hnew b eq_refl). split; cbn; [done|done| |done|done].
    intros c Hcc. destruct (Hcl c Hcc) as (b0 & ? & ? & ?). exists b0. split_and!; [done|done|lia].
  - apply tick_made in Ht as [Hle _]. split; cbn; [split; [apply Hb|lia]|done| |done|done].
    intros c Hcc. destruct (Hcl c Hcc) as (b0 & ? & ? & ?). exists b0. split_and!; [done|done|lia].
  - split; cbn; [done..| |done]. intros f [= <-]. exists (ch_bundle s). split; [apply Hb|done].
  - split; cbn; [done..|]. intros srv' [= <-]. destruct (Hs f Hf) as (b & Hm & ->). by exists b.
  - split; cbn; [done|done| |done|done]. intros c [= <-]. unfold executorClient. destruct (ch_client s) as [c|] eqn:Hcl'; [by apply Hcl|].
    exists (ch_bundle s). rewrite Hc. split_and!; [apply Hb|done|apply Hb].
Qed.

(** ** What the executor serves *)

Lemma server_of b srv : made b → executorServerTLS (filesOf b) = Ok srv →
  ∃ sc, tls_Certificate srv.1 = [x_Raw sc] ∧ tls_Certificate (mb_ServerCert b) = [x_Raw sc] ∧ ParseCertificate (x_Raw sc) = Ok sc ∧
    x_DNSNames sc = executorDNSNames operatorNamespace ∧ ParseCertPEM (CACertPEM b) = Ok srv.2.
Proof.
  intros (since & Hexp & Hm & _) Hsrv.
  destruct (Hm since) as (sc & cc & Hs & _ & Hp & _ & _ & Hdns & _ & _ & k & kd & Hk & Hkd & _); [lia|unfold Hour, Minute, Second in *; lia|].
  exists sc. unfold executorServerTLS, filesOf in Hsrv. cbn [ef_cert ef_key ef_ca] in Hsrv.
  assert (ServerCertPEM b = pem_Encode pemBlockTypeCertificate (x_Raw sc)) as Hcert by (unfold ServerCertPEM, CertChainPEM; by rewrite Hs).
  assert (ServerKeyPEM b = pem_Encode pemBlockTypeECKey kd) as Hkey.
  { unfold ServerKeyPEM. rewrite Hk. cbn. unfold EncodeECPrivateKeyPEM. by rewrite Hkd. }
  rewrite Hcert, Hkey in Hsrv. destruct (X509KeyPair _ _) as [tc|e] eqn:Hpair; [|done].
  destruct (key_pair_load _ _ _ _ _ Hp Hkd Hpair) as [-> _]. destruct (ParseCertPEM (CACertPEM b)) as [ca|e]; [|done].
  injection Hsrv as <-. done.
Qed.

Lemma same_bundle_handshake b srv t host :
  made b → executorServerTLS (filesOf b) = Ok srv → host ∈ executorDNSNames operatorNamespace →
  (mb_ExpiresAt b - 24 * Hour <= t <= mb_ExpiresAt b - Second)%Z → handshake t host (ClientTLSConfig b) srv.
Proof.
  intros Hb Hsrv Hhost Ht. destruct (server_of b srv Hb Hsrv) as (sc & Hs & Hbs & Hp & Hdns & Hca).
  destruct Hb as (since & Hexp & Hm & _). destruct (Hm t) as (sc' & cc & Hs' & Hc & Hp' & Hcp & Hver & _ & (root & Hroot & Hcv) & _); [lia|lia|].
  assert (sc' = sc) as -> by (rewrite Hs' in Hbs; injection Hbs as He; congruence).
  exists sc, cc. split_and!; [by exists (x_Raw sc), []|by exists (x_Raw cc), []| |by rewrite Hdns|].
  - exists (mb_CACert b). split; [by left|]. apply Hver. by left.
  - rewrite Hroot in Hca. by injection Hca as <-.
Qed.

Lemma client_expires b : made b → ∀ t host srv, (mb_ExpiresAt b < t)%Z → ¬ handshake t host (ClientTLSConfig b) srv.
Proof.
  intros (_ & _ & _ & Hna) t host srv Ht (sc & cc & _ & Hc & _ & _ & _ & _ & [_ Hv] & _). apply Hna in Hc. lia.
Qed.

Lemma client_frozen s s' c : rtc chan_step s s' → ch_client s = Some c → ch_client s' = Some c.
Proof.
  induction 1 as [|s s1 s2 Hstep _ IH]; [done|]. intros Hc. apply IH. destruct Hstep; try exact Hc. cbn in *. by rewrite Hc.
Qed.

Lemma chan_reach_ok t0 b0 t1 s : bundleStarted t0 b0 t1 → rtc chan_step (chan_init t1 b0) s → chan_ok s.
Proof.
  intros Hstart Hreach. assert (chan_ok (chan_init t1 b0)) as Hinit by (split; [by apply (bundleStarted_made t0)|done..]).
  induction Hreach as [|s0 s1 s2 Hstep _ IH]; [done|]. eauto using chan_step_ok.
Qed.


(** The client is the one of the first call, whatever is rotated afterwards:
    within 24 hours of that call its certificate and roots have expired. *)
Lemma executor_client_expires t0 b0 t1 s c :
  bundleStarted t0 b0 t1 → rtc chan_step (chan_init t1 b0) s → ch_client s = Some c →
  ∃ deadline, (deadline <= ch_now s + 24 * Hour)%Z ∧
    ∀ s' t host srv, rtc chan_step s s' → (deadline < t)%Z → ch_client s' = Some c ∧ ¬ handshake t host c srv.
Proof.
  intros Hstart Hreach Hcc. destruct (chan_reach_ok _ _ _ _ Hstart Hreach) as [_ _ Hcl _ _].
  destruct (Hcl c Hcc) as (b & Hm & -> & Hexp). exists (mb_ExpiresAt b). split; [lia|].
  intros s' t host srv Hs' Ht. split; [by eapply client_frozen|by apply client_expires].
Qed.

End system.

(** The executor of a watched namespace is called by a name its certificate does
    not cover. *)
Example watched_namespace_not_covered : executorHost "shop" ∉ executorDNSNames "kubezap-system".
Proof. unfold executorDNSNames. rewrite !elem_of_cons, elem_of_nil. intros [Hx|[Hx|[]]]; discriminate Hx. Qed.

(** The URL that is called is built from that host, with and without mTLS and with
    the port of [--executor-port]. *)
Example executor_url :
  ReplaceAll (rpcBaseURL defaultExecutorRPCBaseURL 9000 true) "%s" "shop" = "https://" +:+ executorHost "shop" +:+ ":9000" ∧
  ReplaceAll (rpcBaseURL defaultExecutorRPCBaseURL 8091 false) "%s" "shop" = "http://" +:+ executorHost "shop" +:+ ":8091".
Proof. split; vm_compute; reflexivity. Qed.
