(* ===== verification/GatewayDeploy.v ===== *)
(** * The webhook gateway's resources

    [internal/controller/gateway_deployment.go] and [ensureWebhookGateway] of
    [internal/controller/trigger_controller.go], over the WebhookGatewayConfig
    of [api/v1alpha1/webhookgatewayconfig_types.go].  The process environment is
    the argument [env]. *)

From S2P Require Import Prelude GoStd Api Effects Interp Kube KObjects FlowCtl IntegrationCtl CertUtil ExecutorCtl.

Local Open Scope string_scope.
Local Open Scope list_scope.
Local Open Scope go_scope.

(** ** WebhookGatewayConfig *)

(** References to Secrets and ConfigMaps are names in the same namespace. *)
Record WebhookGatewayTLSSpec := MkGatewayTLSSpec {
  gt_ServerSecretRef : option string; gt_ClientCASecretRef : option string; gt_CRLConfigMapRef : option string }.
Record WebhookGatewayHPASpec := MkGatewayHPASpec {
  gh_MinReplicas : option Z; gh_MaxReplicas : option Z; gh_TargetCPUUtilization : option Z }.
Record WebhookGatewayPDBSpec := MkGatewayPDBSpec { gp_MinAvailable : option IntOrString }.
Record WebhookGatewayConfigSpec := MkGatewayConfigSpec {
  gs_TLS : option WebhookGatewayTLSSpec;
  gs_HPA : option WebhookGatewayHPASpec;
  gs_PodDisruptionBudget : option WebhookGatewayPDBSpec
}.
Record WebhookGatewayConfig := MkGatewayConfig {
  gc_Meta : ObjectMeta; gc_Spec : WebhookGatewayConfigSpec; gc_Conditions : list Condition }.

(** ** Requests *)

Inductive GEv : Type → Type :=
  | GCluster {X} (e : CEv X) : GEv X
  | GNow : GEv Z
  | GGetConfig (ns name : string) : GEv (result WebhookGatewayConfig)
  | GStatusUpdateConfig (c : WebhookGatewayConfig) : GEv (result unit)
  | GGetSecret (ns name : string) : GEv (result (gmap string string)).

Fixpoint gcluster {A} (p : Prog CEv A) : Prog GEv A :=
  match p with
  | Ret a => Ret a
  | Vis e k => Vis (GCluster e) (λ x, gcluster (k x))
  end.

(** ** Names *)

Definition webhookGatewayConfigName : string := "default".
Definition gatewayName : string := "kubezap-webhook-gateway".
Definition webhookGatewayPort : Z := 8080.
Definition webhookGatewayMetricsPort : Z := 9090.
Definition portNameMetrics : string := "metrics".
Definition componentWebhookGateway : string := "webhook-gateway".
Definition labelNamespace : string := "kubezap.io/namespace".
Definition resourceConfigMaps : string := "configmaps".

(** The empty string is an unset reference. *)
Record WebhookGatewayTLSConfig := MkGatewayTLS {
  gw_TLSSecretName : string; gw_MTLSCASecretName : string; gw_CRLConfigMapName : string }.

Definition webhookGatewayImage (env : string → string) : string :=
  let img := env "WEBHOOK_GATEWAY_IMAGE" in if negb (img =? "") then img else "ghcr.io/kubezap/webhook-gateway:latest".

Definition gatewayLabels (ns : string) : gmap string string :=
  <["kubezap.io/component" := componentWebhookGateway]> {[labelNamespace := ns]}.

(** ** Desired objects *)

Definition desiredWebhookGatewayServiceAccount (ns : string) : Obj KSA :=
  MkObj (K := KSA) (MkKMeta gatewayName ns {["app" := gatewayName]} None "") tt.

Definition desiredWebhookGatewayRole (ns : string) (t : WebhookGatewayTLSConfig) : Obj KRole :=
  MkObj (K := KRole) (newMeta gatewayName ns)
    ([MkRule [apiGroupAutomation] ["triggers"] ["get"; "list"; "watch"];
      MkRule [apiGroupAutomation] ["flowruns"] ["create"];
      MkRule [""] ["secrets"] ["get"; "list"; "watch"]]
     ++ (if negb (gw_CRLConfigMapName t =? "") then [MkRule [""] [resourceConfigMaps] ["get"; "list"; "watch"]] else [])).

Definition desiredWebhookGatewayRoleBinding (ns : string) : Obj KRB :=
  MkObj (K := KRB) (newMeta gatewayName ns)
    (MkBinding (MkRoleRef apiGroupRBAC kindRole gatewayName) [MkSubject kindServiceAccount gatewayName ns]).

Definition desiredWebhookGatewayHPAFromConfig (ns : string) (cfg : option WebhookGatewayConfig) : Obj KHPA :=
  let hpa := match cfg with Some c => gs_HPA (gc_Spec c) | None => None end in
  let field (f : WebhookGatewayHPASpec → option Z) (dflt : Z) :=
    match hpa with Some h => default dflt (f h) | None => dflt end in
  MkObj (K := KHPA) (MkKMeta gatewayName ns (gatewayLabels ns) None "")
    (MkHPA gatewayName (field gh_MinReplicas 1%Z) (field gh_MaxReplicas 10%Z) (field gh_TargetCPUUtilization 70%Z)).

Definition desiredWebhookGatewayHPA (ns : string) : Obj KHPA := desiredWebhookGatewayHPAFromConfig ns None.

Definition desiredWebhookGatewayPDB (ns : string) (cfg : option WebhookGatewayConfig) : option (Obj KPDB) :=
  match cfg with
  | None => None
  | Some c =>
      match gs_PodDisruptionBudget (gc_Spec c) with
      | None => None
      | Some p => match gp_MinAvailable p with
                  | None => None
                  | Some m => Some (MkObj (K := KPDB) (MkKMeta gatewayName ns (gatewayLabels ns) None "") (MkPDB m (gatewayLabels ns)))
                  end
      end
  end.

Definition tlsOn (t : WebhookGatewayTLSConfig) : bool := negb (gw_TLSSecretName t =? "").
Definition mtlsCAOn (t : WebhookGatewayTLSConfig) : bool := tlsOn t && negb (gw_MTLSCASecretName t =? "").

Definition desiredWebhookGatewayService (ns : string) (t : WebhookGatewayTLSConfig) : Obj KSvc :=
  let portName := if tlsOn t then portNameHTTPS else portNameHTTP in
  MkObj (K := KSvc) (MkKMeta gatewayName ns (gatewayLabels ns) None "")
    (MkService (gatewayLabels ns)
       [MkServicePort portName webhookGatewayPort webhookGatewayPort;
        MkServicePort portNameMetrics webhookGatewayMetricsPort webhookGatewayMetricsPort] "").

Definition gatewayArgs (ns : string) (t : WebhookGatewayTLSConfig) : list string :=
  ["--port=8080"; "--namespace=" +:+ ns]
  ++ (if tlsOn t then ["--tls-cert-file=/etc/webhook-tls/tls.crt"; "--tls-key-file=/etc/webhook-tls/tls.key"] else [])
  ++ (if mtlsCAOn t then ["--mtls-ca-file=/etc/webhook-mtls-ca/ca.crt"] else [])
  ++ (if mtlsCAOn t && negb (gw_CRLConfigMapName t =? "") then ["--crl-configmap-name=" +:+ gw_CRLConfigMapName t] else []).

Definition desiredWebhookGatewayDeployment (env : string → string) (ns : string) (t : WebhookGatewayTLSConfig) : Obj KDep :=
  let portName := if tlsOn t then portNameHTTPS else portNameHTTP in
  let scheme := if tlsOn t then "HTTPS" else "HTTP" in
  let mounts := (if tlsOn t then [MkMount "webhook-tls" "/etc/webhook-tls" true] else [])
                ++ (if mtlsCAOn t then [MkMount "webhook-mtls-ca" "/etc/webhook-mtls-ca" true] else []) in
  let volumes := (if tlsOn t then [MkVolume "webhook-tls" (gw_TLSSecretName t)] else [])
                 ++ (if mtlsCAOn t then [MkVolume "webhook-mtls-ca" (gw_MTLSCASecretName t)] else []) in
  MkObj (K := KDep) (MkKMeta gatewayName ns (gatewayLabels ns) None "")
    (MkDeployment 1 (gatewayLabels ns) (gatewayLabels ns)
       (MkPodSpec gatewayName None true volumes
          [MkContainer componentWebhookGateway (webhookGatewayImage env) "IfNotPresent" (gatewayArgs ns t)
             (MkEnvVar "WATCH_NAMESPACES" (env "WATCH_NAMESPACES") None :: otelPassthroughEnv env)
             [MkPort portName webhookGatewayPort; MkPort portNameMetrics webhookGatewayMetricsPort]
             mounts (MkSecurity true true false None true true) None
             (Some (MkProbe healthzPath webhookGatewayPort scheme 5 10 0))
             (Some (MkProbe "/readyz" webhookGatewayPort scheme 3 5 0))])
       0).

(** ** The configuration object *)

Definition getWebhookGatewayConfig (ns : string) : Prog GEv (result (option WebhookGatewayConfig)) :=
  let! r := emit (GGetConfig ns webhookGatewayConfigName) in
  Ret (match r with
       | Ok cfg => Ok (Some cfg)
       | Err e => if isNotFound e then Ok None
                  else Err (wrapf ("getting WebhookGatewayConfig " +:+ ns +:+ "/" +:+ webhookGatewayConfigName +:+ ": ") e)
       end).

Definition readyCondition (status : ConditionStatus) (reason msg : string) : Condition :=
  MkCondition conditionTypeReady status reason msg None 0.

Definition lacks (d : gmap string string) (key : string) : bool := (slen (default "" (d !! key)) =? 0)%nat.

Definition validateWebhookGatewayConfigTLS (cfg : WebhookGatewayConfig) : Prog GEv Condition :=
  let ns := m_Namespace (gc_Meta cfg) in
  let bad (reason msg : string) := Ret (readyCondition ConditionFalse reason msg) in
  let good := Ret (readyCondition ConditionTrue "WebhookGatewayConfigReady" "spec.tls Secret references resolved successfully.") in
  match gs_TLS (gc_Spec cfg) with
  | None => Ret (readyCondition ConditionTrue "NoTLSConfigured" "spec.tls is not set; the webhook gateway serves plain HTTP.")
  | Some tls =>
      match gt_ServerSecretRef tls with
      | None => good
      | Some server =>
          let! s := emit (GGetSecret ns server) in
          match s with
          | Err e =>
              if isNotFound e then bad "ServerSecretNotFound" ("spec.tls.serverSecretRef " +:+ Quote server +:+ " not found in namespace " +:+ Quote ns +:+ ".")
              else bad "ServerSecretGetFailed" ("getting spec.tls.serverSecretRef " +:+ Quote server +:+ ": " +:+ emsg e)
          | Ok d =>
              if lacks d "tls.crt" || lacks d "tls.key"
              then bad "ServerSecretMissingKeys" ("spec.tls.serverSecretRef " +:+ Quote server +:+ " must contain both tls.crt and tls.key.")
              else
                match gt_ClientCASecretRef tls with
                | None => good
                | Some ca =>
                    let! s := emit (GGetSecret ns ca) in
                    match s with
                    | Err e =>
                        if isNotFound e then bad "ClientCASecretNotFound" ("spec.tls.clientCASecretRef " +:+ Quote ca +:+ " not found in namespace " +:+ Quote ns +:+ ".")
                        else bad "ClientCASecretGetFailed" ("getting spec.tls.clientCASecretRef " +:+ Quote ca +:+ ": " +:+ emsg e)
                    | Ok d =>
                        if lacks d "ca.crt" then bad "ClientCASecretMissingKey" ("spec.tls.clientCASecretRef " +:+ Quote ca +:+ " must contain ca.crt.")
                        else good
                    end
                end
          end
      end
  end.

Section ensure.
  Context `{KubeLib}.

(** The configuration as the caller goes on with it; a failed status update is
    only logged. *)
Definition reconcileWebhookGatewayConfigStatus (cfg : WebhookGatewayConfig) : Prog GEv WebhookGatewayConfig :=
  let! c := validateWebhookGatewayConfigTLS cfg in
  let! t := emit GNow in
  let cond := MkCondition (c_Type c) (c_Status c) (c_Reason c) (c_Message c) None (m_Generation (gc_Meta cfg)) in
  let cfg := MkGatewayConfig (gc_Meta cfg) (gc_Spec cfg) (SetStatusCondition t (gc_Conditions cfg) cond) in
  let! _ := emit (GStatusUpdateConfig cfg) in
  Ret cfg.

(** ** [ensureWebhookGateway] *)

Definition gatewayTLSOf (cfg : option WebhookGatewayConfig) : WebhookGatewayTLSConfig :=
  match cfg with
  | None => MkGatewayTLS "" "" ""
  | Some c =>
      match gs_TLS (gc_Spec c) with
      | None => MkGatewayTLS "" "" ""
      | Some tls =>
          match gt_ServerSecretRef tls with
          | None => MkGatewayTLS "" "" ""
          | Some server =>
              match gt_ClientCASecretRef tls with
              | None => MkGatewayTLS server "" ""
              | Some ca => MkGatewayTLS server ca (default "" (gt_CRLConfigMapRef tls))
              end
          end
      end
  end.

(** The first failure of a sequence of upserts. *)
Definition step (msg : string) (p : Prog CEv (option CouErr)) (k : Prog GEv (option gerr)) : Prog GEv (option gerr) :=
  let! e := gcluster p in
  match e with Some e => Ret (Some (wrapf msg (couErr e))) | None => k end.

(** The autoscaler; [true] when it was there and is updated. *)
Definition ensureHPA (ns : string) (cfg : option WebhookGatewayConfig) : Prog CEv (option gerr * bool) :=
  let want := desiredWebhookGatewayHPAFromConfig ns cfg in
  let! r := emit (CGet KHPA ns gatewayName) in
  match r with
  | Err e =>
      if negb (isNotFound e) then Ret (Some e, false)
      else let! c := emit (CCreate want) in
           Ret (match c with
                | Err e => (if negb (bool_decide (ekind_of e = EKAlreadyExists)) then Some e else None, false)
                | Ok _ => (None, false)
                end)
  | Ok live =>
      let w := o_Body want in
      let! u := emit (CUpdate (set_Body (K := KHPA) (MkHPA (hp_Target (o_Body (K := KHPA) live)) (hp_MinReplicas w) (hp_MaxReplicas w) (hp_CPUUtilization w)) live)) in
      Ret (match u with Err e => (Some e, false) | Ok _ => (None, true) end)
  end.

Definition ensurePDB (ns : string) (cfg : option WebhookGatewayConfig) : Prog CEv (option gerr) :=
  match desiredWebhookGatewayPDB ns cfg with
  | None =>
      let! r := emit (CGet KPDB ns gatewayName) in
      match r with
      | Ok _ =>
          let! d := emit (CDelete KPDB ns gatewayName) in
          Ret (match d with
               | Err e => if negb (isNotFound e) then Some (wrapf "deleting webhook gateway PodDisruptionBudget: " e) else None
               | Ok _ => None
               end)
      | Err e => Ret (if negb (isNotFound e) then Some (wrapf "getting webhook gateway PodDisruptionBudget: " e) else None)
      end
  | Some want =>
      let! e := CreateOrUpdate (MkObj (K := KPDB) (newMeta gatewayName ns) (MkPDB (IntVal 0) ∅))
                  (λ live, Ok (set_Labels (k_Labels (o_Meta want)) (set_Body (K := KPDB) (o_Body want) live))) in
      Ret (match e with Some e => Some (wrapf "failed to create/update gateway PodDisruptionBudget: " (couErr e)) | None => None end)
  end.

(** The template of the Deployment always has a replica count, so the live one
    is not kept. *)
Definition ensureWebhookGateway (env : string → string) (ns : string) : Prog GEv (option gerr) :=
  let! c := getWebhookGatewayConfig ns in
  match c with
  | Err e => Ret (Some e)
  | Ok cfg =>
      let! cfg := match cfg with
                  | None => Ret None
                  | Some cfg => let! cfg := reconcileWebhookGatewayConfigStatus cfg in Ret (Some cfg)
                  end in
      let t := gatewayTLSOf cfg in
      let sa := desiredWebhookGatewayServiceAccount ns in
      let role := desiredWebhookGatewayRole ns t in
      let rb := desiredWebhookGatewayRoleBinding ns in
      let svc := desiredWebhookGatewayService ns t in
      let dep := desiredWebhookGatewayDeployment env ns t in
      step "failed to create/update gateway ServiceAccount: "
        (CreateOrUpdate sa (λ live, Ok (set_Labels (k_Labels (o_Meta sa)) live)))
      (step "failed to create/update gateway Role: "
        (CreateOrUpdate role (λ live, Ok (set_Body (K := KRole) (o_Body role) live)))
      (step "failed to create/update gateway RoleBinding: "
        (CreateOrUpdate rb (λ live, Ok (set_Body (K := KRB) (o_Body rb) live)))
      (step "failed to create/update gateway Service: "
        (CreateOrUpdate svc (λ live, Ok (set_Labels (k_Labels (o_Meta svc)) (set_Body (K := KSvc) (o_Body svc) live))))
      (step "failed to create/update gateway Deployment: "
        (CreateOrUpdate dep (λ live, Ok (overwriteDeployment dep live)))
      (let! h := gcluster (ensureHPA ns cfg) in
       match h with
       | (Some e, _) => Ret (Some e)
       | (None, false) => Ret None
       | (None, true) => gcluster (ensurePDB ns cfg)
       end)))))
  end.

End ensure.
