(* ===== verification/GatewayDeployProps.v ===== *)
(** * Properties of the webhook gateway's resources

    What [ensureWebhookGateway] writes for a namespace: least privilege, TLS as
    the namespace's WebhookGatewayConfig says, and the condition reported on
    that object. *)

From S2P Require Import Prelude GoStd Api Effects Interp Kube KObjects FlowCtl IntegrationCtl CertUtil ClusterSpec ExecutorCtl GatewayDeploy.

Local Open Scope string_scope.
Local Open Scope list_scope.
Local Open Scope go_scope.

Section props.
  Context `{KL : KubeLib} `{!KubeLibLaws}.
  Variable env : string → string.
  Variable ns : string.
  (** The configuration of the namespace, and its Secrets. *)
  Variable cfg : option WebhookGatewayConfig.
  Variable secrets : string → result (gmap string string).
  Hypothesis cfg_here : ∀ c, cfg = Some c → m_Namespace (gc_Meta c) = ns.

Definition tls : WebhookGatewayTLSConfig := gatewayTLSOf cfg.

(** What the configuration asks for. *)
Definition serverSecret : option string :=
  match cfg with Some c => match gs_TLS (gc_Spec c) with Some t => gt_ServerSecretRef t | None => None end | None => None end.
Definition clientCASecret : option string :=
  match cfg with Some c => match gs_TLS (gc_Spec c) with Some t => gt_ClientCASecretRef t | None => None end | None => None end.
Definition crlConfigMap : option string :=
  match cfg with Some c => match gs_TLS (gc_Spec c) with Some t => gt_CRLConfigMapRef t | None => None end | None => None end.

Definition holds (secret : string) (keys : list string) : Prop :=
  ∃ d, secrets secret = Ok d ∧ ∀ k, k ∈ keys → ∃ v, d !! k = Some v ∧ v ≠ "".

(** The Secrets the gateway will mount are there. *)
Definition tls_resolves : Prop :=
  ∀ server, serverSecret = Some server →
    holds server ["tls.crt"; "tls.key"] ∧ ∀ ca, clientCASecret = Some ca → holds ca ["ca.crt"].

(** ** Demands *)

Definition gateway_rules_ok (rules : list PolicyRule) : Prop :=
  ∀ r, r ∈ rules →
    r = MkRule [apiGroupAutomation] ["triggers"] ["get"; "list"; "watch"] ∨
    r = MkRule [apiGroupAutomation] ["flowruns"] ["create"] ∨
    r = MkRule [""] ["secrets"] ["get"; "list"; "watch"] ∨
    (r = MkRule [""] [resourceConfigMaps] ["get"; "list"; "watch"] ∧ ∃ m, crlConfigMap = Some m ∧ m ≠ "").

(** The Secret a file of the container comes from. *)
Definition file_from (p : PodSpec) (c : Container) (dir secret : string) : Prop :=
  ∃ v m, v ∈ po_Volumes p ∧ m ∈ ct_VolumeMounts c ∧ vm_Name m = vo_Name v ∧ vm_MountPath m = dir ∧ vo_SecretName v = secret.

(** TLS exactly as configured, never plain text instead of it. *)
Definition transport_ok (p : PodSpec) (c : Container) : Prop :=
  match serverSecret with
  | Some server =>
      server ≠ "" →
      "--tls-cert-file=/etc/webhook-tls/tls.crt" ∈ ct_Args c ∧ "--tls-key-file=/etc/webhook-tls/tls.key" ∈ ct_Args c ∧
      file_from p c "/etc/webhook-tls" server ∧
      (∀ pr, ct_Liveness c = Some pr ∨ ct_Readiness c = Some pr → pb_Scheme pr = "HTTPS") ∧
      match clientCASecret with
      | Some ca => ca ≠ "" → "--mtls-ca-file=/etc/webhook-mtls-ca/ca.crt" ∈ ct_Args c ∧ file_from p c "/etc/webhook-mtls-ca" ca ∧
                   ∀ m, crlConfigMap = Some m → m ≠ "" → "--crl-configmap-name=" +:+ m ∈ ct_Args c
      | None => True
      end
  | None => po_Volumes p = [] ∧ ct_Args c = ["--port=8080"; "--namespace=" +:+ ns] ∧
            ∀ pr, ct_Liveness c = Some pr ∨ ct_Readiness c = Some pr → pb_Scheme pr = "HTTP"
  end.

Definition hpa_field (f : WebhookGatewayHPASpec → option Z) (dflt : Z) : Z :=
  match cfg with
  | Some c => match gs_HPA (gc_Spec c) with Some h => default dflt (f h) | None => dflt end
  | None => dflt
  end.

Definition gateway_body (K : Kind) : Body K → Prop :=
  match K return Body K → Prop with
  | KSA => λ _, True
  | KRole => gateway_rules_ok
  | KRB => λ b, rb_RoleRef b = MkRoleRef apiGroupRBAC kindRole gatewayName ∧ rb_Subjects b = [MkSubject kindServiceAccount gatewayName ns]
  | KDep => λ d, po_ServiceAccountName (d_Pod d) = gatewayName ∧ po_RunAsNonRoot (d_Pod d) = true ∧
      d_Selector d = gatewayLabels ns ∧ d_TemplateLabels d = gatewayLabels ns ∧
      ∃ c, po_Containers (d_Pod d) = [c] ∧ ct_Security c = MkSecurity true true false None true true ∧ transport_ok (d_Pod d) c
  | KSvc => λ s, sv_Selector s = gatewayLabels ns ∧ webhookGatewayPort ∈ map sp_Port (sv_Ports s)
  | KHPA => λ h, hp_MinReplicas h = hpa_field gh_MinReplicas 1%Z ∧ hp_MaxReplicas h = hpa_field gh_MaxReplicas 10%Z ∧
      hp_CPUUtilization h = hpa_field gh_TargetCPUUtilization 70%Z
  | KPDB => λ p, pd_Selector p = gatewayLabels ns ∧ ∃ c b, cfg = Some c ∧ gs_PodDisruptionBudget (gc_Spec c) = Some b ∧
      gp_MinAvailable b = Some (pd_MinAvailable p)
  | KSec | KNet => λ _, False
  end.

Definition gateway_demand K (o : Obj K) : Prop := named ns gatewayName o ∧ gateway_body K (o_Body o).

(** A PodDisruptionBudget goes when none is configured. *)
Definition gateway_deletable (K : Kind) (name : string) : Prop :=
  K = KPDB ∧ name = gatewayName ∧ desiredWebhookGatewayPDB ns cfg = None.

Definition gateway_spec : Spec GEv (list AnyObj) := λ X e,
  match e in GEv X return list AnyObj → (X → list AnyObj → Prop) → Prop with
  | GCluster e => cluster_spec ns gateway_demand gateway_deletable _ e
  | GNow => λ l Q, ∀ t, Q t l
  | GGetConfig n name => λ l Q,
      n = ns ∧ name = webhookGatewayConfigName ∧
      (∀ e, isNotFound e = false → Q (Err e) l) ∧
      match cfg with None => ∀ e, isNotFound e = true → Q (Err e) l | Some c => Q (Ok c) l end
  | GStatusUpdateConfig c => λ l Q,
      (∃ c0, cfg = Some c0 ∧ gc_Spec c = gc_Spec c0 ∧ gc_Meta c = gc_Meta c0) ∧
      (∃ r, find_condition conditionTypeReady (gc_Conditions c) = Some r ∧ (c_Status r = ConditionTrue ↔ tls_resolves)) ∧
      ∀ r, Q r l
  | GGetSecret n name => λ l Q, n = ns ∧ Q (secrets name) l
  end.

#[global] Instance gateway_spec_mono : MonoSpec gateway_spec.
Proof.
  intros X e s P Q HPQ. destruct e; cbn.
  - by apply cluster_spec_mono.
  - auto.
  - intros (?&?&?&Hc). split_and!; [done..|auto|]. destruct cfg; auto.
  - intros (?&?&?). auto.
  - intros [? ?]. auto.
Qed.

Lemma wp_gcluster {A} (p : Prog CEv A) l Q :
  wp (cluster_spec ns gateway_demand gateway_deletable) p l Q → wp gateway_spec (gcluster p) l Q.
Proof.
  revert l. induction p as [a|X e k IH]; intros l; cbn [gcluster wp]; [done|]. apply cluster_spec_mono. intros x l'. apply IH.
Qed.

Lemma wp_step {K} msg (o : Obj K) mutate k l (Q : option gerr → list AnyObj → Prop) :
  named ns gatewayName o →
  (∀ live, named ns gatewayName live → ∃ o', mutate live = Ok o' ∧ gateway_demand K o') →
  (∀ e, Q (Some e) l) →
  (∀ l', present ns gateway_demand K gatewayName l' → (∀ K' n, present ns gateway_demand K' n l → present ns gateway_demand K' n l') →
     wp gateway_spec k l' Q) →
  wp gateway_spec (step msg (CreateOrUpdate o mutate) k) l Q.
Proof.
  intros [Hns Hn] Hmut Herr Hk. unfold step. apply wp_bind; [apply _|]. apply wp_gcluster, wp_ensured; [done| |intros e; apply Herr|].
  - rewrite Hn. intros live Hlive. destruct (Hmut live Hlive) as (o' & Hm & Hd). exists o'. split_and!; [done|apply Hd|done].
  - rewrite Hn. intros l' Hp Hkeep. by apply Hk.
Qed.

(** ** The objects *)

Lemma tls_fields :
  gw_TLSSecretName tls = default "" serverSecret ∧
  (∀ s, serverSecret = Some s → gw_MTLSCASecretName tls = default "" clientCASecret ∧
     ∀ ca, clientCASecret = Some ca → gw_CRLConfigMapName tls = default "" crlConfigMap) ∧
  (gw_CRLConfigMapName tls ≠ "" → ∃ m, crlConfigMap = Some m ∧ m ≠ "").
Proof.
  unfold tls, gatewayTLSOf, serverSecret, clientCASecret, crlConfigMap. destruct cfg as [c|]; [|done].
  destruct (gs_TLS (gc_Spec c)) as [[[s|] [ca|] [m|]]|]; cbn; naive_solver.
Qed.

Lemma role_ok : gateway_rules_ok (o_Body (desiredWebhookGatewayRole ns tls)).
Proof.
  intros r. cbn [o_Body desiredWebhookGatewayRole]. destruct tls_fields as (_ & _ & Hcrl).
  destruct (String.eqb_spec (gw_CRLConfigMapName tls) "") as [|Hne]; cbn [negb app]; rewrite !elem_of_cons, elem_of_nil; [naive_solver|].
  apply Hcrl in Hne. naive_solver.
Qed.

Lemma probes_scheme p1 p2 (q1 q2 : Probe) s :
  pb_Scheme q1 = s → pb_Scheme q2 = s → p1 = Some q1 → p2 = Some q2 → ∀ pr, p1 = Some pr ∨ p2 = Some pr → pb_Scheme pr = s.
Proof. naive_solver. Qed.

Lemma deployment_ok live : gateway_body KDep (o_Body (overwriteDeployment (desiredWebhookGatewayDeployment env ns tls) live)).
Proof.
  split_and!; [done..|]. eexists. split; [done|]. split; [done|]. unfold transport_ok.
  destruct tls_fields as (Htls & Hca & _). cbn [d_Pod o_Body overwriteDeployment desiredWebhookGatewayDeployment set_Body po_Volumes ct_Args ct_Liveness ct_Readiness].
  unfold gatewayArgs, mtlsCAOn, tlsOn. rewrite Htls. destruct serverSecret as [s|] eqn:Hs; cbn [from_option id]; [|cbn; naive_solver].
  intros Hne. apply String.eqb_neq in Hne as ->. cbn [negb andb]. destruct (Hca s eq_refl) as [Hm Hcrl]. rewrite Hm.
  split_and!; [set_solver..| |naive_solver|].
  { exists (MkVolume "webhook-tls" s), (MkMount "webhook-tls" "/etc/webhook-tls" true). cbn [po_Volumes ct_VolumeMounts]. rewrite ?Htls. split_and!; [set_solver..|done|done|done]. }
  destruct clientCASecret as [ca|] eqn:Hcas; [|done]. intros Hcne. cbn [from_option id]. apply String.eqb_neq in Hcne as ->. cbn [negb].
  split_and!; [set_solver| |].
  { exists (MkVolume "webhook-mtls-ca" ca), (MkMount "webhook-mtls-ca" "/etc/webhook-mtls-ca" true). cbn [po_Volumes ct_VolumeMounts]. rewrite ?Hm. cbn [from_option id]. split_and!; [set_solver..|done|done|done]. }
  intros m Hcm Hmne. rewrite (Hcrl ca eq_refl), Hcm. cbn [from_option id]. apply String.eqb_neq in Hmne as ->. cbn [negb]. set_solver.
Qed.

Lemma lacks_spec d k : lacks d k = false ↔ ∃ v, d !! k = Some v ∧ v ≠ "".
Proof.
  unfold lacks. destruct (d !! k) as [v|]; cbn [from_option id]; [|cbn; naive_solver]. rewrite Nat.eqb_neq.
  split; [intros Hv; exists v; split; [done|]; by intros ->|]. intros (v' & [= <-] & Hv). by destruct v.
Qed.

Lemma wp_validate c l (Q : Condition → list AnyObj → Prop) :
  cfg = Some c → (∀ r, c_Type r = conditionTypeReady → (c_Status r = ConditionTrue ↔ tls_resolves) → Q r l) →
  wp gateway_spec (validateWebhookGatewayConfigTLS c) l Q.
Proof.
  intros Hc HQ. pose proof (cfg_here c Hc) as Hns. unfold validateWebhookGatewayConfigTLS. rewrite Hns.
  assert (tls_resolves ↔ ∀ t server, gs_TLS (gc_Spec c) = Some t → gt_ServerSecretRef t = Some server →
    holds server ["tls.crt"; "tls.key"] ∧ ∀ ca, gt_ClientCASecretRef t = Some ca → holds ca ["ca.crt"]) as Hres.
  { unfold tls_resolves, serverSecret, clientCASecret. rewrite Hc. destruct (gs_TLS (gc_Spec c)) as [t|]; naive_solver. }
  assert (∀ s ks, (∃ d k, secrets s = Ok d ∧ k ∈ ks ∧ lacks d k = true) → ¬ holds s ks) as Hlack.
  { intros s ks (d & k & Hd & Hk & Hl) (d' & Hd' & Hall). rewrite Hd in Hd'. injection Hd' as <-.
    destruct (Hall k Hk) as (v & Hv & Hne). assert (lacks d k = false) by (apply lacks_spec; eauto). congruence. }
  assert (∀ s ks, (∃ e, secrets s = Err e) → ¬ holds s ks) as Herr by (intros s ks [e He] (d & Hd & _); congruence).
  assert (∀ s ks d, secrets s = Ok d → (∀ k, k ∈ ks → lacks d k = false) → holds s ks) as Hhold.
  { intros s ks d Hd Hk. exists d. split; [done|]. intros k Hin. by apply lacks_spec, Hk. }
  destruct (gs_TLS (gc_Spec c)) as [t|]; [|apply HQ; [done|cbn; naive_solver]].
  destruct (gt_ServerSecretRef t) as [server|] eqn:Hserv; [|apply HQ; [done|cbn; naive_solver]].
  assert (∀ r, c_Type r = conditionTypeReady → c_Status r = ConditionFalse → ¬ tls_resolves → Q r l) as HQbad.
  { intros r Hr Hf Hn. apply HQ; [done|]. rewrite Hf. naive_solver. }
  cbn [wp pbind emit gateway_spec]. split; [done|]. destruct (secrets server) as [d|e] eqn:Hsec.
  2: { destruct (isNotFound e); apply HQbad; try done; rewrite Hres; intros Hx; destruct (Hx t server) as [Hh _]; try done; eapply Herr; eauto. }
  destruct (lacks d "tls.crt") eqn:H1; [|destruct (lacks d "tls.key") eqn:H2]; cbn [orb].
  1,2: apply HQbad; try done; rewrite Hres; intros Hx; destruct (Hx t server) as [Hh _]; try done; eapply Hlack; [|exact Hh]; do 2 eexists; (split_and!; [done| |done]); set_solver.
  assert (holds server ["tls.crt"; "tls.key"]) as Hhs. { eapply Hhold; [done|]. intros k. rewrite !elem_of_cons, elem_of_nil. naive_solver. }
  destruct (gt_ClientCASecretRef t) as [ca|] eqn:Hca; [|apply HQ; [done|cbn; naive_solver]].
  cbn [wp pbind emit gateway_spec]. split; [done|]. destruct (secrets ca) as [d'|e] eqn:Hsec'.
  2: { destruct (isNotFound e); apply HQbad; try done; rewrite Hres; intros Hx; destruct (Hx t server) as [_ Hh]; try done; eapply Herr; eauto. }
  destruct (lacks d' "ca.crt") eqn:H3.
  - apply HQbad; try done. rewrite Hres. intros Hx. destruct (Hx t server) as [_ Hh]; try done. eapply Hlack; [|by apply Hh]. do 2 eexists. split_and!; [done| |done]. set_solver.
  - assert (holds ca ["ca.crt"]). { eapply Hhold; [done|]. intros k ->%list_elem_of_singleton. done. }
    apply HQ; [done|]. cbn [c_Status readyCondition]. rewrite Hres. naive_solver.
Qed.

Lemma wp_ensureHPA l (Q : option gerr * bool → list AnyObj → Prop) :
  (∀ r l', (∀ K n, present ns gateway_demand K n l → present ns gateway_demand K n l') → Q r l') →
  wp (cluster_spec ns gateway_demand gateway_deletable) (ensureHPA ns cfg) l Q.
Proof.
  intros HQ. assert (∀ live : Obj KHPA, gateway_body KHPA (MkHPA (hp_Target (o_Body live)) (hp_MinReplicas (o_Body (desiredWebhookGatewayHPAFromConfig ns cfg)))
    (hp_MaxReplicas (o_Body (desiredWebhookGatewayHPAFromConfig ns cfg))) (hp_CPUUtilization (o_Body (desiredWebhookGatewayHPAFromConfig ns cfg))))) as Hb.
  { intros live. unfold gateway_body, hpa_field. cbn. by destruct cfg. }
  unfold ensureHPA. cbn [wp pbind emit cluster_spec]. split; [done|]. split.
  - intros e. destruct (isNotFound e); cbn [negb wp]; [|by apply HQ]. cbn [wp pbind emit cluster_spec].
    split; [split; [done|apply (Hb (desiredWebhookGatewayHPAFromConfig ns cfg))]|]. split; [intros; by apply HQ|]. apply HQ. intros K n. apply present_cons.
  - intros live Hl. cbn [wp pbind emit cluster_spec]. split; [split; [done|apply Hb]|]. split; [intros; by apply HQ|].
    apply HQ. intros K n. apply present_cons.
Qed.

Lemma wp_ensurePDB l (Q : option gerr → list AnyObj → Prop) :
  (∀ e l', (∀ K n, present ns gateway_demand K n l → present ns gateway_demand K n l') → Q e l') →
  wp (cluster_spec ns gateway_demand gateway_deletable) (ensurePDB ns cfg) l Q.
Proof.
  intros HQ. unfold ensurePDB. destruct (desiredWebhookGatewayPDB ns cfg) as [want|] eqn:Hw.
  - apply wp_bind; [apply _|]. apply wp_ensured; [done| |intros; by apply HQ|intros l' _ Hk; by apply HQ].
    intros live Hl. eexists. split; [done|]. split; [done|]. split; [done|]. unfold desiredWebhookGatewayPDB in Hw.
    destruct cfg as [c|] eqn:Hcfg; [|done]. destruct (gs_PodDisruptionBudget (gc_Spec c)) as [b|] eqn:Hb; [|done].
    destruct (gp_MinAvailable b) as [m|] eqn:Hm; [|done]. injection Hw as <-. cbn. split; [done|]. eauto 10.
  - cbn [wp pbind emit cluster_spec]. split; [done|]. split; [intros; by apply HQ|]. intros o Ho. cbn [wp pbind emit cluster_spec].
    split; [done|]. split; [done|]. intros r. by apply HQ.
Qed.

Definition gateway_there (l : list AnyObj) : Prop :=
  ∀ K, K ∈ [KSA; KRole; KRB; KSvc; KDep] → present ns gateway_demand K gatewayName l.

(** C29: the webhook gateway of a namespace.  [ensureWebhookGateway] touches only
    the gateway's own objects in that namespace; its Role lets it read Triggers
    and Secrets and create FlowRuns, and read ConfigMaps only when revocation
    checking is configured; its pods run without privileges under its own
    account.  TLS is exactly what the WebhookGatewayConfig says: once a server
    Secret is named the pods are never set up to serve plain HTTP, the
    certificate, client CA and revocation flags point at files mounted from the
    named Secrets, and the probes speak the same scheme.  The autoscaler has the
    configured bounds or the defaults; a disruption budget is written only when
    one is configured and deleted only when none is.  The condition it reports on
    the configuration is Ready exactly when the Secrets to be mounted exist with
    their keys.  When it reports no error, account, Role, binding, Service and
    Deployment are in the cluster. *)
Theorem webhook_gateway_resources l :
  wp gateway_spec (ensureWebhookGateway env ns) l (λ e l', e = None → gateway_there l').
Proof.
  unfold ensureWebhookGateway, getWebhookGatewayConfig. cbn [wp pbind emit gateway_spec]. split_and!; [done..| |].
  { intros e He. rewrite He. by cbn. }
  set (rest := λ c0 : option WebhookGatewayConfig, _ : Prog GEv (option gerr)).
  assert (∀ c0, gatewayTLSOf c0 = tls → desiredWebhookGatewayHPAFromConfig ns c0 = desiredWebhookGatewayHPAFromConfig ns cfg →
    desiredWebhookGatewayPDB ns c0 = desiredWebhookGatewayPDB ns cfg →
    wp gateway_spec (rest c0) l (λ e l', e = None → gateway_there l')) as Hrest.
  { intros c0 Ht Hh Hp. subst rest. cbn beta zeta. rewrite Ht. unfold ensureHPA, ensurePDB. rewrite Hh, Hp. fold (ensureHPA ns cfg) (ensurePDB ns cfg).
    apply wp_step; [done| |done|]. { intros live Hl. eexists. split; [done|]. by split. }
    intros l1 J1 _. apply wp_step; [done| |done|]. { intros live Hl. eexists. split; [done|]. split; [done|]. apply role_ok. }
    intros l2 J2 M2. apply wp_step; [done| |done|]. { intros live Hl. eexists. split; [done|]. by split. }
    intros l3 J3 M3. apply wp_step; [done| |done|].
    { intros live Hl. eexists. split; [done|]. split; [done|]. split; [done|]. cbn. by left. }
    intros l4 J4 M4. apply wp_step; [done| |done|]. { intros live Hl. eexists. split; [done|]. split; [done|]. apply deployment_ok. }
    intros l5 J5 M5. apply wp_bind; [apply _|]. apply wp_gcluster, wp_ensureHPA. intros [[e|] b] l6 M6; [done|].
    assert (gateway_there l6) as Hthere. { intros K. rewrite !elem_of_cons, elem_of_nil. intros HK. apply M6. naive_solver. }
    destruct b; [|by cbn]. apply wp_gcluster, wp_ensurePDB. intros e l7 M7 _ K HK. by apply M7, Hthere. }
  assert (cfg = None ∨ ∃ c, cfg = Some c) as [Hc|[c Hc]] by (destruct cfg; eauto); rewrite Hc.
  { intros e ->. cbn [wp pbind]. apply Hrest; [unfold tls; by rewrite Hc|by rewrite Hc..]. }
  cbn [wp pbind]. unfold reconcileWebhookGatewayConfigStatus. apply wp_bind; [apply _|]. apply wp_bind; [apply _|]. apply wp_bind; [apply _|].
  apply wp_validate; [done|]. intros r Htype Hr. cbn [wp pbind emit gateway_spec]. intros t.
  split; [by exists c|]. split.
  { cbn [gc_Conditions]. set (c1 := MkCondition _ _ _ _ _ _). destruct (SetStatusCondition_same t (gc_Conditions c) c1) as [t' Hx].
    cbn [c_Type c1] in Hx. rewrite Htype in Hx. eexists. split; [exact Hx|]. done. }
  intros _. cbn [wp pbind]. apply Hrest; [unfold tls; by rewrite Hc|by rewrite Hc..].
Qed.

End props.
