(* ===== verification/Cron.v ===== *)
(** * The cron scheduler

    [internal/controller/cron_scheduler.go]: the table of cron entries, and the
    job that fires for a Trigger.  The cron library is the class [CronLib]; the
    status patches of a fire carry the base object they are a difference to,
    because a JSON merge patch only sends the fields that differ. *)

From S2P Require Import Prelude GoStd Api Effects.

Local Open Scope string_scope.
Local Open Scope list_scope.
Local Open Scope go_scope.

(** What the function registered for a Trigger captures. *)
Record CronJob := MkCronJob { cj_ns : string; cj_name : string; cj_flowRef : string }.

(** [robfig/cron]: [AddFunc] parses the schedule and returns an entry id,
    [Remove] forgets an entry; [cron_jobs] are the entries that fire. *)
Class CronLib := {
  CronT : Type;
  cron_New : CronT;
  cron_jobs : CronT → gmap nat (string * CronJob);
  cron_AddFunc : CronT → string → CronJob → result (nat * CronT);
  cron_Remove : CronT → nat → CronT
}.

Class CronLibLaws `{CronLib} : Prop := {
  cron_jobs_New : cron_jobs cron_New = ∅;
  cron_jobs_AddFunc c schedule job id c' :
    cron_AddFunc c schedule job = Ok (id, c') →
    cron_jobs c !! id = None ∧ cron_jobs c' = <[id := (schedule, job)]> (cron_jobs c);
  cron_jobs_Remove c id : cron_jobs (cron_Remove c id) = delete id (cron_jobs c)
}.

(** ** The table *)

Section table.
  Context `{CronLib}.

Record CronScheduler := MkCronScheduler { cs_cron : CronT; cs_entries : gmap string nat }.

Definition NewCronScheduler : CronScheduler := MkCronScheduler cron_New ∅.

Definition trigger_path (trigger : Trigger) : string :=
  m_Namespace (tg_Meta trigger) +:+ "/" +:+ m_Name (tg_Meta trigger).

Definition Cron_Deregister (key : string) (s : CronScheduler) : CronScheduler :=
  match cs_entries s !! key with
  | Some id => MkCronScheduler (cron_Remove (cs_cron s) id) (delete key (cs_entries s))
  | None => s
  end.

Definition scheduleOf (spec : CronTrigger) : string :=
  if negb (cr_Timezone spec =? "") then "CRON_TZ=" +:+ cr_Timezone spec +:+ " " +:+ cr_Schedule spec
  else cr_Schedule spec.

Definition Cron_Register (trigger : Trigger) (s : CronScheduler) : CronScheduler * option gerr :=
  let ns := m_Namespace (tg_Meta trigger) in
  let name := m_Name (tg_Meta trigger) in
  match ts_Cron (tg_Spec trigger) with
  | None => (s, Some (errorf ("trigger " +:+ ns +:+ "/" +:+ name +:+ " has no cron spec")))
  | Some spec =>
      let key := trigger_path trigger in
      let schedule := scheduleOf spec in
      let s := Cron_Deregister key s in
      match cron_AddFunc (cs_cron s) schedule (MkCronJob ns name (ts_FlowRef (tg_Spec trigger))) with
      | Err e => (s, Some (wrapf ("invalid cron schedule " +:+ Quote schedule +:+ " for trigger " +:+ ns +:+ "/"
                                  +:+ name +:+ ": ") e))
      | Ok (id, c) => (MkCronScheduler c (<[key := id]> (cs_entries s)), None)
      end
  end.

(** ** What the table promises: one job per key, that of the last call *)

Inductive CronOp := OpRegister (trigger : Trigger) | OpDeregister (key : string).

Definition apply_op (s : CronScheduler) (op : CronOp) : CronScheduler :=
  match op with
  | OpRegister trigger => (Cron_Register trigger s).1
  | OpDeregister key => Cron_Deregister key s
  end.

(** Whether the library accepts the schedule in the state at hand is the only
    thing the abstract table takes from the implementation. *)
Definition abstract_op (s : CronScheduler) (m : gmap string (string * CronJob)) (op : CronOp)
    : gmap string (string * CronJob) :=
  match op with
  | OpDeregister key => delete key m
  | OpRegister trigger =>
      match ts_Cron (tg_Spec trigger) with
      | None => m
      | Some spec =>
          match (Cron_Register trigger s).2 with
          | Some _ => delete (trigger_path trigger) m
          | None => <[trigger_path trigger :=
                        (scheduleOf spec, MkCronJob (m_Namespace (tg_Meta trigger)) (m_Name (tg_Meta trigger))
                                            (ts_FlowRef (tg_Spec trigger)))]> m
          end
      end
  end.

Definition cron_rel (s : CronScheduler) (m : gmap string (string * CronJob)) : Prop :=
  (∀ key, cs_entries s !! key ≫= (λ id, cron_jobs (cs_cron s) !! id) = m !! key) ∧
  (∀ key id, cs_entries s !! key = Some id → is_Some (cron_jobs (cs_cron s) !! id)) ∧
  (∀ id job, cron_jobs (cs_cron s) !! id = Some job → ∃ key, cs_entries s !! key = Some id) ∧
  (∀ k1 k2 id, cs_entries s !! k1 = Some id → cs_entries s !! k2 = Some id → k1 = k2).

Context `{!CronLibLaws}.

Lemma cron_rel_Deregister key s m : cron_rel s m → cron_rel (Cron_Deregister key s) (delete key m).
Proof.
  intros (Hv & Hd & Hj & Hi). unfold Cron_Deregister. destruct (cs_entries s !! key) as [id|] eqn:Hk.
  - split; [|split; [|split]]; simpl; intros k.
    + destruct (decide (k = key)) as [->|Hne]; [by rewrite !lookup_delete_eq|].
      rewrite !lookup_delete_ne by done. rewrite <- Hv. destruct (cs_entries s !! k) as [id'|] eqn:Hk'; [|done].
      simpl. rewrite cron_jobs_Remove, lookup_delete_ne; [done|]. intros ->. by apply Hne, (Hi _ _ id').
    + intros id' [Hne Hk']%lookup_delete_Some. rewrite cron_jobs_Remove, lookup_delete_ne by (intros ->; by apply Hne, (Hi _ _ id')).
      by apply (Hd k).
    + intros job. rewrite cron_jobs_Remove. intros [Hne Hjob]%lookup_delete_Some.
      destruct (Hj _ _ Hjob) as [k' Hk']. exists k'. rewrite lookup_delete_ne; [done|]. intros ->. congruence.
    + intros k2 id' [_ H1]%lookup_delete_Some [_ H2]%lookup_delete_Some. by apply (Hi _ _ id').
  - split; [|done]. intros k. destruct (decide (k = key)) as [->|Hne]; [by rewrite Hk, lookup_delete_eq|].
    by rewrite lookup_delete_ne.
Qed.

Lemma cron_rel_Register trigger s m :
  cron_rel s m → cron_rel (Cron_Register trigger s).1 (abstract_op s m (OpRegister trigger)).
Proof.
  intros Hrel. unfold abstract_op, Cron_Register. destruct (ts_Cron (tg_Spec trigger)) as [spec|]; [|done].
  apply (cron_rel_Deregister (trigger_path trigger)) in Hrel. cbv zeta. set (key := trigger_path trigger) in *.
  set (s' := Cron_Deregister key s) in *.
  assert (cs_entries s' !! key = None) as Hfree.
  { unfold s', Cron_Deregister. destruct (cs_entries s !! key) eqn:Hk; [apply lookup_delete_eq|done]. }
  destruct (cron_AddFunc _ _ _) as [[id c]|e] eqn:Hadd; simpl; [|done].
  apply cron_jobs_AddFunc in Hadd as [Hnew Hjobs]. destruct Hrel as (Hv & Hd & Hj & Hi).
  assert (∀ k id', cs_entries s' !! k = Some id' → id' ≠ id) as Hneq.
  { intros k id' Hk ->. destruct (Hd _ _ Hk) as [? ?]. congruence. }
  split; [|split; [|split]]; simpl; intros k; rewrite ?Hjobs.
  - destruct (decide (k = key)) as [->|Hne]; [rewrite !lookup_insert_eq; simpl; by rewrite lookup_insert_eq|].
    rewrite !lookup_insert_ne by done. rewrite <- (lookup_delete_ne m key k) by done. rewrite <- Hv.
    destruct (cs_entries s' !! k) as [id'|] eqn:Hk; [|done]. simpl. rewrite lookup_insert_ne; [done|].
    apply not_eq_sym. by eapply Hneq.
  - intros id' [[<- <-]|[Hne Hk]]%lookup_insert_Some; [by rewrite lookup_insert_eq|].
    rewrite lookup_insert_ne by (apply not_eq_sym; by eapply Hneq). by eapply Hd.
  - intros job [[<- <-]|[Hne Hjob]]%lookup_insert_Some; [exists key; by rewrite lookup_insert_eq|].
    destruct (Hj _ _ Hjob) as [k' Hk']. exists k'. rewrite lookup_insert_ne; [done|]. intros <-. congruence.
  - intros k2 id' [[<- <-]|[Hne1 H1]]%lookup_insert_Some [[<- Hid]|[Hne2 H2]]%lookup_insert_Some; try done.
    + by destruct (Hneq _ _ H2).
    + subst. by destruct (Hneq _ _ H1).
    + by eapply Hi.
Qed.

(** The abstract table after a sequence of calls. *)
Fixpoint abstract_ops (s : CronScheduler) (m : gmap string (string * CronJob)) (ops : list CronOp)
    : gmap string (string * CronJob) :=
  match ops with
  | [] => m
  | op :: ops => abstract_ops (apply_op s op) (abstract_op s m op) ops
  end.

Lemma cron_rel_ops s m ops : cron_rel s m → cron_rel (fold_left apply_op ops s) (abstract_ops s m ops).
Proof.
  revert s m. induction ops as [|op ops IH]; intros s m Hrel; [done|]. simpl. apply IH.
  destruct op; [by apply cron_rel_Register|by apply cron_rel_Deregister].
Qed.

(** After any sequence of registrations and deregistrations the cron library
    holds exactly one job per key of the abstract table, the one of its last
    accepted registration, and no other job: a Trigger never fires twice per
    tick, and not at all once it is deregistered (or its new schedule is
    refused). *)
Theorem cron_table_refines ops :
  let s := fold_left apply_op ops NewCronScheduler in
  let m := abstract_ops NewCronScheduler ∅ ops in
  (∀ key, cs_entries s !! key ≫= (λ id, cron_jobs (cs_cron s) !! id) = m !! key) ∧
  (∀ id job, cron_jobs (cs_cron s) !! id = Some job → ∃ key, cs_entries s !! key = Some id ∧ m !! key = Some job) ∧
  (∀ k1 k2 id, cs_entries s !! k1 = Some id → cs_entries s !! k2 = Some id → k1 = k2).
Proof.
  cbv zeta. edestruct (cron_rel_ops NewCronScheduler ∅ ops) as (Hv & _ & Hj & Hi).
  - split; [done|]. split; [done|]. split; [|done]. simpl. intros id job. by rewrite cron_jobs_New, lookup_empty.
  - split; [done|]. split; [|done]. intros id job Hjob. destruct (Hj _ _ Hjob) as [key Hk].
    exists key. split; [done|]. rewrite <- Hv, Hk. done.
Qed.

End table.

(** ** The job *)

Inductive CEv : Type → Type :=
  | CNow : CEv Z
  | CGetTrigger (ns name : string) : CEv (result Trigger)
  (** [Status().Patch(ctx, trigger, client.MergeFrom(base))]: on success
      [trigger] is filled with the server's object. *)
  | CPatchStatus (base trigger : Trigger) : CEv (result Trigger)
  | CCreateFlowRun (fr : FlowRun) : CEv (result unit).

Definition set_TriggerStatus (st : TriggerStatus) (t : Trigger) : Trigger :=
  MkTrigger (tg_Meta t) (tg_Spec t) st.
Definition with_LastTriggered (x : option Z) (t : Trigger) : Trigger :=
  let s := tg_Status t in
  set_TriggerStatus (MkTriggerStatus (tst_Conditions s) x (tst_LastResult s) (tst_CurrentInvocationCount s)) t.
Definition with_LastResult (x : string) (t : Trigger) : Trigger :=
  let s := tg_Status t in
  set_TriggerStatus (MkTriggerStatus (tst_Conditions s) (tst_LastTriggeredTime s) x (tst_CurrentInvocationCount s)) t.
Definition with_Count (x : Z) (t : Trigger) : Trigger :=
  let s := tg_Status t in
  set_TriggerStatus (MkTriggerStatus (tst_Conditions s) (tst_LastTriggeredTime s) (tst_LastResult s) x) t.

(** The object after a successful patch, and what is done to it then. *)
Definition patched (base trigger : Trigger) (k : Trigger → Trigger) : Prog CEv (option Trigger) :=
  let! p := emit (CPatchStatus base trigger) in
  match p with Err _ => Ret None | Ok trigger => Ret (Some (k trigger)) end.

(** Step 2, the cooldown policy: the Trigger to go on with, if any. *)
Definition checkCooldown (now : Z) (trigger : Trigger) : Prog CEv (option Trigger) :=
  match ts_Cooldown (tg_Spec trigger) with
  | None => Ret (Some trigger)
  | Some cd =>
      if (0 <? cd_MaxInvocations cd)%Z then
        let windowDuration := default (60 * Second)%Z (cd_Window cd) in
        let base := trigger in
        match tst_LastTriggeredTime (tg_Status trigger) with
        | Some windowStart =>
            if (now <? windowStart + windowDuration)%Z then
              if (cd_MaxInvocations cd <=? tst_CurrentInvocationCount (tg_Status trigger))%Z then
                let! _ := emit (CPatchStatus base (with_LastResult "RateLimited" trigger)) in
                Ret None
              else
                patched base (with_Count (wrap32 (tst_CurrentInvocationCount (tg_Status trigger) + 1)) trigger)
                  (with_LastTriggered (Some now))
            else
              patched base (with_LastTriggered (Some now) (with_Count 1 trigger))
                (with_LastTriggered (Some now))
        | None =>
            patched base (with_Count 1 (with_LastTriggered (Some now) trigger)) (λ t, t)
        end
      else Ret (Some trigger)
  end.

Definition cronFlowRun (ns name flowRef : string) (t : Z) : FlowRun :=
  MkFlowRun
    (MkMeta (name +:+ "-" +:+ Itoa (t / Second)) ns "" 0 0
       (<["kubezap.io/trigger" := name]>
        (<["kubezap.io/trigger-type" := "cron"]> {["kubezap.io/flow" := flowRef]})) ∅ [] 0 None)
    (MkFlowRunSpec flowRef [] (Some (MkTriggerRef name "cron"))
       (Some (MkTriggerData "" "" "" "" "" "" "" "" ∅ "" 0 0 "" "" (Some t) "" false "" "")) None)
    (MkFlowRunStatus 0 PhaseEmpty [] None None [] "" None).

Definition cronFire (job : CronJob) : Prog CEv unit :=
  let! now := emit CNow in
  let! g := emit (CGetTrigger (cj_ns job) (cj_name job)) in
  match g with
  | Err _ => Ret tt
  | Ok trigger =>
      let! go := checkCooldown now trigger in
      match go with
      | None => Ret tt
      | Some trigger =>
          let! c := emit (CCreateFlowRun (cronFlowRun (cj_ns job) (cj_name job) (cj_flowRef job) now)) in
          match c with
          | Err _ => Ret tt
          | Ok _ =>
              let base := trigger in
              let! _ := emit (CPatchStatus base (with_LastResult "Success" (with_LastTriggered (Some now) trigger))) in
              Ret tt
          end
      end
  end.

(** ** The cooldown bound *)

(** The server's copy of the status, the clock, and the FlowRuns requested
    since the current window was opened. *)
Record CronGhost := MkCronGhost { g_status : TriggerStatus; g_now : Z; g_created : nat }.

(** A JSON merge patch: only the fields in which [new] differs from [base]. *)
Definition merge_patch (base new srv : TriggerStatus) : TriggerStatus :=
  MkTriggerStatus (tst_Conditions srv)
    (if decide (tst_LastTriggeredTime base = tst_LastTriggeredTime new)
     then tst_LastTriggeredTime srv else tst_LastTriggeredTime new)
    (if (tst_LastResult base =? tst_LastResult new) then tst_LastResult srv else tst_LastResult new)
    (if (tst_CurrentInvocationCount base =? tst_CurrentInvocationCount new)%Z
     then tst_CurrentInvocationCount srv else tst_CurrentInvocationCount new).

Definition window_over (window : Z) (g : CronGhost) : Prop :=
  match tst_LastTriggeredTime (g_status g) with None => True | Some start => (start + window <= g_now g)%Z end.

(** The ghost after a patch: setting the time opens a window. *)
Definition after_patch (base new : TriggerStatus) (g : CronGhost) : CronGhost :=
  MkCronGhost (merge_patch base new (g_status g)) (g_now g)
    (if decide (tst_LastTriggeredTime base = tst_LastTriggeredTime new) then g_created g else 0).

(** The API server of a Trigger with the cooldown [max] per [window]: reads are
    fresh, a failed patch may or may not have been applied.  Demanded of the
    job: a window is only opened when the one before is over, and at most [max]
    FlowRuns are requested per window. *)
Definition cron_spec (trg : Trigger) (max window : Z) : Spec CEv CronGhost := λ X e g,
  match e in CEv X' return (X' → CronGhost → Prop) → Prop with
  | CNow => λ Q, ∀ t, Q t (MkCronGhost (g_status g) t (g_created g))
  | CGetTrigger _ _ => λ Q, Q (Ok (set_TriggerStatus (g_status g) trg)) g ∧ ∀ e, Q (Err e) g
  | CPatchStatus base new => λ Q,
      let g' := after_patch (tg_Status base) (tg_Status new) g in
      (tst_LastTriggeredTime (tg_Status base) ≠ tst_LastTriggeredTime (tg_Status new) → window_over window g) ∧
      Q (Ok (set_TriggerStatus (g_status g') trg)) g' ∧ ∀ e, Q (Err e) g ∧ Q (Err e) g'
  | CCreateFlowRun _ => λ Q,
      (Z.of_nat (g_created g) < max)%Z ∧
      ∀ x, Q x (MkCronGhost (g_status g) (g_now g) (S (g_created g)))
  end.

#[export] Instance cron_spec_mono trg max window : MonoSpec (cron_spec trg max window).
Proof.
  intros X e g P Q HPQ Hs. destruct e; simpl in *; try (by intros; apply HPQ, Hs).
  - destruct Hs as [? Hs]. split; [|intros]; by apply HPQ.
  - destruct Hs as (? & ? & Hs). split; [done|]. split; [by apply HPQ|].
    intros e. destruct (Hs e). split; by apply HPQ.
  - destruct Hs as [? Hs]. split; [done|]. intros. by apply HPQ.
Qed.

(** The count on the server is at least the number of requests of the window. *)
Definition cron_inv (max : Z) (g : CronGhost) : Prop :=
  (Z.of_nat (g_created g) <= max)%Z ∧
  (tst_LastTriggeredTime (g_status g) ≠ None →
   (Z.of_nat (g_created g) <= tst_CurrentInvocationCount (g_status g))%Z) .

Section cooldown.
  Context (trg : Trigger) (cd : CooldownPolicy).
  Context (Hcd : ts_Cooldown (tg_Spec trg) = Some cd).
  Context (Hmax : (0 < cd_MaxInvocations cd < 2 ^ 31)%Z).
  Context (Hwin : (0 < default (60 * Second) (cd_Window cd))%Z).

Abbreviation max := (cd_MaxInvocations cd).
Abbreviation window := (default (60 * Second)%Z (cd_Window cd)).
Abbreviation cspec := (cron_spec trg max window).

(** What a fire that goes on has secured. *)
Definition admitted (t : Z) (o : option Trigger) (g : CronGhost) : Prop :=
  cron_inv max g ∧
  match o with
  | None => True
  | Some trigger =>
      tst_LastTriggeredTime (tg_Status trigger) = Some t ∧ tst_LastTriggeredTime (g_status g) ≠ None ∧
      (Z.of_nat (g_created g) < max)%Z ∧
      (Z.of_nat (g_created g) < tst_CurrentInvocationCount (g_status g))%Z
  end.

Lemma wp_patched base new k g (Q : option Trigger → CronGhost → Prop) :
  (tst_LastTriggeredTime (tg_Status base) ≠ tst_LastTriggeredTime (tg_Status new) → window_over window g) →
  Q None g → Q None (after_patch (tg_Status base) (tg_Status new) g) →
  Q (Some (k (set_TriggerStatus (merge_patch (tg_Status base) (tg_Status new) (g_status g)) trg)))
    (after_patch (tg_Status base) (tg_Status new) g) →
  wp cspec (patched base new k) g Q.
Proof. intros Hw H1 H2 H3. split; [done|]. split; [done|]. by intros e. Qed.

Lemma wp_checkCooldown g :
  cron_inv max g →
  wp cspec (checkCooldown (g_now g) (set_TriggerStatus (g_status g) trg)) g (admitted (g_now g)).
Proof.
  intros [Hc Hcount]. unfold checkCooldown. simpl. rewrite Hcd.
  destruct (Z.ltb_spec 0 max); [|lia]. cbv zeta. simpl.
  destruct (tst_LastTriggeredTime (g_status g)) as [start|] eqn:Hlast.
  - destruct (Z.ltb_spec (g_now g) (start + window)) as [Hin|Hout].
    + specialize (Hcount ltac:(done)).
      destruct (Z.leb_spec max (tst_CurrentInvocationCount (g_status g))) as [Hfull|Hroom].
      * cbn -[after_patch]. split; [done|].
        assert (cron_inv max (after_patch (tg_Status (set_TriggerStatus (g_status g) trg))
                  (tg_Status (with_LastResult "RateLimited" (set_TriggerStatus (g_status g) trg))) g)) as Hinv.
        { unfold after_patch, merge_patch, cron_inv. simpl. rewrite decide_True, Z.eqb_refl by done. done. }
        split; [by split|]. intros e. split; split; done.
      * assert (wrap32 (tst_CurrentInvocationCount (g_status g) + 1)
                = tst_CurrentInvocationCount (g_status g) + 1)%Z as Hwrap by (apply wrap_id; lia).
        rewrite Hwrap. apply wp_patched; [done|by repeat split| |]; unfold admitted, cron_inv, after_patch, merge_patch;
          simpl; rewrite !decide_True by done; rewrite (proj2 (Z.eqb_neq _ _)) by lia; rewrite ?Hlast;
          repeat split; try done; lia.
    + apply wp_patched; unfold window_over, admitted, cron_inv, after_patch, merge_patch; simpl; rewrite ?Hlast;
        [done|by repeat split| |]; rewrite !decide_False by (intros [= ?]; lia); simpl;
        repeat split; try done; destruct (Z.eqb_spec (tst_CurrentInvocationCount (g_status g)) 1); lia.
  - apply wp_patched; unfold window_over, admitted, cron_inv, after_patch, merge_patch; simpl; rewrite ?Hlast;
      [done|by repeat split| |]; rewrite !decide_False by congruence; simpl;
      repeat split; try done; destruct (Z.eqb_spec (tst_CurrentInvocationCount (g_status g)) 1); lia.
Qed.

Lemma wp_cronFire job g :
  cron_inv max g → wp cspec (cronFire job) g (λ _ g', cron_inv max g').
Proof.
  intros Hinv. unfold cronFire. apply wp_bind; [apply _|]. intros t. cbn [wp].
  apply wp_bind; [apply _|]. split; [|done]. cbn [wp]. apply wp_bind; [apply _|].
  eapply wp_mono; [apply _| |apply (wp_checkCooldown (MkCronGhost (g_status g) t (g_created g))); done].
  intros [trigger|] g' [Hinv' Hadm]; [|done]. destruct Hadm as (Ht & Hne & Hlt & Hcount).
  simpl in Ht. split; [done|]. intros [u|e]; cbn [pbind wp].
  - cbn -[after_patch]. rewrite Ht. split; [done|].
    assert (cron_inv max (after_patch (tg_Status trigger)
      (MkTriggerStatus (tst_Conditions (tg_Status trigger)) (Some t) "Success"
         (tst_CurrentInvocationCount (tg_Status trigger)))
      (MkCronGhost (g_status g') (g_now g') (S (g_created g'))))) as Hfin.
    { unfold after_patch, merge_patch, cron_inv. cbn -[Z.of_nat]. rewrite Ht, !decide_True, Z.eqb_refl by done.
      split; [lia|]. intros _. lia. }
    split; [done|]. intros e. split; [|done]. split; simpl g_created; simpl g_status; [lia|]. intros _. lia.
  - split; simpl g_created; simpl g_status; [lia|]. intros _. lia.
Qed.

(** For a cron Trigger with a cooldown of [max] invocations per window, and
    whatever the clock shows at each fire, a window is opened only when none is
    open or the last one is over, and at most [max] FlowRuns are requested
    between two openings (both are demands of [cron_spec] on the requests); a
    patch that fails, applied or not, never lets more through. *)
Theorem cron_cooldown_bound job (fires : nat) st now :
  (0 <= tst_CurrentInvocationCount st)%Z →
  wp cspec (pfold (λ _ _, cronFire job) (seq 0 fires) tt) (MkCronGhost st now 0)
    (λ _ g, (Z.of_nat (g_created g) <= max)%Z).
Proof.
  intros Hst. eapply wp_mono; [apply _| |apply (wp_fold cspec (λ _ _, cronFire job) (seq 0 fires) (λ _, cron_inv max))].
  - by intros _ g [? _].
  - intros _ g _ _ Hinv. by apply wp_cronFire.
  - split; simpl; lia.
Qed.

End cooldown.
