(* ===== verification/TriggerCtl.v ===== *)
(** * The Trigger controller

    [internal/controller/trigger_controller.go], [trigger_plugin.go] and
    [trigger_credential_condition.go]: [Reconcile] block by block, the removal
    of an unused webhook gateway, and the conditions derived from Events and
    from the referenced Integration.  [ensureWebhookGateway], which builds the
    gateway's Kubernetes objects, is the request [TEnsureGateway]; the cron
    scheduler and the resource watcher are reached through the requests
    [TCron...] and [TWatcher...]. *)

From S2P Require Import Prelude GoStd Api Effects Interp Net Kube FlowCtl Cron.

Local Open Scope string_scope.
Local Open Scope list_scope.
Local Open Scope go_scope.

Definition cronTriggerFinalizer : string := "cron.kubezap.io/scheduler-cleanup".
Definition resourceTriggerFinalizer : string := "resource.kubezap.io/watcher-cleanup".
Definition triggerTypeCron : string := "cron".
Definition triggerTypeResource : string := "resource".
Definition typeWebhook : string := "webhook".
Definition triggerTypeKafka : string := "kafka".
Definition triggerTypeAmqp : string := "amqp".
Definition triggerTypeNats : string := "nats".
Definition triggerTypePlugin : string := "plugin".
Definition integrationTypePlugin : string := "plugin".
Definition webhookGatewayDeploymentName : string := "kubezap-webhook-gateway".
Definition pluginIntegrationRecheckInterval : Z := 30 * Second.

(** [corev1.Event], as far as it is read. *)
Record Event := MkEvent {
  ev_Kind : string;
  ev_Namespace : string;
  ev_Name : string;
  ev_Reason : string;
  ev_Message : string;
  ev_LastTimestamp : option Z;
  ev_EventTime : option Z;
  ev_CreationTimestamp : Z
}.

(** The kinds of object the webhook gateway consists of, in deletion order. *)
Inductive GatewayKind := KDeployment | KService | KServiceAccount | KRole | KRoleBinding | KHPA | KPDB.

Definition kind_name (k : GatewayKind) : string :=
  match k with
  | KDeployment => "Deployment" | KService => "Service" | KServiceAccount => "ServiceAccount"
  | KRole => "Role" | KRoleBinding => "RoleBinding" | KHPA => "HPA" | KPDB => "PodDisruptionBudget"
  end.

Inductive TEv : Type → Type :=
  | TNow : TEv Z
  | TGetTrigger (ns name : string) : TEv (result Trigger)
  | TUpdateTrigger (t : Trigger) : TEv (result Trigger)
  | TPatchTriggerStatus (base t : Trigger) : TEv (result unit)
  | TListTriggers (ns : string) : TEv (result (list Trigger))
  | TGetIntegration (ns name : string) : TEv (result Integration)
  | TListEvents (ns name : string) : TEv (result (list Event))
  | TGetObject (k : GatewayKind) (ns name : string) : TEv (result unit)
  | TDeleteObject (k : GatewayKind) (ns name : string) : TEv (result unit)
  | TEnsureGateway (ns : string) : TEv (result unit)
  | TCronRegister (t : Trigger) : TEv (option gerr)
  | TCronDeregister (key : string) : TEv unit
  | TWatcherRegister (t : Trigger) : TEv unit
  | TWatcherDeregister (key : string) : TEv unit.

(** Whether the scheduler and the watcher are configured. *)
Record TriggerReconciler := MkTriggerReconciler { tr_CronScheduler : bool; tr_ResourceWatcher : bool }.

(** ** Conditions *)

Definition tnow : Prog TEv Z := emit TNow.

Definition at_time (time : option Z) (c : Condition) : Condition :=
  MkCondition (c_Type c) (c_Status c) (c_Reason c) (c_Message c) time (c_ObservedGeneration c).

(** The loop over the existing conditions; the clock is read again when the
    status of the condition changes. *)
Fixpoint replaceCondition (c : Condition) (before after : list Condition) : Prog TEv (list Condition) :=
  match after with
  | [] => Ret (before ++ [c])
  | existing :: after =>
      if (c_Type existing =? c_Type c) then
        if negb (bool_decide (c_Status existing = c_Status c)) then
          let! t := tnow in
          Ret (before ++ at_time (Some t) c :: after)
        else Ret (before ++ at_time (c_LastTransitionTime existing) c :: after)
      else replaceCondition c (before ++ [existing]) after
  end.

Definition setTriggerCondition (l : list Condition) (c : Condition) : Prog TEv (list Condition) :=
  let! t := match c_LastTransitionTime c with Some t => Ret t | None => tnow end in
  replaceCondition (at_time (Some t) c) [] l.

Definition set_TConditions (l : list Condition) (t : Trigger) : Trigger :=
  let s := tg_Status t in
  set_TriggerStatus (MkTriggerStatus l (tst_LastTriggeredTime s) (tst_LastResult s)
                       (tst_CurrentInvocationCount s)) t.

(** ** Credential events *)

Definition conditionTypeCredentialResolutionFailed : string := "CredentialResolutionFailed".
Definition reasonCredentialResolutionFailed : string := "CredentialResolutionFailed".
Definition reasonCredentialResolutionSucceeded : string := "CredentialResolutionSucceeded".
Definition eventInvolvedObjectTriggerKind : string := "Trigger".

Definition eventTimestamp (evt : Event) : Z :=
  match ev_LastTimestamp evt with
  | Some t => t
  | None => match ev_EventTime evt with Some t => t | None => ev_CreationTimestamp evt end
  end.

Definition credentialReason (evt : Event) : bool :=
  (ev_Reason evt =? reasonCredentialResolutionFailed) || (ev_Reason evt =? reasonCredentialResolutionSucceeded).

(** The Trigger to reconcile for an Event. *)
Definition enqueueTriggerForCredentialEvent (evt : Event) : list (string * string) :=
  if negb (ev_Kind evt =? eventInvolvedObjectTriggerKind) then []
  else if negb (credentialReason evt) then []
  else [(ev_Namespace evt, ev_Name evt)].

Definition relevantEvent (trg : Trigger) (evt : Event) : bool :=
  (ev_Kind evt =? eventInvolvedObjectTriggerKind)
  && (ev_Namespace evt =? m_Namespace (tg_Meta trg)) && (ev_Name evt =? m_Name (tg_Meta trg))
  && credentialReason evt.

Definition laterEvent (trg : Trigger) (latest : option Event) (evt : Event) : option Event :=
  if negb (relevantEvent trg evt) then latest
  else match latest with
       | None => Some evt
       | Some l => if (eventTimestamp l <? eventTimestamp evt)%Z then Some evt else latest
       end.

Definition latestEvent (trg : Trigger) (events : list Event) : option Event :=
  fold_left (laterEvent trg) events None.

Section trigger_ctl.
  Context `{KubeLib}.

Definition syncCredentialResolutionCondition (trg : Trigger) : Prog TEv (result Trigger) :=
  let ns := m_Namespace (tg_Meta trg) in
  let name := m_Name (tg_Meta trg) in
  let! l := emit (TListEvents ns name) in
  match l with
  | Err e => Ret (Err (wrapf ("listing credential-resolution events for trigger " +:+ ns +:+ "/" +:+ name +:+ ": ") e))
  | Ok events =>
      match latestEvent trg events with
      | None => Ret (Ok trg)
      | Some latest =>
          let failed := (ev_Reason latest =? reasonCredentialResolutionFailed) in
          let cond := MkCondition conditionTypeCredentialResolutionFailed
            (if failed then ConditionTrue else ConditionFalse)
            (if failed then reasonCredentialResolutionFailed else reasonCredentialResolutionSucceeded)
            (ev_Message latest) None (m_Generation (tg_Meta trg)) in
          let! t := tnow in
          Ret (Ok (set_TConditions (SetStatusCondition t (tst_Conditions (tg_Status trg)) cond) trg))
      end
  end.

(** ** Plugin Triggers *)

Definition conditionTypePluginIntegrationInvalid : string := "PluginIntegrationInvalid".
Definition reasonPluginIntegrationInvalid : string := "PluginIntegrationInvalid".

(** Reason and message, or the error of the read. *)
Definition checkPluginRef (trg : Trigger) : Prog TEv (result (string * string)) :=
  match ts_Plugin (tg_Spec trg) with
  | Some p =>
      let name := pt_IntegrationRef p in
      let ns := m_Namespace (tg_Meta trg) in
      if (name =? "") then
        Ret (Ok ("PluginSpecMissing", "spec.plugin.integrationRef.name is required when type is plugin"))
      else
        let! i := emit (TGetIntegration ns name) in
        match i with
        | Err e =>
            if isNotFound e then
              Ret (Ok ("PluginIntegrationNotFound",
                       "Integration " +:+ Quote name +:+ " not found in namespace " +:+ Quote ns))
            else Ret (Err (wrapf ("getting Integration " +:+ ns +:+ "/" +:+ name +:+ " for plugin Trigger: ") e))
        | Ok integ =>
            if negb (is_Type (in_Spec integ) =? integrationTypePlugin) then
              Ret (Ok ("PluginIntegrationWrongType",
                       "Integration " +:+ Quote name +:+ " has type " +:+ Quote (is_Type (in_Spec integ))
                       +:+ "; a plugin Trigger requires type " +:+ Quote integrationTypePlugin))
            else Ret (Ok ("", ""))
        end
  | None => Ret (Ok ("PluginSpecMissing", "spec.plugin.integrationRef.name is required when type is plugin"))
  end.

Definition syncPluginIntegrationRefCondition (trg : Trigger) : Prog TEv (result (Trigger * string)) :=
  let! x := checkPluginRef trg in
  match x with
  | Err e => Ret (Err e)
  | Ok (reason, msg) =>
      let gen := m_Generation (tg_Meta trg) in
      let cond :=
        if negb (reason =? "")
        then MkCondition conditionTypePluginIntegrationInvalid ConditionTrue reason msg None gen
        else MkCondition conditionTypePluginIntegrationInvalid ConditionFalse "PluginIntegrationValid"
               "Integration reference resolves to a plugin Integration" None gen in
      let! t := tnow in
      Ret (Ok (set_TConditions (SetStatusCondition t (tst_Conditions (tg_Status trg)) cond) trg, msg))
  end.

(** ** The webhook gateway *)

Definition deleteWebhookGatewayResourceIfExists (ns : string) (k : GatewayKind) : Prog TEv (option gerr) :=
  let! g := emit (TGetObject k ns webhookGatewayDeploymentName) in
  match g with
  | Err e => if isNotFound e then Ret None
             else Ret (Some (wrapf ("getting webhook gateway " +:+ kind_name k +:+ ": ") e))
  | Ok _ =>
      let! d := emit (TDeleteObject k ns webhookGatewayDeploymentName) in
      match d with
      | Err e => if isNotFound e then Ret None
                 else Ret (Some (wrapf ("deleting webhook gateway " +:+ kind_name k +:+ ": ") e))
      | Ok _ => Ret None
      end
  end.

Definition activeWebhook (t : Trigger) : bool :=
  (ts_Type (tg_Spec t) =? typeWebhook) && ts_Enabled (tg_Spec t)
  && match m_DeletionTimestamp (tg_Meta t) with None => true | Some _ => false end.

Definition gatewayKinds : list GatewayKind :=
  [KDeployment; KService; KServiceAccount; KRole; KRoleBinding; KHPA; KPDB].

Definition cleanupWebhookGatewayIfUnused (ns : string) : Prog TEv (option gerr) :=
  let! l := emit (TListTriggers ns) in
  match l with
  | Err e => Ret (Some (wrapf ("listing Triggers in namespace " +:+ ns +:+ ": ") e))
  | Ok items =>
      if existsb activeWebhook items then Ret None
      else
        let! r := pfold_ret (λ _ k,
          let! e := deleteWebhookGatewayResourceIfExists ns k in
          match e with Some e => Ret (inl e) | None => Ret (inr tt) end) gatewayKinds tt in
        match r with inl e => Ret (Some e) | inr _ => Ret None end
  end.

(** ** [Reconcile], block by block *)

Definition set_TFinalizers (f : list string) (t : Trigger) : Trigger :=
  MkTrigger (set_Finalizers f (tg_Meta t)) (tg_Spec t) (tg_Status t).

Definition t_Finalizers (t : Trigger) : list string := m_Finalizers (tg_Meta t).

Definition wrapOpt (prefix : string) (e : option gerr) : Result * option gerr :=
  match e with Some e => done_err (wrapf prefix e) | None => done_ok end.

Definition dropTriggerFinalizers (trg : Trigger) : Trigger * bool :=
  let '(trg, needsUpdate) :=
    if containsString (t_Finalizers trg) cronTriggerFinalizer
    then (set_TFinalizers (removeString (t_Finalizers trg) cronTriggerFinalizer) trg, true) else (trg, false) in
  if containsString (t_Finalizers trg) resourceTriggerFinalizer
  then (set_TFinalizers (removeString (t_Finalizers trg) resourceTriggerFinalizer) trg, true)
  else (trg, needsUpdate).

Definition reconcileDeleted (r : TriggerReconciler) (key : string) (trg : Trigger)
    : Prog TEv (Result * option gerr) :=
  let! _ := if tr_CronScheduler r then emit (TCronDeregister key) else Ret tt in
  let! _ := if tr_ResourceWatcher r then emit (TWatcherDeregister key) else Ret tt in
  let '(trg, needsUpdate) := dropTriggerFinalizers trg in
  let! u := if needsUpdate : bool then emit (TUpdateTrigger trg) else Ret (Ok trg) in
  match u with
  | Err e => Ret (done_err e)
  | Ok trg =>
      if (ts_Type (tg_Spec trg) =? typeWebhook) then
        let! e := cleanupWebhookGatewayIfUnused (m_Namespace (tg_Meta trg)) in
        Ret (wrapOpt "cleaning up webhook gateway: " e)
      else Ret done_ok
  end.

(** The Trigger with the finalizer, written if it was missing. *)
Definition ensureFinalizer (f : string) (trg : Trigger) : Prog TEv (result Trigger) :=
  if negb (containsString (t_Finalizers trg) f)
  then emit (TUpdateTrigger (set_TFinalizers (t_Finalizers trg ++ [f]) trg))
  else Ret (Ok trg).

Definition reconcileCron (r : TriggerReconciler) (key : string) (trg : Trigger) : Prog TEv (result Trigger) :=
  if (ts_Type (tg_Spec trg) =? triggerTypeCron) && tr_CronScheduler r then
    match ts_Cron (tg_Spec trg), ts_Enabled (tg_Spec trg) with
    | Some _, true =>
        let! u := ensureFinalizer cronTriggerFinalizer trg in
        match u with
        | Err e => Ret (Err e)
        | Ok trg =>
            let! e := emit (TCronRegister trg) in
            match e with Some e => Ret (Err e) | None => Ret (Ok trg) end
        end
    | _, _ => let! _ := emit (TCronDeregister key) in Ret (Ok trg)
    end
  else Ret (Ok trg).

Definition reconcileGateway (trg : Trigger) : Prog TEv (option gerr) :=
  let ns := m_Namespace (tg_Meta trg) in
  if (ts_Type (tg_Spec trg) =? typeWebhook) then
    if ts_Enabled (tg_Spec trg) then
      let! e := emit (TEnsureGateway ns) in
      match e with
      | Err e => Ret (Some (wrapf "reconciling webhook gateway deployment: " e))
      | Ok _ => Ret None
      end
    else
      let! e := cleanupWebhookGatewayIfUnused ns in
      Ret (wrapf "cleaning up webhook gateway: " <$> e)
  else Ret None.

Definition reconcileWatcher (r : TriggerReconciler) (key : string) (trg : Trigger) : Prog TEv (option gerr) :=
  if (ts_Type (tg_Spec trg) =? triggerTypeResource) && tr_ResourceWatcher r then
    match ts_Resource (tg_Spec trg), ts_Enabled (tg_Spec trg) with
    | Some _, true =>
        let! u := ensureFinalizer resourceTriggerFinalizer trg in
        match u with
        | Err e => Ret (Some e)
        | Ok trg => let! _ := emit (TWatcherRegister trg) in Ret None
        end
    | _, _ => let! _ := emit (TWatcherDeregister key) in Ret None
    end
  else Ret None.

Definition usesBroker (trg : Trigger) : bool :=
  (ts_Type (tg_Spec trg) =? triggerTypeKafka) || (ts_Type (tg_Spec trg) =? triggerTypeAmqp)
  || (ts_Type (tg_Spec trg) =? triggerTypeNats).

(** Status, reason and message of the conditions Accepted and Ready. *)
Definition acceptance (enabled : bool) (pluginRefErr : string) : ConditionStatus * string * string :=
  if negb (pluginRefErr =? "") then (ConditionFalse, reasonPluginIntegrationInvalid, pluginRefErr)
  else if enabled then (ConditionTrue, "Enabled", "Trigger is accepted and active")
  else (ConditionFalse, "Disabled", "Trigger is disabled").

(** From the re-fetched Trigger to the status patch. *)
Definition publishStatus (trg : Trigger) : Prog TEv (Result * option gerr) :=
  let base := trg in
  let! c := if usesBroker trg then syncCredentialResolutionCondition trg else Ret (Ok trg) in
  match c with
  | Err e => Ret (done_err (wrapf "syncing credential-resolution condition: " e))
  | Ok trg =>
      let! p := if (ts_Type (tg_Spec trg) =? triggerTypePlugin) && ts_Enabled (tg_Spec trg)
                then syncPluginIntegrationRefCondition trg else Ret (Ok (trg, "")) in
      match p with
      | Err e => Ret (done_err e)
      | Ok (trg, pluginRefErr) =>
          let trg := if ts_Enabled (tg_Spec trg) then with_LastResult "Accepted" trg else trg in
          let '(status, reason, msg) := acceptance (ts_Enabled (tg_Spec trg)) pluginRefErr in
          let! l := setTriggerCondition (tst_Conditions (tg_Status trg)) (MkCondition "Accepted" status reason msg None 0) in
          let! l := setTriggerCondition l (MkCondition conditionTypeReady status reason msg None 0) in
          let! u := emit (TPatchTriggerStatus base (set_TConditions l trg)) in
          match u with
          | Err e => Ret (done_err (wrapf "updating Trigger status: " e))
          | Ok _ => if negb (pluginRefErr =? "") then Ret (requeue_after pluginIntegrationRecheckInterval)
                    else Ret done_ok
          end
      end
  end.

Definition Trigger_Reconcile (r : TriggerReconciler) (ns name : string) : Prog TEv (Result * option gerr) :=
  let! g := emit (TGetTrigger ns name) in
  match g with
  | Err e => Ret (ignoreNotFound e)
  | Ok trg =>
      let key := ns +:+ "/" +:+ name in
      match m_DeletionTimestamp (tg_Meta trg) with
      | Some _ => reconcileDeleted r key trg
      | None =>
          let! c := reconcileCron r key trg in
          match c with
          | Err e => Ret (done_err e)
          | Ok trg =>
              let! e := reconcileGateway trg in
              match e with
              | Some e => Ret (done_err e)
              | None =>
                  let! e := reconcileWatcher r key trg in
                  match e with
                  | Some e => Ret (done_err e)
                  | None =>
                      let! g := emit (TGetTrigger ns name) in
                      match g with
                      | Err e => Ret (ignoreNotFound e)
                      | Ok trg => publishStatus trg
                      end
                  end
              end
          end
      end
  end.

End trigger_ctl.
