(* ===== verification/TriggerProps.v ===== *)
(** * Properties of the Trigger controller

    One specification of the requests of a reconcile, over a ghost copy of the
    Trigger's finalizers, of the registrations of its cron job and resource
    watch, and of the answers the decisions rest on; one invariant
    ([Trigger_Reconcile_wp]) from which the properties are read off. *)

From S2P Require Import Prelude GoStd Api Effects Interp Net Kube FlowCtl Cron TriggerCtl.

Local Open Scope string_scope.
Local Open Scope list_scope.
Local Open Scope go_scope.

(** ** Credential events *)

(** The latest of the relevant events, the first of them if several are. *)
Definition is_latest (trg : Trigger) (events : list Event) (o : option Event) : Prop :=
  match o with
  | None => ∀ e, e ∈ events → relevantEvent trg e = false
  | Some l => relevantEvent trg l = true ∧
      ∃ before after, events = before ++ l :: after ∧
        (∀ e, e ∈ before → relevantEvent trg e = true → (eventTimestamp e < eventTimestamp l)%Z) ∧
        (∀ e, e ∈ after → relevantEvent trg e = true → (eventTimestamp e <= eventTimestamp l)%Z)
  end.

Lemma latest_snoc trg events o e :
  is_latest trg events o → is_latest trg (events ++ [e]) (laterEvent trg o e).
Proof.
  intros Ho. unfold laterEvent. destruct (relevantEvent trg e) eqn:Hr; simpl.
  - destruct o as [l|].
    + destruct Ho as (Hl & before & after & -> & Hb & Ha). destruct (Z.ltb_spec (eventTimestamp l) (eventTimestamp e)).
      * split; [done|]. exists (before ++ l :: after), []. split; [by rewrite <- app_assoc|].
        split; [|by intros x Hx%not_elem_of_nil]. intros x Hx Hrx.
        apply elem_of_app in Hx as [Hx|[->|Hx]%elem_of_cons]; [specialize (Hb x Hx Hrx); lia|lia|].
        specialize (Ha x Hx Hrx). lia.
      * split; [done|]. exists before, (after ++ [e]). split; [by rewrite <- app_assoc|].
        split; [done|]. intros x [Hx| ->%list_elem_of_singleton]%elem_of_app Hrx; [by apply Ha|lia].
    + split; [done|]. exists events, []. split; [done|].
      split; [|by intros x Hx%not_elem_of_nil]. intros x Hx Hrx. by rewrite (Ho x Hx) in Hrx.
  - destruct o as [l|].
    + destruct Ho as (Hl & before & after & -> & Hb & Ha). split; [done|].
      exists before, (after ++ [e]). split; [by rewrite <- app_assoc|]. split; [done|].
      intros x [Hx| ->%list_elem_of_singleton]%elem_of_app Hrx; [by apply Ha|congruence].
    + intros x [Hx| ->%list_elem_of_singleton]%elem_of_app; auto.
Qed.

Lemma latestEvent_latest trg events : is_latest trg events (latestEvent trg events).
Proof.
  unfold latestEvent. assert (∀ seen o, is_latest trg seen o →
    is_latest trg (seen ++ events) (fold_left (laterEvent trg) events o)) as Hgen.
  { induction events as [|e events IH]; intros seen o Ho; simpl; [by rewrite app_nil_r|].
    rewrite (app_assoc seen [e] events : seen ++ e :: events = _). apply IH. by apply latest_snoc. }
  apply (Hgen [] None). by intros e He%not_elem_of_nil.
Qed.

(** ** The environment of a reconcile *)

Record TGhost := MkTGhost {
  g_fin : list string;
  g_cron : bool;
  g_watch : bool;
  g_integ : option (result Integration);
  g_list : option (list Trigger);
  g_events : option (list Event)
}.

Section trigger_props.
  Context `{KubeLib} `{!KubeLibLaws}.
  Context (r : TriggerReconciler) (ns name : string).

Abbreviation key := (ns +:+ "/" +:+ name).

Definition tview (g : TGhost) (t : Trigger) : Prop :=
  m_Namespace (tg_Meta t) = ns ∧ m_Name (tg_Meta t) = name ∧ t_Finalizers t = g_fin g.

Definition set_fin (f : list string) (g : TGhost) : TGhost :=
  MkTGhost f (g_cron g) (g_watch g) (g_integ g) (g_list g) (g_events g).
Definition set_cron (b : bool) (g : TGhost) : TGhost :=
  MkTGhost (g_fin g) b (g_watch g) (g_integ g) (g_list g) (g_events g).
Definition set_watch (b : bool) (g : TGhost) : TGhost :=
  MkTGhost (g_fin g) (g_cron g) b (g_integ g) (g_list g) (g_events g).
Definition set_integ (x : result Integration) (g : TGhost) : TGhost :=
  MkTGhost (g_fin g) (g_cron g) (g_watch g) (Some x) (g_list g) (g_events g).
Definition set_list (l : list Trigger) (g : TGhost) : TGhost :=
  MkTGhost (g_fin g) (g_cron g) (g_watch g) (g_integ g) (Some l) (g_events g).
Definition set_events (l : list Event) (g : TGhost) : TGhost :=
  MkTGhost (g_fin g) (g_cron g) (g_watch g) (g_integ g) (g_list g) (Some l).

(** What the environment answers: a read returns the Trigger with its current
    finalizers, a failed update may or may not have been applied, a refused
    registration leaves no job or the old one. *)
Definition tanswer {X} (e : TEv X) (g : TGhost) : (X → TGhost → Prop) → Prop :=
  match e in TEv X' return (X' → TGhost → Prop) → Prop with
  | TGetTrigger _ _ => λ Q, (∀ t, tview g t → Q (Ok t) g) ∧ ∀ e, Q (Err e) g
  | TUpdateTrigger t => λ Q,
      let g' := set_fin (t_Finalizers t) g in
      (∀ t', tview g' t' → tg_Spec t' = tg_Spec t → Q (Ok t') g') ∧ ∀ e, Q (Err e) g ∧ Q (Err e) g'
  | TListTriggers _ => λ Q, (∀ l, Q (Ok l) (set_list l g)) ∧ ∀ e, Q (Err e) g
  | TListEvents _ _ => λ Q, (∀ l, Q (Ok l) (set_events l g)) ∧ ∀ e, Q (Err e) g
  | TGetIntegration _ _ => λ Q, ∀ x, Q x (set_integ x g)
  | TCronRegister _ => λ Q, Q None (set_cron true g) ∧ ∀ e, Q (Some e) g ∧ Q (Some e) (set_cron false g)
  | TCronDeregister _ => λ Q, Q tt (set_cron false g)
  | TWatcherRegister _ => λ Q, Q tt (set_watch true g)
  | TWatcherDeregister _ => λ Q, Q tt (set_watch false g)
  | _ => λ Q, ∀ x, Q x g
  end.

Definition trig_spec (demand : ∀ X, TEv X → TGhost → Prop) : Spec TEv TGhost :=
  λ X e g Q, demand X e g ∧ tanswer e g Q.

#[export] Instance trig_spec_mono demand : MonoSpec (trig_spec demand).
Proof.
  intros X e g P Q HPQ [Hd Hs]. split; [done|].
  destruct e; simpl in *; try (by intros; apply HPQ, Hs); try (by apply HPQ);
    repeat match goal with Hs : _ ∧ _ |- _ => destruct Hs as [? Hs] end; repeat split; intros; try (by apply HPQ; auto);
    apply HPQ; by apply Hs.
Qed.

Lemma trig_spec_weaken (d1 d2 : ∀ X, TEv X → TGhost → Prop) {A} (p : Prog TEv A) g Q :
  (∀ X e g, d1 X e g → d2 X e g) → wp (trig_spec d1) p g Q → wp (trig_spec d2) p g Q.
Proof.
  intros Hd. revert g. induction p as [a|X e k IH]; simpl; intros g Hp; [done|].
  destruct Hp as [He Hp]. split; [by apply Hd|]. destruct e; simpl in *; try (by intros; apply IH);
    repeat match goal with Hs : _ ∧ _ |- _ => destruct Hs as [? Hs] end; repeat split; intros; try (by apply IH; auto);
    apply IH; by apply Hp.
Qed.

(** ** The demands *)

(** A job or watch is registered only while its finalizer is stored, and a
    finalizer is removed only when nothing is registered. *)
Definition finalizer_demand (X : Type) (e : TEv X) (g : TGhost) : Prop :=
  match e with
  | TUpdateTrigger t => (g_cron g = true → cronTriggerFinalizer ∈ t_Finalizers t) ∧
                        (g_watch g = true → resourceTriggerFinalizer ∈ t_Finalizers t)
  | TCronRegister t => cronTriggerFinalizer ∈ g_fin g ∧ trigger_path t = key
  | TWatcherRegister t => resourceTriggerFinalizer ∈ g_fin g ∧ trigger_path t = key
  | TCronDeregister k | TWatcherDeregister k => k = key
  | _ => True
  end.

(** An object of the gateway is deleted only when the Triggers of the
    namespace were listed and none of them needs it. *)
Definition cleanup_demand (X : Type) (e : TEv X) (g : TGhost) : Prop :=
  match e with
  | TDeleteObject _ n nm => n = ns ∧ nm = webhookGatewayDeploymentName ∧
      ∃ l, g_list g = Some l ∧ ∀ t, t ∈ l → activeWebhook t = false
  | _ => True
  end.

Definition plugin_ref_ok (g : TGhost) (t : Trigger) : Prop :=
  ∃ p i, ts_Plugin (tg_Spec t) = Some p ∧ pt_IntegrationRef p ≠ "" ∧
    g_integ g = Some (Ok i) ∧ is_Type (in_Spec i) = integrationTypePlugin.

Definition t_ready (g : TGhost) (t : Trigger) : Prop :=
  ts_Enabled (tg_Spec t) = true ∧ (ts_Type (tg_Spec t) = triggerTypePlugin → plugin_ref_ok g t).

Definition has_status (ty : string) (l : list Condition) (P : Prop) : Prop :=
  ∃ c, find_condition ty l = Some c ∧ (c_Status c = ConditionTrue ↔ P).

(** The status patch says Accepted and Ready exactly when the Trigger is. *)
Definition status_demand (X : Type) (e : TEv X) (g : TGhost) : Prop :=
  match e with
  | TPatchTriggerStatus base t =>
      tg_Spec t = tg_Spec base ∧
      has_status conditionTypeReady (tst_Conditions (tg_Status t)) (t_ready g t) ∧
      has_status "Accepted" (tst_Conditions (tg_Status t)) (t_ready g t) ∧
      ∀ ty, ty ∉ [conditionTypeReady; "Accepted"; conditionTypeCredentialResolutionFailed;
                  conditionTypePluginIntegrationInvalid] →
        find_condition ty (tst_Conditions (tg_Status t)) = find_condition ty (tst_Conditions (tg_Status base))
  | _ => True
  end.

(** For a broker Trigger the credential condition is that of its latest event. *)
Definition credential_demand (X : Type) (e : TEv X) (g : TGhost) : Prop :=
  match e with
  | TPatchTriggerStatus base t =>
      usesBroker t = true →
      ∃ events o, g_events g = Some events ∧ is_latest base events o ∧
        match o with
        | None => find_condition conditionTypeCredentialResolutionFailed (tst_Conditions (tg_Status t))
                  = find_condition conditionTypeCredentialResolutionFailed (tst_Conditions (tg_Status base))
        | Some l => has_status conditionTypeCredentialResolutionFailed (tst_Conditions (tg_Status t))
                      (ev_Reason l = reasonCredentialResolutionFailed)
        end
  | _ => True
  end.

Definition all_demands (X : Type) (e : TEv X) (g : TGhost) : Prop :=
  finalizer_demand X e g ∧ cleanup_demand X e g ∧ status_demand X e g ∧ credential_demand X e g.

Abbreviation tspec := (trig_spec all_demands).

(** What is registered is backed by a stored finalizer (and by a scheduler). *)
Definition tinv (g : TGhost) : Prop :=
  (g_cron g = true → tr_CronScheduler r = true ∧ cronTriggerFinalizer ∈ g_fin g) ∧
  (g_watch g = true → tr_ResourceWatcher r = true ∧ resourceTriggerFinalizer ∈ g_fin g).

(** ** Conditions *)

Definition cond_set (l : list Condition) (c : Condition) (l' : list Condition) : Prop :=
  (∃ t, find_condition (c_Type c) l' = Some (at_time t c)) ∧
  ∀ ty, ty ≠ c_Type c → find_condition ty l' = find_condition ty l.

Lemma tspec_now g (Q : Z → TGhost → Prop) : (∀ x, Q x g) → wp tspec tnow g Q.
Proof. intros HQ. split; [done|]. exact HQ. Qed.

Lemma cond_set_at before c t existing after :
  c_Type existing = c_Type c → find_condition (c_Type c) before = None →
  cond_set (before ++ existing :: after) c (before ++ at_time t c :: after).
Proof.
  intros He Hb. unfold cond_set, find_condition in *. split.
  - exists t. rewrite find_by_app, Hb. simpl. by rewrite String.eqb_refl.
  - intros ty Hty. rewrite !find_by_app. simpl. rewrite He.
    by destruct (String.eqb_spec (c_Type c) ty); [subst|].
Qed.

Lemma wp_replaceCondition c l : ∀ before g (Q : list Condition → TGhost → Prop),
  find_condition (c_Type c) before = None → c_LastTransitionTime c ≠ None →
  (∀ l', cond_set (before ++ l) c l' → Q l' g) → wp tspec (replaceCondition c before l) g Q.
Proof.
  induction l as [|x l IH]; intros before g Q Hb Ht HQ; cbn [replaceCondition].
  - apply HQ. unfold cond_set, find_condition in *. rewrite app_nil_r. split.
    + exists (c_LastTransitionTime c). rewrite find_by_app, Hb. simpl. rewrite String.eqb_refl. by destruct c.
    + intros ty Hty. rewrite find_by_app. simpl.
      assert ((c_Type c =? ty) = false) as -> by (apply String.eqb_neq; congruence).
      clear Hb. by destruct (find_by _ before).
  - destruct (String.eqb_spec (c_Type x) (c_Type c)) as [He|He].
    + destruct (negb _); [apply wp_bind; [apply _|]; apply tspec_now; intros t|]; by apply HQ, cond_set_at.
    + apply IH; [|done|by rewrite <- app_assoc].
      unfold find_condition in *. rewrite find_by_app, Hb. simpl. by apply String.eqb_neq in He as ->.
Qed.

Lemma wp_setTriggerCondition l c g (Q : list Condition → TGhost → Prop) :
  (∀ l', cond_set l c l' → Q l' g) → wp tspec (setTriggerCondition l c) g Q.
Proof.
  intros HQ. unfold setTriggerCondition. apply wp_bind; [apply _|].
  assert (∀ t, wp tspec (replaceCondition (at_time (Some t) c) [] l) g Q) as Hr.
  { intros t. apply wp_replaceCondition; [done|done|]. intros l' Hl. apply HQ. exact Hl. }
  destruct (c_LastTransitionTime c); [apply Hr|]. apply tspec_now. exact Hr.
Qed.

(** ** The blocks of a reconcile *)

Lemma wp_ensureFinalizer f t g (Q : result Trigger → TGhost → Prop) :
  tview g t → tinv g →
  (∀ t' g', tview g' t' → tg_Spec t' = tg_Spec t → f ∈ g_fin g' → tinv g' → Q (Ok t') g') →
  (∀ e g', tinv g' → Q (Err e) g') →
  wp tspec (ensureFinalizer f t) g Q.
Proof.
  intros Hv Hi Hok Herr. unfold ensureFinalizer. destruct (containsString _ f) eqn:Hc; simpl.
  - apply containsString_spec in Hc. apply Hok; [done|done| |done]. by destruct Hv as (_ & _ & <-).
  - pose proof Hv as (Hns & Hnm & Hf). destruct Hi as [Hc1 Hc2].
    assert (tinv (set_fin (t_Finalizers t ++ [f]) g)) as Hi'.
    { split; simpl; intros Hg; [destruct (Hc1 Hg)|destruct (Hc2 Hg)]; split; try done; rewrite Hf; set_solver. }
    split; [split; [|done]|]; simpl.
    + split; intros Hg; [destruct (Hc1 Hg)|destruct (Hc2 Hg)]; unfold t_Finalizers in *; simpl; rewrite Hf; set_solver.
    + split; [|intros e; by split; apply Herr]. intros t' Hv' Hs. apply Hok; [done|done| |done]. simpl. set_solver.
Qed.

Lemma wp_deleteResource k g (Q : option gerr → TGhost → Prop) :
  (∃ l, g_list g = Some l ∧ ∀ t, t ∈ l → activeWebhook t = false) →
  (∀ e, Q e g) → wp tspec (deleteWebhookGatewayResourceIfExists ns k) g Q.
Proof.
  intros Hl HQ. unfold deleteWebhookGatewayResourceIfExists. split; [done|]. intros [u|e]; simpl.
  - split; [split; [done|]; split; [by split|done]|]. intros [u'|e']; simpl; [apply HQ|]. destruct (isNotFound e'); apply HQ.
  - destruct (isNotFound e); apply HQ.
Qed.

Lemma wp_cleanup g (Q : option gerr → TGhost → Prop) :
  (∀ e, Q e g) → (∀ e l, Q e (set_list l g)) → wp tspec (cleanupWebhookGatewayIfUnused ns) g Q.
Proof.
  intros Herr HQ. unfold cleanupWebhookGatewayIfUnused. split; [done|]. split; [|intros e; apply Herr].
  intros l. cbv beta. cbn [pbind]. destruct (existsb activeWebhook l) eqn:Ha; [apply HQ|].
  assert (∀ t, t ∈ l → activeWebhook t = false) as Hna.
  { intros t Ht. destruct (activeWebhook t) eqn:E; [|done].
    assert (existsb activeWebhook l = true) by (apply existsb_exists; exists t; by rewrite <- list_elem_of_In). congruence. }
  apply wp_bind; [apply _|]. eapply wp_mono; [apply _| |
    apply (wp_fold_ret _ _ _ (λ _ g', g' = set_list l g) (λ _ g', g' = set_list l g)); [|done]].
  - intros [e|[]] g' ->; apply HQ.
  - intros [] g' k _ ->. apply wp_bind; [apply _|]. apply wp_deleteResource; [by exists l|]. by intros [e|].
Qed.

Definition idle (g : TGhost) : Prop := g_cron g = false ∧ g_watch g = false.

Lemma idle_tinv g : idle g → tinv g.
Proof. intros [Hc Hw]. split; congruence. Qed.

Lemma wp_deregister_all {A} (k : Prog TEv A) g Q :
  tinv g →
  (∀ g', idle g' → g_fin g' = g_fin g → wp tspec k g' Q) →
  wp tspec (let! _ := if tr_CronScheduler r then emit (TCronDeregister key) else Ret tt in
            let! _ := if tr_ResourceWatcher r then emit (TWatcherDeregister key) else Ret tt in k) g Q.
Proof.
  intros [Hc Hw] Hk.
  assert (∀ g', g_cron g' = false → g_watch g' = g_watch g → g_fin g' = g_fin g →
    wp tspec (let! _ := if tr_ResourceWatcher r then emit (TWatcherDeregister key) else Ret tt in k) g' Q) as Hwatch.
  { intros g' Hc' Hw' Hf. destruct (tr_ResourceWatcher r); [split; [by repeat split|]; by apply Hk|].
    apply Hk; [|done]. split; [done|]. rewrite Hw'. destruct (g_watch g); [|done]. by destruct Hw. }
  destruct (tr_CronScheduler r); [split; [by repeat split|]; by apply Hwatch|].
  apply Hwatch; [|done|done]. destruct (g_cron g); [|done]. by destruct Hc.
Qed.

(** Neither of the controller's finalizers. *)
Definition unheld (f : list string) : Prop := cronTriggerFinalizer ∉ f ∧ resourceTriggerFinalizer ∉ f.

Lemma containsString_not l s : containsString l s = false → s ∉ l.
Proof. intros Hc Hs%containsString_spec. congruence. Qed.

Lemma dropTriggerFinalizers_spec t :
  let '(t', b) := dropTriggerFinalizers t in
  m_Namespace (tg_Meta t') = m_Namespace (tg_Meta t) ∧ unheld (t_Finalizers t') ∧ (b = false → t' = t).
Proof.
  unfold dropTriggerFinalizers, unheld. destruct (containsString (t_Finalizers t) cronTriggerFinalizer) eqn:Hc;
    [change (t_Finalizers (set_TFinalizers ?f t)) with f|apply containsString_not in Hc];
    (destruct (containsString _ resourceTriggerFinalizer) eqn:Hr; [|apply containsString_not in Hr]);
    unfold t_Finalizers, set_TFinalizers in *; simpl in *; rewrite ?removeString_spec in *; naive_solver.
Qed.

Definition released (res : Result * option gerr) (g : TGhost) : Prop :=
  idle g ∧ (res.2 = None → unheld (g_fin g)).

Lemma wp_deleted t g : tview g t → tinv g → wp tspec (reconcileDeleted r key t) g released.
Proof.
  intros (Hns & Hnm & Hf) Hi. unfold reconcileDeleted. apply wp_deregister_all; [done|]. intros g' Hidle Hf'.
  pose proof (dropTriggerFinalizers_spec t) as Hd. destruct (dropTriggerFinalizers t) as [t1 b].
  destruct Hd as (Hm & Hu & Hb). rewrite Hns in Hm.
  assert (∀ t2 g', idle g' → unheld (g_fin g') → m_Namespace (tg_Meta t2) = ns → wp tspec
    (if (ts_Type (tg_Spec t2) =? typeWebhook)
     then let! e := cleanupWebhookGatewayIfUnused (m_Namespace (tg_Meta t2)) in Ret (wrapOpt "cleaning up webhook gateway: " e)
     else Ret done_ok) g' released) as Htail.
  { intros t2 g2 Hi2 Hu2 ->. destruct (_ =? _); [|by split]. apply wp_bind; [apply _|].
    apply wp_cleanup; intros; by split. }
  destruct b; [|apply Htail; [done| |done]; rewrite Hf', <- Hf; by rewrite <- (Hb eq_refl)]. split; [|split].
  - destruct Hidle as [Hc Hw]. split; [simpl; split; congruence|done].
  - intros t2 (Hn2 & _ & _) _. by apply Htail.
  - intros e. by repeat split; try apply Hidle.
Qed.

Lemma tview_path t g : tview g t → trigger_path t = key.
Proof. intros (Hns & Hnm & _). unfold trigger_path. by rewrite Hns, Hnm. Qed.

Lemma wp_cron t g (Q : result Trigger → TGhost → Prop) :
  tview g t → tinv g →
  (∀ t' g', tview g' t' → tg_Spec t' = tg_Spec t → tinv g' → Q (Ok t') g') →
  (∀ e g', tinv g' → Q (Err e) g') →
  wp tspec (reconcileCron r key t) g Q.
Proof.
  intros Hv Hi Hok Herr. unfold reconcileCron.
  destruct (_ && _) eqn:Hc; [apply andb_true_iff in Hc as [_ Hc]|by apply Hok].
  assert (wp tspec (let! _ := emit (TCronDeregister key) in Ret (Ok t)) g Q) as Hdereg.
  { split; [by repeat split|]. apply Hok; [done|done|]. destruct Hi as [_ Hw]. by split. }
  destruct (ts_Cron (tg_Spec t)), (ts_Enabled (tg_Spec t)); try done.
  apply wp_bind; [apply _|]. apply wp_ensureFinalizer; [done|done| |done].
  intros t' g' Hv' Hs Hfin [Hic Hiw]. split; [split; [|done]|].
  - split; [done|by apply (tview_path _ g')].
  - split; [by apply Hok|]. intros e. by split; apply Herr.
Qed.

Lemma wp_gateway t g (Q : option gerr → TGhost → Prop) :
  tview g t → tinv g →
  (∀ e g', tinv g' → g_fin g' = g_fin g → Q e g') → wp tspec (reconcileGateway t) g Q.
Proof.
  intros (Hns & _) Hi HQ. unfold reconcileGateway. rewrite Hns.
  destruct (_ =? _); [|by apply HQ]. destruct (ts_Enabled _).
  - split; [done|]. intros [u|e]; by apply HQ.
  - apply wp_bind; [apply _|]. apply wp_cleanup; intros; by apply HQ.
Qed.

Lemma wp_watcher t g (Q : option gerr → TGhost → Prop) :
  tview g t → tinv g → (∀ e g', tinv g' → Q e g') → wp tspec (reconcileWatcher r key t) g Q.
Proof.
  intros Hv Hi HQ. unfold reconcileWatcher.
  destruct (_ && _) eqn:Hc; [apply andb_true_iff in Hc as [_ Hc]|by apply HQ].
  assert (wp tspec (let! _ := emit (TWatcherDeregister key) in Ret None) g Q) as Hdereg.
  { split; [by repeat split|]. apply HQ. destruct Hi as [Hic _]. by split. }
  destruct (ts_Resource (tg_Spec t)), (ts_Enabled (tg_Spec t)); try done.
  apply wp_bind; [apply _|]. apply wp_ensureFinalizer; [done|done| |by intros; apply HQ].
  intros t' g' Hv' Hs Hfin [Hic Hiw]. split; [split; [|done]|].
  - split; [done|by apply (tview_path _ g')].
  - apply HQ. by split.
Qed.

(** ** The status *)

Definition conds (t : Trigger) : list Condition := tst_Conditions (tg_Status t).

(** What the ghost state keeps while the status is computed. *)
Definition same_reg (g g' : TGhost) : Prop := tinv g → tinv g'.

Definition derived : list string :=
  [conditionTypeCredentialResolutionFailed; conditionTypePluginIntegrationInvalid].

(** [t] is [base] with the derived conditions brought up to date. *)
Definition synced (base t : Trigger) (g : TGhost) : Prop :=
  tg_Spec t = tg_Spec base ∧ tg_Meta t = tg_Meta base ∧
  (∀ ty, ty ∉ derived → find_condition ty (conds t) = find_condition ty (conds base)) ∧
  credential_demand (result unit) (TPatchTriggerStatus base t) g.

Lemma wp_checkPluginRef t g (Q : result (string * string) → TGhost → Prop) :
  (∀ e g', same_reg g g' → Q (Err e) g') →
  (∀ reason msg g', same_reg g g' → g_events g' = g_events g →
     (reason = "" ↔ plugin_ref_ok g' t) → (msg = "" ↔ plugin_ref_ok g' t) → Q (Ok (reason, msg)) g') →
  wp tspec (checkPluginRef t) g Q.
Proof.
  intros Herr Hok. unfold checkPluginRef.
  assert (∀ reason msg g', same_reg g g' → g_events g' = g_events g → reason ≠ "" → msg ≠ "" →
    ¬ plugin_ref_ok g' t → Q (Ok (reason, msg)) g') as Hbad by (intros; apply Hok; tauto).
  destruct (ts_Plugin (tg_Spec t)) as [p|] eqn:Hp.
  2:{ apply Hbad; try by (try intros ?). intros (p & i & Hp' & _). congruence. }
  destruct (String.eqb_spec (pt_IntegrationRef p) "") as [Hn|Hn].
  { apply Hbad; try by (try intros ?). intros (p' & i & Hp' & Hn' & _). congruence. }
  split; [done|]. intros [i|e]; cbn [pbind wp].
  - destruct (String.eqb_spec (is_Type (in_Spec i)) integrationTypePlugin) as [Hi|Hi]; simpl.
    + assert (plugin_ref_ok (set_integ (Ok i) g) t) by (by exists p, i). apply Hok; [by intros ?|done|by split|by split].
    + apply Hbad; try by (try intros ?). intros (p' & i' & _ & _ & Hi1 & Hi'). simplify_eq/=.
  - destruct (isNotFound e); [|apply Herr; by intros ?].
    apply Hbad; try by (try intros ?). intros (p' & i' & _ & _ & Hi' & _). simplify_eq/=.
Qed.

Lemma has_status_ext ty l l' P : find_condition ty l = find_condition ty l' → has_status ty l P → has_status ty l' P.
Proof. intros He (c & Hc & Hs). exists c. by rewrite <- He. Qed.

Lemma credential_demand_ext base t t' g g' :
  tg_Spec t' = tg_Spec t → g_events g' = g_events g →
  find_condition conditionTypeCredentialResolutionFailed (conds t')
  = find_condition conditionTypeCredentialResolutionFailed (conds t) →
  credential_demand (result unit) (TPatchTriggerStatus base t) g →
  credential_demand (result unit) (TPatchTriggerStatus base t') g'.
Proof.
  unfold credential_demand, usesBroker, conds. intros -> Hev Hf Hd Hb.
  destruct (Hd Hb) as (events & o & Hg & Hl & Ho). exists events, o. split; [congruence|]. split; [done|].
  destruct o; [by eapply has_status_ext|congruence].
Qed.

Lemma wp_syncCredential t g (Q : result Trigger → TGhost → Prop) :
  (∀ e g', same_reg g g' → Q (Err e) g') →
  (∀ t' g', same_reg g g' → synced t t' g' → Q (Ok t') g') →
  wp tspec (if usesBroker t then syncCredentialResolutionCondition t else Ret (Ok t)) g Q.
Proof.
  intros Herr Hok. destruct (usesBroker t) eqn:Hb.
  2:{ apply Hok; [by intros ?|]. repeat split. intros Hb'. congruence. }
  unfold syncCredentialResolutionCondition. split; [done|]. split; [|intros e; apply Herr; by intros ?].
  intros events. cbn [pbind]. pose proof (latestEvent_latest t events) as Hl.
  destruct (latestEvent t events) as [l|] eqn:Hle.
  2:{ apply Hok; [by intros ?|]. split; [done|]. split; [done|]. split; [done|]. intros _. by exists events, None. }
  apply wp_bind; [apply _|]. apply tspec_now. intros now. apply Hok; [by intros ?|].
  set (c := MkCondition _ _ _ _ _ _).
  assert (c_Type c = conditionTypeCredentialResolutionFailed) as Hct by done.
  split; [done|]. split; [done|]. split.
  - intros ty Hty. apply SetStatusCondition_other. rewrite Hct. set_solver.
  - intros _. exists events, (Some l). split; [done|]. split; [done|].
    destruct (SetStatusCondition_same now (conds t) c) as [tt Hs]. eexists. split; [exact Hs|]. simpl.
    destruct (String.eqb_spec (ev_Reason l) reasonCredentialResolutionFailed); by split.
Qed.

Lemma wp_syncPlugin base t g (Q : result (Trigger * string) → TGhost → Prop) :
  synced base t g →
  (∀ e g', same_reg g g' → Q (Err e) g') →
  (∀ t' msg g', same_reg g g' → synced base t' g' →
     (ts_Enabled (tg_Spec t') = true → (msg = "" ↔ (ts_Type (tg_Spec t') = triggerTypePlugin → plugin_ref_ok g' t'))) →
     (ts_Enabled (tg_Spec t') = false → msg = "") → Q (Ok (t', msg)) g') →
  wp tspec (if (ts_Type (tg_Spec t) =? triggerTypePlugin) && ts_Enabled (tg_Spec t)
            then syncPluginIntegrationRefCondition t else Ret (Ok (t, ""))) g Q.
Proof.
  intros Hsy Herr Hok. destruct (_ && _) eqn:Hc.
  2:{ apply Hok; [by intros ?|done| |done]. intros Hen. rewrite Hen, andb_true_r in Hc. bool_hyps. tauto. }
  bool_hyps. unfold syncPluginIntegrationRefCondition. apply wp_bind; [apply _|].
  apply wp_checkPluginRef; [by intros; apply Herr|]. intros reason msg g' Hsr Hev Hr Hm.
  apply wp_bind; [apply _|]. apply tspec_now. intros now. set (c := if negb (reason =? "") then _ else _).
  assert (c_Type c = conditionTypePluginIntegrationInvalid) as Hct by (unfold c; by destruct (_ =? _)).
  destruct Hsy as (Hs1 & Hs2 & Hs3 & Hs4). apply Hok; [done| |tauto|simpl; congruence].
  split; [done|]. split; [done|]. split.
  - intros ty Hty. rewrite <- Hs3 by done. apply SetStatusCondition_other. rewrite Hct. set_solver.
  - revert Hs4. apply credential_demand_ext; [done|done|]. apply SetStatusCondition_other. by rewrite Hct.
Qed.

Lemma wp_publish t g : tinv g → wp tspec (publishStatus t) g (λ _, tinv).
Proof.
  intros Hi. unfold publishStatus. apply wp_bind; [apply _|].
  apply wp_syncCredential; [intros e g' Hsr; by apply Hsr|]. intros t1 g1 Hsr1 Hsy1.
  apply wp_bind; [apply _|]. apply (wp_syncPlugin t); [done|intros e g' Hsr; by apply Hsr, Hsr1|].
  intros t2 msg g2 Hsr2 Hsy2 Hmsg Hdis. cbv beta iota zeta.
  set (t3 := if ts_Enabled (tg_Spec t2) then _ else _).
  assert (tg_Spec t3 = tg_Spec t2 ∧ conds t3 = conds t2) as [Hs3 Hc3] by (unfold t3; by destruct (ts_Enabled _)).
  destruct (acceptance (ts_Enabled (tg_Spec t3)) msg) as [[status reason] m] eqn:Hacc.
  assert (status = ConditionTrue ↔ t_ready g2 t3) as Hready.
  { unfold acceptance in Hacc. unfold t_ready. unfold plugin_ref_ok in *. rewrite Hs3 in *.
    destruct (ts_Enabled (tg_Spec t2)); destruct (String.eqb_spec msg ""); simplify_eq/=; naive_solver. }
  apply wp_bind; [apply _|]. apply wp_setTriggerCondition. intros l1 [[tm1 Ha1] Ho1].
  apply wp_bind; [apply _|]. apply wp_setTriggerCondition. intros l2 [[tm2 Ha2] Ho2]. simpl in Ha1, Ho1, Ha2, Ho2.
  destruct Hsy2 as (H1 & H2 & H3 & H4). split.
  - split; [done|]. split; [done|]. split.
    + split; [by etrans; [exact Hs3|]|]. split; [by eexists|]. split.
      { eexists. split; [by rewrite Ho2|done]. }
      intros ty Hty. simpl. rewrite Ho2, Ho1 by set_solver. fold (conds t3). rewrite Hc3. apply H3. unfold derived. set_solver.
    + revert H4. apply credential_demand_ext; [done|done|]. unfold conds at 1. simpl. rewrite Ho2, Ho1 by done. fold (conds t3). by rewrite Hc3.
  - intros [u|e]; simpl; [destruct (negb _)|]; by apply Hsr2, Hsr1.
Qed.

Lemma Trigger_Reconcile_wp g : tinv g → wp tspec (Trigger_Reconcile r ns name) g (λ _, tinv).
Proof.
  intros Hi. unfold Trigger_Reconcile. split; [done|]. split; [|intros e; done].
  intros t Hv. cbn [pbind]. destruct (m_DeletionTimestamp _).
  { eapply wp_mono; [apply _| |by apply wp_deleted]. intros res g' [Hr _]. by apply idle_tinv. }
  apply wp_bind; [apply _|]. apply wp_cron; [done|done| |done]. intros t1 g1 Hv1 _ Hi1.
  apply wp_bind; [apply _|]. apply wp_gateway; [done|done|]. intros [e|] g2 Hi2 Hf2; [done|].
  apply wp_bind; [apply _|]. apply wp_watcher; [|done|].
  { destruct Hv1 as (? & ? & ?). split; [done|]. split; [done|]. congruence. }
  intros [e|] g3 Hi3; [done|]. split; [done|]. split; [|intros e; done]. intros t4 _. by apply wp_publish.
Qed.

(** C35: a reconcile of a Trigger registers a cron job or a resource watch only
    while the matching finalizer is stored on the Trigger, never writes a
    finalizer list without it while something is registered, and deregisters
    only under the Trigger's own key; so after any reconcile, whatever failed
    in it, every registration is still backed by its finalizer. *)
Theorem Trigger_Reconcile_finalizers g :
  tinv g → wp (trig_spec finalizer_demand) (Trigger_Reconcile r ns name) g (λ _, tinv).
Proof.
  intros Hi. eapply trig_spec_weaken; [|by apply Trigger_Reconcile_wp]. by intros X e g' (Hd & _).
Qed.

(** The reconcile of a Trigger being deleted leaves neither a cron job nor a
    resource watch registered, whatever fails, and when it succeeds neither of
    the controller's finalizers is left on the Trigger. *)
Theorem Trigger_deletion_releases t g :
  tview g t → tinv g → wp tspec (reconcileDeleted r key t) g released.
Proof. apply wp_deleted. Qed.

(** The status a reconcile publishes says Ready and Accepted exactly when the
    Trigger is enabled and, for a plugin Trigger, its reference was just read
    as an Integration of type plugin; for a broker Trigger the credential
    condition is that of the latest credential event of this Trigger; and every
    condition of another type is left as it was. *)
Theorem Trigger_Reconcile_status g :
  tinv g →
  wp (trig_spec (λ X e g, status_demand X e g ∧ credential_demand X e g)) (Trigger_Reconcile r ns name) g (λ _ _, True).
Proof.
  intros Hi. eapply trig_spec_weaken; [|eapply wp_mono; [apply _| |by apply Trigger_Reconcile_wp]; done].
  by intros X e g' (_ & _ & Hd).
Qed.

(** An object of the webhook gateway is deleted only in the Trigger's own
    namespace, under the gateway's name, and after the Triggers of the
    namespace were listed with no enabled webhook Trigger that is not being
    deleted among them. *)
Theorem gateway_cleanup_only_unused g :
  tinv g → wp (trig_spec cleanup_demand) (Trigger_Reconcile r ns name) g (λ _ _, True).
Proof.
  intros Hi. eapply trig_spec_weaken; [|eapply wp_mono; [apply _| |by apply Trigger_Reconcile_wp]; done].
  by intros X e g' (_ & Hd & _).
Qed.

End trigger_props.
