(* ===== verification/BrokerReport.v ===== *)
(** * From a gateway's credential failures to the Trigger's condition

    The broker gateways may only record events on a Trigger
    ([recordCredentialFailure], [recordCredentialSuccess]); the Trigger
    controller turns the latest of them into a status condition
    ([syncCredentialResolutionCondition]).  The two halves together. *)

From S2P Require Import Prelude SecretIndex GoStd Api Net Effects Interp Kube WebhookWatcher BrokerWatcher BrokerProps TriggerCtl TriggerProps.

Local Open Scope string_scope.
Local Open Scope list_scope.
Local Open Scope go_scope.

(** The reason of the last event recorded on a Trigger. *)
Definition lastReason (k : NamespacedName) (log : Log) : option string :=
  fold_left (λ acc '(k', r), if decide (k' = k) then Some r else acc) log None.

Lemma lastReason_snoc k log k' r :
  lastReason k (log ++ [(k', r)]) = if decide (k' = k) then Some r else lastReason k log.
Proof. unfold lastReason. by rewrite fold_left_app. Qed.

(** An Event about the credentials of a Trigger. *)
Definition concerns (trg : Trigger) (e : Event) : Prop :=
  ev_Kind e = "Trigger" ∧ ev_Namespace e = m_Namespace (tg_Meta trg) ∧ ev_Name e = m_Name (tg_Meta trg) ∧
  (ev_Reason e = "CredentialResolutionFailed" ∨ ev_Reason e = "CredentialResolutionSucceeded").

(** The Events of the API server that a log stands for, in any order, merged
    and mixed with others: none about the credentials of the Trigger if none was
    recorded; else the last one recorded is there, and every other one about
    them has an earlier last timestamp. *)
Definition reflects (trg : Trigger) (log : Log) (events : list Event) : Prop :=
  match lastReason (trigger_key trg) log with
  | None => ∀ e, e ∈ events → ¬ concerns trg e
  | Some r => ∃ e t, e ∈ events ∧ concerns trg e ∧ ev_Reason e = r ∧ ev_LastTimestamp e = Some t ∧
      ∀ e', e' ∈ events → concerns trg e' → e' ≠ e → ∃ t', ev_LastTimestamp e' = Some t' ∧ (t' < t)%Z
  end.

Lemma relevantEvent_concerns trg e : relevantEvent trg e = true ↔ concerns trg e.
Proof.
  unfold relevantEvent, concerns, credentialReason. rewrite !andb_true_iff, orb_true_iff, !String.eqb_eq. tauto.
Qed.

Lemma latest_reflects trg log events :
  reflects trg log events → ev_Reason <$> latestEvent trg events = lastReason (trigger_key trg) log.
Proof.
  unfold reflects. pose proof (latestEvent_latest trg events) as Hl.
  destruct (lastReason _ log) as [r|], (latestEvent trg events) as [l|]; simpl in *.
  - intros (e & t & He & Hr & <- & Ht & Hmax). destruct Hl as (Hlr & before & after & -> & Hb & Ha). f_equal.
    apply relevantEvent_concerns in Hr. assert (eventTimestamp e = t) as Het by (unfold eventTimestamp; by rewrite Ht).
    assert (¬ (eventTimestamp l < eventTimestamp e)%Z) as Hge.
    { apply elem_of_app in He as [He|[->|He]%elem_of_cons]; [specialize (Hb e He Hr); lia|lia|specialize (Ha e He Hr); lia]. }
    assert (¬ (l ≠ e)) as Hne.
    { intros Hne. apply relevantEvent_concerns in Hlr. destruct (Hmax l ltac:(set_solver) Hlr Hne) as (t' & Ht' & Hlt).
      unfold eventTimestamp in Hge at 1. rewrite Ht' in Hge. lia. }
    destruct (String.eq_dec (ev_Reason l) (ev_Reason e)) as [|Hx]; [done|]. exfalso. apply Hne. by intros ->.
  - intros (e & t & He & Hr & _). apply relevantEvent_concerns in Hr. by rewrite (Hl e He) in Hr.
  - intros Hnone. destruct Hl as (Hlr & before & after & -> & _). apply relevantEvent_concerns in Hlr.
    destruct (Hnone l); [set_solver|done].
  - done.
Qed.

(** The Trigger an informer deletion is about. *)
Definition deletes (obj : InformerObj) : option NamespacedName :=
  match obj with
  | ObjTrigger t => Some (trigger_key t)
  | ObjTombstone (Some t) => Some (trigger_key t)
  | _ => None
  end.

Section report.
  Context `{B : Broker} `{!BrokerLaws B}.
  Implicit Types (w : Watcher b_Conf).

(** The log tells what the watcher remembers. *)
Definition reported (k : NamespacedName) w (log : Log) : Prop :=
  match lastReason k log with
  | None => w_credentialFailed w !! k ≠ Some true
  | Some r => w_credentialFailed w !! k = Some (r =? credentialResolutionFailedReason)
              ∧ (r = credentialResolutionFailedReason ∨ r = credentialResolutionSucceededReason)
  end.

Lemma reported_true k w log :
  reported k w log → (lastReason k log = Some credentialResolutionFailedReason ↔ w_credentialFailed w !! k = Some true).
Proof.
  unfold reported. destruct (lastReason k log) as [r|]; [|naive_solver].
  intros [-> [-> | ->]]; cbn; split; done.
Qed.

(** The event recorded by a reconciliation, if any, and the state after it. *)
Lemma reconciled_report trigger w w' l :
  reconciled trigger w w' l →
  (l = [(trigger_key trigger, credentialResolutionFailedReason)] ∧ w_credentialFailed w' !! trigger_key trigger = Some true)
  ∨ (l = recovery trigger w ∧ w_credentialFailed w' !! trigger_key trigger = Some false)
  ∨ (l = [] ∧ w_credentialFailed w' !! trigger_key trigger = w_credentialFailed w !! trigger_key trigger).
Proof.
  intros Hr. destruct Hr as [Hw|t Hw|t refs Hw Ho|t creds sub Hw Ho Hs Hm|t creds w' e Hw Ho Hst].
  - right; right. split; [done|]. by destruct (stop_frame (trigger_key trigger) (dropped trigger w)) as (_ & _ & _ & ->).
  - left. split; [done|]. apply lookup_insert_eq.
  - left. split; [done|]. apply lookup_insert_eq.
  - right; left. split; [done|]. apply lookup_insert_eq.
  - right; left. split; [done|]. destruct (started_matches _ _ _ _ _ _ Hst) as [-> _]. apply lookup_insert_eq.
Qed.

Lemma reported_step k trigger w w' s l :
  watcher_ok w → reported k w s → reconciled trigger w w' l → reported k w' (s ++ l).
Proof.
  intros Hok Hrep Hr. destruct (decide (k = trigger_key trigger)) as [->|Hne].
  - unfold reported in *. destruct (reconciled_report _ _ _ _ Hr) as [[-> ->]|[[-> Hf]|[-> ->]]].
    + rewrite lastReason_snoc, decide_True by done. auto.
    + unfold recovery. destruct (lastReason _ s) as [r|] eqn:Hl.
      * destruct Hrep as [Hw [-> | ->]]; rewrite Hw; simpl.
        -- rewrite lastReason_snoc, decide_True by done. auto.
        -- rewrite app_nil_r, Hl. auto.
      * destruct (w_credentialFailed w !! trigger_key trigger) as [[]|]; [done| |]; simpl; rewrite app_nil_r, Hl, Hf; done.
    + by rewrite app_nil_r.
  - destruct (reconciled_frame _ _ _ _ (wo_contexts _ Hok) Hr) as (_ & _ & _ & _ & _ & Hrest).
    destruct (Hrest k Hne) as [_ Hf].
    assert (lastReason k (s ++ l) = lastReason k s) as Hl.
    { destruct (reconciled_report _ _ _ _ Hr) as [[-> _]|[[-> _]|[-> _]]]; [| |by rewrite app_nil_r].
      - by rewrite lastReason_snoc, decide_False.
      - unfold recovery. destruct (default false _); [|by rewrite app_nil_r]. by rewrite lastReason_snoc, decide_False. }
    unfold reported. by rewrite Hl, Hf.
Qed.

Lemma reported_delete k obj w s :
  deletes obj ≠ Some k → reported k w s → reported k (onTriggerDelete obj w) s.
Proof.
  intros Hne Hrep. assert (w_credentialFailed (onTriggerDelete obj w) !! k = w_credentialFailed w !! k) as Hf.
  { destruct obj as [t|[t|]|]; simpl in *; try done;
      (match goal with |- context[stopSubscription ?kk ?w1] => destruct (stop_frame kk w1) as (_ & _ & _ & ->) end);
      cbn; rewrite lookup_delete_ne; congruence. }
  unfold reported. by rewrite Hf.
Qed.


End report.
