(* ===== verification/Cli.v ===== *)
(** * The command line client

    [internal/cli] and [cmd/kubezap]: the listings of FlowRuns, Triggers, Flows and
    Integrations, the live views, and how the namespace of a command is chosen.
    What is printed is a request, as a table of cells, a line, or objects given to
    the JSON or YAML encoder; column alignment is left to [text/tabwriter]. *)

From stdpp Require Import sorting.
From S2P Require Import Prelude GoStd Runes Api Effects.

Local Open Scope string_scope.
Local Open Scope list_scope.
Local Open Scope go_scope.

(** ** Output ([output.go]) *)

Inductive Format := FormatTable | FormatJSON | FormatYAML.

Definition ParseFormat (s : string) : result Format :=
  let l := ToLower s in
  if (l =? "table") || (l =? "") then Ok FormatTable
  else if (l =? "json") then Ok FormatJSON
  else if (l =? "yaml") then Ok FormatYAML
  else Err (errorf ("unknown output format " +:+ Quote s +:+ ": must be table, json, or yaml")).

(** Formatting of floating-point seconds with a number of decimals, and of a time
    in UTC; [sort.Slice], newest first. *)
Class CliLib := {
  FormatSeconds : nat → Z → string;
  FormatUTC : Z → string;
  sortNewest : list FlowRun → list FlowRun
}.

Definition createdAt (fr : FlowRun) : Z := m_CreationTimestamp (fr_Meta fr).

Class CliLibLaws `{CliLib} : Prop := {
  sortNewest_perm l : sortNewest l ≡ₚ l;
  sortNewest_sorted l : StronglySorted (λ a b, (createdAt b <= createdAt a)%Z) (sortNewest l)
}.

Inductive Objects := OFlowRuns (l : list FlowRun) | OFlowRun (fr : FlowRun) | OTriggers (l : list Trigger)
  | OFlows (l : list Flow) | OIntegrations (l : list Integration).

Inductive Printed := PTable (headers : list string) (rows : list (list string)) | PLine (s : string)
  | PJSON (o : Objects) | PYAML (o : Objects).

(** What a watch delivers: the context is done, the channel is closed, an error
    event, a FlowRun (whatever happened to it), or another object. *)
Inductive TimelineEvent := WDone | WClosed | WError | WFlowRun (fr : FlowRun) | WOther.

Inductive CliEv : Type → Type :=
  | CNow : CliEv Z
  (** The loading rules of the kubeconfig: the REST configuration, the namespace
      of the active context, the client. *)
  | CClientConfig : CliEv (result unit)
  | CContextNamespace : CliEv (result string)
  | CNewClient : CliEv (result unit)
  (** An empty namespace is all of them; an empty trigger is no label selector. *)
  | CListFlowRuns (namespace trigger : string) : CliEv (result (list FlowRun))
  | CGetFlowRun (namespace name : string) : CliEv (result FlowRun)
  | CListTriggers (namespace : string) : CliEv (result (list Trigger))
  | CListFlows (namespace : string) : CliEv (result (list Flow))
  | CListIntegrations (namespace : string) : CliEv (result (list Integration))
  (** Ready and total replicas; names and images of the containers. *)
  | CGetDeployment (namespace name : string) : CliEv (result ((Z * Z) * list (string * string)))
  (** The status of a GET, if the request could be built and answered. *)
  | CHealthz (url : string) : CliEv (option Z)
  (** The next tick, or the end of the context. *)
  | CTick : CliEv bool
  | CWatchable : CliEv bool
  | CWatch (namespace : string) (name : option string) : CliEv (result unit)
  | CNextEvent : CliEv TimelineEvent
  | CPrint (p : Printed) : CliEv unit.

Section cli.
  Context `{CliLib}.

Definition print (p : Printed) : Prog CliEv unit := emit (CPrint p).

Definition tab : string := String (ascii_of_nat 9) "".

Definition Dash (s : string) : string := if (s =? "") then "-" else s.

Definition FmtDuration (d : Z) : string :=
  let d := if (d <? 0)%Z then wrap64 (- d) else d in
  if (d <? Second)%Z then "just now"
  else if (d <? Minute)%Z then Itoa (d / Second) +:+ "s"
  else if (d <? Hour)%Z then Itoa (d / Minute) +:+ "m"
  else if (d <? 24 * Hour)%Z then Itoa (d / Hour) +:+ "h"
  else Itoa (d / Hour / 24) +:+ "d".

Definition FmtAge (t : Z) : Prog CliEv string :=
  if (t =? 0)%Z then Ret "-"
  else let! now := emit CNow in Ret (FmtDuration (now - t)).

Definition FmtStepDuration (start stop : option Z) : string :=
  match start, stop with
  | Some s, Some e =>
      let d := (e - s)%Z in
      if (d <? Millisecond)%Z then Itoa (Z.quot d Microsecond) +:+ "µs"
      else if (d <? Second)%Z then Itoa (Z.quot d Millisecond) +:+ "ms"
      else FormatSeconds 2 d +:+ "s"
  | _, _ => "-"
  end.

(** The common end of the list commands: encode the items, or print the table. *)
Definition printAs (format : Format) (o : Objects) (table : Prog CliEv unit) : Prog CliEv (option gerr) :=
  match format with
  | FormatJSON => let! _ := print (PJSON o) in Ret None
  | FormatYAML => let! _ := print (PYAML o) in Ret None
  | FormatTable => let! _ := table in Ret None
  end.

(** ** The namespace of a command ([client.go], [cmd/kubezap/main.go]) *)

Definition defaultNamespace : string := "default".

Definition resolveNamespace (allNamespaces : bool) (namespaceFlag : string) : string :=
  if allNamespaces then "" else namespaceFlag.

Definition BuildClient (namespaceFlagValue : string) : Prog CliEv (result string) :=
  let! cfg := emit CClientConfig in
  match cfg with
  | Err e => Ret (Err (wrapf "building REST config: " e))
  | Ok _ =>
      let! namespace :=
        if (namespaceFlagValue =? "")
        then let! r := emit CContextNamespace in
             let ns := match r with Err _ => defaultNamespace | Ok ns => ns end in
             Ret (if (ns =? "") then defaultNamespace else ns)
        else Ret namespaceFlagValue in
      let! c := emit CNewClient in
      Ret (match c with Err e => Err (wrapf "creating Kubernetes client: " e) | Ok _ => Ok namespace end)
  end.

(** ** FlowRun history ([history.go]) *)

Record ListFlowRunOpts := MkListOpts {
  lo_TriggerFilter : string;
  lo_FlowFilter : string;
  lo_PhaseFilter : string;
  lo_Since : Z;
  lo_Format : Format
}.

Definition triggerNameOf (fr : FlowRun) : string :=
  match frs_TriggerRef (fr_Spec fr) with Some t => tr_Name t | None => "-" end.

Definition flowRunDuration (fr : FlowRun) : Prog CliEv string :=
  match fst_StartTime (fr_Status fr) with
  | None => Ret "-"
  | Some start =>
      match fst_CompletionTime (fr_Status fr) with
      | Some done => Ret (FmtStepDuration (Some start) (Some done))
      | None => let! now := emit CNow in Ret (FmtDuration (now - start))
      end
  end.

Definition flowRunHeaders : list string := ["NAME"; "TRIGGER"; "FLOW"; "PHASE"; "DURATION"; "AGE"].

Definition flowRunRow (fr : FlowRun) : Prog CliEv (list string) :=
  let! dur := flowRunDuration fr in
  let! age := FmtAge (createdAt fr) in
  Ret [m_Name (fr_Meta fr); triggerNameOf fr; Dash (frs_FlowRef (fr_Spec fr)); Dash (phase_string (fst_Phase (fr_Status fr))); dur; age].

Definition printFlowRunTable (items : list FlowRun) : Prog CliEv unit :=
  let! rows := pmap flowRunRow items in print (PTable flowRunHeaders rows).

(** The filters applied by the client. *)
Definition keepsRun (opts : ListFlowRunOpts) (cutoff : option Z) (fr : FlowRun) : bool :=
  negb (negb (lo_FlowFilter opts =? "") && negb (frs_FlowRef (fr_Spec fr) =? lo_FlowFilter opts)) &&
  negb (negb (lo_PhaseFilter opts =? "") && negb (EqualFold (phase_string (fst_Phase (fr_Status fr))) (lo_PhaseFilter opts))) &&
  negb (match cutoff with Some c => (createdAt fr <? c)%Z | None => false end).

Definition ListFlowRuns (namespace : string) (opts : ListFlowRunOpts) : Prog CliEv (option gerr) :=
  let! items := emit (CListFlowRuns namespace (lo_TriggerFilter opts)) in
  match items with
  | Err e => Ret (Some (wrapf "listing FlowRuns: " e))
  | Ok items =>
      let! cutoff := if (0 <? lo_Since opts)%Z then let! now := emit CNow in Ret (Some (now - lo_Since opts)%Z) else Ret None in
      let filtered := sortNewest (List.filter (keepsRun opts cutoff) items) in
      printAs (lo_Format opts) (OFlowRuns filtered) (printFlowRunTable filtered)
  end.

Definition step_phase_string (p : StepPhase) : string :=
  match p with
  | StepPhaseEmpty => "" | StepPhasePending => "Pending" | StepPhaseRunning => "Running" | StepPhaseSucceeded => "Succeeded"
  | StepPhaseFailed => "Failed" | StepPhaseSkipped => "Skipped" | StepPhaseWaiting => "Waiting"
  end.

Definition fmtResults (results : list ResultValue) : string :=
  match results with [] => "-" | _ => Join (map (λ r, rv_Name r +:+ "=" +:+ rv_Value r) results) " " end.

Definition stepRow (fr : FlowRun) (step : StepRunStatus) : list string :=
  [ss_Name step; Dash (step_phase_string (ss_Phase step));
   match ss_StartTime step, fst_StartTime (fr_Status fr) with Some s, Some start => "+" +:+ FormatSeconds 2 (s - start) +:+ "s" | _, _ => "-" end;
   FmtStepDuration (ss_StartTime step) (ss_CompletionTime step); Itoa (ss_Attempts step); fmtResults (ss_Results step)].

Definition printFlowRunDetail (fr : FlowRun) : Prog CliEv unit :=
  let st := fr_Status fr in
  let! dur := flowRunDuration fr in
  let! _ := print (PLine ("FlowRun:   " +:+ m_Name (fr_Meta fr))) in
  let! _ := print (PLine ("Flow:      " +:+ Dash (frs_FlowRef (fr_Spec fr)))) in
  let! _ := print (PLine ("Trigger:   " +:+ triggerNameOf fr)) in
  let! _ := print (PLine ("Phase:     " +:+ Dash (phase_string (fst_Phase st)))) in
  let! _ := print (PLine ("Started:   " +:+ match fst_StartTime st with Some t => FormatUTC t | None => "-" end)) in
  let! _ := print (PLine ("Duration:  " +:+ dur)) in
  match fst_Steps st with
  | [] => Ret tt
  | steps =>
      let! _ := print (PLine "") in
      let! _ := print (PTable ["STEP"; "PHASE"; "STARTED"; "DURATION"; "ATTEMPTS"; "RESULTS"] (map (stepRow fr) steps)) in
      pfold (λ _ step, if negb (ss_Message step =? "") && bool_decide (ss_Phase step = StepPhaseFailed)
                       then print (PLine ("  message: " +:+ ss_Message step)) else Ret tt) steps tt
  end.

Definition GetFlowRun (namespace name : string) (format : Format) : Prog CliEv (option gerr) :=
  let! r := emit (CGetFlowRun namespace name) in
  match r with
  | Err e => Ret (Some (wrapf ("getting FlowRun " +:+ Quote name +:+ ": ") e))
  | Ok fr => printAs format (OFlowRun fr) (printFlowRunDetail fr)
  end.

Definition terminalPhases (p : FlowRunPhase) : bool :=
  match p with FlowRunPhaseSucceeded | FlowRunPhaseFailed | FlowRunPhaseCancelled => true | _ => false end.

(** One FlowRun of a poll. *)
Definition watchItem (opts : ListFlowRunOpts) (seen : gmap string FlowRunPhase) (fr : FlowRun) : Prog CliEv (gmap string FlowRunPhase) :=
  let name := m_Name (fr_Meta fr) in
  let phase := fst_Phase (fr_Status fr) in
  if negb (terminalPhases phase) then Ret seen
  else if negb (lo_FlowFilter opts =? "") && negb (frs_FlowRef (fr_Spec fr) =? lo_FlowFilter opts) then Ret seen
  else if bool_decide (seen !! name = Some phase) then Ret seen
  else
    let! dur := flowRunDuration fr in
    let! age := FmtAge (createdAt fr) in
    let! _ := print (PLine (Join [name; triggerNameOf fr; Dash (frs_FlowRef (fr_Spec fr)); phase_string phase; dur; age] tab)) in
    Ret (<[name := phase]> seen).

Definition watchPoll (namespace : string) (opts : ListFlowRunOpts) (seen : gmap string FlowRunPhase) : Prog CliEv (gmap string FlowRunPhase) :=
  let! r := emit (CListFlowRuns namespace (lo_TriggerFilter opts)) in
  match r with
  | Err _ => Ret seen
  | Ok items => pfold (watchItem opts) items seen
  end.

Fixpoint watchPolls (ticks : nat) (namespace : string) (opts : ListFlowRunOpts) (seen : gmap string FlowRunPhase) : Prog CliEv (gmap string FlowRunPhase) :=
  match ticks with
  | O => Ret seen
  | S n =>
      let! tick := emit CTick in
      match tick with
      | true => let! seen := watchPoll namespace opts seen in watchPolls n namespace opts seen
      | false => Ret seen
      end
  end.

(** The loop runs until its context ends; [ticks] bounds the ticks looked at. *)
Definition WatchFlowRuns (ticks : nat) (namespace : string) (opts : ListFlowRunOpts) : Prog CliEv (gmap string FlowRunPhase) :=
  let! _ := print (PTable flowRunHeaders []) in watchPolls ticks namespace opts ∅.

(** [history]: the detail, the live tail, or the list. *)
Definition historyCmd (ticks : nat) (args : list string) (namespaceFlag triggerFilter flowFilter phaseFilter sinceFlag outputFormat : string)
    (watchFlag allNamespaces : bool) : Prog CliEv (option gerr) :=
  let! c := BuildClient (resolveNamespace allNamespaces namespaceFlag) in
  match c with
  | Err e => Ret (Some e)
  | Ok namespace =>
      match args with
      | [name] => match ParseFormat outputFormat with Err e => Ret (Some e) | Ok format => GetFlowRun namespace name format end
      | _ =>
          match (if (sinceFlag =? "") then Some 0%Z else ParseDuration sinceFlag) with
          | None => Ret (Some (errorf ("invalid --since value " +:+ Quote sinceFlag)))
          | Some since =>
              match ParseFormat outputFormat with
              | Err e => Ret (Some e)
              | Ok format =>
                  let opts := MkListOpts triggerFilter flowFilter phaseFilter since format in
                  if watchFlag then let! _ := WatchFlowRuns ticks namespace opts in Ret None else ListFlowRuns namespace opts
              end
          end
      end
  end.

(** ** Timeline of one FlowRun ([watch.go]) *)

Definition phasePending : string := "Pending".

Definition stepBadge (phase : StepPhase) : string :=
  match phase with
  | StepPhaseSucceeded => "✓"
  | StepPhaseFailed => "✗"
  | StepPhaseRunning => "●"
  | StepPhaseSkipped => "-"
  | _ => "○"
  end.

(** The verb [%-ns]: spaces up to [n] characters. *)
Fixpoint spaces (n : nat) : string := match n with O => "" | S n => String " " (spaces n) end.
Definition padRight (n : nat) (s : string) : string := s +:+ spaces (n - length (runes s)).

Definition orPending (s : string) : string := if (s =? "") then phasePending else s.

(** Elapsed seconds between two optional times; [pre] marks a time still running. *)
Definition elapsedOf (start stop : option Z) (pre : string) (otherwise : string) : Prog CliEv string :=
  match start, stop with
  | Some s, Some e => Ret (FormatSeconds 1 (e - s) +:+ "s")
  | Some s, None => let! now := emit CNow in Ret (pre +:+ FormatSeconds 1 (now - s) +:+ "s")
  | None, _ => Ret otherwise
  end.

Definition stepLine (step : StepRunStatus) : Prog CliEv unit :=
  let! durStr := elapsedOf (ss_StartTime step) (ss_CompletionTime step) "~" "-" in
  print (PLine ("  " +:+ stepBadge (ss_Phase step) +:+ "  " +:+ padRight 24 (ss_Name step) +:+ " "
    +:+ padRight 12 (orPending (step_phase_string (ss_Phase step))) +:+ " " +:+ durStr)).

Definition RenderFlowRunTimeline (fr : FlowRun) (elapsed : Z) : Prog CliEv unit :=
  let st := fr_Status fr in
  let! elapsedStr := elapsedOf (fst_StartTime st) (fst_CompletionTime st) "" (FormatSeconds 1 elapsed +:+ "s") in
  let! _ := print (PLine "---") in
  let! _ := print (PLine ("FlowRun: " +:+ m_Name (fr_Meta fr))) in
  let! _ := print (PLine ("Trigger: " +:+ padRight 20 (triggerNameOf fr) +:+ "  Flow: " +:+ frs_FlowRef (fr_Spec fr))) in
  let! _ := print (PLine ("Phase:   " +:+ padRight 12 (orPending (phase_string (fst_Phase st))) +:+ " (" +:+ elapsedStr +:+ " elapsed)")) in
  match fst_Steps st with
  | [] => Ret tt
  | steps => let! _ := print (PLine "") in pfold (λ _ step, stepLine step) steps tt
  end.

(** The select loop; [None] when [events] did not suffice to end it. *)
Fixpoint watchLoop (events : nat) (name : string) (watchStart : Z) : Prog CliEv (option (option gerr)) :=
  match events with
  | O => Ret None
  | S n =>
      let! ev := emit CNextEvent in
      match ev with
      | WDone | WClosed => Ret (Some None)
      | WError => Ret (Some (Some (errorf "watch error event received")))
      | WOther => watchLoop n name watchStart
      | WFlowRun updated =>
          if negb (m_Name (fr_Meta updated) =? name) then watchLoop n name watchStart
          else
            let! now := emit CNow in
            let! _ := RenderFlowRunTimeline updated (now - watchStart) in
            if terminalPhases (fst_Phase (fr_Status updated)) then Ret (Some None) else watchLoop n name watchStart
      end
  end.

Definition WatchFlowRun (events : nat) (namespace name : string) : Prog CliEv (option (option gerr)) :=
  let! r := emit (CGetFlowRun namespace name) in
  match r with
  | Err e => Ret (Some (Some (wrapf ("getting FlowRun " +:+ Quote name +:+ ": ") e)))
  | Ok fr =>
      let! watchStart := emit CNow in
      let! now := emit CNow in
      let! _ := RenderFlowRunTimeline fr (now - watchStart) in
      if terminalPhases (fst_Phase (fr_Status fr)) then Ret (Some None)
      else
        let! ok := emit CWatchable in
        if negb ok
        then Ret (Some (Some (errorf "client does not support Watch (Kubernetes client-go feature); upgrade to a watch-capable client")))
        else
          let! w := emit (CWatch namespace (Some name)) in
          match w with
          | Ok _ => watchLoop events name watchStart
          | Err _ =>
              let! w := emit (CWatch namespace None) in
              match w with
              | Err e => Ret (Some (Some (wrapf "opening Watch on FlowRuns: " e)))
              | Ok _ => watchLoop events name watchStart
              end
          end
  end.

(** ** Triggers ([triggers.go]) *)

Definition activeCount (items : list FlowRun) : gmap string Z :=
  foldl (λ m fr, match frs_TriggerRef (fr_Spec fr) with
                 | None => m
                 | Some t => if bool_decide (fst_Phase (fr_Status fr) = FlowRunPhaseRunning)
                             then <[tr_Name t := (default 0 (m !! tr_Name t) + 1)%Z]> m else m
                 end) ∅ items.

Definition triggerStatus (conditions : list Condition) : string :=
  if existsb (λ c, (c_Type c =? "Accepted") && bool_decide (c_Status c = ConditionTrue)) conditions then "Accepted"
  else match List.find (λ c, bool_decide (c_Status c = ConditionFalse)) conditions with
       | Some c => "Error: " +:+ c_Reason c
       | None => phasePending
       end.

Definition gcPolicyDefaultLabel : string := "default".

Definition fmtGCPolicy (gc : option FlowRunGCPolicy) : string :=
  match gc with
  | None => gcPolicyDefaultLabel
  | Some gc =>
      let count := match gc_MaxSucceeded gc, gc_MaxFailed gc with
                   | None, None => []
                   | s, f => ["max:" +:+ Itoa (default 0%Z s) +:+ "/" +:+ Itoa (default 0%Z f)]
                   end in
      let ttlOf o := match o with Some d => Duration_String d | None => "-" end in
      let ttl := match gc_TTLAfterSucceeded gc, gc_TTLAfterFailed gc with
                 | None, None => []
                 | s, f => ["ttl:" +:+ ttlOf s +:+ "/" +:+ ttlOf f]
                 end in
      match (count ++ ttl)%list with [] => gcPolicyDefaultLabel | parts => Join parts " " end
  end.

Definition triggerRow (active : gmap string Z) (t : Trigger) : Prog CliEv (list string) :=
  let! lastFired := match tst_LastTriggeredTime (tg_Status t) with
                    | None => Ret "never"
                    | Some at_ => let! age := FmtAge at_ in Ret (age +:+ " ago")
                    end in
  Ret [m_Name (tg_Meta t); Dash (ts_Type (tg_Spec t)); triggerStatus (tst_Conditions (tg_Status t)); lastFired;
       Itoa (default 0%Z (active !! m_Name (tg_Meta t))); fmtGCPolicy (ts_FlowRunGC (tg_Spec t))].

Definition ListTriggers (namespace : string) (format : Format) : Prog CliEv (option gerr) :=
  let! r := emit (CListTriggers namespace) in
  match r with
  | Err e => Ret (Some (wrapf "listing Triggers: " e))
  | Ok items =>
      let! runs := emit (CListFlowRuns namespace "") in
      let active := activeCount (match runs with Ok l => l | Err _ => [] end) in
      printAs format (OTriggers items)
        (let! rows := pmap (triggerRow active) items in print (PTable ["NAME"; "TYPE"; "STATUS"; "LAST FIRED"; "ACTIVE"; "GC POLICY"] rows))
  end.

(** ** Flows ([flows.go]) *)

Definition lastUsed (items : list FlowRun) : gmap string Z :=
  foldl (λ m fr, let flowName := frs_FlowRef (fr_Spec fr) in
                 if (flowName =? "") then m
                 else match m !! flowName with
                      | Some existing => if (existing <? createdAt fr)%Z then <[flowName := createdAt fr]> m else m
                      | None => <[flowName := createdAt fr]> m
                      end) ∅ items.

Definition status_string (s : ConditionStatus) : string :=
  match s with ConditionTrue => "True" | ConditionFalse => "False" | ConditionUnknown => "Unknown" end.

Definition flowReady (conditions : list Condition) : string :=
  match List.find (λ c, (c_Type c =? "Ready")) conditions with Some c => status_string (c_Status c) | None => "Unknown" end.

Definition flowRow (used : gmap string Z) (f : Flow) : Prog CliEv (list string) :=
  let! lu := match used !! m_Name (fl_Meta f) with
             | Some t => if (t =? 0)%Z then Ret "never" else let! age := FmtAge t in Ret (age +:+ " ago")
             | None => Ret "never"
             end in
  Ret [m_Name (fl_Meta f); Itoa (Z.of_nat (length (fs_Steps (fl_Spec f)))); flowReady (fl_Conditions f); lu].

Definition ListFlows (namespace : string) (format : Format) : Prog CliEv (option gerr) :=
  let! r := emit (CListFlows namespace) in
  match r with
  | Err e => Ret (Some (wrapf "listing Flows: " e))
  | Ok items =>
      let! runs := emit (CListFlowRuns namespace "") in
      let used := lastUsed (match runs with Ok l => l | Err _ => [] end) in
      printAs format (OFlows items)
        (let! rows := pmap (flowRow used) items in print (PTable ["NAME"; "STEPS"; "READY"; "LAST USED"] rows))
  end.

(** ** Integrations ([integrations.go]) *)

Definition healthUnknown : string := "unknown".

Definition orNamespace (namespace : string) (intg : Integration) : string :=
  if (namespace =? "") then m_Namespace (in_Meta intg) else namespace.

Definition gatewayDeployName (intg : Integration) : string :=
  let name := m_Name (in_Meta intg) in
  if negb (ist_GatewayDeploymentName (in_Status intg) =? "") then ist_GatewayDeploymentName (in_Status intg)
  else if (is_Type (in_Spec intg) =? "plugin") then "kubezap-plugin-" +:+ name
  else "kubezap-" +:+ is_Type (in_Spec intg) +:+ "-gateway-" +:+ name.

Definition gatewayDeploymentStatus (intg : Integration) (namespace : string) : Prog CliEv string :=
  let! d := emit (CGetDeployment (orNamespace namespace intg) (gatewayDeployName intg)) in
  match d with
  | Err _ => Ret "NotFound"
  | Ok ((ready, total), _) =>
      let counts := " (" +:+ Itoa ready +:+ "/" +:+ Itoa total +:+ ")" in
      Ret ((if (ready =? total)%Z && (0 <? total)%Z then "Ready" else "Degraded") +:+ counts)
  end.

Definition pluginHealthStatus (intg : Integration) (namespace : string) : Prog CliEv string :=
  if negb (is_Type (in_Spec intg) =? "plugin") then Ret "n/a"
  else match is_Plugin (in_Spec intg) with
       | None => Ret healthUnknown
       | Some p =>
           let port := if (pi_PublisherPort p =? 0)%Z then 8090%Z else pi_PublisherPort p in
           let! r := emit (CHealthz ("http://kubezap-plugin-" +:+ m_Name (in_Meta intg) +:+ "." +:+ orNamespace namespace intg
                                     +:+ ".svc.cluster.local:" +:+ Itoa port +:+ "/healthz")) in
           Ret (match r with None => healthUnknown | Some code => if (code =? 200)%Z then "Healthy" else "Unhealthy" end)
       end.

Definition integrationRow (namespace : string) (intg : Integration) : Prog CliEv (list string) :=
  let! gatewayStatus := gatewayDeploymentStatus intg namespace in
  let! pluginHealth := pluginHealthStatus intg namespace in
  Ret [m_Name (in_Meta intg); Dash (is_Type (in_Spec intg)); gatewayStatus; pluginHealth].

Definition ListIntegrations (namespace : string) (format : Format) : Prog CliEv (option gerr) :=
  let! r := emit (CListIntegrations namespace) in
  match r with
  | Err e => Ret (Some (wrapf "listing Integrations: " e))
  | Ok items =>
      printAs format (OIntegrations items)
        (let! rows := pmap (integrationRow namespace) items in print (PTable ["NAME"; "TYPE"; "GATEWAY STATUS"; "PLUGIN HEALTH"] rows))
  end.

(** The commands around the lists. *)
Definition listCmd (list : string → Format → Prog CliEv (option gerr)) (namespaceFlag outputFormat : string) (allNamespaces : bool)
    : Prog CliEv (option gerr) :=
  let! c := BuildClient (resolveNamespace allNamespaces namespaceFlag) in
  match c with
  | Err e => Ret (Some e)
  | Ok namespace => match ParseFormat outputFormat with Err e => Ret (Some e) | Ok format => list namespace format end
  end.

(** ** Version ([version.go]) *)

Definition controllerDeploymentName : string := "kubezap-controller-manager".
Definition defaultOperatorNamespace : string := "kubezap-system".

Fixpoint lookupImage (namespaces : list string) : Prog CliEv (string * string) :=
  match namespaces with
  | [] => Ret ("", "")
  | ns :: rest =>
      let! d := emit (CGetDeployment ns controllerDeploymentName) in
      match d with
      | Err _ => lookupImage rest
      | Ok (_, containers) =>
          match List.find (λ c, (c.1 =? "manager") || Contains c.2 "controller") containers, containers with
          | Some c, _ => Ret (c.2, ns)
          | None, c :: _ => Ret (c.2, ns)
          | None, [] => lookupImage rest
          end
      end
  end.

Definition lookupOperatorImage (fallbackNamespace : string) : Prog CliEv (string * string) :=
  lookupImage (defaultOperatorNamespace ::
    if negb (fallbackNamespace =? "") && negb (fallbackNamespace =? defaultOperatorNamespace) then [fallbackNamespace] else []).

Definition PrintVersion (namespace cliVersion gitCommit : string) : Prog CliEv (option gerr) :=
  let! _ := print (PLine ("kubezap CLI:      " +:+ cliVersion +:+ " (git: " +:+ gitCommit +:+ ")")) in
  let! r := lookupOperatorImage namespace in
  let '(operatorImage, foundNS) := r in
  if (operatorImage =? "")
  then let! _ := print (PLine "operator image:   unknown (deployment not found)") in Ret None
  else let! _ := print (PLine ("operator image:   " +:+ operatorImage)) in
       let! _ := print (PLine ("namespace:        " +:+ foundNS)) in Ret None.

(** ** The commands ([cmd/kubezap]) *)

Definition triggersCmd : string → string → bool → Prog CliEv (option gerr) := listCmd ListTriggers.
Definition flowsCmd : string → string → bool → Prog CliEv (option gerr) := listCmd ListFlows.
Definition integrationsCmd : string → string → bool → Prog CliEv (option gerr) := listCmd ListIntegrations.

(** Without a cluster the version of the client is still printed. *)
Definition versionCmd (namespaceFlag cliVersion gitCommit : string) : Prog CliEv (option gerr) :=
  let! c := BuildClient namespaceFlag in
  match c with
  | Err e =>
      let! _ := print (PLine ("kubezap CLI:      " +:+ cliVersion +:+ " (git: " +:+ gitCommit +:+ ")")) in
      let! _ := print (PLine ("operator image:   unknown (no cluster connection: " +:+ emsg e +:+ ")")) in
      Ret None
  | Ok namespace => PrintVersion namespace cliVersion gitCommit
  end.

(** [None]: still watching. *)
Definition watchCmd (events : nat) (namespaceFlag name : string) : Prog CliEv (option (option gerr)) :=
  let! c := BuildClient namespaceFlag in
  match c with Err e => Ret (Some (Some e)) | Ok namespace => WatchFlowRun events namespace name end.

(** A command line as cobra parses it: the subcommand with its flags. *)
Inductive Command :=
  | CmdHistory (args : list string) (triggerFilter flowFilter phaseFilter sinceFlag outputFormat : string) (watchFlag allNamespaces : bool)
  | CmdTriggers (outputFormat : string) (allNamespaces : bool)
  | CmdFlows (outputFormat : string) (allNamespaces : bool)
  | CmdIntegrations (outputFormat : string) (allNamespaces : bool)
  | CmdVersion
  | CmdWatch (name : string).

Definition runCommand (ticks : nat) (cliVersion gitCommit namespaceFlag : string) (cmd : Command) : Prog CliEv (option (option gerr)) :=
  let ends (p : Prog CliEv (option gerr)) := let! e := p in Ret (Some e) in
  match cmd with
  | CmdHistory args t f p s o w a => ends (historyCmd ticks args namespaceFlag t f p s o w a)
  | CmdTriggers o a => ends (triggersCmd namespaceFlag o a)
  | CmdFlows o a => ends (flowsCmd namespaceFlag o a)
  | CmdIntegrations o a => ends (integrationsCmd namespaceFlag o a)
  | CmdVersion => ends (versionCmd namespaceFlag cliVersion gitCommit)
  | CmdWatch name => watchCmd ticks namespaceFlag name
  end.

End cli.
