(* ===== verification/CliProps.v ===== *)
(** * What the command line client shows

    The [history] command against a cluster, the counts of [triggers] and [flows],
    and the live tail. *)

From stdpp Require Import sorting.
From S2P Require Import Prelude GoStd Runes Api Effects Cli.

Local Open Scope string_scope.
Local Open Scope list_scope.
Local Open Scope go_scope.

(** ** The cluster *)

(** What was printed, newest first. *)
Record Screen := MkScreen { sc_printed : list Printed }.

(** A list request returns the FlowRuns of the namespace (of all of them when it is
    empty) that carry the trigger label, or fails; the clock reads a time that
    satisfies [clock]. *)
Definition selects (ns trigger : string) (fr : FlowRun) : bool :=
  ((ns =? "") || (m_Namespace (fr_Meta fr) =? ns)) &&
  ((trigger =? "") || bool_decide (m_Labels (fr_Meta fr) !! "kubezap.io/trigger" = Some trigger)).

Definition cluster_spec (store : list FlowRun) (clock : Z → Prop) : Spec CliEv Screen := λ X e g Q,
  match e in CliEv X' return (X' → Screen → Prop) → Prop with
  | CNow => λ Q, ∀ t, clock t → Q t g
  | CListFlowRuns ns trigger => λ Q, (∀ e, Q (Err e) g) ∧ Q (Ok (List.filter (selects ns trigger) store)) g
  | CClientConfig | CNewClient => λ Q, ∀ x, Q x g
  | CContextNamespace => λ Q, ∀ x, Q x g
  | CPrint p => λ Q, Q tt (MkScreen (p :: sc_printed g))
  | _ => λ _, False
  end Q.

#[export] Instance cluster_spec_mono store clock : MonoSpec (cluster_spec store clock).
Proof.
  intros X e g P Q HPQ Hs. destruct e; cbn in *; try done; try (intros; by apply HPQ, Hs); try by apply HPQ.
  destruct Hs as [He Hok]. split; [intros; apply HPQ, He|by apply HPQ].
Qed.

Section history.
  Context `{CliLib} `{!CliLibLaws} (store : list FlowRun) (clock : Z → Prop).

(** ** The namespace *)

(** Whatever the flags say, one namespace is queried. *)
Lemma BuildClient_namespace flag g (Q : result string → Screen → Prop) :
  (∀ e, Q (Err e) g) → (∀ ns, ns ≠ "" → (flag ≠ "" → ns = flag) → Q (Ok ns) g) → wp (cluster_spec store clock) (BuildClient flag) g Q.
Proof.
  intros He Hok. unfold BuildClient. apply wp_bind; [apply _|]. intros [[]|e]; cbn [wp]; [|apply He].
  apply wp_bind; [apply _|]. destruct (String.eqb_spec flag "") as [Hf|Hf].
  - apply wp_bind; [apply _|]. intros r. cbn [wp]. cbv zeta. apply wp_bind; [apply _|]. intros [[]|e]; cbn [wp]; [|apply He].
    apply Hok; [|done]. destruct r as [ns|]; [|done]. by destruct (String.eqb_spec ns "") as [->|Hns].
  - cbn [wp]. apply wp_bind; [apply _|]. intros [[]|e]; cbn [wp]; [by apply Hok|apply He].
Qed.

(** ** The rows *)

Definition row_of (fr : FlowRun) (row : list string) : Prop :=
  ∃ dur age, row = [m_Name (fr_Meta fr); triggerNameOf fr; Dash (frs_FlowRef (fr_Spec fr)); Dash (phase_string (fst_Phase (fr_Status fr))); dur; age].

Definition quiet (l : list Printed) (g : Screen) : Prop := sc_printed g = l.

Lemma wp_duration fr l g : quiet l g → wp (cluster_spec store clock) (flowRunDuration fr) g (λ _ g', quiet l g').
Proof.
  intros Hq. unfold flowRunDuration. destruct (fst_StartTime _); [|done]. destruct (fst_CompletionTime _); [done|].
  apply wp_bind; [apply _|]. intros t _. exact Hq.
Qed.

Lemma wp_age t l g : quiet l g → wp (cluster_spec store clock) (FmtAge t) g (λ _ g', quiet l g').
Proof. intros Hq. unfold FmtAge. destruct (_ =? _)%Z; [done|]. apply wp_bind; [apply _|]. intros now _. exact Hq. Qed.

Lemma wp_rows items l g : quiet l g →
  wp (cluster_spec store clock) (pmap flowRunRow items) g (λ rows g', quiet l g' ∧ Forall2 row_of items rows).
Proof.
  intros Hq. apply wp_map; [apply _| |done]. intros fr g0 _ Hq0. unfold flowRunRow. apply wp_bind; [apply _|].
  eapply wp_mono; [apply _| |by apply (wp_duration fr l)]. intros dur g1 Hq1. apply wp_bind; [apply _|].
  eapply wp_mono; [apply _| |by apply (wp_age _ l)]. intros age g2 Hq2. cbn [wp]. split; [done|]. by exists dur, age.
Qed.

(** ** The list *)

(** The FlowRuns asked for; [Since] counts back from a reading of the clock. *)
Definition asked (ns : string) (opts : ListFlowRunOpts) (cutoff : option Z) (fr : FlowRun) : bool :=
  (m_Namespace (fr_Meta fr) =? ns) &&
  ((lo_TriggerFilter opts =? "") || bool_decide (m_Labels (fr_Meta fr) !! "kubezap.io/trigger" = Some (lo_TriggerFilter opts))) &&
  ((lo_FlowFilter opts =? "") || (frs_FlowRef (fr_Spec fr) =? lo_FlowFilter opts)) &&
  ((lo_PhaseFilter opts =? "") || EqualFold (phase_string (fst_Phase (fr_Status fr))) (lo_PhaseFilter opts)) &&
  match cutoff with Some c => (c <=? createdAt fr)%Z | None => true end.

Definition shows (format : Format) (l : list FlowRun) (p : Printed) : Prop :=
  match format with
  | FormatJSON => p = PJSON (OFlowRuns l)
  | FormatYAML => p = PYAML (OFlowRuns l)
  | FormatTable => ∃ rows, p = PTable flowRunHeaders rows ∧ Forall2 row_of l rows
  end.

Lemma filter_asked ns opts cutoff : ns ≠ "" →
  List.filter (keepsRun opts cutoff) (List.filter (selects ns (lo_TriggerFilter opts)) store) = List.filter (asked ns opts cutoff) store.
Proof.
  intros Hns. induction store as [|fr l IH]; [done|]. cbn [List.filter].
  assert (asked ns opts cutoff fr = selects ns (lo_TriggerFilter opts) fr && keepsRun opts cutoff fr) as ->.
  { unfold asked, selects, keepsRun. rewrite (proj2 (String.eqb_neq _ _) Hns). cbn [orb]. rewrite !negb_andb, !negb_involutive.
    destruct cutoff as [c|]; rewrite <- ?Z.leb_antisym; cbn [negb]; by rewrite <- !andb_assoc. }
  destruct (selects _ _ fr); cbn [andb List.filter]; [|exact IH]. destruct (keepsRun _ _ fr); by rewrite IH.
Qed.

Lemma wp_printAs format filtered l g : quiet l g →
  wp (cluster_spec store clock) (printAs format (OFlowRuns filtered) (printFlowRunTable filtered)) g
    (λ e g', e = None ∧ ∃ p, sc_printed g' = p :: l ∧ shows format filtered p).
Proof.
  intros Hq. destruct format; unfold printAs, print, quiet in *; (apply wp_bind; [apply _|]).
  - unfold printFlowRunTable. apply wp_bind; [apply _|]. eapply wp_mono; [apply _| |by apply (wp_rows _ l)].
    intros rows g' [Hq' Hr]. cbn. split; [done|]. eexists. split; [by rewrite Hq'|]. by exists rows.
  - cbn. split; [done|]. eexists. by rewrite Hq.
  - cbn. split; [done|]. eexists. by rewrite Hq.
Qed.

(** The oldest creation time shown: [since] before the time of the request. *)
Definition cutoff_for (since : Z) (cutoff : option Z) : Prop :=
  ((since <= 0)%Z → cutoff = None) ∧ ((0 < since)%Z → ∃ now, clock now ∧ cutoff = Some (now - since)%Z).

Definition listed (ns : string) (opts : ListFlowRunOpts) (e : option gerr) (g : Screen) : Prop :=
  match e with
  | Some _ => sc_printed g = []
  | None => ∃ cutoff l p, cutoff_for (lo_Since opts) cutoff ∧
      l ≡ₚ List.filter (asked ns opts cutoff) store ∧ StronglySorted (λ a b, (createdAt b <= createdAt a)%Z) l ∧
      sc_printed g = [p] ∧ shows (lo_Format opts) l p
  end.

Lemma wp_ListFlowRuns ns opts g : ns ≠ "" → quiet [] g → wp (cluster_spec store clock) (ListFlowRuns ns opts) g (listed ns opts).
Proof.
  intros Hns Hq. unfold ListFlowRuns. apply wp_bind; [apply _|]. split; [intros e; exact Hq|]. cbn [wp].
  assert (∀ cutoff g', cutoff_for (lo_Since opts) cutoff → quiet [] g' →
    wp (cluster_spec store clock)
      (let filtered := sortNewest (List.filter (keepsRun opts cutoff) (List.filter (selects ns (lo_TriggerFilter opts)) store)) in
       printAs (lo_Format opts) (OFlowRuns filtered) (printFlowRunTable filtered)) g' (listed ns opts)) as Hcont.
  { intros cutoff g' Hc Hq'. cbv zeta. rewrite (filter_asked ns opts cutoff Hns). eapply wp_mono; [apply _| |by apply (wp_printAs _ _ [])].
    intros e g2 (-> & p & Hp & Hs). exists cutoff. eexists _, p. split; [done|]. split; [apply sortNewest_perm|].
    split; [apply sortNewest_sorted|]. done. }
  apply wp_bind; [apply _|]. destruct (Z.ltb_spec 0 (lo_Since opts)).
  - apply wp_bind; [apply _|]. intros now Hnow. cbn [wp]. apply Hcont; [|exact Hq]. split; [lia|]. intros _. by exists now.
  - cbn [wp]. apply Hcont; [|exact Hq]. split; [done|lia].
Qed.

(** C38: [kubezap history] without [--all-namespaces], without [--watch] and not
    called with exactly one FlowRun name prints, newest first, each FlowRun of its
    namespace that carries the trigger label, refers to the flow, is in the phase
    (in any letter case) and was created no longer than [--since] before the time
    of the request, and no other; on any error it prints nothing.  The namespace
    is the one of the flag, or the context's if there is none. *)
Theorem history_command_exact ticks args nsFlag trigger flow phase since out :
  (length args ≠ 1)%nat →
  wp (cluster_spec store clock) (historyCmd ticks args nsFlag trigger flow phase since out false false) (MkScreen []) (λ e g,
    match e with
    | Some _ => sc_printed g = []
    | None => ∃ ns d format, ns ≠ "" ∧ (nsFlag ≠ "" → ns = nsFlag) ∧
        (if (since =? "") then d = 0%Z else ParseDuration since = Some d) ∧ ParseFormat out = Ok format ∧
        listed ns (MkListOpts trigger flow phase d format) None g
    end).
Proof.
  intros Hargs. unfold historyCmd. apply wp_bind; [apply _|]. apply BuildClient_namespace; [done|]. intros ns Hns Hflag.
  assert (wp (cluster_spec store clock)
    (match (if (since =? "") then Some 0%Z else ParseDuration since) with
     | None => Ret (Some (errorf ("invalid --since value " +:+ Quote since)))
     | Some since => match ParseFormat out with
                     | Err e => Ret (Some e)
                     | Ok format => ListFlowRuns ns (MkListOpts trigger flow phase since format)
                     end
     end) (MkScreen []) (λ e g,
    match e with
    | Some _ => sc_printed g = []
    | None => ∃ ns d format, ns ≠ "" ∧ (nsFlag ≠ "" → ns = nsFlag) ∧
        (if (since =? "") then d = 0%Z else ParseDuration since = Some d) ∧ ParseFormat out = Ok format ∧
        listed ns (MkListOpts trigger flow phase d format) None g
    end)) as Hlist.
  { destruct (if (since =? "") then Some 0%Z else ParseDuration since) as [d|] eqn:Hd; [|done].
    destruct (ParseFormat out) as [format|e] eqn:Hf; [|done].
    eapply wp_mono; [apply _| |by apply wp_ListFlowRuns]. intros [e|] g Hl; [exact Hl|].
    exists ns, d, format. split_and!; [done|exact Hflag|by destruct (since =? ""); [injection Hd as <-|]|done|done]. }
  destruct args as [|a [|b args]]; [exact Hlist|done|exact Hlist].
Qed.

End history.

(** ** Counts *)

Definition running_for (name : string) (fr : FlowRun) : bool :=
  match frs_TriggerRef (fr_Spec fr) with
  | Some t => (tr_Name t =? name) && bool_decide (fst_Phase (fr_Status fr) = FlowRunPhaseRunning)
  | None => false
  end.

(** The active count of a Trigger is the number of its running FlowRuns. *)
Theorem activeCount_exact l name :
  default 0%Z (activeCount l !! name) = Z.of_nat (length (List.filter (running_for name) l)).
Proof.
  unfold activeCount. set (f := λ _ _, _).
  assert (∀ l m, default 0%Z (foldl f m l !! name) = (default 0%Z (m !! name) + Z.of_nat (length (List.filter (running_for name) l)))%Z) as Hgen.
  { clear l. induction l as [|fr l IH]; intros m; cbn [foldl List.filter]; [cbn; lia|]. rewrite IH. unfold f at 1, running_for at 2.
    destruct (frs_TriggerRef (fr_Spec fr)) as [t|]; [|lia]. destruct (bool_decide _); [|by rewrite andb_false_r].
    rewrite andb_true_r. destruct (String.eqb_spec (tr_Name t) name) as [->|Hne].
    - rewrite lookup_insert_eq. cbn [default from_option id length]. lia.
    - by rewrite lookup_insert_ne. }
  rewrite (Hgen l ∅), lookup_empty. cbn. lia.
Qed.

(** The last use of a Flow is the creation of its most recent FlowRun. *)
Theorem lastUsed_latest l flow : flow ≠ "" →
  match lastUsed l !! flow with
  | None => ∀ fr, fr ∈ l → frs_FlowRef (fr_Spec fr) ≠ flow
  | Some t => (∃ fr, fr ∈ l ∧ frs_FlowRef (fr_Spec fr) = flow ∧ createdAt fr = t) ∧
      ∀ fr, fr ∈ l → frs_FlowRef (fr_Spec fr) = flow → (createdAt fr <= t)%Z
  end.
Proof.
  intros Hflow. induction l as [|fr l IH] using rev_ind; [cbn; rewrite lookup_empty; by intros fr ?%not_elem_of_nil|].
  unfold lastUsed in *. rewrite foldl_app. cbn [foldl]. set (m := foldl _ ∅ l) in *. cbv zeta.
  assert (∀ P : FlowRun → Prop, (∀ x, x ∈ l ++ [fr] → P x) ↔ (∀ x, x ∈ l → P x) ∧ P fr) as Hall.
  { intros P. split; [intros Hx; split; [intros x ?; apply Hx|apply Hx]; set_solver|].
    intros [Hl Hf] x [Hx| ->%list_elem_of_singleton]%elem_of_app; auto. }
  destruct (String.eqb_spec (frs_FlowRef (fr_Spec fr)) "") as [He|Hne].
  { destruct (m !! flow) as [t|]; rewrite Hall; [|split; [done|congruence]].
    destruct IH as [(x & ? & ? & ?) Hmax]. split; [exists x; set_solver|]. split; [done|congruence]. }
  destruct (decide (frs_FlowRef (fr_Spec fr) = flow)) as [<-|Hother].
  - destruct (m !! frs_FlowRef (fr_Spec fr)) as [t|] eqn:Hm.
    + destruct IH as [(x & ? & ? & ?) Hmax]. destruct (Z.ltb_spec t (createdAt fr)).
      * rewrite lookup_insert_eq. rewrite Hall. split; [exists fr; set_solver|]. split; [|lia]. intros y Hy Hyf. specialize (Hmax y Hy Hyf). lia.
      * rewrite Hm, Hall. split; [exists x; set_solver|]. split; [done|intros _; lia].
    + rewrite lookup_insert_eq, Hall. split; [exists fr; set_solver|]. split; [intros y Hy Hyf; by destruct (IH y Hy)|lia].
  - assert ((match m !! frs_FlowRef (fr_Spec fr) with
             | Some existing => if (existing <? createdAt fr)%Z then <[frs_FlowRef (fr_Spec fr) := createdAt fr]> m else m
             | None => <[frs_FlowRef (fr_Spec fr) := createdAt fr]> m
             end) !! flow = m !! flow) as ->.
    { destruct (m !! frs_FlowRef (fr_Spec fr)); [destruct (_ <? _)%Z|]; by rewrite ?lookup_insert_ne. }
    destruct (m !! flow) as [t|]; rewrite Hall; [|done].
    destruct IH as [(x & ? & ? & ?) Hmax]. split; [exists x; set_solver|]. done.
Qed.

(** ** The live tail *)

(** The FlowRuns the tail reports. *)
Definition tailed (opts : ListFlowRunOpts) (fr : FlowRun) : Prop :=
  terminalPhases (fst_Phase (fr_Status fr)) = true ∧ (lo_FlowFilter opts = "" ∨ frs_FlowRef (fr_Spec fr) = lo_FlowFilter opts).

(** Names with their terminal phases after one more list: a name keepsRun its phase. *)
Definition completes (opts : ListFlowRunOpts) (before : gmap string FlowRunPhase) (l : list FlowRun) (after : gmap string FlowRunPhase) : Prop :=
  before ⊆ after ∧
  (∀ fr, fr ∈ l → tailed opts fr → after !! m_Name (fr_Meta fr) = Some (fst_Phase (fr_Status fr))) ∧
  (∀ n p, after !! n = Some p → before !! n = Some p ∨ ∃ fr, fr ∈ l ∧ tailed opts fr ∧ m_Name (fr_Meta fr) = n ∧ fst_Phase (fr_Status fr) = p).

Record Tail := MkTail { tl_lines : nat; tl_completed : gmap string FlowRunPhase }.

(** Lines are counted; the answers of list requests complete FlowRuns for good. *)
Definition tail_spec (opts : ListFlowRunOpts) : Spec CliEv Tail := λ X e g Q,
  match e in CliEv X' return (X' → Tail → Prop) → Prop with
  | CNow => λ Q, ∀ t, Q t g
  | CTick => λ Q, ∀ b, Q b g
  | CListFlowRuns _ _ => λ Q, (∀ e, Q (Err e) g) ∧
      ∀ l after, completes opts (tl_completed g) l after → Q (Ok l) (MkTail (tl_lines g) after)
  | CPrint p => λ Q, Q tt (match p with PLine _ => MkTail (S (tl_lines g)) (tl_completed g) | _ => g end)
  | _ => λ _, False
  end Q.

#[export] Instance tail_spec_mono opts : MonoSpec (tail_spec opts).
Proof.
  intros X e g P Q HPQ Hs. destruct e; cbn in *; try done; try (intros; by apply HPQ, Hs); try by apply HPQ.
  destruct Hs as [He Hok]. split; [intros; apply HPQ, He|intros; by apply HPQ, Hok].
Qed.

Section tail.
  Context `{CliLib} (opts : ListFlowRunOpts).

Lemma wp_quiet_duration fr g : wp (tail_spec opts) (flowRunDuration fr) g (λ _ g', g' = g).
Proof. unfold flowRunDuration. destruct (fst_StartTime _); [|done]. destruct (fst_CompletionTime _); [done|]. apply wp_bind; [apply _|]. by intros t. Qed.

Lemma wp_quiet_age t g : wp (tail_spec opts) (FmtAge t) g (λ _ g', g' = g).
Proof. unfold FmtAge. destruct (_ =? _)%Z; [done|]. apply wp_bind; [apply _|]. by intros now. Qed.

Lemma wp_watchItem seen fr done :
  seen ⊆ done → (tailed opts fr → done !! m_Name (fr_Meta fr) = Some (fst_Phase (fr_Status fr))) →
  wp (tail_spec opts) (watchItem opts seen fr) (MkTail (size seen) done) (λ seen' g',
    g' = MkTail (size seen') done ∧ seen ⊆ seen' ∧ seen' ⊆ done ∧
    (tailed opts fr → seen' !! m_Name (fr_Meta fr) = Some (fst_Phase (fr_Status fr)))).
Proof.
  intros Hsub Hdone. unfold watchItem. cbv zeta.
  destruct (terminalPhases (fst_Phase (fr_Status fr))) eqn:Ht; cbn [negb wp]; [|split_and!; [done..|]; intros [Ht' _]; congruence].
  destruct (negb (lo_FlowFilter opts =? "") && _) eqn:Hskip.
  { apply andb_true_iff in Hskip as [Hf%negb_true_iff%String.eqb_neq Hm%negb_true_iff%String.eqb_neq].
    cbn [wp]. split_and!; [done..|]. by intros [_ [?|?]]. }
  assert (tailed opts fr) as Htl.
  { split; [done|]. apply andb_false_iff in Hskip as [Hs|Hs]; apply negb_false_iff, String.eqb_eq in Hs; auto. }
  specialize (Hdone Htl). case_bool_decide as Hseen; [done|].
  apply wp_bind; [apply _|]. eapply wp_mono; [apply _| |apply wp_quiet_duration]. intros dur g' ->.
  apply wp_bind; [apply _|]. eapply wp_mono; [apply _| |apply wp_quiet_age]. intros age g' ->. apply wp_bind; [apply _|]. cbn.
  assert (seen !! m_Name (fr_Meta fr) = None) as Hnone.
  { destruct (seen !! m_Name (fr_Meta fr)) as [p|] eqn:Hp; [|done]. pose proof (lookup_weaken _ _ _ _ Hp Hsub). congruence. }
  split_and!; [by rewrite map_size_insert_None|by apply insert_subseteq|by apply insert_subseteq_l|intros _; apply lookup_insert_eq].
Qed.

Lemma wp_items l seen done :
  seen ⊆ done → (∀ fr, fr ∈ l → tailed opts fr → done !! m_Name (fr_Meta fr) = Some (fst_Phase (fr_Status fr))) →
  wp (tail_spec opts) (pfold (watchItem opts) l seen) (MkTail (size seen) done) (λ seen' g',
    g' = MkTail (size seen') done ∧ seen ⊆ seen' ∧ seen' ⊆ done ∧
    ∀ fr, fr ∈ l → tailed opts fr → seen' !! m_Name (fr_Meta fr) = Some (fst_Phase (fr_Status fr))).
Proof.
  revert seen. induction l as [|fr l IH]; intros seen Hsub Hdone; cbn [pfold].
  { cbn [wp]. split_and!; [done..|]. by intros fr ?%not_elem_of_nil. }
  apply wp_bind; [apply _|]. eapply wp_mono; [apply _| |apply wp_watchItem; [done|apply Hdone; by left]].
  intros seen1 g1 (-> & H1 & H2 & H3). eapply wp_mono; [apply _| |apply IH; [done|intros x Hx; apply Hdone; by right]].
  intros seen2 g2 (-> & H4 & H5 & H6). split_and!; [done|by etrans|done|].
  intros x [->|Hx]%elem_of_cons Htl; [|by apply H6]. eapply lookup_weaken; [by apply H3|done].
Qed.

(** Over any number of polls the tail prints one line for each FlowRun that was
    listed with a terminal phase and matches the flow filter, as long as a name
    stands for one FlowRun and a terminal phase is final. *)
Theorem completions_tailed_once ticks namespace :
  wp (tail_spec opts) (WatchFlowRuns ticks namespace opts) (MkTail 0 ∅) (λ seen g,
    seen = tl_completed g ∧ tl_lines g = size (tl_completed g)).
Proof.
  unfold WatchFlowRuns, print. apply wp_bind; [apply _|]. cbn [wp emit tail_spec].
  assert (∀ seen, wp (tail_spec opts) (watchPolls ticks namespace opts seen) (MkTail (size seen) seen)
    (λ seen' g, seen' = tl_completed g ∧ tl_lines g = size (tl_completed g))) as Hpolls; [|specialize (Hpolls ∅); by rewrite map_size_empty in Hpolls].
  induction ticks as [|n IH]; intros seen; cbn [watchPolls]; [done|].
  apply wp_bind; [apply _|]. intros []; cbn [wp]; [|done]. apply wp_bind; [apply _|]. unfold watchPoll. apply wp_bind; [apply _|].
  split; [intros e; apply IH|]. intros l after (Hsub & Hall & Honly). cbn [wp tl_lines tl_completed] in *.
  eapply wp_mono; [apply _| |by apply (wp_items l seen after)]. intros seen' g (-> & H1 & H2 & H3).
  assert (seen' = after) as ->; [|apply IH]. apply map_eq. intros k. apply option_eq. intros p. split; [by intros Hp; eapply lookup_weaken|].
  intros Hp. destruct (Honly k p Hp) as [Hb|(fr & Hin & Htl & <- & <-)]; [by eapply lookup_weaken|by apply H3].
Qed.

End tail.
