(* ===== verification/Flags.v ===== *)
(** * Command line flags

    The package [flag] as the main programs of [cmd] use it: typed flags with
    defaults, parsed from the arguments of a process; an argument that does not
    parse ends the process ([flag.ExitOnError]).  Also [strconv.ParseInt] with base 0
    and [strconv.ParseBool], which it calls. *)

From S2P Require Import Prelude SecretIndex GoStd Effects Delivery DeliveryProps AwsPlugin AwsDeployment.

Local Open Scope string_scope.
Local Open Scope list_scope.
Local Open Scope go_scope.

(** ** [strconv] *)

Definition alnum_val (c : ascii) : option Z :=
  let n := Z.of_nat (nat_of_ascii (lower_char c)) in
  if (48 <=? n)%Z && (n <=? 57)%Z then Some (n - 48)%Z
  else if (97 <=? n)%Z && (n <=? 122)%Z then Some (n - 87)%Z
  else None.

(** The digits of a base; underscores are skipped. *)
Fixpoint digits_in (base acc : Z) (s : string) : option Z :=
  match s with
  | EmptyString => Some acc
  | String c s =>
      if (c =? "_")%char then digits_in base acc s
      else match alnum_val c with
           | Some d => if (d <? base)%Z then digits_in base (acc * base + d)%Z s else None
           | None => None
           end
  end.

(** The prefix of a literal: its base and its digits. *)
Definition base_prefix (s : string) : Z * string :=
  match s with
  | String "0" (String b (String c r)) =>
      if (lower_char b =? "b")%char then (2%Z, String c r)
      else if (lower_char b =? "o")%char then (8%Z, String c r)
      else if (lower_char b =? "x")%char then (16%Z, String c r)
      else (8%Z, String b (String c r))
  | String "0" r => (8%Z, r)
  | _ => (10%Z, s)
  end.

(** [underscoreOK]: what came last, a digit (or the prefix), an underscore, or
    neither. *)
Inductive Last := LStart | LDigit | LUnder | LOther.

Fixpoint underscore_go (hex : bool) (last : Last) (s : string) : bool :=
  match s with
  | EmptyString => match last with LUnder => false | _ => true end
  | String c s =>
      if match alnum_val c with Some d => (d <? 10)%Z || (hex && (d <? 16)%Z) | None => false end then underscore_go hex LDigit s
      else if (c =? "_")%char then match last with LDigit => underscore_go hex LUnder s | _ => false end
      else match last with LUnder => false | _ => underscore_go hex LOther s end
  end.

Definition underscoreOK (s : string) : bool :=
  match s with
  | String "0" (String b r) =>
      let l := lower_char b in
      if (l =? "b")%char || (l =? "o")%char || (l =? "x")%char then underscore_go (l =? "x")%char LDigit r
      else underscore_go false LStart s
  | _ => underscore_go false LStart s
  end.

(** [strconv.ParseInt(s, 0, 64)]. *)
Definition ParseInt0 (s : string) : option Z :=
  let '(neg, body) :=
    match s with
    | String "-" r => (true, r)
    | String "+" r => (false, r)
    | _ => (false, s)
    end in
  match body with
  | EmptyString => None
  | _ =>
      let '(base, ds) := base_prefix body in
      match digits_in base 0 ds with
      | None => None
      | Some v =>
          if has_char "_" body && negb (underscoreOK body) then None
          else let v := if neg then (- v)%Z else v in
               if (min_int64 <=? v)%Z && (v <=? max_int64)%Z then Some v else None
      end
  end.

Definition ParseBool (s : string) : option bool :=
  if existsb (String.eqb s) ["1"; "t"; "T"; "true"; "TRUE"; "True"] then Some true
  else if existsb (String.eqb s) ["0"; "f"; "F"; "false"; "FALSE"; "False"] then Some false
  else None.

Example ParseInt0_cases :
  map ParseInt0 ["8080"; "0"; "0x1F"; "010"; "1_000"; "-5"; "0b11"; "_1"; "1__0"; "12a"; ""]
    = [Some 8080; Some 0; Some 31; Some 8; Some 1000; Some (-5); Some 3; None; None; None; None]%Z.
Proof. vm_compute. reflexivity. Qed.

(** ** Flag sets *)

(** The value of a flag; its constructor is the type it was declared with. *)
Inductive FlagValue := FString (s : string) | FInt (n : Z) | FBool (b : bool) | FDuration (d : Z).

(** The declared flags with their current values. *)
Definition FlagSet : Type := gmap string FlagValue.

(** [Value.Set] *)
Definition set_value (current : FlagValue) (s : string) : option FlagValue :=
  match current with
  | FString _ => Some (FString s)
  | FInt _ => FInt <$> ParseInt0 s
  | FBool _ => FBool <$> ParseBool s
  | FDuration _ => FDuration <$> ParseDuration s
  end.

(** One argument: not a flag (parsing stops, with or without consuming it), bad
    syntax, or a name and perhaps a value. *)
Inductive Arg := ArgStop (consumed : bool) | ArgBad | ArgFlag (name : string) (value : option string).

Definition parseArg (s : string) : Arg :=
  match s with
  | String "-" (String c r) =>
      let name := if (c =? "-")%char then r else String c r in
      if (c =? "-")%char && (r =? "") then ArgStop true
      else match name with
           | EmptyString => ArgBad
           | String d _ =>
               if (d =? "-")%char || (d =? "=")%char then ArgBad
               else match Index name "=" with
                    | Some i => ArgFlag (stake i name) (Some (sdrop (S i) name))
                    | None => ArgFlag name None
                    end
           end
  | _ => ArgStop false
  end.

(** The flags after parsing and the arguments left, or the exit code. *)
Inductive Parsed := POk (fs : FlagSet) (rest : list string) | PExit (code : Z).

Fixpoint Parse (fs : FlagSet) (args : list string) : Parsed :=
  match args with
  | [] => POk fs []
  | a :: rest =>
      match parseArg a with
      | ArgStop consumed => POk fs (if consumed then rest else args)
      | ArgBad => PExit 2
      | ArgFlag name value =>
          match fs !! name with
          | None => PExit (if (name =? "help") || (name =? "h") then 0 else 2)
          | Some current =>
              match value, current, rest with
              | Some v, _, _ => match set_value current v with Some x => Parse (<[name := x]> fs) rest | None => PExit 2 end
              | None, FBool _, _ => Parse (<[name := FBool true]> fs) rest
              | None, _, v :: rest => match set_value current v with Some x => Parse (<[name := x]> fs) rest | None => PExit 2 end
              | None, _, [] => PExit 2
              end
          end
      end
  end.

(** Reading a flag: the variable it was declared with. *)
Definition flag_string (fs : FlagSet) (name : string) : string := match fs !! name with Some (FString s) => s | _ => "" end.
Definition flag_int (fs : FlagSet) (name : string) : Z := match fs !! name with Some (FInt n) => n | _ => 0 end.
Definition flag_bool (fs : FlagSet) (name : string) : bool := match fs !! name with Some (FBool b) => b | _ => false end.
Definition flag_duration (fs : FlagSet) (name : string) : Z := match fs !! name with Some (FDuration d) => d | _ => 0 end.

(** ** Lemmas *)

(** The name of a flag as the code writes them: no dash first and no equal sign. *)
Definition plain_name (name : string) : bool :=
  match name with EmptyString => false | String c _ => negb (c =? "-")%char && negb (has_char "=" name) end.

Lemma Index_eq_app name v : has_char "=" name = false → Index (name +:+ "=" +:+ v) "=" = Some (slen name).
Proof.
  induction name as [|c name IH]; intros Hc; [by destruct v|]. cbn [has_char] in Hc. apply orb_false_iff in Hc as [Hc Hn].
  change (String c name +:+ "=" +:+ v) with (String c (name +:+ "=" +:+ v)). cbn [Index].
  assert (HasPrefix (String c (name +:+ "=" +:+ v)) "=" = false) as ->.
  { unfold HasPrefix. cbn [String.prefix]. destruct (ascii_dec "=" c) as [<-|]; [discriminate Hc|reflexivity]. }
  by rewrite IH.
Qed.

Lemma stake_app_l a b : stake (slen a) (a +:+ b) = a.
Proof. induction a as [|c a IH]; [by destruct b|]. change (String c (stake (slen a) (a +:+ b)) = String c a). by rewrite IH. Qed.

Lemma parseArg_value name v : plain_name name = true → parseArg ("--" +:+ name +:+ "=" +:+ v) = ArgFlag name (Some v).
Proof.
  intros Hn. destruct name as [|c name]; [done|]. cbn [plain_name] in Hn. apply andb_true_iff in Hn as [Hd%negb_true_iff He%negb_true_iff].
  change (parseArg (String "-" (String "-" (String c name +:+ "=" +:+ v))) = ArgFlag (String c name) (Some v)).
  unfold parseArg. cbn [Ascii.eqb Bool.eqb andb].
  change ((String c name +:+ "=" +:+ v =? "")) with false. cbv iota.
  change (String c name +:+ "=" +:+ v) with (String c (name +:+ "=" +:+ v)) at 1. cbv iota.
  pose proof He as He'. cbn [has_char] in He'. apply orb_false_iff in He' as [Hc _].
  rewrite Hd, Hc. cbn [orb]. rewrite (Index_eq_app (String c name) v He), stake_app_l. f_equal. f_equal.
  assert (∀ a, sdrop (S (slen a)) (a +:+ "=" +:+ v) = v) as Hdrop; [|apply Hdrop].
  { induction a as [|x a IH]; [done|]. exact IH. }
Qed.

(** An argument [--name=value] for a declared flag. *)
Lemma Parse_arg fs a name v x args current :
  parseArg a = ArgFlag name (Some v) → fs !! name = Some current → set_value current v = Some x →
  Parse fs (a :: args) = Parse (<[name := x]> fs) args.
Proof. intros Ha Hf Hs. cbn [Parse]. by rewrite Ha, Hf, Hs. Qed.

(** ** Decimal numbers *)

Lemma digits_in_decimal s acc : digits s = true → digits_in 10 acc s = parse_digits acc s.
Proof.
  revert acc. induction s as [|c s IH]; intros acc; [done|]. cbn [digits digits_in parse_digits]. intros [Hc Hs]%andb_true_iff.
  assert ((c =? "_")%char = false ∧ alnum_val c = digit_val c ∧ ∃ d, digit_val c = Some d ∧ (d <? 10)%Z = true) as (-> & -> & d & -> & ->).
  { destruct c as [[] [] [] [] [] [] [] []]; try discriminate Hc; (split; [done|]); (split; [done|]); eexists; (split; [reflexivity|done]). }
  by apply IH.
Qed.

Lemma digits_no_underscore s : digits s = true → has_char "_" s = false.
Proof.
  induction s as [|c s IH]; [done|]. cbn [digits has_char]. intros [Hc Hs]%andb_true_iff. rewrite (IH Hs), orb_false_r.
  by destruct c as [[] [] [] [] [] [] [] []].
Qed.

(** A positive number is written without leading zero. *)
Lemma pretty_head x s : (0 < x)%N → ∃ c r, pretty_N_go x s = String c r ∧ (c =? "0")%char = false.
Proof.
  revert s. induction (N.lt_wf_0 x) as [x _ IH]; intros s Hx. rewrite pretty_N_go_step by done.
  destruct (decide (0 < x / 10)%N) as [Hd|Hd]; [apply IH; [by apply N.div_lt|done]|].
  assert (x / 10 = 0)%N as Hz by (by apply N.le_0_r, N.nlt_ge). rewrite Hz. assert (x < 10)%N as Hlt by (by apply N.div_small_iff in Hz).
  rewrite N.mod_small by done. exists (pretty_N_char x), s. split; [done|].
  destruct x as [|p]; [lia|]. do 4 (destruct p as [p|p|]; try done; try lia).
Qed.

Lemma parse_digits_Itoa p : (0 <= p)%Z → parse_digits 0 (Itoa p) = Some p.
Proof.
  intros Hp. destruct p as [|p|p]; [done| |lia]. change (Itoa (Z.pos p)) with (pretty (N.pos p)).
  unfold pretty, pretty_N. rewrite decide_False by done. by rewrite parse_pretty.
Qed.

Lemma ParseInt0_Itoa p : (0 <= p <= max_int64)%Z → ParseInt0 (Itoa p) = Some p.
Proof.
  intros [H0 Hmax]. destruct (decide (p = 0)%Z) as [->|Hne]; [done|].
  pose proof (Itoa_digits p H0) as Hd. pose proof (parse_digits_Itoa p H0) as Hv. pose proof (digits_no_underscore _ Hd) as Hu.
  assert (∃ c r, Itoa p = String c r ∧ (c =? "0")%char = false) as (c & r & He & Hc).
  { destruct p as [|p|p]; [done| |lia]. change (Itoa (Z.pos p)) with (pretty (N.pos p)). unfold pretty, pretty_N.
    rewrite decide_False by done. by apply pretty_head. }
  rewrite He in *. assert (ParseInt0 (String c r) = match digits_in 10 0 (String c r) with
    | None => None
    | Some v => if has_char "_" (String c r) && negb (underscoreOK (String c r)) then None
                else if (min_int64 <=? v)%Z && (v <=? max_int64)%Z then Some v else None end) as ->.
  { cbn [digits] in Hd. apply andb_true_iff in Hd as [Hdc _]. destruct c as [[] [] [] [] [] [] [] []]; try discriminate Hdc; try discriminate Hc; reflexivity. }
  rewrite (digits_in_decimal _ _ Hd), Hv, Hu. cbn [andb]. unfold min_int64 in *.
  destruct (Z.leb_spec (- 2 ^ 63) p), (Z.leb_spec p max_int64); [done|lia..].
Qed.
