(* ===== verification/ServeMux.v ===== *)
(** * Request routing

    [http.ServeMux] for the patterns the program registers, and the muxes of the
    servers: the webhook gateway's ([cmd/webhook-gateway/main.go]), the executor's
    ([internal/executor/http/server.go] and the health server of
    [cmd/http-executor/main.go]) and the health servers of the broker gateways. *)

From S2P Require Import Prelude SecretIndex GoStd Effects Net Ssrf Executor Webhook AccessLog.

Local Open Scope string_scope.
Local Open Scope list_scope.
Local Open Scope go_scope.

(** ** [http.ServeMux] *)

(** [path.Clean] of a rooted path, by segments. *)
Fixpoint cleanSegments (segs out : list string) : list string :=
  match segs with
  | [] => rev out
  | s :: segs =>
      if (s =? "") || (s =? ".") then cleanSegments segs out
      else if (s =? "..") then cleanSegments segs (tail out)
      else cleanSegments segs (s :: out)
  end.

Definition cleanPath (p : string) : string :=
  if (p =? "") then "/"
  else
    let p := if HasPrefix p "/" then p else "/" +:+ p in
    let np := "/" +:+ Join (cleanSegments (split_char "/" p) []) "/" in
    if HasSuffix p "/" && negb (np =? "/") then np +:+ "/" else np.

(** A pattern: an optional method and a path, which stands for its subtree when it
    ends in a slash. *)
Record Pattern := MkPattern { pt_Method : string; pt_Path : string }.

Definition matchesPath (p : Pattern) (path : string) : bool :=
  if HasSuffix (pt_Path p) "/" then HasPrefix path (pt_Path p) else (path =? pt_Path p).

Definition matchesMethod (p : Pattern) (method : string) : bool :=
  (pt_Method p =? "") || (pt_Method p =? method) || ((pt_Method p =? "GET") && (method =? "HEAD")).

Inductive Routed (H : Type) := Found (h : H) | RedirectTo (path : string) | MethodNotAllowed | NotFound.
Arguments Found {_} _.
Arguments RedirectTo {_} _.
Arguments MethodNotAllowed {_}.
Arguments NotFound {_}.

(** The handler of a request whose path is the same escaped and unescaped.  The
    patterns of each mux here are disjoint, so at most one matches. *)
Definition route {H} (mux : list (Pattern * H)) (method path : string) : Routed H :=
  let cleaned := if (method =? "CONNECT") then path else cleanPath path in
  let found := List.find (λ x, matchesPath x.1 cleaned && matchesMethod x.1 method) mux in
  let slash := List.find (λ x, (pt_Path x.1 =? cleaned +:+ "/") && matchesMethod x.1 method) mux in
  match found, slash with
  | None, Some _ => RedirectTo (cleaned +:+ "/")
  | _, _ =>
      if negb (cleaned =? path) then RedirectTo cleaned
      else match found with
           | Some (_, h) => Found h
           | None => if existsb (λ x, matchesPath x.1 cleaned) mux then MethodNotAllowed else NotFound
           end
  end.

(** ** The muxes *)

Inductive GatewayRoute := HooksRoute | GatewayHealthz | GatewayReadyz.

Definition gatewayMux : list (Pattern * GatewayRoute) :=
  [(MkPattern "" "/hooks/", HooksRoute); (MkPattern "" "/healthz", GatewayHealthz); (MkPattern "" "/readyz", GatewayReadyz)].

Inductive ExecutorRoute := ExecuteRoute | HealthzRoute.

Definition executorMux : list (Pattern * ExecutorRoute) :=
  [(MkPattern "POST" "/execute", ExecuteRoute); (MkPattern "GET" "/healthz", HealthzRoute)].

Definition executorHealthMux : list (Pattern * ExecutorRoute) := [(MkPattern "GET" "/healthz", HealthzRoute)].

(** [Handler.ServeHealthz]; the broker gateways answer the same. *)
Definition ServeHealthz : HTTPReply := (200%Z, "ok").

Definition brokerHealthMux : list (Pattern * ExecutorRoute) := [(MkPattern "" "/healthz", HealthzRoute)].

(** ** The handler of the webhook gateway *)

Section gateway.
  Context `{WebLib} `{NetLib}.

Definition gatewayHandler (h : WebhookHandler) (r : Request) (alFields : option accessLogFields) : Prog GEv Served :=
  match route gatewayMux (rq_Method r) (rq_Path r) with
  | Found HooksRoute => ServeHTTP h r alFields
  | Found GatewayHealthz => Ret (ServeHealthz, alFields)
  | Found GatewayReadyz =>
      let! reg := emit GRoutes in
      Ret ((if synced reg then (200%Z, "ok") else (503%Z, "not ready")), alFields)
  | RedirectTo _ => Ret ((307%Z, "Temporary Redirect"), alFields)
  | MethodNotAllowed => Ret ((405%Z, "Method Not Allowed"), alFields)
  | NotFound => Ret ((404%Z, "404 page not found"), alFields)
  end.

(** What the server runs for a request. *)
Definition gatewayServed (h : WebhookHandler) (proxies : list IPNet) : Request → Prog GEv (HTTPReply * AccessLine) :=
  AccessLogMiddleware (gatewayHandler h) proxies.

End gateway.

Example routes_of_the_gateway :
  map (route gatewayMux "POST") ["/hooks/a"; "/hooks"; "/hooks//a"; "/hooks/../readyz"; "/healthz"; "/metrics"]
    = [Found HooksRoute; RedirectTo "/hooks/"; RedirectTo "/hooks/a"; RedirectTo "/readyz"; Found GatewayHealthz; NotFound].
Proof. vm_compute. reflexivity. Qed.

Example routes_of_the_executor :
  map (λ mp, route executorMux mp.1 mp.2) [("POST", "/execute"); ("GET", "/execute"); ("HEAD", "/healthz"); ("POST", "/healthz")]
    = [Found ExecuteRoute; MethodNotAllowed; Found HealthzRoute; MethodNotAllowed].
Proof. vm_compute. reflexivity. Qed.
