(* ===== verification/Startup.v ===== *)
(** * The main programs of the data plane

    The [main] functions of the webhook gateway, the HTTP executor, the broker
    gateways and the AWS plugin ([cmd/webhook-gateway/main.go],
    [cmd/http-executor/main.go], [cmd/kafka-gateway/main.go] and its two siblings,
    [cmd/aws-messaging-plugin/main.go]), with the [Start] functions of the watchers
    they run.  A main program is a program over the process's requests that ends
    with its exit code; a goroutine is a [Task] it starts, whose body is
    [taskBody]. *)

From S2P Require Import Prelude SecretIndex GoStd Effects Net Ssrf Kube Executor Webhook AccessLog AwsPlugin Flags ServeMux.

Local Open Scope string_scope.
Local Open Scope list_scope.
Local Open Scope go_scope.

(** [zap.ParseAtomicLevel], of a third-party package. *)
Class LogLib := { ParseAtomicLevel : string → option string }.

(** ** Servers *)

(** The registry behind [/metrics]: that of controller-runtime, which the metrics
    of the program are registered with, or the default one of the client library. *)
Inductive MetricsRegistry := CtrlRegistry | DefaultRegistry.

(** The handler of a server. *)
Inductive Mux :=
  | MuxGateway (h : WebhookHandler)
  | MuxExecutor (h : Handler)
  | MuxHealthz (routes : list (Pattern * ExecutorRoute))
  | MuxMetrics (r : MetricsRegistry).

Record Server := MkServer {
  sv_Addr : string;
  sv_Handler : Mux;
  sv_ReadHeaderTimeout : Z;
  sv_ReadTimeout : Z;
  sv_WriteTimeout : Z;
  sv_IdleTimeout : Z
}.

(** [tls.Config]: the client CAs are the PEM they were loaded from; with client
    CAs a verified client certificate is required. *)
Record TLSConf := MkTLSConf {
  tl_MinVersion : Z;
  tl_Certificate : option string;
  tl_ClientCAs : option string;
  (** [VerifyPeerCertificate] is the revocation check. *)
  tl_CheckRevoked : bool
}.

Definition VersionTLS12 : Z := 771.
Definition VersionTLS13 : Z := 772.

(** How serving ended: [http.ErrServerClosed] or another error. *)
Inductive ServeEnd := ServerClosed | ServeFailed (e : gerr).

(** The transport a server listens with: plain, the key pair of two files, or a
    key pair loaded before. *)
Inductive Listener :=
  | ListenPlain
  | ListenFiles (cfg : TLSConf) (certFile keyFile : string)
  | ListenPair (cfg : TLSConf).

(** ** Processes *)

(** The kinds of object an informer watches. *)
Inductive Watched := KTrigger | KSecret | KIntegration | KConfigMap.

(** The watcher of a process: the namespace its cache is restricted to (none:
    every namespace) and, for the webhook gateway, the CRL ConfigMap. *)
Inductive WatcherKind := WebhookWatch | KafkaWatch | AmqpWatch | NatsWatch.
Record WatcherConf := MkWatcherConf { wc_Kind : WatcherKind; wc_Namespace : option string; wc_CRL : string }.

Inductive Task :=
  | TaskWatcher (w : WatcherConf)
  | TaskGateway (srv : Server) (certFile keyFile caFile : string)
  | TaskMetrics (srv : Server) (certFile keyFile : string)
  | TaskHealth (srv : Server)
  | TaskExecutorHealth (srv : Server)
  | TaskExecutor (srv : Server) (mtls : bool) (certFile keyFile caFile : string)
  | TaskCache
  | TaskCRLStaleness
  | TaskPluginServer (name : string) (srv : HTTPServer).

Inductive SEv : Type → Type :=
  | SGetenv (name : string) : SEv string
  | SBuildLogger (level : option string) : SEv (option gerr)
  (** [ctrl.GetConfigOrDie] (which ends the process on an error),
      [ctrl.GetConfig], [rest.InClusterConfig]. *)
  | SGetConfig : SEv (option gerr)
  | SNewClient : SEv (option gerr)
  (** The parts of a watcher. *)
  | SHTTPClient : SEv (option gerr)
  | SRESTMapper : SEv (option gerr)
  | SNewCache (namespace : option string) : SEv (option gerr)
  | SClientset : SEv (option gerr)
  | SGo (t : Task) : SEv unit
  | SReadFile (f : string) : SEv (result string)
  | SLoadKeyPair (certFile keyFile : string) : SEv (result string)
  | SListen (addr : string) (l : Listener) : SEv (option gerr)
  (** Serve until closed; for [ListenFiles] opening the listener included. *)
  | SServe (srv : Server) (l : Listener) : SEv ServeEnd
  | SWaitSignal : SEv unit
  | SCtxDone : SEv unit
  | SShutdown (srv : Server) (timeout : Z) : SEv (option gerr)
  | SCancel : SEv unit
  (** Informers. *)
  | SGetInformer (k : Watched) : SEv (option gerr)
  | SAddHandler (k : Watched) (deletes : bool) : SEv (option gerr)
  | SCacheSync : SEv bool
  | SMarkSynced : SEv unit
  (** [cache.Start] and the loop of [watchCRLStaleness] (its turn is in file Crl). *)
  | SRunCache : SEv (option gerr)
  | SRunStaleness : SEv unit
  | SStopSubscriptions : SEv unit
  (** The AWS plugin: its clients, files and servers, and what it waits for: the
      context or a failed server. *)
  | SLoadAWSConfig (region accessKeyID secretAccessKey sessionToken : string) : SEv (option gerr)
  | SFile {X} (e : FileEv X) : SEv X
  | SServePlugin (srv : HTTPServer) : SEv ServeEnd
  | SSendError (e : gerr) : SEv unit
  | SSetStarted : SEv unit
  | SWaitServers : SEv (option gerr)
  | SStopSubscriber : SEv unit
  | SShutdownPlugin (srv : HTTPServer) (timeout : Z) : SEv (option gerr).

(** A goroutine returns, or ends the process. *)
Inductive TaskEnd := TaskReturned | TaskExit (code : Z).

Section startup.
  Context `{HttpLib} `{LogLib}.

(** Continue unless there was an error; the process then ends with status 1. *)
Definition orExit (p : Prog SEv (option gerr)) (k : Prog SEv Z) : Prog SEv Z :=
  let! e := p in match e with Some _ => Ret 1%Z | None => k end.

(** The same in a function that returns the error. *)
Definition orWrap (msg : string) (p : Prog SEv (option gerr)) (k : Prog SEv (option gerr)) : Prog SEv (option gerr) :=
  let! e := p in match e with Some e => Ret (Some (wrapf msg e)) | None => k end.

(** The logger: an unknown level is replaced by info. *)
Definition gatewayLogger (logLevel : string) : Prog SEv (option gerr) :=
  emit (SBuildLogger (Some (match ParseAtomicLevel logLevel with Some l => l | None => "info" end))).

(** ** Watchers *)

(** A cache restricted to the namespace. *)
Definition newWatchCache (w : WatcherConf) (rest : Prog SEv (option gerr)) : Prog SEv (option gerr) :=
  orWrap "unable to create HTTP client for REST config: " (emit SHTTPClient)
    (orWrap "unable to create REST mapper: " (emit SRESTMapper)
       (orWrap "unable to create cache: " (emit (SNewCache (wc_Namespace w))) rest)).

Definition NewTriggerWatcher (w : WatcherConf) : Prog SEv (option gerr) := newWatchCache w (Ret None).

(** The broker gateways also have an event recorder. *)
Definition newBrokerWatcher (w : WatcherConf) : Prog SEv (option gerr) :=
  newWatchCache w (orWrap "unable to create clientset for event recorder: " (emit SClientset) (Ret None)).

Definition NewKafkaWatcher (ns : option string) : Prog SEv (option gerr) := newBrokerWatcher (MkWatcherConf KafkaWatch ns "").
Definition NewAmqpWatcher (ns : option string) : Prog SEv (option gerr) := newBrokerWatcher (MkWatcherConf AmqpWatch ns "").
Definition NewNatsWatcher (ns : option string) : Prog SEv (option gerr) := newBrokerWatcher (MkWatcherConf NatsWatch ns "").

Definition NewWatcher (w : WatcherConf) : Prog SEv (option gerr) :=
  match wc_Kind w with
  | WebhookWatch => NewTriggerWatcher w
  | KafkaWatch => NewKafkaWatcher (wc_Namespace w)
  | AmqpWatch => NewAmqpWatcher (wc_Namespace w)
  | NatsWatch => NewNatsWatcher (wc_Namespace w)
  end.

(** [GetInformer] and [AddEventHandler]; the flag says whether deletions are
    handled. *)
Definition watchKind (k : Watched) (name : string) (deletes : bool) (rest : Prog SEv (option gerr)) : Prog SEv (option gerr) :=
  orWrap ("unable to get " +:+ name +:+ " informer: ") (emit (SGetInformer k))
    (orWrap ("adding " +:+ name +:+ " event handler: ") (emit (SAddHandler k deletes)) rest).

Definition startCache (synced : Prog SEv (option gerr)) : Prog SEv (option gerr) :=
  let! _ := emit (SGo TaskCache) in
  let! ok := emit SCacheSync in
  match ok with
  | false => Ret (Some (errorf "timed out waiting for initial cache sync"))
  | true => synced
  end.

Definition webhookWatcherStart (crlConfigMapName : string) : Prog SEv (option gerr) :=
  let crl := negb (crlConfigMapName =? "") in
  let started :=
    startCache
      (let! _ := emit SMarkSynced in
       let! _ := (if crl then emit (SGo TaskCRLStaleness) else Ret tt) in
       let! _ := emit SCtxDone in
       Ret None) in
  watchKind KTrigger "trigger" true
    (watchKind KSecret "secret" false
       (if crl then watchKind KConfigMap "configmap" false started else started)).

Definition brokerWatcherStart : Prog SEv (option gerr) :=
  watchKind KTrigger "trigger" true
    (watchKind KSecret "secret" false
       (watchKind KIntegration "integration" false
          (startCache
             (let! _ := emit SCtxDone in
              let! _ := emit SStopSubscriptions in
              Ret None)))).

Definition kafkaWatcherStart : Prog SEv (option gerr) := brokerWatcherStart.
Definition amqpWatcherStart : Prog SEv (option gerr) := brokerWatcherStart.
Definition natsWatcherStart : Prog SEv (option gerr) := brokerWatcherStart.

Definition watcherStart (w : WatcherConf) : Prog SEv (option gerr) :=
  match wc_Kind w with
  | WebhookWatch => webhookWatcherStart (wc_CRL w)
  | KafkaWatch => kafkaWatcherStart
  | AmqpWatch => amqpWatcherStart
  | NatsWatch => natsWatcherStart
  end.

(** An empty namespace leaves the cache unrestricted. *)
Definition cacheNamespace (ns : string) : option string := if (ns =? "") then None else Some ns.

(** ** The webhook gateway *)

Definition webhookGatewayFlags : FlagSet :=
  list_to_map
    [("port", FInt 8080); ("metrics-port", FInt 9090); ("namespace", FString ""); ("log-level", FString "info");
     ("tls-cert-file", FString ""); ("tls-key-file", FString ""); ("mtls-ca-file", FString ""); ("crl-configmap-name", FString "");
     ("metrics-tls-cert-file", FString ""); ("metrics-tls-key-file", FString ""); ("trusted-proxy-cidrs", FString "");
     ("max-stored-body-bytes", FInt 0)].

(** The goroutine of the server. *)
Definition gatewayServe (srv : Server) (certFile keyFile caFile : string) : Prog SEv TaskEnd :=
  let serve (l : Listener) :=
    let! e := emit (SServe srv l) in
    match e with
    | ServeFailed _ => let! _ := emit SCancel in Ret TaskReturned
    | ServerClosed => Ret TaskReturned
    end in
  if negb (certFile =? "") && negb (keyFile =? "") then
    if (caFile =? "") then serve (ListenFiles (MkTLSConf VersionTLS12 None None false) certFile keyFile)
    else
      let! ca := emit (SReadFile caFile) in
      match ca with
      | Err _ => let! _ := emit SCancel in Ret TaskReturned
      | Ok caPEM => serve (ListenFiles (MkTLSConf VersionTLS12 None (Some caPEM) true) certFile keyFile)
      end
  else serve ListenPlain.

Definition metricsServe (srv : Server) (certFile keyFile : string) : Prog SEv TaskEnd :=
  let l := if negb (certFile =? "") && negb (keyFile =? "") then ListenFiles (MkTLSConf 0 None None false) certFile keyFile
           else ListenPlain in
  let! _ := emit (SServe srv l) in Ret TaskReturned.

Definition gatewayServer (port : Z) (h : WebhookHandler) : Server :=
  MkServer (":" +:+ Itoa port) (MuxGateway h) (10 * Second) (30 * Second) (30 * Second) (120 * Second).

Definition metricsServer (port : Z) (r : MetricsRegistry) : Server := MkServer (":" +:+ Itoa port) (MuxMetrics r) 0 0 0 0.

(** The namespace to watch: the flag, or the variable of a standalone process. *)
Definition watchedNamespace (flag env : string) : string := if (flag =? "") then TrimSpace env else flag.

Definition serveGateway (fs : FlagSet) (trustedProxies : list IPNet) : Prog SEv Z :=
  let srv := gatewayServer (flag_int fs "port") (NewWebhookHandler trustedProxies (flag_int fs "max-stored-body-bytes")) in
  let metricsSrv := metricsServer (flag_int fs "metrics-port") CtrlRegistry in
  let! _ := emit (SGo (TaskGateway srv (flag_string fs "tls-cert-file") (flag_string fs "tls-key-file") (flag_string fs "mtls-ca-file"))) in
  let! _ := emit (SGo (TaskMetrics metricsSrv (flag_string fs "metrics-tls-cert-file") (flag_string fs "metrics-tls-key-file"))) in
  let! _ := emit SWaitSignal in
  orExit (emit (SShutdown srv (10 * Second)))
    (let! _ := emit (SShutdown metricsSrv (10 * Second)) in
     let! _ := emit SCancel in
     Ret 0%Z).

Definition webhookGatewayMain (args : list string) : Prog SEv Z :=
  match Parse webhookGatewayFlags args with
  | PExit code => Ret code
  | POk fs _ =>
      match ParseTrustedProxyCIDRs (flag_string fs "trusted-proxy-cidrs") with
      | Err _ => Ret 1%Z
      | Ok trustedProxies =>
          orExit (gatewayLogger (flag_string fs "log-level"))
            (let! watchNS := emit (SGetenv "WATCH_NAMESPACES") in
             if (watchNS =? "*") then Ret 1%Z
             else
               let w := MkWatcherConf WebhookWatch (cacheNamespace (watchedNamespace (flag_string fs "namespace") watchNS))
                          (flag_string fs "crl-configmap-name") in
               orExit (emit SGetConfig)
                 (orExit (emit SNewClient)
                    (orExit (NewWatcher w)
                       (let! _ := emit (SGo (TaskWatcher w)) in serveGateway fs trustedProxies))))
      end
  end.

(** ** The HTTP executor *)

Definition httpExecutorFlags : FlagSet :=
  list_to_map
    [("port", FInt 8091); ("health-port", FInt 8092); ("blocked-cidrs", FString ""); ("body-limit-bytes", FInt 4096);
     ("allow-tls-skip-verify", FBool false); ("ssrf-allow-in-cluster", FBool false); ("mtls", FBool false);
     ("tls-cert-file", FString ""); ("tls-key-file", FString ""); ("tls-ca-file", FString ""); ("log-level", FString "info")].

(** The goroutine of the executor's server. *)
Definition executorServe (srv : Server) (mtls : bool) (certFile keyFile caFile : string) : Prog SEv TaskEnd :=
  let fail : Prog SEv TaskEnd := Ret (TaskExit 1) in
  let listen (l : Listener) :=
    let! e := emit (SListen (sv_Addr srv) l) in
    match e with
    | Some _ => fail
    | None => let! e := emit (SServe srv l) in match e with ServeFailed _ => fail | ServerClosed => Ret TaskReturned end
    end in
  if mtls then
    let! serverCert := emit (SLoadKeyPair certFile keyFile) in
    match serverCert with
    | Err _ => fail
    | Ok serverCert =>
        let! caPEM := emit (SReadFile caFile) in
        match caPEM with
        | Err _ => fail
        | Ok caPEM => if negb (AppendCertsFromPEM caPEM) then fail
                      else listen (ListenPair (MkTLSConf VersionTLS13 (Some serverCert) (Some caPEM) false))
        end
    end
  else listen ListenPlain.

Definition executorHealthServe (srv : Server) : Prog SEv TaskEnd :=
  let! e := emit (SServe srv ListenPlain) in
  Ret (match e with ServeFailed _ => TaskExit 1 | ServerClosed => TaskReturned end).

Definition executorHandler (fs : FlagSet) (cidrs : list IPNet) : Handler :=
  MkHandler (Some cidrs) (flag_int fs "body-limit-bytes") (flag_bool fs "allow-tls-skip-verify") (flag_bool fs "ssrf-allow-in-cluster").

Definition executorServer (port : Z) (h : Handler) : Server :=
  MkServer ("0.0.0.0:" +:+ Itoa port) (MuxExecutor h) 0 (60 * Second) (360 * Second) (120 * Second).

Definition executorHealthServer (port : Z) : Server := MkServer ("0.0.0.0:" +:+ Itoa port) (MuxHealthz executorHealthMux) 0 (5 * Second) (5 * Second) 0.

Definition serveExecutor (fs : FlagSet) (cidrs : list IPNet) : Prog SEv Z :=
  let srv := executorServer (flag_int fs "port") (executorHandler fs cidrs) in
  let healthSrv := executorHealthServer (flag_int fs "health-port") in
  let! _ := emit (SGo (TaskExecutorHealth healthSrv)) in
  let! _ := emit (SGo (TaskExecutor srv (flag_bool fs "mtls") (flag_string fs "tls-cert-file") (flag_string fs "tls-key-file")
                         (flag_string fs "tls-ca-file"))) in
  let! _ := emit SWaitSignal in
  let! _ := emit (SShutdown healthSrv (15 * Second)) in
  orExit (emit (SShutdown srv (15 * Second))) (Ret 0%Z).

Definition missingTLSFile (fs : FlagSet) : bool :=
  (flag_string fs "tls-cert-file" =? "") || (flag_string fs "tls-key-file" =? "") || (flag_string fs "tls-ca-file" =? "").

Definition httpExecutorMain (args : list string) : Prog SEv Z :=
  match Parse httpExecutorFlags args with
  | PExit code => Ret code
  | POk fs _ =>
      orExit (gatewayLogger (flag_string fs "log-level"))
        (if flag_bool fs "mtls" && missingTLSFile fs then Ret 1%Z
         else match Executor.ParseCIDRList (flag_string fs "blocked-cidrs") with
              | Err _ => Ret 1%Z
              | Ok cidrs => serveExecutor fs cidrs
              end)
  end.

(** ** The broker gateways *)

Definition brokerGatewayFlags : FlagSet :=
  list_to_map
    [("namespace", FString ""); ("log-level", FString "info"); ("metrics-port", FInt 9090); ("metrics-tls-cert-file", FString "");
     ("metrics-tls-key-file", FString ""); ("health-port", FInt 8090)].

(** The registry each of them exposes. *)
Definition brokerRegistry (k : WatcherKind) : MetricsRegistry := match k with KafkaWatch => CtrlRegistry | _ => DefaultRegistry end.

Definition brokerHealthServer (port : Z) : Server := MkServer (":" +:+ Itoa port) (MuxHealthz brokerHealthMux) 0 0 0 0.

Definition serveBroker (k : WatcherKind) (fs : FlagSet) : Prog SEv Z :=
  let metricsSrv := metricsServer (flag_int fs "metrics-port") (brokerRegistry k) in
  let healthSrv := brokerHealthServer (flag_int fs "health-port") in
  let w := MkWatcherConf k (cacheNamespace (flag_string fs "namespace")) "" in
  let! _ := emit (SGo (TaskMetrics metricsSrv (flag_string fs "metrics-tls-cert-file") (flag_string fs "metrics-tls-key-file"))) in
  let! _ := emit (SGo (TaskHealth healthSrv)) in
  let! watchNS := emit (SGetenv "WATCH_NAMESPACES") in
  if (watchNS =? "*") then Ret 1%Z
  else orExit (NewWatcher w)
         (let! _ := emit (SGo (TaskWatcher w)) in
          let! _ := emit SWaitSignal in
          let! _ := emit (SShutdown metricsSrv (5 * Second)) in
          let! _ := emit (SShutdown healthSrv (5 * Second)) in
          Ret 0%Z).

Definition brokerGatewayMain (k : WatcherKind) (args : list string) : Prog SEv Z :=
  match Parse brokerGatewayFlags args with
  | PExit code => Ret code
  | POk fs _ =>
      orExit (gatewayLogger (flag_string fs "log-level"))
        (orExit (emit SGetConfig) (orExit (emit SNewClient) (serveBroker k fs)))
  end.

Definition kafkaGatewayMain : list string → Prog SEv Z := brokerGatewayMain KafkaWatch.
Definition amqpGatewayMain : list string → Prog SEv Z := brokerGatewayMain AmqpWatch.
Definition natsGatewayMain : list string → Prog SEv Z := brokerGatewayMain NatsWatch.

(** ** The AWS plugin *)

(** A program over files, as part of the process. *)
Fixpoint withFiles {A} (p : Prog FileEv A) : Prog SEv A :=
  match p with
  | Ret a => Ret a
  | Vis e k => Vis (SFile e) (λ x, withFiles (k x))
  end.

Definition NewAWSConfig (c : Config) : Prog SEv (option gerr) :=
  orWrap "loading AWS config: "
    (emit (SLoadAWSConfig (cf_Region c) (cf_AccessKeyID c) (cf_SecretAccessKey c) (cf_SessionToken c))) (Ret None).

Definition Servers_Start (s : Servers) : Prog SEv unit :=
  let! _ := emit (SGo (TaskPluginServer "publisher" (sr_Publisher s))) in
  match sr_Health s with Some h => emit (SGo (TaskPluginServer "health" h)) | None => Ret tt end.

Definition Servers_Shutdown (s : Servers) (timeout : Z) : Prog SEv unit :=
  let! _ := emit (SShutdownPlugin (sr_Publisher s) timeout) in
  match sr_Health s with Some h => let! _ := emit (SShutdownPlugin h timeout) in Ret tt | None => Ret tt end.

Definition pluginServe (name : string) (srv : HTTPServer) : Prog SEv TaskEnd :=
  let! e := emit (SServePlugin srv) in
  match e with
  | ServeFailed e => let! _ := emit (SSendError (wrapf (name +:+ " server: ") e)) in Ret TaskReturned
  | ServerClosed => Ret TaskReturned
  end.

(** From the start of the servers on. *)
Definition servePlugin (servers : Servers) : Prog SEv (option gerr) :=
  let! _ := Servers_Start servers in
  orWrap "trigger informer: " (emit (SGetInformer KTrigger))
    (orWrap "adding trigger event handler: " (emit (SAddHandler KTrigger true))
       (let! _ := emit (SGo TaskCache) in
        let! ok := emit SCacheSync in
        match ok with
        | false => Ret (Some (errorf "timed out waiting for initial Trigger cache sync"))
        | true =>
            let! _ := emit SSetStarted in
            let! serveErr := emit SWaitServers in
            let! _ := emit SStopSubscriber in
            let! _ := Servers_Shutdown servers (10 * Second) in
            Ret serveErr
        end)).

Definition pluginRun `{AwsLib} (getenv : string → string) : Prog SEv (option gerr) :=
  match LoadConfig getenv with
  | Err e => Ret (Some (wrapf "invalid configuration: " e))
  | Ok cfg =>
      orWrap "building logger: " (emit (SBuildLogger (ParseAtomicLevel (cf_LogLevel cfg))))
        (orWrap "in-cluster config: " (emit SGetConfig)
           (orWrap "kubernetes client: " (emit SNewClient)
              (orWrap "trigger cache: " (emit (SNewCache (Some (cf_Namespace cfg))))
                 (orWrap "" (NewAWSConfig cfg)
                    (orWrap "" (NewAWSConfig cfg)
                       (let! servers := withFiles (NewServers cfg) in
                        match servers with
                        | Err e => Ret (Some (wrapf "building HTTP servers: " e))
                        | Ok servers => servePlugin servers
                        end))))))
  end.

(** [main] *)
Definition pluginMain `{AwsLib} (getenv : string → string) : Prog SEv Z :=
  let! e := pluginRun getenv in Ret (match e with Some _ => 1%Z | None => 0%Z end).

(** ** Goroutines *)

Definition taskBody (t : Task) : Prog SEv TaskEnd :=
  match t with
  | TaskWatcher w => let! _ := watcherStart w in Ret TaskReturned
  | TaskGateway srv certFile keyFile caFile => gatewayServe srv certFile keyFile caFile
  | TaskMetrics srv certFile keyFile => metricsServe srv certFile keyFile
  | TaskHealth srv => let! _ := emit (SServe srv ListenPlain) in Ret TaskReturned
  | TaskExecutorHealth srv => executorHealthServe srv
  | TaskExecutor srv mtls certFile keyFile caFile => executorServe srv mtls certFile keyFile caFile
  | TaskCache => let! _ := emit SRunCache in Ret TaskReturned
  | TaskCRLStaleness => let! _ := emit SRunStaleness in Ret TaskReturned
  | TaskPluginServer name srv => pluginServe name srv
  end.

End startup.
