(* ===== verification/StartupProps.v ===== *)
(** * The deployed processes

    What the containers the operator deploys do with the arguments it gives them:
    the servers each process opens, their transport and routes, and whether the
    probes of the container reach them. *)

From S2P Require Import Prelude SecretIndex GoStd Api Effects Net Ssrf Kube KObjects IntegrationCtl Executor Webhook AccessLog Crl AwsPlugin AwsDeployment CertUtil ClusterSpec ExecutorCtl GatewayDeploy Flags ServeMux Startup.

Local Open Scope string_scope.
Local Open Scope list_scope.
Local Open Scope go_scope.

(** ** Flags read back *)

(** An argument [--name=value], where the value may be open. *)
Ltac set_flag n v :=
  erewrite (Parse_arg _ _ n v);
  [|first [apply (parseArg_value n v); reflexivity | reflexivity]
   |rewrite ?lookup_insert_ne by done; reflexivity
   |first [cbn [set_value snd]; rewrite ParseInt0_Itoa by done; reflexivity | reflexivity]].

Ltac read_flag :=
  unfold flag_int, flag_string, flag_bool; rewrite ?lookup_insert_eq, ?lookup_insert_ne by done;
  repeat (rewrite lookup_insert_eq || rewrite lookup_insert_ne by done); try reflexivity; vm_compute; reflexivity.

Section executor.
  Context `{X509Lib}.
  Implicit Type r : ExecutorReconciler.

(** A file of the mounted Secret, when mTLS is on. *)
Definition mountedFile r (f : string) : string := if er_MTLSEnabled r then f else "".

Record executor_flags_ok r (fs : FlagSet) : Prop := {
  xf_port : flag_int fs "port" = executorPort r;
  xf_health : flag_int fs "health-port" = executorHealthPort;
  xf_cidrs : flag_string fs "blocked-cidrs" = "";
  xf_limit : flag_int fs "body-limit-bytes" = 4096%Z;
  xf_skip : flag_bool fs "allow-tls-skip-verify" = false;
  xf_allow : flag_bool fs "ssrf-allow-in-cluster" = er_SSRFAllowClusterInternal r;
  xf_mtls : flag_bool fs "mtls" = er_MTLSEnabled r;
  xf_cert : flag_string fs "tls-cert-file" = mountedFile r "/etc/kubezap/tls/tls.crt";
  xf_key : flag_string fs "tls-key-file" = mountedFile r "/etc/kubezap/tls/tls.key";
  xf_ca : flag_string fs "tls-ca-file" = mountedFile r "/etc/kubezap/tls/ca.crt"
}.

Lemma executor_flags r : (0 <= executorPort r <= max_int64)%Z →
  ∃ fs, Parse httpExecutorFlags (executorArgs r) = POk fs [] ∧ executor_flags_ok r fs.
Proof.
  intros Hp. unfold executorArgs. cbn [app].
  set_flag "port" (Itoa (executorPort r)). set_flag "health-port" (Itoa executorHealthPort).
  destruct (er_SSRFAllowClusterInternal r) eqn:Ha; destruct (er_MTLSEnabled r) eqn:Hm; cbn [app];
    try set_flag "ssrf-allow-in-cluster" "true";
    try (set_flag "mtls" "true"; set_flag "tls-cert-file" "/etc/kubezap/tls/tls.crt"; set_flag "tls-key-file" "/etc/kubezap/tls/tls.key";
         set_flag "tls-ca-file" "/etc/kubezap/tls/ca.crt");
    (eexists; split; [reflexivity|]); (split; unfold mountedFile; rewrite ?Ha, ?Hm; read_flag).
Qed.

End executor.

Definition gatewayFlag (on : bool) (v : string) : string := if on then v else "".

(** The CRL ConfigMap of a gateway that verifies client certificates. *)
Definition crlOf (t : WebhookGatewayTLSConfig) : string := gatewayFlag (mtlsCAOn t) (gw_CRLConfigMapName t).

Record gateway_flags_ok (ns : string) (t : WebhookGatewayTLSConfig) (fs : FlagSet) : Prop := {
  gf_port : flag_int fs "port" = webhookGatewayPort;
  gf_metrics : flag_int fs "metrics-port" = webhookGatewayMetricsPort;
  gf_ns : flag_string fs "namespace" = ns;
  gf_cert : flag_string fs "tls-cert-file" = gatewayFlag (tlsOn t) "/etc/webhook-tls/tls.crt";
  gf_key : flag_string fs "tls-key-file" = gatewayFlag (tlsOn t) "/etc/webhook-tls/tls.key";
  gf_ca : flag_string fs "mtls-ca-file" = gatewayFlag (mtlsCAOn t) "/etc/webhook-mtls-ca/ca.crt";
  gf_crl : flag_string fs "crl-configmap-name" = crlOf t;
  gf_mcert : flag_string fs "metrics-tls-cert-file" = "";
  gf_mkey : flag_string fs "metrics-tls-key-file" = "";
  gf_proxies : flag_string fs "trusted-proxy-cidrs" = "";
  gf_stored : flag_int fs "max-stored-body-bytes" = 0%Z
}.

Lemma gateway_flags ns t : ∃ fs, Parse webhookGatewayFlags (gatewayArgs ns t) = POk fs [] ∧ gateway_flags_ok ns t fs.
Proof.
  unfold gatewayArgs. cbn [app]. set_flag "port" "8080". set_flag "namespace" ns.
  assert (mtlsCAOn t = true → tlsOn t = true) as Himp by (unfold mtlsCAOn; by intros [? _]%andb_true_iff).
  destruct (tlsOn t) eqn:Ht, (mtlsCAOn t) eqn:Hm; try (by discriminate Himp); cbn [app andb negb];
    try (set_flag "tls-cert-file" "/etc/webhook-tls/tls.crt"; set_flag "tls-key-file" "/etc/webhook-tls/tls.key");
    try set_flag "mtls-ca-file" "/etc/webhook-mtls-ca/ca.crt";
    destruct (String.eqb_spec (gw_CRLConfigMapName t) "") as [Hc|Hc]; cbn [app negb];
    try set_flag "crl-configmap-name" (gw_CRLConfigMapName t);
    (eexists; split; [reflexivity|]); (split; unfold crlOf, gatewayFlag; rewrite ?Ht, ?Hm, ?Hc; read_flag).
Qed.

Record broker_flags_ok (ns : string) (fs : FlagSet) : Prop := {
  bf_ns : flag_string fs "namespace" = ns;
  bf_metrics : flag_int fs "metrics-port" = 9090%Z;
  bf_health : flag_int fs "health-port" = 8090%Z;
  bf_mcert : flag_string fs "metrics-tls-cert-file" = "";
  bf_mkey : flag_string fs "metrics-tls-key-file" = ""
}.

Lemma broker_flags ns : ∃ fs, Parse brokerGatewayFlags ["--namespace=" +:+ ns] = POk fs [] ∧ broker_flags_ok ns fs.
Proof. set_flag "namespace" ns. eexists; split; [reflexivity|]. split; read_flag. Qed.

(** ** What a process starts *)

(** The goroutines started so far, in order, and whether the process has come to
    the point where it waits for its end. *)
Record Boot := MkBoot { bt_started : list Task; bt_ready : bool }.

(** The requests of a main program: the environment is given; when [fine], no
    request fails. *)
Definition boot_spec (fine : bool) (env : string → string) : Spec SEv Boot := λ X e b Q,
  let answer (Q : option gerr → Boot → Prop) := ∀ x, (fine = true → x = None) → Q x b in
  match e in SEv X' return (X' → Boot → Prop) → Prop with
  | SGetenv name => λ Q, Q (env name) b
  | SGo t => λ Q, Q tt (MkBoot (bt_started b ++ [t]) (bt_ready b))
  | SWaitSignal => λ Q, Q tt (MkBoot (bt_started b) true)
  | SBuildLogger _ => answer
  | SGetConfig => answer
  | SNewClient => answer
  | SHTTPClient => answer
  | SRESTMapper => answer
  | SNewCache _ => answer
  | SClientset => answer
  | SShutdown _ _ => answer
  | _ => λ Q, ∀ x, Q x b
  end Q.

#[export] Instance boot_spec_mono fine env : MonoSpec (boot_spec fine env).
Proof. intros X e b P Q HPQ Hs. destruct e; cbn in *; eauto. Qed.

(** The process starts a prefix of these goroutines, all of them unless it ends
    with status 1 before, and all of them when no request fails. *)
Definition process_starts (env : string → string) (main : Prog SEv Z) (tasks : list Task) : Prop :=
  ∀ fine, wp (boot_spec fine env) main (MkBoot [] false) (λ code b,
    bt_started b `prefix_of` tasks ∧ (bt_ready b = true → bt_started b = tasks) ∧
    (bt_ready b = false → code = 1%Z) ∧ (fine = true → bt_ready b = true ∧ code = 0%Z)).

Section process.
  Context `{HttpLib} `{LogLib} `{X509Lib}.

(** A request that may fail, or a program of such requests. *)
Definition quiet fine env (p : Prog SEv (option gerr)) : Prop :=
  ∀ b, wp (boot_spec fine env) p b (λ e b', b' = b ∧ (fine = true → e = None)).

Lemma wp_orExit fine env p k b Q :
  quiet fine env p → (fine = false → Q 1%Z b) → wp (boot_spec fine env) k b Q → wp (boot_spec fine env) (orExit p k) b Q.
Proof.
  intros Hp Hone Hk. unfold orExit. apply wp_bind; [apply _|]. eapply wp_mono; [apply _| |apply Hp].
  intros [e|] b' [-> Hf]; [|done]. apply Hone. destruct fine; [discriminate (Hf eq_refl)|done].
Qed.

Lemma quiet_orWrap fine env msg p k : quiet fine env p → quiet fine env k → quiet fine env (orWrap msg p k).
Proof.
  intros Hp Hk b. unfold orWrap. apply wp_bind; [apply _|]. eapply wp_mono; [apply _| |apply Hp].
  intros [e|] b' [-> Hf]; [|apply Hk]. cbn [wp]. split; [done|]. intros Hfine. discriminate (Hf Hfine).
Qed.

Lemma quiet_Ret fine env : quiet fine env (Ret None).
Proof. by intros b. Qed.

Lemma quiet_NewWatcher fine env w : quiet fine env (NewWatcher w).
Proof.
  assert (∀ w k, quiet fine env k → quiet fine env (newWatchCache w k)) as Hc.
  { intros w' k Hk. unfold newWatchCache. repeat (apply quiet_orWrap; [intros b; cbn [wp emit boot_spec]; auto|]). done. }
  unfold NewWatcher. destruct (wc_Kind w); apply Hc; [apply quiet_Ret|..].
  all: apply quiet_orWrap; [intros b; cbn [wp emit boot_spec]; auto|apply quiet_Ret].
Qed.

Ltac quiet := first [apply quiet_NewWatcher | intros ?; cbn [wp emit boot_spec gatewayLogger]; auto].

(** The end of a run: the goroutines started and the code. *)
Ltac ended := cbn [wp bt_started bt_ready app]; split_and!; first [done | apply prefix_nil | by exists [] | by eexists | by intros].

(** *** The executor *)

Definition executorTasks (r : ExecutorReconciler) : list Task :=
  [TaskExecutorHealth (executorHealthServer executorHealthPort);
   TaskExecutor (executorServer (executorPort r)
                   (MkHandler (Some Executor.defaultSSRFBlockedCIDRs) 4096 false (er_SSRFAllowClusterInternal r)))
     (er_MTLSEnabled r) (mountedFile r "/etc/kubezap/tls/tls.crt") (mountedFile r "/etc/kubezap/tls/tls.key")
     (mountedFile r "/etc/kubezap/tls/ca.crt")].

Lemma executor_starts r env : (0 <= executorPort r <= max_int64)%Z →
  process_starts env (httpExecutorMain (executorArgs r)) (executorTasks r).
Proof.
  intros (fs & Hparse & [])%executor_flags fine. unfold httpExecutorMain. rewrite Hparse.
  apply wp_orExit; [quiet|intros ->; ended|].
  assert (flag_bool fs "mtls" && missingTLSFile fs = false) as ->.
  { unfold missingTLSFile. rewrite xf_mtls0, xf_cert0, xf_key0, xf_ca0. unfold mountedFile. by destruct (er_MTLSEnabled r). }
  rewrite xf_cidrs0. change (Executor.ParseCIDRList "") with (Ok Executor.defaultSSRFBlockedCIDRs). cbv iota beta.
  unfold serveExecutor, executorHandler. rewrite xf_port0, xf_health0, xf_limit0, xf_skip0, xf_allow0, xf_mtls0, xf_cert0, xf_key0, xf_ca0.
  cbn [wp pbind emit boot_spec app bt_started bt_ready]. intros x Hx. cbn [wp pbind emit boot_spec].
  apply wp_orExit; [quiet|intros ->; ended|ended].
Qed.

(** *** The webhook gateway *)

Definition gatewayTasks (ns : string) (t : WebhookGatewayTLSConfig) : list Task :=
  [TaskWatcher (MkWatcherConf WebhookWatch (Some ns) (crlOf t));
   TaskGateway (gatewayServer webhookGatewayPort (NewWebhookHandler [] 0)) (gatewayFlag (tlsOn t) "/etc/webhook-tls/tls.crt")
     (gatewayFlag (tlsOn t) "/etc/webhook-tls/tls.key") (gatewayFlag (mtlsCAOn t) "/etc/webhook-mtls-ca/ca.crt");
   TaskMetrics (metricsServer webhookGatewayMetricsPort CtrlRegistry) "" ""].

Lemma gateway_starts ns t env : ns ≠ "" → env "WATCH_NAMESPACES" ≠ "*" →
  process_starts env (webhookGatewayMain (gatewayArgs ns t)) (gatewayTasks ns t).
Proof.
  intros Hns Henv fine. destruct (gateway_flags ns t) as (fs & Hparse & []). unfold webhookGatewayMain. rewrite Hparse, gf_proxies0.
  change (ParseTrustedProxyCIDRs "") with (@Ok (list IPNet) []). cbv iota beta.
  apply wp_orExit; [quiet|intros ->; ended|]. cbn [wp pbind emit boot_spec]. rewrite (proj2 (String.eqb_neq _ _) Henv).
  do 3 (apply wp_orExit; [quiet|intros ->; ended|]).
  unfold serveGateway, watchedNamespace, cacheNamespace. rewrite gf_port0, gf_metrics0, gf_ns0, gf_cert0, gf_key0, gf_ca0, gf_crl0, gf_mcert0, gf_mkey0, gf_stored0.
  rewrite !(proj2 (String.eqb_neq _ _) Hns). cbn [wp pbind emit boot_spec app bt_started bt_ready].
  apply wp_orExit; [quiet|intros ->; ended|]. cbn [wp pbind emit boot_spec]. intros x Hx y. ended.
Qed.

(** *** The broker gateways *)

Definition brokerTasks (k : WatcherKind) (ns : string) : list Task :=
  [TaskMetrics (metricsServer 9090 (brokerRegistry k)) "" ""; TaskHealth (brokerHealthServer 8090);
   TaskWatcher (MkWatcherConf k (Some ns) "")].

Lemma broker_starts k ns env : ns ≠ "" → env "WATCH_NAMESPACES" ≠ "*" →
  process_starts env (brokerGatewayMain k ["--namespace=" +:+ ns]) (brokerTasks k ns).
Proof.
  intros Hns Henv fine. destruct (broker_flags ns) as (fs & Hparse & []). unfold brokerGatewayMain. rewrite Hparse.
  do 3 (apply wp_orExit; [quiet|intros ->; ended|]).
  unfold serveBroker, cacheNamespace. rewrite bf_ns0, bf_metrics0, bf_health0, bf_mcert0, bf_mkey0, (proj2 (String.eqb_neq _ _) Hns).
  cbn [wp pbind emit boot_spec app bt_started bt_ready]. rewrite (proj2 (String.eqb_neq _ _) Henv).
  apply wp_orExit; [quiet|intros ->; ended|]. cbn [wp pbind emit boot_spec app bt_started bt_ready]. intros x Hx y Hy. ended.
Qed.

(** ** What it listens on *)

(** The files of the container. *)
Record Mounted := MkMounted { mo_file : string → result string; mo_pair : string → string → result string }.

Definition mounted (m : Mounted) : ∀ X, SEv X → X → Prop := λ X e,
  match e in SEv X' return X' → Prop with
  | SReadFile f => λ x, x = mo_file m f
  | SLoadKeyPair c k => λ x, x = mo_pair m c k
  | _ => λ _, True
  end.

Definition serving (Q : Server → Listener → Prop) : ∀ X, SEv X → Prop := λ X e,
  match e with SServe srv l => Q srv l | _ => False end.

(** A goroutine may serve like this. *)
Definition opens (m : Mounted) (t : Task) (Q : Server → Listener → Prop) : Prop := emits (mounted m) (serving Q) (taskBody t).

Lemma opens_gateway m srv certFile keyFile caFile Q :
  opens m (TaskGateway srv certFile keyFile caFile) Q ↔
  ∃ l, Q srv l ∧
    if negb (certFile =? "") && negb (keyFile =? "") then
      if (caFile =? "") then l = ListenFiles (MkTLSConf VersionTLS12 None None false) certFile keyFile
      else ∃ caPEM, mo_file m caFile = Ok caPEM ∧ l = ListenFiles (MkTLSConf VersionTLS12 None (Some caPEM) true) certFile keyFile
    else l = ListenPlain.
Proof.
  assert (∀ l, emits (mounted m) (serving Q)
    (let! e := emit (SServe srv l) in
     match e with ServeFailed _ => let! _ := emit SCancel in Ret TaskReturned | ServerClosed => Ret TaskReturned end) ↔ Q srv l) as Hserve.
  { intros l. cbn. split; [|by left]. intros [HQ|([|e] & _ & Hr)]; [done..|]. by destruct Hr as [|(? & ? & ?)]. }
  unfold opens. cbn [taskBody]. unfold gatewayServe. destruct (negb _ && negb _); [|rewrite Hserve; naive_solver].
  destruct (caFile =? ""); [rewrite Hserve; naive_solver|]. cbn [pbind emit emits serving mounted]. split.
  - intros [[]|(x & -> & Hr)]. destruct (mo_file m caFile) as [pem|e]; [|by destruct Hr as [|(? & ? & ?)]].
    apply (Hserve (ListenFiles _ _ _)) in Hr. eauto 6.
  - intros (l & HQ & pem & Hpem & ->). right. exists (mo_file m caFile). split; [done|]. rewrite Hpem. by apply (Hserve (ListenFiles _ _ _)).
Qed.

Lemma opens_executor m srv mtls certFile keyFile caFile Q :
  opens m (TaskExecutor srv mtls certFile keyFile caFile) Q ↔
  ∃ l, Q srv l ∧
    if mtls then ∃ cert caPEM, mo_pair m certFile keyFile = Ok cert ∧ mo_file m caFile = Ok caPEM ∧ AppendCertsFromPEM caPEM = true ∧
                   l = ListenPair (MkTLSConf VersionTLS13 (Some cert) (Some caPEM) false)
    else l = ListenPlain.
Proof.
  assert (∀ l, emits (mounted m) (serving Q)
    (let! e := emit (SListen (sv_Addr srv) l) in
     match e with
     | Some _ => Ret (TaskExit 1)
     | None => let! e := emit (SServe srv l) in match e with ServeFailed _ => Ret (TaskExit 1) | ServerClosed => Ret TaskReturned end
     end) ↔ Q srv l) as Hserve.
  { intros l. cbn. split.
    - intros [[]|([e|] & _ & Hr)]; [done|]. by destruct Hr as [HQ|([|e] & _ & Hr)].
    - intros HQ. right. exists None. split; [done|]. by left. }
  unfold opens. cbn [taskBody]. unfold executorServe. destruct mtls; [|rewrite Hserve; naive_solver].
  cbn [pbind emit emits serving mounted]. split.
  - intros [[]|(x & -> & Hr)]. destruct (mo_pair m certFile keyFile) as [cert|e] eqn:Hc; [|done]. cbn [pbind emit emits serving mounted] in Hr.
    destruct Hr as [[]|(x & -> & Hr)]. destruct (mo_file m caFile) as [pem|e] eqn:Hp; [|done].
    destruct (AppendCertsFromPEM pem) eqn:Ha; [|done]. cbn [negb] in Hr. apply (Hserve (ListenPair _)) in Hr. eauto 10.
  - intros (l & HQ & cert & pem & Hc & Hp & Ha & ->). right. exists (Ok cert). split; [done|]. cbn [pbind emit emits serving mounted]. right.
    exists (Ok pem). split; [done|]. rewrite Ha. cbn [negb]. by apply (Hserve (ListenPair _)).
Qed.

Lemma opens_plain m srv Q : opens m (TaskHealth srv) Q ↔ Q srv ListenPlain.
Proof. unfold opens. cbn. naive_solver. Qed.

Lemma opens_health m srv Q : opens m (TaskExecutorHealth srv) Q ↔ Q srv ListenPlain.
Proof. unfold opens. cbn. naive_solver. Qed.

Lemma opens_metrics m srv Q : opens m (TaskMetrics srv "" "") Q ↔ Q srv ListenPlain.
Proof. unfold opens. cbn. naive_solver. Qed.

(** Programs that open nothing. *)
Lemma silent_bind {A B} m Q (p : Prog SEv A) (f : A → Prog SEv B) :
  ¬ emits (mounted m) (serving Q) p → (∀ a, ¬ emits (mounted m) (serving Q) (f a)) → ¬ emits (mounted m) (serving Q) (pbind p f).
Proof.
  intros Hp Hf [?|[a ?]]%emits_bind; [done|by apply (Hf a)].
Qed.

Lemma silent_emit {X} m Q (e : SEv X) : ¬ serving Q X e → ¬ emits (mounted m) (serving Q) (emit e).
Proof. cbn. naive_solver. Qed.

Lemma silent_orWrap m Q msg p k :
  ¬ emits (mounted m) (serving Q) p → ¬ emits (mounted m) (serving Q) k → ¬ emits (mounted m) (serving Q) (orWrap msg p k).
Proof. intros Hp Hk. apply silent_bind; [done|]. intros [e|]; [cbn; tauto|done]. Qed.

Ltac silent :=
  repeat first [apply silent_orWrap | apply silent_bind; [|intros ?] | apply silent_emit; by intros [] | case_match | by cbn; intros []].

Lemma opens_watcher m w Q : ¬ opens m (TaskWatcher w) Q.
Proof.
  unfold opens. cbn [taskBody]. apply silent_bind; [|by cbn; intros _ []].
  unfold watcherStart, kafkaWatcherStart, amqpWatcherStart, natsWatcherStart, webhookWatcherStart, brokerWatcherStart, watchKind, startCache. destruct (wc_Kind w); silent.
Qed.

(** A process with these goroutines may serve like this. *)
Definition listens (m : Mounted) (tasks : list Task) (srv : Server) (l : Listener) : Prop :=
  ∃ t, t ∈ tasks ∧ opens m t (λ srv' l', srv' = srv ∧ l' = l).

(** The environment of a container. *)
Definition containerEnv (c : Container) (name : string) : string :=
  match List.find (λ v, ev_name v =? name) (ct_Env c) with Some v => ev_value v | None => "" end.

(** ** The deployed processes *)

(** The transport of the executor: with mTLS, TLS 1.3 with the key pair of the
    mounted Secret and client certificates verified with its CA. *)
Definition executor_transport (m : Mounted) (r : ExecutorReconciler) (l : Listener) : Prop :=
  if er_MTLSEnabled r
  then ∃ cert caPEM, mo_pair m "/etc/kubezap/tls/tls.crt" "/etc/kubezap/tls/tls.key" = Ok cert ∧ mo_file m "/etc/kubezap/tls/ca.crt" = Ok caPEM ∧
         AppendCertsFromPEM caPEM = true ∧ l = ListenPair (MkTLSConf VersionTLS13 (Some cert) (Some caPEM) false)
  else l = ListenPlain.

Definition mountedAt (c : Container) (secret dir : string) (pod : PodSpec) : Prop :=
  ∃ v, MkMount v dir true ∈ ct_VolumeMounts c ∧ MkVolume v secret ∈ po_Volumes pod.

(** C17: the executor runs as it is deployed.  The main program, with the
    arguments of its container, either ends with status 1 or starts its two
    servers; it does start them when no request fails.  The health server is
    always plain; the main one listens on the container's port with the default
    blocklist, the cluster-internal switch the operator was given and no skipping
    of TLS verification, and with mTLS only through TLS 1.3 with the mounted key
    pair and client certificates verified by the mounted CA: there is no run in
    which it falls back to plain HTTP. *)
Theorem executor_deployed r env c m :
  (0 <= er_ExecutorPort r <= 65535)%Z → c ∈ po_Containers (executorPod r env) →
  process_starts (containerEnv c) (httpExecutorMain (ct_Args c)) (executorTasks r) ∧
  (∀ srv l, listens m (executorTasks r) srv l ↔
     (srv = executorHealthServer executorHealthPort ∧ l = ListenPlain) ∨
     (srv = executorServer (executorPort r) (MkHandler (Some Executor.defaultSSRFBlockedCIDRs) 4096 false (er_SSRFAllowClusterInternal r)) ∧
      executor_transport m r l)) ∧
  MkPort portNameHTTP (executorPort r) ∈ ct_Ports c ∧
  (er_MTLSEnabled r = true → mountedAt c executorMTLSSecretName "/etc/kubezap/tls" (executorPod r env)).
Proof.
  intros Hp ->%list_elem_of_singleton. split_and!.
  - apply executor_starts. unfold executorPort, DefaultExecutorPort, max_int64. case_match; lia.
  - intros srv l. unfold listens, executorTasks. setoid_rewrite elem_of_cons. setoid_rewrite list_elem_of_singleton.
    split.
    + intros (t & [->| ->] & Ho); [apply opens_health in Ho as [<- <-]; by left|]. apply opens_executor in Ho as (l' & [<- <-] & Hl).
      right. split; [done|]. unfold executor_transport. unfold mountedFile in Hl. by destruct (er_MTLSEnabled r).
    + intros [[-> ->]|[-> Hl]]; [eexists; split; [by left|]; by apply opens_health|].
      eexists; split; [by right|]. apply opens_executor. exists l. split; [done|]. unfold executor_transport in Hl. unfold mountedFile.
      by destruct (er_MTLSEnabled r).
  - by left.
  - intros Hm. exists "mtls-certs". cbn. rewrite Hm. split; by left.
Qed.

(** The transport of the webhook gateway: TLS with a server Secret, client
    certificates and the revocation check with a CA Secret besides. *)
Definition gateway_transport (m : Mounted) (t : WebhookGatewayTLSConfig) (l : Listener) : Prop :=
  let files cfg := ListenFiles cfg "/etc/webhook-tls/tls.crt" "/etc/webhook-tls/tls.key" in
  if negb (tlsOn t) then l = ListenPlain
  else if mtlsCAOn t
       then ∃ caPEM, mo_file m "/etc/webhook-mtls-ca/ca.crt" = Ok caPEM ∧ l = files (MkTLSConf VersionTLS12 None (Some caPEM) true)
       else l = files (MkTLSConf VersionTLS12 None None false).

Lemma gateway_listens ns t m srv l :
  listens m (gatewayTasks ns t) srv l ↔
  (srv = metricsServer webhookGatewayMetricsPort CtrlRegistry ∧ l = ListenPlain) ∨
  (srv = gatewayServer webhookGatewayPort (NewWebhookHandler [] 0) ∧ gateway_transport m t l).
Proof.
  assert (mtlsCAOn t = true → tlsOn t = true) as Himp by (unfold mtlsCAOn; by intros [? _]%andb_true_iff).
  assert (∀ P, opens m (TaskGateway (gatewayServer webhookGatewayPort (NewWebhookHandler [] 0)) (gatewayFlag (tlsOn t) "/etc/webhook-tls/tls.crt")
    (gatewayFlag (tlsOn t) "/etc/webhook-tls/tls.key") (gatewayFlag (mtlsCAOn t) "/etc/webhook-mtls-ca/ca.crt")) P ↔
    ∃ l, P (gatewayServer webhookGatewayPort (NewWebhookHandler [] 0)) l ∧ gateway_transport m t l) as Hg.
  { intros P. rewrite opens_gateway. unfold gateway_transport, gatewayFlag.
    destruct (tlsOn t), (mtlsCAOn t); try done; discriminate (Himp eq_refl). }
  unfold listens, gatewayTasks. setoid_rewrite elem_of_cons. setoid_rewrite elem_of_cons. setoid_rewrite list_elem_of_singleton. split.
  - intros (t' & [->|[->| ->]] & Ho); [by apply opens_watcher in Ho| |apply opens_metrics in Ho as [<- <-]; by left].
    apply Hg in Ho as (l' & [<- <-] & Hl). by right.
  - intros [[-> ->]|[-> Hl]]; eexists.
    + split; [right; by right|]. by apply opens_metrics.
    + split; [right; by left|]. apply Hg. by exists l.
Qed.

(** C16: the webhook gateway runs as its namespace's configuration says.
    With the arguments of its container the main program either ends with status 1
    or starts the watcher of that namespace, the gateway and the metrics server,
    and does start them when no request fails.  It serves plain HTTP exactly
    without a server Secret, TLS with one, and with a CA Secret besides requires
    client certificates of the mounted CA and checks their revocation; when the CA
    cannot be read it serves nothing. *)
Theorem gateway_deployed ns t env c m :
  ns ≠ "" → env "WATCH_NAMESPACES" ≠ "*" → c ∈ po_Containers (d_Pod (o_Body (desiredWebhookGatewayDeployment env ns t))) →
  process_starts (containerEnv c) (webhookGatewayMain (ct_Args c)) (gatewayTasks ns t) ∧
  (∀ srv l, listens m (gatewayTasks ns t) srv l ↔
     (srv = metricsServer webhookGatewayMetricsPort CtrlRegistry ∧ l = ListenPlain) ∨
     (srv = gatewayServer webhookGatewayPort (NewWebhookHandler [] 0) ∧ gateway_transport m t l)) ∧
  (tlsOn t = true → mountedAt c (gw_TLSSecretName t) "/etc/webhook-tls" (d_Pod (o_Body (desiredWebhookGatewayDeployment env ns t)))) ∧
  (mtlsCAOn t = true → mountedAt c (gw_MTLSCASecretName t) "/etc/webhook-mtls-ca" (d_Pod (o_Body (desiredWebhookGatewayDeployment env ns t)))).
Proof.
  intros Hns Henv ->%list_elem_of_singleton.
  assert (mtlsCAOn t = true → tlsOn t = true) as Himp by (unfold mtlsCAOn; by intros [? _]%andb_true_iff). split_and!.
  - by apply gateway_starts.
  - intros srv l. apply gateway_listens.
  - intros Ht. exists "webhook-tls". cbn. rewrite Ht. cbn. split; by left.
  - intros Hm. exists "webhook-mtls-ca". cbn. rewrite Hm, (Himp Hm). cbn. split; right; by left.
Qed.

(** ** Probes *)

Definition listens_on (srv : Server) (port : Z) : Prop := sv_Addr srv = ":" +:+ Itoa port ∨ sv_Addr srv = "0.0.0.0:" +:+ Itoa port.

(** An HTTP probe of the kubelet: it does not verify the server and has no client
    certificate. *)
Definition kubelet_connects (p : Probe) (l : Listener) : Prop :=
  match l with
  | ListenPlain => pb_Scheme p ≠ "HTTPS"
  | ListenFiles cfg _ _ | ListenPair cfg => pb_Scheme p = "HTTPS" ∧ tl_ClientCAs cfg = None
  end.

(** Whether a GET is answered with status 200; the readiness of the gateway
    depends on its registry. *)
Definition answersOK (ready : bool) (m : Mux) (path : string) : bool :=
  match m with
  | MuxGateway _ => match route gatewayMux "GET" path with Found GatewayHealthz => true | Found GatewayReadyz => ready | _ => false end
  | MuxExecutor _ => match route executorMux "GET" path with Found HealthzRoute => true | _ => false end
  | MuxHealthz routes => match route routes "GET" path with Found HealthzRoute => true | _ => false end
  | MuxMetrics _ => false
  end.

Definition probes (c : Container) : list Probe := option_list (ct_Liveness c) ++ option_list (ct_Readiness c).

(** A probe succeeds, the gateway being in sync. *)
Definition probe_succeeds (m : Mounted) (tasks : list Task) (p : Probe) : Prop :=
  ∃ srv l, listens m tasks srv l ∧ listens_on srv (pb_Port p) ∧ kubelet_connects p l ∧ answersOK true (sv_Handler srv) (pb_Path p) = true.

(** The container of a broker gateway, and the watcher it runs. *)
Definition brokerDeployment (k : WatcherKind) (env : string → string) (i : Integration) : option (Obj KDep) :=
  match k with
  | WebhookWatch => None
  | KafkaWatch => Some (desiredKafkaGatewayDeployment env i)
  | AmqpWatch => Some (desiredAmqpGatewayDeployment env i)
  | NatsWatch => Some (desiredNatsGatewayDeployment env i)
  end.

Definition brokerMain (k : WatcherKind) : list string → Prog SEv Z :=
  match k with WebhookWatch => webhookGatewayMain | KafkaWatch => kafkaGatewayMain | AmqpWatch => amqpGatewayMain | NatsWatch => natsGatewayMain end.

(** C18: the probes of the deployments.  The probes of the executor reach
    its plain health server also under mTLS, those of a broker gateway the health
    server its process starts.  The probes of the webhook gateway succeed (once it
    is in sync) exactly when it requires no client certificates: with a CA Secret
    they are sent to the port that requires one, which the kubelet cannot present,
    so the pod never becomes ready. *)
Theorem probes_answered r k i ns t env c m p :
  (0 <= er_ExecutorPort r <= 65535)%Z → in_ns i ≠ "" → env "WATCH_NAMESPACES" ≠ "*" → p ∈ probes c →
  (c ∈ po_Containers (executorPod r env) → probe_succeeds m (executorTasks r) p) ∧
  (∀ d, brokerDeployment k env i = Some d → c ∈ po_Containers (d_Pod (o_Body d)) →
     process_starts (containerEnv c) (brokerMain k (ct_Args c)) (brokerTasks k (in_ns i)) ∧
     probe_succeeds m (brokerTasks k (in_ns i)) p) ∧
  (c ∈ po_Containers (d_Pod (o_Body (desiredWebhookGatewayDeployment env ns t))) →
     (probe_succeeds m (gatewayTasks ns t) p ↔ mtlsCAOn t = false)).
Proof.
  intros Hport Hns Henv Hp. split_and!.
  - intros ->%list_elem_of_singleton. exists (executorHealthServer executorHealthPort), ListenPlain.
    assert (listens m (executorTasks r) (executorHealthServer executorHealthPort) ListenPlain) as Hl.
    { eexists. split; [by left|]. by apply opens_health. }
    cbn in Hp. apply elem_of_cons in Hp as [->| ->%list_elem_of_singleton]; (split_and!; [done|by right|done|reflexivity]).
  - intros d Hd Hc. assert (ct_Args c = ["--namespace=" +:+ in_ns i] ∧
      containerEnv c "WATCH_NAMESPACES" = env "WATCH_NAMESPACES" ∧ probes c = [gatewayProbe 5 10; gatewayProbe 3 5]) as (Hargs & He & Hpr).
    { destruct k; cbn in Hd; [discriminate Hd|injection Hd as <-..]; cbn in Hc; apply list_elem_of_singleton in Hc as ->; (split_and!; reflexivity). }
    assert (brokerMain k = brokerGatewayMain k) as -> by (by destruct k). rewrite Hargs. split; [apply broker_starts; [done|by rewrite He]|].
    rewrite Hpr in Hp.
    exists (brokerHealthServer 8090), ListenPlain. split; [eexists; split; [right; by left|]; by apply opens_plain|].
    apply elem_of_cons in Hp as [->| ->%list_elem_of_singleton]; (split_and!; [by left|done|reflexivity]).
  - intros Hc. assert (∃ path, answersOK true (MuxGateway (NewWebhookHandler [] 0)) path = true ∧ pb_Path p = path ∧
      pb_Port p = webhookGatewayPort ∧ pb_Scheme p = if tlsOn t then "HTTPS" else "HTTP") as (path & Hok & <- & Hpp & Hsch).
    { apply list_elem_of_singleton in Hc as ->. cbn in Hp. apply elem_of_cons in Hp as [->| ->%list_elem_of_singleton];
        (eexists; split_and!; [|reflexivity..]; reflexivity). }
    unfold probe_succeeds. setoid_rewrite gateway_listens. split.
    + intros (srv & l & [[-> ->]|[-> Hl]] & Hon & Hcon & _); [destruct Hon as [Hon|Hon]; rewrite Hpp in Hon; discriminate Hon|].
      unfold gateway_transport in Hl. destruct (mtlsCAOn t) eqn:Hm; [|done]. unfold mtlsCAOn in Hm. apply andb_true_iff in Hm as [Ht _].
      rewrite Ht in Hl. destruct Hl as (pem & _ & ->). destruct Hcon as [_ [=]].
    + intros Hm. exists (gatewayServer webhookGatewayPort (NewWebhookHandler [] 0)),
        (if tlsOn t then ListenFiles (MkTLSConf VersionTLS12 None None false) "/etc/webhook-tls/tls.crt" "/etc/webhook-tls/tls.key" else ListenPlain).
      split_and!; [right; split; [done|]; unfold gateway_transport; rewrite Hm; by destruct (tlsOn t)|left; by rewrite Hpp| |done].
      destruct (tlsOn t); cbn [kubelet_connects]; rewrite Hsch; done.
Qed.

End process.
