(* ===== verification/Telemetry.v ===== *)
(** * Tracing

    [internal/telemetry/tracing.go] and the package initialisers that call it
    ([tracing_init.go] of the webhook gateway, the Kafka gateway and the
    executor).  The OpenTelemetry packages are requests; [strconv.ParseFloat] is a
    parameter, floating-point values are rationals, infinities and NaN. *)

From Stdlib Require Import QArith.
From S2P Require Import Prelude SecretIndex GoStd Effects.

Local Open Scope string_scope.
Local Open Scope list_scope.
Local Open Scope go_scope.

Inductive Float := FFin (q : Q) | FPosInf | FNegInf | FNaN.

(** Comparisons with a number; all are false for NaN. *)
Definition f_ltq (f : Float) (b : Q) : bool :=
  match f with FFin q => negb (Qle_bool b q) | FNegInf => true | FPosInf | FNaN => false end.
Definition f_gtq (f : Float) (b : Q) : bool :=
  match f with FFin q => negb (Qle_bool q b) | FPosInf => true | FNegInf | FNaN => false end.

Class FloatLib := { ParseFloat : string → option Float }.

Inductive Provider := NoopProvider | SDKProvider (service version : string) (ratio : Float).
Inductive ShutdownFunc := ShutdownNothing | ShutdownProvider.

Inductive TEv : Type → Type :=
  | TGetenv (name : string) : TEv string
  | TSetPropagator : TEv unit
  | TNewExporter (endpoint : string) : TEv (option gerr)
  | TSetProvider (p : Provider) : TEv unit
  | TStderr (msg : string) : TEv unit.

Section tracing.
  Context `{FloatLib}.

Definition defaultTraceSampleRatio : Float := FFin (1 # 10).

Definition sampleRatio (val : string) : Float :=
  if (val =? "") then defaultTraceSampleRatio
  else match ParseFloat val with
       | None => defaultTraceSampleRatio
       | Some ratio => if f_ltq ratio 0 || f_gtq ratio 1 then defaultTraceSampleRatio else ratio
       end.

Definition traceSampleRatio : Prog TEv Float := let! val := emit (TGetenv "OTEL_TRACES_SAMPLER_ARG") in Ret (sampleRatio val).

Definition InitTracerProvider (serviceName : string) : Prog TEv (result ShutdownFunc) :=
  let! _ := emit TSetPropagator in
  let! endpoint := emit (TGetenv "OTEL_EXPORTER_OTLP_ENDPOINT") in
  if (endpoint =? "") then
    let! _ := emit (TSetProvider NoopProvider) in Ret (Ok ShutdownNothing)
  else
    let! e := emit (TNewExporter endpoint) in
    match e with
    | Some e => Ret (Err e)
    | None =>
        let! ratio := traceSampleRatio in
        let! _ := emit (TSetProvider (SDKProvider serviceName "v0.1.0" ratio)) in
        Ret (Ok ShutdownProvider)
    end.

(** The initialiser of a package: a failure is only reported. *)
Definition tracing_init (component : string) : Prog TEv unit :=
  let! r := InitTracerProvider ("kubezap-" +:+ component) in
  match r with
  | Err e => emit (TStderr ("kubezap: failed to initialize " +:+ component +:+ " tracer provider: " +:+ emsg e +:+ String (ascii_of_nat 10) ""))
  | Ok _ => Ret tt
  end.

Definition webhook_init : Prog TEv unit := tracing_init "webhook-gateway".
Definition kafka_init : Prog TEv unit := tracing_init "kafka-gateway".
Definition executor_init : Prog TEv unit := tracing_init "http-executor".

(** ** Lemmas *)

(** The ratio is a probability, or NaN, which passes both comparisons. *)
Lemma sampleRatio_range val : match sampleRatio val with FFin q => (0 <= q <= 1)%Q | FNaN => True | _ => False end.
Proof.
  assert (0 <= 1 # 10 <= 1)%Q as Hdef by (split; by apply Qle_bool_iff).
  unfold sampleRatio. destruct (val =? ""); [exact Hdef|]. destruct (ParseFloat val) as [[q| | |]|]; cbn; try first [exact I|exact Hdef].
  destruct (Qle_bool 0 q) eqn:Hlo, (Qle_bool q 1) eqn:Hhi; cbn; try exact Hdef. split; by apply Qle_bool_iff.
Qed.

(** The propagator and the provider installed last. *)
Definition trace_spec (env : string → string) : Spec TEv (bool * option Provider) := λ X e g Q,
  match e in TEv X' return (X' → bool * option Provider → Prop) → Prop with
  | TGetenv name => λ Q, Q (env name) g
  | TSetPropagator => λ Q, Q tt (true, g.2)
  | TSetProvider p => λ Q, Q tt (g.1, Some p)
  | TNewExporter _ => λ Q, ∀ x, Q x g
  | TStderr _ => λ Q, Q tt g
  end Q.

#[export] Instance trace_spec_mono env : MonoSpec (trace_spec env).
Proof. intros X e g P Q HPQ Hs. destruct e; cbn in *; eauto. Qed.

(** The propagator is installed in every case, a provider unless an exporter was
    asked for and could not be made. *)
Lemma wp_InitTracerProvider env name :
  wp (trace_spec env) (InitTracerProvider name) (false, None) (λ r g,
    g.1 = true ∧
    match r with
    | Ok ShutdownNothing => env "OTEL_EXPORTER_OTLP_ENDPOINT" = "" ∧ g.2 = Some NoopProvider
    | Ok ShutdownProvider => env "OTEL_EXPORTER_OTLP_ENDPOINT" ≠ "" ∧
        g.2 = Some (SDKProvider name "v0.1.0" (sampleRatio (env "OTEL_TRACES_SAMPLER_ARG")))
    | Err _ => env "OTEL_EXPORTER_OTLP_ENDPOINT" ≠ "" ∧ g.2 = None
    end).
Proof.
  unfold InitTracerProvider. cbn [wp pbind emit trace_spec fst snd].
  destruct (String.eqb_spec (env "OTEL_EXPORTER_OTLP_ENDPOINT") "") as [->|Hne]; [by cbn|].
  cbn [wp pbind emit trace_spec]. intros [e|]; by cbn.
Qed.

End tracing.
