(* ===== verification/Metrics.v ===== *)
(** * Metrics

    [internal/metrics/metrics.go]: the collector that counts the active FlowRuns
    when it is scraped.  Its list of FlowRuns is a request; the counters and
    histograms of the file are declarations. *)

From S2P Require Import Prelude SecretIndex GoStd Api Effects.

Local Open Scope string_scope.
Local Open Scope list_scope.
Local Open Scope go_scope.

Inductive MEv : Type → Type :=
  | MListFlowRuns : MEv (result (list FlowRun))
  (** A gauge value with its namespace and phase labels. *)
  | MGauge (ns phase : string) (n : Z) : MEv unit.

(** The phase a run is counted under: one that has none yet is pending. *)
Definition activePhase (fr : FlowRun) : option string :=
  match fr_Phase fr with
  | FlowRunPhaseRunning => Some "Running"
  | FlowRunPhasePending | PhaseEmpty => Some "Pending"
  | _ => None
  end.

(** [counts[ns][phase]++] *)
Definition countRun (counts : gmap string (gmap string Z)) (fr : FlowRun) : gmap string (gmap string Z) :=
  match activePhase fr with
  | None => counts
  | Some phase =>
      let inner := default ∅ (counts !! fr_Namespace fr) in
      <[fr_Namespace fr := <[phase := (default 0%Z (inner !! phase) + 1)%Z]> inner]> counts
  end.

Definition gaugesOf (counts : gmap string (gmap string Z)) : list (string * string * Z) :=
  x ← map_to_list counts; y ← map_to_list x.2; [(x.1, y.1, y.2)].

(** The gauges, in the order of the maps. *)
Definition Collect : Prog MEv unit :=
  let! r := emit MListFlowRuns in
  match r with
  | Err _ => Ret tt
  | Ok items => pfold (λ _ g, emit (MGauge g.1.1 g.1.2 g.2)) (gaugesOf (foldl countRun ∅ items)) tt
  end.

(** ** What it reports *)

Definition counted (ns phase : string) (fr : FlowRun) : Prop := fr_Namespace fr = ns ∧ activePhase fr = Some phase.
#[global] Instance counted_dec ns phase fr : Decision (counted ns phase fr) := _.

(** The active runs of a namespace in a phase. *)
Definition activeRuns (l : list FlowRun) (ns phase : string) : nat := length (filter (counted ns phase) l).

Lemma counts_spec l ns phase :
  foldl countRun ∅ l !! ns ≫= (λ m, m !! phase) = (if decide (activeRuns l ns phase = 0) then None else Some (Z.of_nat (activeRuns l ns phase))).
Proof.
  unfold activeRuns. induction l as [|fr l IH] using rev_ind; [done|]. rewrite foldl_app, filter_app, length_app. cbn [foldl].
  set (m := foldl countRun ∅ l) in *. assert (∀ k, default ∅ (m !! ns) !! k = m !! ns ≫= λ x, x !! k) as Hin.
  { intros k. destruct (m !! ns); [done|apply lookup_empty]. }
  unfold countRun. destruct (decide (counted ns phase fr)) as [[<- Hp]|Hc].
  - rewrite filter_cons_True, Hp, lookup_insert_eq by done. cbn [mbind option_bind filter list_filter length]. rewrite lookup_insert_eq, Hin, IH.
    repeat case_decide; cbn; first [lia | f_equal; lia].
  - rewrite filter_cons_False by done. cbn [filter list_filter length]. rewrite Nat.add_0_r, <- IH.
    destruct (activePhase fr) as [p|] eqn:Hp; [|done]. destruct (decide (fr_Namespace fr = ns)) as [<-|Hne]; [|by rewrite lookup_insert_ne].
    rewrite lookup_insert_eq. cbn [mbind option_bind]. rewrite lookup_insert_ne; [apply Hin|]. intros ->. by destruct Hc.
Qed.

Lemma elem_of_gaugesOf counts ns phase n : (ns, phase, n) ∈ gaugesOf counts ↔ counts !! ns ≫= (λ m, m !! phase) = Some n.
Proof.
  unfold gaugesOf. rewrite list_elem_of_bind. setoid_rewrite elem_of_map_to_list'. split.
  - intros ([k m] & Hin & Hk). apply list_elem_of_bind in Hin as ([p v] & Hx%list_elem_of_singleton & Hp%elem_of_map_to_list'). cbn in *. simplify_eq. by rewrite Hk.
  - intros (m & Hm & Hp)%bind_Some. exists (ns, m). split; [|done]. apply list_elem_of_bind. exists (phase, n). split; [by left|]. by apply elem_of_map_to_list'.
Qed.

Lemma NoDup_gaugesOf counts : NoDup (gaugesOf counts).
Proof.
  unfold gaugesOf. apply NoDup_bind; [|intros x _; apply NoDup_bind|apply NoDup_map_to_list].
  - intros [k1 m1] [k2 m2] y H1 H2 (a & Ha%list_elem_of_singleton & _)%list_elem_of_bind (b & Hb%list_elem_of_singleton & _)%list_elem_of_bind.
    apply elem_of_map_to_list in H1, H2. cbn in *. simplify_eq. done.
  - intros [k1 m1] [k2 m2] y _ _ Ha%list_elem_of_singleton Hb%list_elem_of_singleton. cbn in *. by simplify_eq.
  - intros y _. apply NoDup_singleton.
  - apply NoDup_map_to_list.
Qed.

(** The API server's answer, and the gauges sent so far. *)
Definition scrape_spec (items : result (list FlowRun)) : Spec MEv (list (string * string * Z)) := λ X e g Q,
  match e in MEv X' return (X' → list (string * string * Z) → Prop) → Prop with
  | MListFlowRuns => λ Q, Q items g
  | MGauge ns phase n => λ Q, Q tt (g ++ [(ns, phase, n)])
  end Q.

#[export] Instance scrape_spec_mono items : MonoSpec (scrape_spec items).
Proof. intros X e g P Q HPQ Hs. destruct e; cbn in *; eauto. Qed.

(** The gauge of a namespace and phase is the number of runs that have it, each
    reported once and none of them zero; a failed list reports nothing. *)
Theorem Collect_exact items :
  wp (scrape_spec items) Collect [] (λ _ g,
    match items with
    | Err _ => g = []
    | Ok l => NoDup g ∧ ∀ ns phase n, (ns, phase, n) ∈ g ↔ n = Z.of_nat (activeRuns l ns phase) ∧ (0 < n)%Z
    end).
Proof.
  unfold Collect. cbn [wp emit pbind scrape_spec]. destruct items as [l|e]; [|done].
  assert (∀ gs g, wp (scrape_spec (Ok l)) (pfold (λ _ x, emit (MGauge x.1.1 x.1.2 x.2)) gs tt) g (λ _ g', g' = g ++ gs)) as Hfold.
  { induction gs as [|[[ns phase] n] gs IH]; intros g; cbn [pfold pbind emit wp scrape_spec]; [by rewrite app_nil_r|].
    eapply wp_mono; [apply _| |apply IH]. cbn. intros _ g' ->. by rewrite <- app_assoc. }
  eapply wp_mono; [apply _| |apply Hfold]. intros _ g ->. cbn [app]. split; [apply NoDup_gaugesOf|].
  intros ns phase n. rewrite elem_of_gaugesOf, counts_spec. case_decide; naive_solver lia.
Qed.
