(* ===== verification/OperatorMain.v ===== *)
(** * The main program of the operator

    [cmd/main.go] with the [SetupWithManager] functions of the controllers and the
    registration of the admission webhooks: flags and environment, certificates,
    the manager and everything added to it.  The Kubernetes libraries are requests;
    the flags they declare themselves are a parameter. *)

From S2P Require Import Prelude SecretIndex GoStd Api Effects Net Ssrf Kube Steps Executor CertUtil CertProps WebhookCerts ExecutorCtl ExecutorChannel AwsPlugin Flags Telemetry.

Local Open Scope string_scope.
Local Open Scope list_scope.
Local Open Scope go_scope.

Section operator.
  Context `{X509Lib} `{FloatLib}.
  Variable filepath_Join : string → string → string.
  (** The flags of controller-runtime: the kubeconfig and its logger's. *)
  Variable libraryFlags : FlagSet.

(** ** Flags *)

Definition operatorFlags : FlagSet :=
  list_to_map
    [("metrics-bind-address", FString ":9090"); ("health-probe-bind-address", FString ":8081"); ("leader-elect", FBool true);
     ("metrics-secure", FBool false); ("webhook-cert-path", FString "/tmp/k8s-webhook-server/serving-certs");
     ("webhook-cert-name", FString "tls.crt"); ("webhook-cert-key", FString "tls.key");
     ("webhook-service-name", FString "kubezap-webhook-service"); ("metrics-cert-path", FString "");
     ("metrics-cert-name", FString "tls.crt"); ("metrics-cert-key", FString "tls.key"); ("enable-http2", FBool false);
     ("flowrun-ttl-succeeded", FDuration (24 * Hour)); ("flowrun-ttl-failed", FDuration (72 * Hour));
     ("max-concurrent-flowruns", FInt 25); ("flowrun-execution-timeout", FDuration Hour); ("disable-cel-cache", FBool false);
     ("cel-cost-limit", FInt 10000); ("http-step-blocked-cidrs", FString ""); ("ssrf-allow-in-cluster", FBool false);
     ("executor-image", FString "ghcr.io/kubezap/http-executor:latest"); ("executor-port", FInt DefaultExecutorPort);
     ("executor-rpc-base-url", FString defaultExecutorRPCBaseURL); ("executor-mtls", FBool false); ("development", FBool false)].

(** ** The manager *)

(** [tlsOpts]: HTTP/1.1 only, and the certificate watched in a directory. *)
Record TLSOpts := MkTLSOpts { to_HTTP1Only : bool; to_CertWatcher : option (string * string) }.

Record ManagerConf := MkManagerConf {
  mg_MetricsAddr : string;
  mg_MetricsSecure : bool;
  (** [FilterProvider]: authentication and authorisation of scrapes. *)
  mg_MetricsFiltered : bool;
  mg_MetricsTLS : TLSOpts;
  mg_WebhookTLS : TLSOpts;
  mg_ProbeAddr : string;
  mg_LeaderElection : bool;
  mg_LeaderElectionID : string;
  mg_Namespaces : gset string
}.

(** The controllers, with what their reconcilers are given. *)
Inductive Controller :=
  | CtlTrigger
  | CtlFlowRun (r : FlowRunReconciler) (maxConcurrent : Z)
  | CtlFlow
  | CtlIntegration
  | CtlExecutor (r : ExecutorReconciler).

(** What runs besides the controllers. *)
Inductive Runnable :=
  | RunResourceWatcher
  | RunGarbageCollector
  | RunCertWatcher (certFile keyFile : string)
  | RunRotator (r : Rotator).

Inductive OEv : Type → Type :=
  | OGetenv (name : string) : OEv string
  (** With the options of the library's flags; the flag forces development mode. *)
  | OSetLogger (development : bool) : OEv unit
  | OGetConfig : OEv (option gerr)
  | OCert {X} (e : CertEv X) : OEv X
  | OTracing {X} (e : TEv X) : OEv X
  | OShutdownTracing (f : ShutdownFunc) : OEv unit
  | OBootstrapClient : OEv (option gerr)
  | OWebhookCerts {X} (e : WEv X) : OEv X
  | OCertWatcher (certFile keyFile : string) : OEv (option gerr)
  | ONewManager (c : ManagerConf) : OEv (option gerr)
  | ONewCronScheduler : OEv unit
  | OStopCronScheduler : OEv unit
  | ODynamicClient : OEv (option gerr)
  | ODiscoveryClient : OEv (option gerr)
  | OAdd (r : Runnable) : OEv (option gerr)
  | OIndexField (field : string) : OEv (option gerr)
  | ORegisterCollector : OEv unit
  | ONewCELEnv (variables : list string) : OEv (option gerr)
  | OComplete (c : Controller) : OEv (option gerr)
  | OStartRotation (bundle : MTLSBundle) : OEv unit
  | ORegisterWebhook (path : string) (decoder : bool) : OEv unit
  | OAddHealthzCheck (name : string) : OEv (option gerr)
  | OAddReadyzCheck (name : string) : OEv (option gerr)
  | OStart : OEv (option gerr).

(** Programs of the components, as part of the process. *)
Fixpoint viaCert {A} (p : Prog CertEv A) : Prog OEv A :=
  match p with Ret a => Ret a | Vis e k => Vis (OCert e) (λ x, viaCert (k x)) end.
Fixpoint viaTracing {A} (p : Prog TEv A) : Prog OEv A :=
  match p with Ret a => Ret a | Vis e k => Vis (OTracing e) (λ x, viaTracing (k x)) end.
Fixpoint viaWebhookCerts {A} (p : Prog WEv A) : Prog OEv A :=
  match p with Ret a => Ret a | Vis e k => Vis (OWebhookCerts e) (λ x, viaWebhookCerts (k x)) end.

(** [os.Exit(1)] on an error. *)
Definition orDie (p : Prog OEv (option gerr)) (k : Prog OEv Z) : Prog OEv Z :=
  let! e := p in match e with Some _ => Ret 1%Z | None => k end.

Definition orErr (msg : string) (p : Prog OEv (option gerr)) (k : Prog OEv (option gerr)) : Prog OEv (option gerr) :=
  let! e := p in match e with Some e => Ret (Some (wrapf msg e)) | None => k end.

(** ** Controllers *)

Definition eventInvolvedObjectNameField : string := "involvedObject.name".

Definition setupTrigger : Prog OEv (option gerr) :=
  orErr "indexing events by involved Trigger name: " (emit (OIndexField eventInvolvedObjectNameField)) (emit (OComplete CtlTrigger)).

(** The CEL environment is set here. *)
Definition withCELEnv (r : FlowRunReconciler) : FlowRunReconciler :=
  MkReconciler (TTLSucceeded r) (TTLFailed r) (ExecutionTimeout r) true (StepBlockedCIDRs r) (Steps.SSRFAllowClusterInternal r)
    (ExecutorBaseURL r) (ExecutorTLSEnabled r) (HasPluginMTLSStore r) (DisableCELCache r) (CELCostLimit r).

Definition setupFlowRun (r : FlowRunReconciler) (maxConcurrent : Z) : Prog OEv (option gerr) :=
  orErr "registering FlowRunReconciler as runnable: " (emit (OAdd RunGarbageCollector))
    (let! _ := emit ORegisterCollector in
     orErr "initializing CEL environment: " (emit (ONewCELEnv ["trigger"; "steps"; "params"]))
       (emit (OComplete (CtlFlowRun (withCELEnv r) (if (maxConcurrent <=? 0)%Z then 10%Z else maxConcurrent))))).

(** ** [main] *)

Definition defaultNamespace : string := "default".

Definition resolveCacheNamespaces (watchNS operatorNamespace : string) : gset string :=
  foldl (λ ns n, let n := TrimSpace n in if (n =? "") then ns else {[n]} ∪ ns) {[operatorNamespace]} (split_char "," watchNS).

Definition flowRunReconciler (fs : FlagSet) (blocked : list IPNet) (mtls : bool) : FlowRunReconciler :=
  MkReconciler (flag_duration fs "flowrun-ttl-succeeded") (flag_duration fs "flowrun-ttl-failed") (flag_duration fs "flowrun-execution-timeout")
    false (Some blocked) (flag_bool fs "ssrf-allow-in-cluster")
    (rpcBaseURL (flag_string fs "executor-rpc-base-url") (flag_int fs "executor-port") mtls) mtls true
    (flag_bool fs "disable-cel-cache") (flag_int fs "cel-cost-limit").

Definition executorReconciler (fs : FlagSet) (operatorNamespace : string) (bundle : option MTLSBundle) : ExecutorReconciler :=
  MkExecutorReconciler (flag_string fs "executor-image") (wrap32 (flag_int fs "executor-port")) (flag_bool fs "executor-mtls") bundle
    (flag_bool fs "ssrf-allow-in-cluster") operatorNamespace.

(** The deferred calls of a normal return. *)
Definition deferred (shutdown : ShutdownFunc) (code : Z) : Prog OEv Z :=
  let! _ := emit OStopCronScheduler in let! _ := emit (OShutdownTracing shutdown) in Ret code.

Definition certOptions (fs : FlagSet) (operatorNamespace : string) : CertOptions :=
  webhookCertOptions operatorNamespace (flag_string fs "webhook-service-name") (flag_string fs "webhook-cert-path")
    (flag_string fs "webhook-cert-name") (flag_string fs "webhook-cert-key").

Definition webhookCertFile (fs : FlagSet) (name : string) : string := filepath_Join (flag_string fs "webhook-cert-path") (flag_string fs name).
Definition metricsCertFile (fs : FlagSet) (name : string) : string := filepath_Join (flag_string fs "metrics-cert-path") (flag_string fs name).
Definition metricsCert (fs : FlagSet) : option (string * string) :=
  if (flag_string fs "metrics-cert-path" =? "") then None else Some (metricsCertFile fs "metrics-cert-name", metricsCertFile fs "metrics-cert-key").

Definition managerConf (fs : FlagSet) (namespaces : gset string) : ManagerConf :=
  let http1 := negb (flag_bool fs "enable-http2") in
  MkManagerConf (flag_string fs "metrics-bind-address") (flag_bool fs "metrics-secure") (flag_bool fs "metrics-secure")
    (MkTLSOpts http1 (metricsCert fs)) (MkTLSOpts http1 (Some (webhookCertFile fs "webhook-cert-name", webhookCertFile fs "webhook-cert-key")))
    (flag_string fs "health-probe-bind-address") (flag_bool fs "leader-elect") "f94ed2f5.kubezap.io" namespaces.

(** From the webhooks on. *)
Definition startManager (fs : FlagSet) (operatorNamespace : string) (shutdown : ShutdownFunc) : Prog OEv Z :=
  let! _ := emit (ORegisterWebhook "/validate-automation-kubezap-io-v1alpha1-flowrun" false) in
  let! _ := emit (ORegisterWebhook "/validate-automation-kubezap-io-v1alpha1-trigger" true) in
  orDie (match metricsCert fs with Some (c, k) => emit (OAdd (RunCertWatcher c k)) | None => Ret None end)
    (orDie (emit (OAdd (RunCertWatcher (webhookCertFile fs "webhook-cert-name") (webhookCertFile fs "webhook-cert-key"))))
       (orDie (emit (OAdd (RunRotator (MkRotator (certOptions fs operatorNamespace) 0))))
          (orDie (emit (OAddHealthzCheck "healthz"))
             (orDie (emit (OAddReadyzCheck "readyz"))
                (orDie (emit OStart) (deferred shutdown 0)))))).

(** From the new manager on: the controllers. *)
Definition setupControllers (fs : FlagSet) (operatorNamespace : string) (bundle : option MTLSBundle) (shutdown : ShutdownFunc) : Prog OEv Z :=
  let! _ := emit ONewCronScheduler in
  orDie (emit ODynamicClient)
    (orDie (emit ODiscoveryClient)
       (orDie (emit (OAdd RunResourceWatcher))
          (orDie setupTrigger
             (match Ssrf.ParseCIDRList (flag_string fs "http-step-blocked-cidrs") with
              | Err _ => Ret 1%Z
              | Ok blocked =>
                  let mtls := flag_bool fs "executor-mtls" && bool_decide (is_Some bundle) in
                  orDie (setupFlowRun (flowRunReconciler fs blocked mtls) (flag_int fs "max-concurrent-flowruns"))
                    (orDie (emit (OComplete CtlFlow))
                       (orDie (emit (OComplete CtlIntegration))
                          (orDie (emit (OComplete (CtlExecutor (executorReconciler fs operatorNamespace bundle))))
                             (let! _ := match bundle with
                                        | Some b => if flag_bool fs "executor-mtls" then emit (OStartRotation b) else Ret tt
                                        | None => Ret tt
                                        end in
                              startManager fs operatorNamespace shutdown))))
              end)))).

(** From the tracer on: certificates, scope, the manager. *)
Definition setupManager (fs : FlagSet) (operatorNamespace : string) (bundle : option MTLSBundle) (shutdown : ShutdownFunc) : Prog OEv Z :=
  orDie (emit OBootstrapClient)
    (orDie (viaWebhookCerts (Ensure filepath_Join (certOptions fs operatorNamespace)))
       (orDie (emit (OCertWatcher (webhookCertFile fs "webhook-cert-name") (webhookCertFile fs "webhook-cert-key")))
          (orDie (match metricsCert fs with Some (c, k) => emit (OCertWatcher c k) | None => Ret None end)
             (let! watchNS := emit (OGetenv "WATCH_NAMESPACES") in
              if (watchNS =? "*") then Ret 1%Z
              else orDie (emit (ONewManager (managerConf fs (resolveCacheNamespaces watchNS operatorNamespace))))
                     (setupControllers fs operatorNamespace bundle shutdown))))).

Definition operatorMain (args : list string) : Prog OEv Z :=
  match Parse (operatorFlags ∪ libraryFlags) args with
  | PExit code => Ret code
  | POk fs _ =>
      let! _ := emit (OSetLogger (flag_bool fs "development")) in
      let! podNS := emit (OGetenv "POD_NAMESPACE") in
      let operatorNamespace := if (podNS =? "") then defaultNamespace else podNS in
      orDie (emit OGetConfig)
        (let! bundle := (if flag_bool fs "executor-mtls"
                         then let! b := viaCert (GenerateMTLSBundle (executorDNSNames operatorNamespace)) in
                              Ret (match b with Ok b => Ok (Some b) | Err e => Err e end)
                         else Ret (Ok None)) in
         match bundle with
         | Err _ => Ret 1%Z
         | Ok bundle =>
             let! tracing := viaTracing (InitTracerProvider "kubezap-controller") in
             match tracing with
             | Err _ => Ret 1%Z
             | Ok shutdown => setupManager fs operatorNamespace bundle shutdown
             end
         end)
  end.

End operator.
