(* ===== verification/OperatorProps.v ===== *)
(** * The operator as it runs

    What the main program of the operator has done when its manager starts: the
    certificates in place, the scope of its caches, the controllers and their
    configuration; and the address the FlowRun controller calls, which is where
    the executors it deploys listen. *)

From S2P Require Import Prelude SecretIndex GoStd Runes Api Effects Net Ssrf Kube Steps Delivery DeliveryProps Executor CertUtil CertProps WebhookCerts WebhookCertsProps ExecutorCtl ExecutorChannel AwsPlugin Flags Telemetry OperatorMain.

Local Open Scope string_scope.
Local Open Scope list_scope.
Local Open Scope go_scope.

(** ** Scope *)

Lemma resolve_from l acc n :
  n ∈ foldl (λ ns n, let n := TrimSpace n in if (n =? "") then ns else {[n]} ∪ ns) acc l ↔
  n ∈ (acc : gset string) ∨ (n ≠ "" ∧ ∃ x, x ∈ l ∧ TrimSpace x = n).
Proof.
  revert acc. induction l as [|x l IH]; intros acc; cbn [foldl]; [set_solver|]. rewrite IH. cbn zeta.
  setoid_rewrite elem_of_cons. destruct (String.eqb_spec (TrimSpace x) "") as [He|Hne]; [naive_solver|].
  rewrite elem_of_union, elem_of_singleton. naive_solver.
Qed.

(** The namespaces of the caches: the operator's own and those listed. *)
Lemma elem_of_resolveCacheNamespaces watch ns n :
  n ∈ resolveCacheNamespaces watch ns ↔ n = ns ∨ (n ≠ "" ∧ ∃ x, x ∈ split_char "," watch ∧ TrimSpace x = n).
Proof. unfold resolveCacheNamespaces. by rewrite resolve_from, elem_of_singleton. Qed.

(** ** The address of the executors *)

Lemma replace_digits old new d : digits d = true → match old with String c _ => in_range 48 57 (byte c) = false | EmptyString => False end →
  replace_go old new 0 d = d.
Proof.
  intros Hd Ho. induction d as [|c d IH]; [done|]. cbn [digits] in Hd. apply andb_true_iff in Hd as [Hc Hd]. cbn [replace_go].
  assert (HasPrefix (String c d) old = false) as ->; [|by rewrite IH].
  destruct old as [|o old]; [done|]. unfold HasPrefix. cbn [String.prefix]. destruct (ascii_dec o c) as [->|]; [by rewrite Ho in Hc|done].
Qed.

(** The base URL of the FlowRun controller, for a namespace. *)
Lemma rpcBaseURL_host port mtls ns : (0 <= port)%Z →
  ReplaceAll (rpcBaseURL defaultExecutorRPCBaseURL port mtls) "%s" ns =
  (if mtls then "https://" else "http://") +:+ executorHost ns +:+ ":" +:+ Itoa port.
Proof.
  intros Hp. assert (rpcBaseURL defaultExecutorRPCBaseURL port mtls =
    (if mtls then "https" else "http") +:+ "://kubezap-http-executor.%s.svc.cluster.local:" +:+ Itoa port) as ->.
  { unfold rpcBaseURL. rewrite String.eqb_refl. cbn [andb].
    assert ((if negb (port =? 8091)%Z then "http://kubezap-http-executor.%s.svc.cluster.local:" +:+ Itoa port else defaultExecutorRPCBaseURL)
      = "http://kubezap-http-executor.%s.svc.cluster.local:" +:+ Itoa port) as ->.
    { destruct (Z.eqb_spec port 8091) as [->|]; [reflexivity|done]. }
    destruct mtls; [|done]. pose proof (replace_digits "http://" "https://" (Itoa port) (Itoa_digits port Hp) eq_refl) as Hd.
    revert Hd. generalize (Itoa port). intros d. lazy. intros Hd. by rewrite Hd. }
  assert (executorHost ns +:+ ":" +:+ Itoa port = "kubezap-http-executor." +:+ ns +:+ ".svc.cluster.local:" +:+ Itoa port) as ->.
  { unfold executorHost. change ".svc.cluster.local:" with (".svc.cluster.local" +:+ ":"). by rewrite !(assoc_L String.append). }
  pose proof (replace_digits "%s" ns (Itoa port) (Itoa_digits port Hp) eq_refl) as Hd. revert Hd. generalize (Itoa port). intros d.
  destruct mtls; lazy; intros Hd; by rewrite Hd.
Qed.

(** ** The start of the manager *)

Section operator.
  Context `{L : X509Laws} `{FloatLib}.
  Variable filepath_Join : string → string → string.
  Variable libraryFlags : FlagSet.
  Variable env : string → string.
  Variable fs : FlagSet.

Definition operatorNS : string := if (env "POD_NAMESPACE" =? "") then defaultNamespace else env "POD_NAMESPACE".

Definition webhookOpts : CertOptions := setDefaults (certOptions fs operatorNS).

(** What has been done, in order, and the world of the webhook certificates. *)
Inductive Act := AManager (c : ManagerConf) | AAdd (r : Runnable) | AComplete (c : Controller) | ARotation (b : MTLSBundle) | AWebhook (path : string) (decoder : bool) | AStart.
Record Op := MkOp { os_world : World; os_acts : list Act }.

Definition push (a : Act) (s : Op) : Op := MkOp (os_world s) (os_acts s ++ [a]).

Definition op_spec : Spec OEv Op := λ X e s Q,
  let may (a : Act) (Q : option gerr → Op → Prop) := (∀ e, Q (Some e) s) ∧ Q None (push a s) in
  match e in OEv X' return (X' → Op → Prop) → Prop with
  | OGetenv name => λ Q, Q (env name) s
  | OCert e => λ Q, cert_spec _ e (w_now (os_world s)) (λ x t, Q x (MkOp (set_now t (os_world s)) (os_acts s)))
  | OWebhookCerts e => λ Q, world_spec webhookOpts _ e (os_world s) (λ x w, Q x (MkOp w (os_acts s)))
  | ONewManager c => may (AManager c)
  | OAdd r => may (AAdd r)
  | OComplete c => may (AComplete c)
  | OStartRotation b => λ Q, Q tt (push (ARotation b) s)
  | ORegisterWebhook p d => λ Q, Q tt (push (AWebhook p d) s)
  | OStart => λ Q, ∀ x, Q x (push AStart s)
  | _ => λ Q, ∀ x, Q x s
  end Q.

#[local] Instance op_spec_mono : MonoSpec op_spec.
Proof.
  intros X e s P Q HPQ Hs. destruct e; cbn in *; try by (intros; apply HPQ, Hs).
  all: try by (destruct Hs; split; [intros; apply HPQ; auto|apply HPQ; auto]).
  - eapply cert_spec_mono; [|exact Hs]. intros x t. apply HPQ.
  - eapply mono_spec; [|exact Hs]. intros x t. apply HPQ.
Qed.

(** Programs of a component. *)
Lemma wp_viaCert {A} (p : Prog CertEv A) s Q :
  wp cert_spec p (w_now (os_world s)) (λ a t, Q a (MkOp (set_now t (os_world s)) (os_acts s))) → wp op_spec (viaCert p) s Q.
Proof.
  revert s. induction p as [a|X e k IH]; intros s; cbn [viaCert wp op_spec].
  { by destruct s as [[] ?]. }
  intros Hs. eapply cert_spec_mono; [|exact Hs]. intros x t Hx. apply IH. cbn in *. eapply wp_mono; [apply _| |exact Hx]. done.
Qed.

Lemma wp_viaTracing {A} (p : Prog TEv A) s (Q : A → Op → Prop) : (∀ a, Q a s) → wp op_spec (viaTracing p) s Q.
Proof. intros HQ. induction p as [a|X e k IH]; cbn; [done|]. intros x. apply IH. Qed.

Lemma wp_viaWebhookCerts {A} (p : Prog WEv A) s Q :
  wp (world_spec webhookOpts) p (os_world s) (λ a w, Q a (MkOp w (os_acts s))) → wp op_spec (viaWebhookCerts p) s Q.
Proof.
  revert s. induction p as [a|X e k IH]; intros s; cbn [viaWebhookCerts wp op_spec].
  { by destruct s. }
  intros Hs. eapply mono_spec; [|exact Hs]. intros x t Hx. apply IH. done.
Qed.

Lemma wp_orDie p k s Q :
  wp op_spec p s (λ e s', match e with Some _ => Q 1%Z s' | None => wp op_spec k s' Q end) → wp op_spec (orDie p k) s Q.
Proof. intros Hp. unfold orDie. apply wp_bind; [apply _|]. eapply wp_mono; [apply _| |exact Hp]. by intros [e|] s'. Qed.

(** What the program does when nothing fails, the bundle and the blocked ranges
    being given. *)
Definition controllerActs (bundle : option MTLSBundle) (blocked : list IPNet) : list Act :=
  [AManager (managerConf filepath_Join fs (resolveCacheNamespaces (env "WATCH_NAMESPACES") operatorNS));
   AAdd RunResourceWatcher; AComplete CtlTrigger; AAdd RunGarbageCollector;
   AComplete (CtlFlowRun (withCELEnv (flowRunReconciler fs blocked (bool_decide (is_Some bundle))))
                (if (flag_int fs "max-concurrent-flowruns" <=? 0)%Z then 10 else flag_int fs "max-concurrent-flowruns"));
   AComplete CtlFlow; AComplete CtlIntegration; AComplete (CtlExecutor (executorReconciler fs operatorNS bundle))] ++
  match bundle with Some b => [ARotation b] | None => [] end.

Definition serverActs : list Act :=
  [AWebhook "/validate-automation-kubezap-io-v1alpha1-flowrun" false; AWebhook "/validate-automation-kubezap-io-v1alpha1-trigger" true] ++
  match metricsCert filepath_Join fs with Some (c, k) => [AAdd (RunCertWatcher c k)] | None => [] end ++
  [AAdd (RunCertWatcher (webhookCertFile filepath_Join fs "webhook-cert-name") (webhookCertFile filepath_Join fs "webhook-cert-key"));
   AAdd (RunRotator (MkRotator (certOptions fs operatorNS) 0))].

(** The end of a run: without its manager started, status 1; started, everything
    is in place. *)
Definition operator_done (code : Z) (s : Op) : Prop :=
  (AStart ∉ os_acts s → code = 1%Z) ∧
  (AStart ∈ os_acts s →
     env "WATCH_NAMESPACES" ≠ "*" ∧
     (∃ bundle blocked,
        (flag_bool fs "executor-mtls" = true ↔ is_Some bundle) ∧ (∀ b, bundle = Some b → bundle_ok (executorDNSNames operatorNS) b) ∧
        Ssrf.ParseCIDRList (flag_string fs "http-step-blocked-cidrs") = Ok blocked ∧
        os_acts s = controllerActs bundle blocked ++ serverActs ++ [AStart]) ∧
     ∃ t, serving filepath_Join webhookOpts t (os_world s)).

Lemma failed s : AStart ∉ os_acts s → operator_done 1 s.
Proof. intros Hn. by split. Qed.

Lemma not_started_push a s : a ≠ AStart → AStart ∉ os_acts s → AStart ∉ os_acts (push a s).
Proof. intros Ha Hs. cbn. rewrite elem_of_app, list_elem_of_singleton. naive_solver. Qed.

(** A step that may fail. *)
Ltac not_started := apply failed; repeat (apply not_started_push; [discriminate|]); assumption.
Ltac may_fail := apply wp_orDie; cbn [wp emit pbind op_spec]; try (split; [intros e; not_started|]).
Ltac either := apply wp_orDie; cbn [wp emit pbind op_spec]; intros [e|]; [not_started|].

Lemma wp_startManager shutdown pre s :
  os_acts s = pre → AStart ∉ pre → (∀ code s', os_acts s' = pre ++ serverActs ++ [AStart] → os_world s' = os_world s → operator_done code s') →
  wp op_spec (startManager filepath_Join fs operatorNS shutdown) s operator_done.
Proof.
  intros Hpre Hn Hdone. unfold startManager. cbn [wp emit pbind op_spec].
  set (s0 := push _ (push _ s)). assert (AStart ∉ os_acts s0) as Hs0 by (unfold s0; cbn; rewrite Hpre; set_solver).
  apply wp_orDie. assert (∃ s1, os_world s1 = os_world s ∧
    os_acts s1 = os_acts s0 ++ match metricsCert filepath_Join fs with Some (c, k) => [AAdd (RunCertWatcher c k)] | None => [] end ∧
    ∀ Q : option gerr → Op → Prop, (∀ e, Q (Some e) s0) → Q None s1 →
      wp op_spec (match metricsCert filepath_Join fs with Some (c, k) => emit (OAdd (RunCertWatcher c k)) | None => Ret None end) s0 Q)
    as (s1 & Hw1 & Ha1 & Hq).
  { destruct (metricsCert filepath_Join fs) as [[c k]|]; [exists (push (AAdd (RunCertWatcher c k)) s0); by cbn|].
    exists s0. rewrite app_nil_r. by cbn. }
  apply Hq; [intros e; by apply failed|]. assert (AStart ∉ os_acts s1) as Hs1 by (rewrite Ha1; repeat case_match; set_solver).
  do 2 may_fail. do 2 either. apply wp_orDie. cbn [wp emit pbind op_spec].
  assert (∀ code, operator_done code (push AStart (push (AAdd (RunRotator (MkRotator (certOptions fs operatorNS) 0)))
    (push (AAdd (RunCertWatcher (webhookCertFile filepath_Join fs "webhook-cert-name") (webhookCertFile filepath_Join fs "webhook-cert-key"))) s1)))) as Hend.
  { intros code. apply Hdone; [|done]. cbn [push os_acts]. rewrite Ha1. unfold s0, serverActs. cbn [push os_acts]. rewrite Hpre. by rewrite <- !app_assoc. }
  intros [e|]; [apply Hend|]. unfold deferred. cbn [wp emit pbind op_spec]. intros _ _. apply Hend.
Qed.

Lemma wp_setupControllers bundle shutdown s :
  (flag_bool fs "executor-mtls" = true ↔ is_Some bundle) → (∀ b, bundle = Some b → bundle_ok (executorDNSNames operatorNS) b) →
  env "WATCH_NAMESPACES" ≠ "*" → (∃ t, serving filepath_Join webhookOpts t (os_world s)) →
  os_acts s = [AManager (managerConf filepath_Join fs (resolveCacheNamespaces (env "WATCH_NAMESPACES") operatorNS))] →
  wp op_spec (setupControllers filepath_Join fs operatorNS bundle shutdown) s operator_done.
Proof.
  intros Hm Hok Henv Hserv Hacts. assert (AStart ∉ os_acts s) as Hns by (rewrite Hacts, list_elem_of_singleton; discriminate). unfold setupControllers. cbn [wp emit pbind op_spec]. intros _. do 2 either. may_fail.
  apply wp_orDie. unfold setupTrigger, orErr. cbn [wp emit pbind op_spec]. intros [e|]; [not_started|].
  cbn [wp emit pbind op_spec]. split; [intros e; not_started|].
  destruct (Ssrf.ParseCIDRList _) as [blocked|e] eqn:Hcidr; [|cbn [wp]; not_started].
  assert (flag_bool fs "executor-mtls" && bool_decide (is_Some bundle) = bool_decide (is_Some bundle)) as ->.
  { case_bool_decide as Hb; [|apply andb_false_r]. by rewrite (proj2 Hm Hb). }
  apply wp_orDie. unfold setupFlowRun, orErr. cbn [wp emit pbind op_spec]. split; [intros e; not_started|].
  cbn [wp emit pbind op_spec]. intros _. intros [e|]; [not_started|]. cbn [wp emit pbind op_spec].
  split; [intros e; not_started|]. do 3 may_fail.
  set (s1 := push (AComplete (CtlExecutor _)) _).
  assert (∃ s2, os_world s2 = os_world s ∧ os_acts s2 = controllerActs bundle blocked ∧ ∀ k : Prog OEv Z, wp op_spec k s2 operator_done →
    wp op_spec (let! _ := match bundle with Some b => if flag_bool fs "executor-mtls" then emit (OStartRotation b) else Ret tt | None => Ret tt end in k)
      s1 operator_done) as (s2 & Hw2 & Ha2 & Hk).
  { destruct bundle as [b|]; [exists (push (ARotation b) s1)|exists s1].
    - split_and!; [done|unfold s1, controllerActs; cbn; by rewrite Hacts|]. intros k Hk. rewrite (proj2 Hm (mk_is_Some _ _ eq_refl)). exact Hk.
    - split_and!; [done|unfold s1, controllerActs; cbn; by rewrite Hacts|]. intros k Hk. exact Hk. }
  apply Hk. apply (wp_startManager _ (controllerActs bundle blocked)); [done|unfold controllerActs; destruct bundle; set_solver|].
  intros code s' Ha Hw. split; [rewrite Ha; set_solver|]. intros _. split_and!; [done| |by rewrite Hw, Hw2]. exists bundle, blocked. by split_and!.
Qed.

(** The main program up to its end. *)
Lemma wp_setupManager bundle shutdown s :
  certPath filepath_Join webhookOpts ≠ keyPath filepath_Join webhookOpts → sound webhookOpts (os_world s) →
  (flag_bool fs "executor-mtls" = true ↔ is_Some bundle) → (∀ b, bundle = Some b → bundle_ok (executorDNSNames operatorNS) b) →
  os_acts s = [] → wp op_spec (setupManager filepath_Join fs operatorNS bundle shutdown) s operator_done.
Proof.
  intros Hpaths Hsound Hm Hok Hacts. assert (AStart ∉ os_acts s) as Hns by (rewrite Hacts; set_solver).
  unfold setupManager. either. apply wp_orDie, wp_viaWebhookCerts.
  eapply wp_mono; [apply _| |by apply (wp_Ensure filepath_Join webhookOpts)]. intros [e|] w' (_ & _ & Hserv); [not_started|].
  either. apply wp_orDie. set (s0 := MkOp w' (os_acts s)).
  assert (∀ Q : option gerr → Op → Prop, (∀ e, Q e s0) →
    wp op_spec (match metricsCert filepath_Join fs with Some (c, k) => emit (OCertWatcher c k) | None => Ret None end) s0 Q) as Hq.
  { intros Q HQ. by destruct (metricsCert filepath_Join fs) as [[c k]|]; cbn. }
  apply Hq. intros [e|]; [not_started|]. cbn [wp emit pbind op_spec].
  destruct (String.eqb_spec (env "WATCH_NAMESPACES") "*") as [He|He]; [cbn [wp]; not_started|].
  may_fail. apply wp_setupControllers; [done|done|done|eauto|cbn; by rewrite Hacts].
Qed.


End operator.
