(* ===== verification/EndToEnd.v ===== *)
(** * From an event to a finished run

    The sources of FlowRuns composed with the FlowRun controller: whatever a
    source (the webhook gateway, the broker gateways, the cron scheduler, the
    resource watcher, the SQS subscriber) creates for a Trigger is a new run of
    the Trigger's Flow, and the controller brings every such run to an end. *)

From S2P Require Import Prelude SecretIndex GoStd Api Effects Interp Net Ssrf Kube FlowCtl Steps Publish FlowRun Frames StepOrder Store FlowRunSafety Progress Executor Webhook AccessLog Delivery Cron ResourceWatcher AwsPlugin AwsSubscriber ServeMux.

Local Open Scope string_scope.
Local Open Scope list_scope.
Local Open Scope go_scope.

(** ** New runs *)

(** A run that nothing has been done for. *)
Definition newRun (key : NamespacedName) (flow type name : string) (annotations : gmap string string) (td : TriggerData) : FlowRun :=
  MkFlowRun
    (MkMeta name key.1 "" 0 0
       (<["kubezap.io/trigger" := key.2]> (<["kubezap.io/trigger-type" := type]> {["kubezap.io/flow" := flow]})) annotations [] 0 None)
    (MkFlowRunSpec flow [] (Some (MkTriggerRef key.2 type)) (Some td) None)
    (MkFlowRunStatus 0 PhaseEmpty [] None None [] "" None).

Definition run_of (key : NamespacedName) (flow type : string) (fr : FlowRun) : Prop :=
  ∃ name annotations td, fr = newRun key flow type name annotations td.

(** ** Sources *)

Section sources.
  Context `{WebLib} `{NetLib} `{SelectorLib} `{!GoLib}.

(** The creations of each kind of handler. *)
Definition g_create (fr : FlowRun) : ∀ X, GEv X → Prop := λ X e, match e with GCreateFlowRun fr' => fr' = fr | _ => False end.
Definition h_create (fr : FlowRun) : ∀ X, HEv X → Prop := λ X e, match e with HCreate fr' => fr' = fr | _ => False end.
Definition c_create (fr : FlowRun) : ∀ X, CEv X → Prop := λ X e, match e with CCreateFlowRun fr' => fr' = fr | _ => False end.
Definition r_create (fr : FlowRun) : ∀ X, REv X → Prop := λ X e, match e with RCreate fr' => fr' = fr | _ => False end.
Definition q_create (fr : FlowRun) : ∀ X, PollEv X → Prop := λ X e, match e with QCreate fr' => fr' = fr | _ => False end.

Definition anything {E : Type → Type} : ∀ X, E X → X → Prop := λ _ _ _, True.

(** The registry the gateway reads. *)
Definition routed (reg : RouteRegistry) : ∀ X, GEv X → X → Prop := λ X e,
  match e in GEv X' return X' → Prop with GRoutes => λ x, x = reg | _ => λ _, True end.

(** An event of a source makes it create a run, for a Trigger and a Flow. *)
Inductive fired : NamespacedName → string → string → FlowRun → Prop :=
  | fired_webhook h proxies r reg entry fr :
      Lookup (rq_Path r) reg = Some entry → emits (routed reg) (g_create fr) (gatewayServed h proxies r) →
      fired (re_TriggerNamespace entry, re_TriggerName entry) (re_FlowRef entry) "webhook" fr
  | fired_kafka h upstream m fr :
      emits anything (h_create fr) (HandleMessage h upstream m) → fired (mh_triggerNamespace h, mh_triggerName h) (mh_flowRefName h) kafkaType fr
  | fired_amqp091 h d fr :
      emits anything (h_create fr) (handleDelivery h d) → fired (mh_triggerNamespace h, mh_triggerName h) (mh_flowRefName h) amqpType fr
  | fired_amqp10 h m fr :
      emits anything (h_create fr) (handleMessage10 h m) → fired (mh_triggerNamespace h, mh_triggerName h) (mh_flowRefName h) amqpType fr
  | fired_nats h m fr :
      emits anything (h_create fr) (HandleMessageNats h m) → fired (mh_triggerNamespace h, mh_triggerName h) (mh_flowRefName h) natsType fr
  | fired_cron job fr :
      emits anything (c_create fr) (cronFire job) → fired (cj_ns job, cj_name job) (cj_flowRef job) "cron" fr
  | fired_resource trigger spec obj eventType rw fr :
      emits anything (r_create fr) (handleEvent trigger spec obj eventType rw) →
      fired (m_Namespace (tg_Meta trigger), m_Name (tg_Meta trigger)) (ts_FlowRef (tg_Spec trigger)) resourceType fr
  | fired_sqs o snap msg fr :
      emits anything (q_create fr) (handleSqsMessage o snap msg) → fired (sn_key snap) (sn_flowRefName snap) TriggerTypePlugin fr.

(** A program creates nothing but new runs of a Flow for a Trigger. *)
Ltac fires :=
  repeat match goal with
  | Hem : emits _ _ (Ret _) |- _ => destruct Hem
  | Hem : emits _ _ (pbind _ _) |- _ => apply emits_bind in Hem as [Hem|[? Hem]]
  | Hem : emits _ _ (emit _) |- _ => destruct Hem as [Hem|(? & _ & [])]; hnf in Hem
  | Hem : False |- _ => destruct Hem
  | Hem : emits _ _ (match ?x with _ => _ end) |- _ => destruct x
  end.

Lemma createFlowRun_fires fr fr' : emits anything (h_create fr) (createFlowRun fr') → fr' = fr.
Proof. intros Hem. unfold createFlowRun in Hem. by fires. Qed.

Lemma gatewayFlowRun_new h type name ann td :
  run_of (mh_triggerNamespace h, mh_triggerName h) (mh_flowRefName h) type (gatewayFlowRun h type name ann td).
Proof. by exists name, ann, td. Qed.

Lemma kafka_fires h upstream m fr :
  emits anything (h_create fr) (HandleMessage h upstream m) → run_of (mh_triggerNamespace h, mh_triggerName h) (mh_flowRefName h) kafkaType fr.
Proof.
  intros Hem. unfold HandleMessage in Hem. fires. apply createFlowRun_fires in Hem as <-. unfold kafkaFlowRun.
  destruct (kafkaKey _), (storeBytes _). apply gatewayFlowRun_new.
Qed.

Lemma amqp091_fires h d fr :
  emits anything (h_create fr) (handleDelivery h d) → run_of (mh_triggerNamespace h, mh_triggerName h) (mh_flowRefName h) amqpType fr.
Proof. intros Hem. unfold handleDelivery in Hem. fires. apply createFlowRun_fires in Hem as <-. apply gatewayFlowRun_new. Qed.

Lemma amqp10_fires h m fr :
  emits anything (h_create fr) (handleMessage10 h m) → run_of (mh_triggerNamespace h, mh_triggerName h) (mh_flowRefName h) amqpType fr.
Proof. intros Hem. unfold handleMessage10 in Hem. fires. apply createFlowRun_fires in Hem as <-. apply gatewayFlowRun_new. Qed.

Lemma nats_fires h m fr :
  emits anything (h_create fr) (HandleMessageNats h m) → run_of (mh_triggerNamespace h, mh_triggerName h) (mh_flowRefName h) natsType fr.
Proof.
  intros Hem. unfold HandleMessageNats, handleMessageNats in Hem. fires; apply createFlowRun_fires in Hem as <-; apply gatewayFlowRun_new.
Qed.

Lemma cron_fires job fr : emits anything (c_create fr) (cronFire job) → run_of (cj_ns job, cj_name job) (cj_flowRef job) "cron" fr.
Proof.
  intros Hem. unfold cronFire, checkCooldown, patched in Hem. fires. rewrite <- Hem. by do 3 eexists.
Qed.

Lemma resource_fires trigger spec obj eventType rw fr :
  emits anything (r_create fr) (handleEvent trigger spec obj eventType rw) →
  run_of (m_Namespace (tg_Meta trigger), m_Name (tg_Meta trigger)) (ts_FlowRef (tg_Spec trigger)) resourceType fr.
Proof.
  intros Hem. unfold handleEvent, cooldownPass, resourceWatcherRandomHex in Hem. fires. rewrite <- Hem. by do 3 eexists.
Qed.

Lemma sqs_fires o snap msg fr :
  emits anything (q_create fr) (handleSqsMessage o snap msg) → run_of (sn_key snap) (sn_flowRefName snap) TriggerTypePlugin fr.
Proof.
  intros Hem. unfold handleSqsMessage in Hem. cbv zeta in Hem. fires. all: rewrite <- Hem; unfold BuildFlowRun; destruct (storeBytes _); by do 3 eexists.
Qed.
Lemma webhook_auth_silent reg fr r body entry proxies : ¬ emits (routed reg) (g_create fr) (authenticateRequest r body entry proxies).
Proof. intros Hem. unfold authenticateRequest, verifySlackHMAC, oidc_validate in Hem. cbv zeta in Hem. fires. Qed.

Lemma acceptRequest_fires reg fr h entry r body fields :
  emits (routed reg) (g_create fr) (acceptRequest h entry r body fields) →
  run_of (re_TriggerNamespace entry, re_TriggerName entry) (re_FlowRef entry) "webhook" fr.
Proof.
  intros Hem. unfold acceptRequest in Hem. fires. rewrite <- Hem. unfold buildFlowRun. destruct (storeBody _ _ _) as [[? ?] ?]. by do 3 eexists.
Qed.

Lemma serveRoute_fires reg fr h entry r fields :
  emits (routed reg) (g_create fr) (serveRoute h entry r fields) →
  run_of (re_TriggerNamespace entry, re_TriggerName entry) (re_FlowRef entry) "webhook" fr.
Proof.
  intros Hem. unfold serveRoute in Hem. cbv zeta in Hem. unfold cooldownAllow in Hem. fires.
  all: first [by apply webhook_auth_silent in Hem | by eapply acceptRequest_fires].
Qed.

Lemma webhook_fires h proxies r reg entry fr :
  Lookup (rq_Path r) reg = Some entry → emits (routed reg) (g_create fr) (gatewayServed h proxies r) →
  run_of (re_TriggerNamespace entry, re_TriggerName entry) (re_FlowRef entry) "webhook" fr.
Proof.
  intros Hl Hem. unfold gatewayServed, AccessLogMiddleware in Hem. fires.
  unfold gatewayHandler in Hem. destruct (route _ _ _) as [[]| | |]; fires. unfold ServeHTTP in Hem.
  apply emits_bind in Hem as [Hem|[sc Hem]]; [fires|]. cbv zeta in Hem. destruct Hem as [[]|(reg' & Hreg & Hem)]. hnf in Hreg. cbn [pbind] in Hem. rewrite Hreg, Hl in Hem.
  by eapply serveRoute_fires.
Qed.

Lemma fired_run_of key flow type fr : fired key flow type fr → run_of key flow type fr.
Proof.
  intros []; [by eapply webhook_fires|by eapply kafka_fires|by eapply amqp091_fires|by eapply amqp10_fires|by eapply nats_fires
    |by eapply cron_fires|by eapply resource_fires|by eapply sqs_fires].
Qed.

End sources.

(** ** The whole way *)

