(* ===== verification/Witnesses.v ===== *)
(** * Concrete instances of the properties of the lower layers

    Each lemma applies a property at an input where its hypotheses hold, in the
    environment of file Instances. *)

From S2P Require Import Prelude SecretIndex GoStd Api Effects Interp Net Ssrf Kube FlowCtl Steps Publish FlowRun Executor Webhook WebhookProps Scram Cron TriggerCtl TriggerProps Frames StepOrder Store FlowRunSafety Progress Instances.

Local Open Scope string_scope.
Local Open Scope list_scope.
Local Open Scope go_scope.

(** ** Templates *)

(** Two vaults with different secrets. *)
Inductive VaultEv : Type → Type := ReadVault (name key : string) : VaultEv string.

Definition vault (s : string) (X : Type) (e : VaultEv X) : X :=
  match e in VaultEv X' return X' with ReadVault _ _ => s end.

Definition vault_resolver (name key : string) : Prog VaultEv (result string) :=
  pbind (emit (ReadVault name key)) (λ v, Ret (Ok v)).

Lemma interpolateTemplate_display_noninterference_witness :
  match run_pure (vault "alpha") (interpolateTemplate "a $(secrets.db.pw) b" ∅ None ∅ (Some vault_resolver)),
        run_pure (vault "beta") (interpolateTemplate "a $(secrets.db.pw) b" ∅ None ∅ (Some vault_resolver)) with
  | Ok (_, display1), Ok (_, display2) => display1 = display2
  | Err _, Err _ => True
  | _, _ => False
  end.
Proof.
  apply (interpolateTemplate_display_noninterference (vault "alpha") (vault "beta") vault_resolver
           "a $(secrets.db.pw) b" ∅ None ∅). reflexivity.
Defined.

Lemma findStepResult_order_independent_witness :
  let a : string * gmap string string := ("first-step", {["id" := "1"]}) in
  let b : string * gmap string string := ("other", {["id" := "2"]}) in
  findStepResult [a; b] "first_step" "id" = findStepResult [b; a] "first_step" "id".
Proof.
  cbv zeta. apply (findStepResult_order_independent
    [("first-step", {["id" := "1"]}); ("other", {["id" := "2"]})]
    [("other", {["id" := "2"]}); ("first-step", {["id" := "1"]})] "first_step" "id").
  - vm_compute. repeat constructor; set_solver.
  - apply perm_swap.
Defined.

Definition demo_decls : list ParamDeclaration := [MkParamDecl "env" true ""; MkParamDecl "retries" false "3"].

Lemma resolveFlowParams_spec_witness :
  match resolveFlowParams demo_decls [MkParamValue "env" "prod"] ∅ None with
  | Ok m => (∀ d, d ∈ demo_decls → ∃ v, m !! pd_Name d = Some v ∧
               param_resolves [MkParamValue "env" "prod"] ∅ None d v) ∧
            (∀ k, is_Some (m !! k) → k ∈ pd_Name <$> demo_decls)
  | Err _ => ∃ d, d ∈ demo_decls ∧ pd_Required d = true ∧
               ∀ v, ¬ param_resolves [MkParamValue "env" "prod"] ∅ None d v
  end.
Proof.
  apply (resolveFlowParams_spec demo_decls [MkParamValue "env" "prod"] ∅ None).
  vm_compute. repeat constructor; set_solver.
Defined.

(** ** SSRF *)

Lemma default_blocklist_v4_witness :
  (isBlockedIP [169; 254; 169; 254]%Z Ssrf.defaultSSRFBlockedCIDRs).1 = v4_blocked 169 254 ∧
  (isBlockedIP (v4InV6Prefix ++ [169; 254; 169; 254]%Z) Ssrf.defaultSSRFBlockedCIDRs).1 = v4_blocked 169 254.
Proof. apply (default_blocklist_v4 169 254 169 254); lia. Defined.

Definition public_dns (X : Type) (e : XEv X) : X :=
  match e in XEv X' return X' with
  | XLookupIP _ => Ok [[93; 184; 216; 34]%Z]
  | XDial _ _ => Ok 1%nat
  | XDo _ _ _ _ _ _ _ => inl (MkDoError "" false false false)
  end.


Lemma ParseCIDRList_never_weakens_witness :
  ∃ l, Ssrf.ParseCIDRList "203.0.113.0/24" = Ok l ∧ (isBlockedIP [127; 0; 0; 1]%Z l).1 = true.
Proof.
  eexists. split; [vm_compute; reflexivity|].
  apply (ParseCIDRList_never_weakens "203.0.113.0/24"); vm_compute; reflexivity.
Defined.

(** ** Flows *)

Lemma Flow_Reconcile_ready_witness :
  wp (flow_spec cyclic_flow) (Flow_Reconcile "default" "flow") NotRead (λ _ s, s ≠ FlowRead).
Proof. apply (Flow_Reconcile_ready cyclic_flow "default" "flow"). Defined.

(** ** The executor *)

#[export] Instance demoExec : ExecLib := {|
  DecodeExecuteRequest := λ s, Ok (MkExecReq "get" s ∅ "" 0 true "" "" "");
  NewOutRequestError := λ _ _, None;
  SystemCertPoolError := None;
  AppendCABundle := λ _, true;
  X509KeyPairError := λ _ _, None
|}.

Definition demo_handler : Handler := MkHandler None 16 false false.


Lemma classify_keeps_ssrf_block_witness :
  HasPrefix (classifyTransportError
    (MkDoError "dial tcp: ssrf_blocked: target IP is in blocked range" false true false)) "ssrf_blocked:" = true.
Proof.
  apply (classify_keeps_ssrf_block
    (MkDoError "dial tcp: ssrf_blocked: target IP is in blocked range" false true false)
    "dial tcp: " " target IP is in blocked range"). reflexivity.
Defined.

(** ** Progress of a run *)

Definition wait_flow : Flow :=
  demo_flow [httpStep "fetch" [];
             MkStep "pause" ["fetch"] [] (MkAction "wait" None None None (Some (MkWait "5m"))) None None OnFailureUnset].


(** ** The webhook gateway *)

#[export] Instance demoWeb : WebLib := {|
  hmac_sha256_hex := λ k m, k +:+ m;
  parseBasicAuth := λ _, None;
  utf8_Valid := λ _, true;
  base64_Encode := λ s, s;
  KeySet := unit;
  jwt_Parse := λ _ _ _ _, Ok tt
|}.

Definition gitlab_route : RouteEntry :=
  MkRoute "gitlab" "default" "deploy" "default" "POST" "header-equals" "" "" 0 "" "" "" "" "" []
    "X-Gitlab-Token" "s3cret" None 0 0 [] false.

Lemma custom_auth_header_persisted_witness :
  let r := with_header "X-Gitlab-Token" ["s3cret"] demo_request in
  (td_Headers <$> frs_TriggerData (fr_Spec (buildFlowRun (MkWebhookHandler [] 65536) gitlab_route r "{}" "run" ∅)))
    ≫= lookup (CanonicalHeaderKey "X-Gitlab-Token") = Some "s3cret".
Proof.
  cbv zeta. apply (custom_auth_header_persisted (MkWebhookHandler [] 65536) gitlab_route
    (with_header "X-Gitlab-Token" ["s3cret"] demo_request) "{}" "run" ∅ "X-Gitlab-Token" "s3cret");
    vm_compute; reflexivity.
Defined.

(** ** SCRAM *)

Definition bit (b : bool) : ascii := if b then "1" else "0".
Definition unbit (c : ascii) : bool := (c =? "1")%char.

Fixpoint bits_encode (s : string) : string :=
  match s with
  | EmptyString => EmptyString
  | String (Ascii a b c d e f g h) s =>
      String (bit a) (String (bit b) (String (bit c) (String (bit d)
        (String (bit e) (String (bit f) (String (bit g) (String (bit h) (bits_encode s))))))))
  end.

Fixpoint bits_decode (s : string) : string :=
  match s with
  | String a (String b (String c (String d (String e (String f (String g (String h s))))))) =>
      String (Ascii (unbit a) (unbit b) (unbit c) (unbit d) (unbit e) (unbit f) (unbit g) (unbit h)) (bits_decode s)
  | _ => EmptyString
  end.

(** A one-byte checksum in place of the MAC. *)
Fixpoint checksum (acc : ascii) (s : string) : ascii :=
  match s with EmptyString => acc | String c s => checksum (byte_xor acc c) s end.

#[export] Instance demoScram : ScramLib := {|
  hmac_Sum := λ k m, String (checksum (checksum "000" k) m) "";
  hash_Sum := λ s, s;
  base64_EncodeToString := bits_encode;
  base64_DecodeString := λ s, Ok (bits_decode s)
|}.

#[export] Instance demoScramLaws : ScramLibLaws.
Proof.
  split; [done| |].
  - intros s. simpl. f_equal. induction s as [|[a b c d e f g h] s IH]; [done|]. simpl. rewrite IH.
    by destruct a, b, c, d, e, f, g, h.
  - intros s. simpl. induction s as [|[a b c d e f g h] s IH]; [done|].
    cbn [bits_encode every list_ascii_of_string forallb]. unfold every in IH. cbn [list_ascii_of_string forallb]. rewrite IH.
    by destruct a, b, c, d, e, f, g, h.
Qed.

Definition scram0 : producerSCRAMClient := MkScram "" "" "" "" "" 0.
Definition scram_cred : ServerCred := MkCred "salt" 2 (hmac_Sum "B" "Client Key") (hmac_Sum "B" "Server Key").

Lemma scram_exchange_witness :
  let '(x1, r1) := Step (Begin scram0 "alice" "B" (Ok "n")).1 "" in
  ∃ bare, r1 = Ok ("n,," +:+ bare) ∧ (∀ u, (∃ cn, client_first bare u cn) ↔ u = "alice") ∧
  ∀ serverFirst, server_first scram_cred "xy" bare serverFirst →
  let '(x2, r2) := Step x1 serverFirst in
  ∃ clientFinal, r2 = Ok clientFinal ∧ (∃ serverFinal, server_final scram_cred "xy" bare serverFirst clientFinal serverFinal) ∧
  ∀ serverFinal, server_final scram_cred "xy" bare serverFirst clientFinal serverFinal →
  let '(x3, r3) := Step x2 serverFinal in r3 = Ok "" ∧ Done x3 = true.
Proof.
  apply (scram_exchange (λ s, s) (λ s _, eq_refl) scram0 "alice" "B" "n" "xy" scram_cred); try (vm_compute; done); [cbn; lia|].
  exists "B". destruct (scramHi_Hi "B" "salt" 2) as (h & Hrun & Hh); [lia|]. vm_compute in Hrun. injection Hrun as <-. by split_and!.
Defined.

Definition sc_x1 : producerSCRAMClient := (Step (Begin scram0 "alice" "B" (Ok "n")).1 "").1.
Definition sc_first : string :=
  "r=" +:+ bits_encode "n" +:+ "xy,s=" +:+ bits_encode "salt" +:+ ",i=2".
Definition sc_x2 : producerSCRAMClient := (Step sc_x1 sc_first).1.
Definition sc_final : string :=
  "v=" +:+ bits_encode (hmac_Sum (hmac_Sum "B" "Server Key") (x_authMessage sc_x2)).

Lemma scram_client_sound_witness : is_ok (Step (Step sc_x2 sc_final).1 "v=again").2 = false.
Proof.
  eapply (scram_client_sound scram0 "alice" "B" "n" sc_first sc_final sc_x1 sc_x2 (Step sc_x2 sc_final).1);
    vm_compute; reflexivity.
Defined.

(** ** Cron *)

Record DemoCron := MkDemoCron { dc_next : nat; dc_jobs : gmap nat (string * CronJob) }.

(** Ids are handed out in order; an empty schedule is refused. *)
#[export] Instance demoCronLib : CronLib := {|
  CronT := DemoCron;
  cron_New := MkDemoCron 0 ∅;
  cron_jobs := λ c, filter (λ kv, kv.1 < dc_next c)%nat (dc_jobs c);
  cron_AddFunc := λ c schedule job,
    if (schedule =? "") then Err (errorf "empty spec string")
    else Ok (dc_next c, MkDemoCron (S (dc_next c)) (<[dc_next c := (schedule, job)]>
                          (filter (λ kv, kv.1 < dc_next c)%nat (dc_jobs c))));
  cron_Remove := λ c id, MkDemoCron (dc_next c) (delete id (dc_jobs c))
|}.

#[export] Instance demoCronLaws : CronLibLaws.
Proof.
  split; simpl.
  - apply map_filter_empty.
  - intros c schedule job id c'. destruct (schedule =? ""); [done|]. intros [= <- <-]. simpl. split.
    + apply map_lookup_filter_None. right. intros x _. simpl. lia.
    + apply map_eq. intros k. apply option_eq. intros v.
      rewrite map_lookup_filter_Some, !lookup_insert_Some, !map_lookup_filter_Some. simpl.
      split; [intros [[[-> ->]|(? & ? & ?)] ?]; auto|]. intros [[-> ->]|(? & ? & ?)]; split; auto; lia.
  - intros c id. apply map_eq. intros k. apply option_eq. intros v.
    rewrite map_lookup_filter_Some, !lookup_delete_Some, map_lookup_filter_Some. naive_solver.
Qed.

Definition demo_trigger (schedule : string) (cooldown : option CooldownPolicy) : Trigger :=
  MkTrigger (demo_meta "nightly")
    (MkTriggerSpec "cron" true None (Some (MkCron schedule "")) None None None None None "flow" cooldown None)
    (MkTriggerStatus [] None "" 0).

(** Registering the same Trigger twice leaves one job. *)
Lemma cron_table_refines_witness :
  let s := fold_left apply_op [OpRegister (demo_trigger "@daily" None); OpRegister (demo_trigger "@hourly" None)]
             NewCronScheduler in
  cs_entries s !! "default/nightly" ≫= (λ id, cron_jobs (cs_cron s) !! id)
  = Some ("@hourly", MkCronJob "default" "nightly" "flow").
Proof.
  cbv zeta. rewrite (proj1 (cron_table_refines
    [OpRegister (demo_trigger "@daily" None); OpRegister (demo_trigger "@hourly" None)])).
  vm_compute. reflexivity.
Defined.

Lemma cron_cooldown_bound_witness :
  wp (cron_spec (demo_trigger "@hourly" (Some (MkCooldown 2 None))) 2 (60 * Second))
    (pfold (λ _ _, cronFire (MkCronJob "default" "nightly" "flow")) (seq 0 5) tt)
    (MkCronGhost (MkTriggerStatus [] None "" 0) 0 0)
    (λ _ g, (Z.of_nat (g_created g) <= 2)%Z).
Proof.
  apply (cron_cooldown_bound (demo_trigger "@hourly" (Some (MkCooldown 2 None))) (MkCooldown 2 None));
    vm_compute; first [reflexivity | split; reflexivity | discriminate].
Defined.

(** ** The Trigger controller *)

Definition demo_tr : TriggerReconciler := MkTriggerReconciler true true.

(** A cron Trigger whose job is registered. *)
Definition demo_tghost : TGhost := MkTGhost [cronTriggerFinalizer] true false None None None.

Definition demo_held : Trigger :=
  set_TFinalizers [cronTriggerFinalizer] (demo_trigger "@hourly" None).

Lemma demo_tghost_inv : tinv demo_tr demo_tghost.
Proof. split; intros Hg; [by split; [|left]|done]. Qed.

Lemma Trigger_Reconcile_finalizers_witness :
  wp (trig_spec "default" "nightly" (finalizer_demand "default" "nightly"))
    (Trigger_Reconcile demo_tr "default" "nightly") demo_tghost (λ _, tinv demo_tr).
Proof. apply (Trigger_Reconcile_finalizers demo_tr "default" "nightly" demo_tghost demo_tghost_inv). Defined.

Lemma Trigger_deletion_releases_witness :
  wp (trig_spec "default" "nightly" (all_demands "default" "nightly"))
    (reconcileDeleted demo_tr "default/nightly" demo_held) demo_tghost released.
Proof.
  apply (Trigger_deletion_releases demo_tr "default" "nightly" demo_held demo_tghost);
    [repeat split; reflexivity|exact demo_tghost_inv].
Defined.

Lemma Trigger_Reconcile_status_witness :
  wp (trig_spec "default" "nightly" (λ X e g, status_demand X e g ∧ credential_demand X e g))
    (Trigger_Reconcile demo_tr "default" "nightly") demo_tghost (λ _ _, True).
Proof. apply (Trigger_Reconcile_status demo_tr "default" "nightly" demo_tghost demo_tghost_inv). Defined.

Lemma gateway_cleanup_only_unused_witness :
  wp (trig_spec "default" "nightly" (cleanup_demand "default"))
    (Trigger_Reconcile demo_tr "default" "nightly") demo_tghost (λ _ _, True).
Proof. apply (gateway_cleanup_only_unused demo_tr "default" "nightly" demo_tghost demo_tghost_inv). Defined.
