(* ===== verification/GatewayWitnesses.v ===== *)
(** * Concrete instances of the gateway and controller properties

    As file Witnesses, for the broker gateways, the resource watcher and the
    Integration controller. *)

From S2P Require Import Prelude SecretIndex GoStd Runes Api Effects Interp Net Ssrf Kube KObjects FlowCtl IntegrationCtl Publish FlowRun Instances Executor Webhook WebhookWatcher Delivery DeliveryProps BrokerWatcher KafkaWatcher IntegrationProps BrokerProps TriggerCtl TriggerProps BrokerReport ResourceWatcher ResourceProps.

Local Open Scope string_scope.
Local Open Scope list_scope.
Local Open Scope go_scope.

(** ** Broker gateways *)

Definition orders_meta (name : string) : ObjectMeta := MkMeta name "shop" "" 0 0 ∅ ∅ [] 0 None.

Definition orders_trigger : Trigger :=
  MkTrigger (orders_meta "orders")
    (MkTriggerSpec "kafka" true None None (Some (MkKafkaTrigger "bus" "orders" "")) None None None None "handle" None None)
    (MkTriggerStatus [] None "" 0).

Definition bus : Integration :=
  MkIntegration (orders_meta "bus")
    (MkIntegSpec "kafka"
       (Some (MkKafkaInteg ["kafka:9092"] None
                (Some (MkKafkaSASL "PLAIN" (MkSecretRef "cred" "user") (MkSecretRef "cred" "pass")))))
       None None None None)
    (MkIntegStatus [] "" None).

(** A cluster whose Secret holds a password, and a broker that accepts. *)
Definition shop (pass : option string) (X : Type) (e : WEv X) : X :=
  match e in WEv X return X with
  | WGetIntegration _ _ => Ok bus
  | WGetSecret _ _ => match pass with
                      | Some p => Ok (<["user" := "u"]> {["pass" := p]})
                      | None => Err (GErr EKNotFound "not found")
                      end
  | WEventf _ _ _ _ => tt
  | WNewConsumerGroup _ _ _ => Ok tt
  | WCreateTemp => Ok "f"
  | WWriteFile _ _ => Ok tt
  | WCloseFile _ => Ok tt
  | WRemoveFile _ => tt
  | WNatsConnect _ _ => Ok 0%nat
  | WNatsClose _ => tt
  | WJetStream _ => Ok tt
  | WJsSubscribe _ _ _ => Ok tt
  | WNatsSubscribe _ _ => Ok tt
  end.

Definition started_watcher : Watcher KafkaConf :=
  run_pure (shop (Some "p")) (callbacks (B := KafkaBroker) [OnAdd (ObjTrigger orders_trigger)] newWatcher).

(** The Trigger gets a consumer; a rotated password gets a new one. *)
Example rotation_restarts :
  let w := run_pure (shop (Some "q")) (handleSecretChange (B := KafkaBroker) ("shop", "cred") started_watcher) in
  bool_decide (w_live started_watcher = {[0%nat]}) && bool_decide (w_live w = {[1%nat]})
  && bool_decide (s_fingerprint <$> (w_subs w !! ("shop", "orders")) = Some "uq") = true.
Proof. vm_compute. reflexivity. Qed.

Lemma watcher_invariant_witness :
  wp log_spec (callbacks (B := KafkaBroker) [OnAdd (ObjTrigger orders_trigger); OnSecret ("shop", "cred")] newWatcher) []
    (λ w _, watcher_ok w ∧ w_live (shutdown w) = ∅ ∧ w_subs (shutdown w) = ∅).
Proof. apply (watcher_invariant (B := KafkaBroker)). Defined.

Definition shop_secrets (pass : string) (name : string) : gmap string string := <["user" := "u"]> {["pass" := pass]}.



Lemma kafkaRunName_unique_witness :
  let h := MkMessageHandler "orders" "shop" "handle" false in
  kafkaRunName h 1 23 ≠ kafkaRunName h 12 3.
Proof.
  cbv zeta. intros He.
  apply (kafkaRunName_unique (MkMessageHandler "orders" "shop" "handle" false) 1 23 12 3) in He as [He _].
  all: first [discriminate | reflexivity | lia | vm_compute; lia].
Defined.

(** ** Resource watcher *)

#[export] Instance demoSelector : SelectorLib := {| LabelSelectorAsSelector := λ _, Ok (λ _, true) |}.

Definition pods : ResourceTrigger := MkResourceTrigger "v1" "Pod" "" None ["create"] [] (Some (60 * Second)%Z).

Definition pods_trigger : Trigger :=
  MkTrigger (orders_meta "pods")
    (MkTriggerSpec "resource" true None None None None None None (Some pods) "handle" None None)
    (MkTriggerStatus [] None "" 0).

Definition pod : Unstructured :=
  {["metadata" := JObj (<["name" := JStr "web"]> {["namespace" := JStr "shop"]})]}.

Lemma resource_cooldown_rate_witness :
  wp (clock_spec "shop/pods/shop/web/added")
     (pfold rwStep [RwAdd pods_trigger pods (RUnstructured pod); RwEvict; RwAdd pods_trigger pods (RUnstructured pod)]
        (startWatcher (NewResourceWatcher true true))) (1000, O)%Z
     (λ _ '(c, n), (Z.of_nat (n - 1) * (60 * Second) <= c - 1000)%Z).
Proof.
  apply (resource_cooldown_rate "shop/pods/shop/web/added" (60 * Second) 1000
           [RwAdd pods_trigger pods (RUnstructured pod); RwEvict; RwAdd pods_trigger pods (RUnstructured pod)]
           (startWatcher (NewResourceWatcher true true))).
  - unfold cooldownEvictionWindow, Hour, Minute, Second. lia.
  - repeat constructor.
  - intros last. discriminate.
Defined.

(** ** Integration controller *)

