(* ===== verification/OperatorWitnesses.v ===== *)
(** * Concrete cases: plugin, certificates, deployments

    Library instances that satisfy the laws the properties of the AWS plugin and
    of the certificates assume, and each property at a concrete input. *)

From S2P Require Import Prelude SecretIndex GoStd Runes Api Effects Interp Net Ssrf Kube KObjects FlowCtl IntegrationCtl Steps Publish FlowRun Instances BrokerWatcher AwsPlugin AwsSubscriber AwsProps AwsContract AwsDeployment CertUtil CertProps WebhookCerts WebhookCertsProps ClusterSpec ExecutorCtl ExecutorChannel GatewayDeploy GatewayDeployProps.

Local Open Scope string_scope.
Local Open Scope list_scope.
Local Open Scope go_scope.

(** ** A codec *)

Fixpoint pos_text (p : positive) : string :=
  match p with xH => "" | xO p => String "0" (pos_text p) | xI p => String "1" (pos_text p) end.
Fixpoint text_pos (s : string) : positive :=
  match s with EmptyString => xH | String "1" s => xI (text_pos s) | String _ s => xO (text_pos s) end.

Lemma text_pos_text p : text_pos (pos_text p) = p.
Proof. induction p as [p IH|p IH|]; cbn; by rewrite ?IH. Qed.

Definition enc {A} `{Countable A} (a : A) : string := pos_text (encode a).
Definition dec {A} `{Countable A} (s : string) : option A := decode (text_pos s).

Lemma dec_enc {A} `{Countable A} (a : A) : dec (enc a) = Some a.
Proof. unfold dec, enc. by rewrite text_pos_text, decode_encode. Qed.

(** ** The AWS plugin *)

Definition envelopeOf (s : string) : option (string * string * string * gmap string string * string * string) := dec s.

(** A section up to a colon, and the rest. *)
Fixpoint section (s : string) : option (string * string) :=
  match s with
  | EmptyString => None
  | String c s => if (c =? ":")%char then Some ("", s)
                  else match section s with Some (a, b) => Some (String c a, b) | None => None end
  end.

Definition sections (d : string) : option ARN :=
  match section d with
  | Some (arn, d) =>
      if (arn =? "arn") then
        match section d with
        | Some (_, d) =>
            match section d with
            | Some (service, d) =>
                match section d with
                | Some (region, d) =>
                    match section d with Some (account, d) => Some (MkARN service region account d) | None => None end
                | None => None end
            | None => None end
        | None => None end
      else None
  | None => None
  end.

Lemma section_spec s a b : section s = Some (a, b) ↔ has_char ":" a = false ∧ s = a +:+ ":" +:+ b.
Proof.
  revert a. induction s as [|c s IH]; intros a; cbn [section]; [split; [done|]; intros [_ H]; by destruct a|].
  destruct (Ascii.eqb_spec c ":") as [->|Hne].
  - split; [by intros [= <- <-]|]. intros [Ha Hs]. destruct a as [|d a]; [by injection Hs as ->|].
    injection Hs as <- _. done.
  - destruct (section s) as [[a' b']|] eqn:Hs.
    + split; [intros [= <- <-]; destruct (proj1 (IH a') eq_refl) as [Ha ->]; cbn [has_char]; rewrite Ha, orb_false_r;
        split; [by apply Ascii.eqb_neq|done]|].
      intros [Ha Heq]. destruct a as [|d a]; [injection Heq as -> _; done|]. injection Heq as <- Heq.
      cbn [has_char] in Ha. apply orb_false_iff in Ha as [_ Ha]. by injection (proj2 (IH a) (conj Ha Heq)) as -> ->.
    + split; [done|]. intros [Ha Heq]. destruct a as [|d a]; [injection Heq as -> _; done|]. injection Heq as <- Heq.
      cbn [has_char] in Ha. apply orb_false_iff in Ha as [_ Ha]. by discriminate (proj2 (IH a) (conj Ha Heq)).
Qed.

#[local] Instance wireAws : AwsLib := {|
  url_Parse := λ _, Ok (MkURL "https" "sqs.eu-west-1.amazonaws.com" "/1/orders");
  arn_Parse := λ d, match sections d with Some a => Ok a | None => Err (errorf "arn: invalid prefix") end;
  DecodePublish := λ limit s,
    if (limit <? Z.of_nat (slen s))%Z then DecTooLarge
    else match envelopeOf s with
         | Some (i, ns, d, h, b, k) => DecRequest (MkPublishRequest i ns d h b k)
         | None => DecInvalid "json"
         end
|}.

#[local] Instance wireHttp : HttpLib := {|
  MarshalExecuteRequest := λ req, Ok (er_URL req);
  DecodeExecuteResponse := λ s, Ok (MkExecResp 200 ∅ s false "");
  NewRequestError := λ _, None;
  DecodePublishFailure := λ _, None;
  DecodePublishSuccess := λ s, Some (sdrop 1 s);
  MarshalEnvelope := λ i ns d h b k, Ok (enc (i, ns, d, h, b, k));
  sha256_hex := λ _, srepeat "0" 64;
  base64_std := λ s, s;
  AppendCertsFromPEM := λ _, true
|}.

#[local] Instance wireLaws : PluginWire.
Proof.
  refine {| EncodeResponse := λ b, match b with PubSuccess id => String "S" id | PubFailure m => String "F" m end |}.
  - intros p s r a res Hc. unfold arn_Parse, wireAws, sections.
    rewrite (proj2 (section_spec ("arn:" +:+ _) "arn" (p +:+ ":" +:+ s +:+ ":" +:+ r +:+ ":" +:+ a +:+ ":" +:+ res)) (conj eq_refl eq_refl)). cbn [String.eqb Ascii.eqb Bool.eqb].
    rewrite (proj2 (section_spec _ p _) (conj (Hc p ltac:(set_solver)) eq_refl)).
    rewrite (proj2 (section_spec _ s _) (conj (Hc s ltac:(set_solver)) eq_refl)).
    rewrite (proj2 (section_spec _ r _) (conj (Hc r ltac:(set_solver)) eq_refl)).
    by rewrite (proj2 (section_spec _ a _) (conj (Hc a ltac:(set_solver)) eq_refl)).
  - intros d a. unfold arn_Parse, wireAws, sections.
    destruct (section d) as [[x d1]|] eqn:H0; [|done]. destruct (String.eqb_spec x "arn") as [->|]; [|done].
    destruct (section d1) as [[p d2]|] eqn:H1; [|done]. destruct (section d2) as [[s d3]|] eqn:H2; [|done].
    destruct (section d3) as [[r d4]|] eqn:H3; [|done]. destruct (section d4) as [[acc res]|] eqn:H4; [|done].
    apply section_spec in H0 as [_ ->], H1 as [? ->], H2 as [? ->], H3 as [? ->], H4 as [? ->]. intros [= <-].
    exists p. split; [|done]. cbn. intros t Ht. rewrite !elem_of_cons, elem_of_nil in Ht. naive_solver.
  - intros i ns d h b k env [= <-] _ _ _ _ _ _. unfold DecodePublish, wireAws, envelopeOf.
    destruct (_ <? _)%Z; [done|]. by rewrite dec_enc.
  - intros id _ Hl. rewrite stake_all by (cbn; lia). done.
  - intros s. vm_compute. done.
Defined.

Definition order_event : string := "arn:aws:sns:eu-west-1:1:orders.fifo".

Lemma plugin_publish_end_to_end_witness :
  let p := MkPublisher true "shop" "bus" in
  let key := pluginPublishIdempotencyKey "uid-1" "notify" in
  let out := run (@plugin_handler _ _ _ _ _ map_to_list (λ _, inl "id-7") p "" Delivered (λ X e, (demo_server (demo_flow []) X e demo_run).1))
               (doPluginPublish demo_reconciler "http://bus" "bus" "shop" order_event "paid" ∅ key) [] in
  length out.2 = 1%nat.
Proof.
  set (env := enc ("bus", "shop", order_event, ∅ : gmap string string, "paid", pluginPublishIdempotencyKey "uid-1" "notify")).
  destruct (plugin_publish_end_to_end map_to_list (λ _, inl "id-7") (MkPublisher true "shop" "bus") "" "" Delivered (λ X e, (demo_server (demo_flow []) X e demo_run).1)
    demo_reconciler "http://bus" "bus" "shop" order_event "paid" ∅ "uid-1" "notify" [] env) as [Hsent _].
  - intros m. reflexivity.
  - by apply acceptTraceparent_spec.
  - repeat constructor.
  - intros k v Hk. by rewrite lookup_empty in Hk.
  - reflexivity.
  - done.
  - cbn zeta. rewrite Hsent; [reflexivity|]. split; [done|]. split.
    + apply (bool_decide_unpack _). vm_compute. exact I.
    + vm_compute. discriminate.
Defined.

Definition queue_trigger : Trigger :=
  MkTrigger (MkMeta "orders" "shop" "" 0 0 ∅ ∅ [] 0 None)
    (MkTriggerSpec "plugin" true None None None None None
       (Some (MkPluginTrigger "bus" {["queueUrl" := "https://sqs.eu-west-1.amazonaws.com/1/orders"]})) None "handle" None None)
    (MkTriggerStatus [] None "" 0).

(** The Trigger appears, its first session is recorded and its goroutine
    started; then it disappears, with its session about to be forgotten. *)
Definition sqs_started : Subscriber * Callback :=
  let s1 := EventHandler (EvAdd (ObjTrigger queue_trigger))
              (NewSubscriber "shop" "bus" (MkOptions 10 20 Second (30 * Second) (5 * Second)) NewHealth) in
  let s2 := resume 3 s1.2 s1.1 in resume 3 s2.2 s2.1.


(** *** Its container *)

Definition bus_plugin : PluginIntegrationSpec :=
  MkPluginInteg "ghcr.io/kubezap/aws" "" 0 [MkPluginSecretRef "aws" (<["id" := "AWS_ACCESS_KEY_ID"]> {["key" := "AWS_SECRET_ACCESS_KEY"]})]
    [MkEnvVar "AWS_REGION" "eu-west-1" None] (Some (MkPluginMTLS true)).

Definition bus : Integration :=
  MkIntegration (MkMeta "bus" "shop" "" 0 0 ∅ ∅ [] 0 None) (MkIntegSpec "plugin" None None None (Some bus_plugin) None) (MkIntegStatus [] "" None).

(** Maps in some order; no other request is made. *)
Definition in_order (X : Type) (e : IEv X) : X :=
  let no := errorf "not asked" in
  match e in IEv X return X with
  | ICluster e => match e with CUnchanged _ _ => true | _ => Err no end
  | INow => 0%Z
  | IMapOrder m => map_to_list m
  | IPairOrder s => elements s
  | IStoreLoad _ => None
  | IStoreSet _ _ | IStoreRemove _ => tt
  | IStatusUpdate _ | ICreateScaled _ | IUpdateScaled _ => Ok tt
  | _ => Err no
  end.

Lemma plugin_deployment_config_witness : ∃ cfg, LoadConfig (pluginEnv in_order bus_plugin bus (λ r, "secret")) = Ok cfg ∧
  cf_MTLSEnabled cfg = true ∧ cf_MTLSCertFile cfg = "/etc/kubezap/mtls/tls.crt" ∧ cf_HealthPort cfg = 8091%Z.
Proof.
  destruct (plugin_deployment_config in_order (λ m, reflexivity _) bus_plugin bus (λ r, "secret")) as [Hiff Hok].
  - split.
    + intros e ->%list_elem_of_singleton. vm_compute. discriminate.
    + intros ref k v ->%list_elem_of_singleton Hv. cbn in Hv. apply lookup_insert_Some in Hv as [[_ <-]|[_ [_ <-]%lookup_singleton_Some]];
        vm_compute; discriminate.
  - split; [discriminate|reflexivity].
  - split; [discriminate|reflexivity].
  - vm_compute. split; discriminate.
  - vm_compute. split_and!; first [discriminate|reflexivity].
  - destruct (LoadConfig _) as [cfg|e] eqn:Hc.
    + exists cfg. destruct (Hok cfg eq_refl) as (_ & _ & Hm & Hf & _). split; [done|]. split; [done|]. split; [by apply Hf|].
      revert Hc. vm_compute. by intros [= <-].
    + exfalso. destruct (proj2 Hiff (ex_intro _ e eq_refl)) as [_ Hx]. vm_compute in Hx. discriminate.
Defined.

(** ** Certificates *)

#[local] Instance toyCrypto : Crypto := {| Key := N; PubKey := N; Public := λ k, k |}.

Definition usageCode (u : KeyUsage) : N := match u with KeyUsageCertSign => 0 | KeyUsageCRLSign => 1 | KeyUsageDigitalSignature => 2 end.
Definition codeUsage (n : N) : KeyUsage := if (n =? 0)%N then KeyUsageCertSign else if (n =? 1)%N then KeyUsageCRLSign else KeyUsageDigitalSignature.
Definition extCode (u : ExtKeyUsage) : bool := match u with ExtKeyUsageServerAuth => true | ExtKeyUsageClientAuth => false end.
Definition codeExt (b : bool) : ExtKeyUsage := if b then ExtKeyUsageServerAuth else ExtKeyUsageClientAuth.

Definition nameCode (n : PkixName) : list string * list string * string := (nm_Organization n, nm_OrganizationalUnit n, nm_CommonName n).
Definition codeName (x : list string * list string * string) : PkixName := MkName x.1.1 x.1.2 x.2.

(** The fields of a certificate, with the key that signed it. *)
Definition certCode : Type :=
  Z * (list string * list string * string) * (list string * list string * string) * Z * Z * bool * bool * list N * list bool * list string * option N * N.

Definition derOf (c : Certificate) (signer : N) : string :=
  enc (x_SerialNumber c, nameCode (x_Subject c), nameCode (x_Issuer c), x_NotBefore c, x_NotAfter c, x_IsCA c, x_BasicConstraintsValid c,
       map usageCode (x_KeyUsage c), map extCode (x_ExtKeyUsage c), x_DNSNames c, x_PublicKey c, signer).

Definition ofDER (der : string) : option (Certificate * N) :=
  match dec (A := certCode) der with
  | Some (sn, sub, iss, nb, na, ca, bc, ku, eku, dns, pk, signer) =>
      Some (MkCertificate der sn (codeName sub) (codeName iss) nb na ca bc (map codeUsage ku) (map codeExt eku) dns pk, signer)
  | None => None
  end.

(** A block ends with a dot. *)
Fixpoint upToDot (s : string) : string :=
  match s with EmptyString => "" | String c s => if Ascii.eqb c "." then "" else String c (upToDot s) end.

Lemma upToDot_enc {A} `{Countable A} (a : A) rest : upToDot (enc a +:+ String "." rest) = enc a.
Proof.
  unfold enc. induction (encode a) as [p IH|p IH|]; [| |done].
  - change (String "1" (upToDot (pos_text p +:+ String "." rest)) = String "1" (pos_text p)). by rewrite IH.
  - change (String "0" (upToDot (pos_text p +:+ String "." rest)) = String "0" (pos_text p)). by rewrite IH.
Qed.

Definition toyParse (der : string) : result Certificate := match ofDER der with Some (c, _) => Ok c | None => Err (errorf "x509: malformed certificate") end.
Definition toyPem (s : string) : option (string * string) := dec (upToDot s).
Definition toyPair (certPEM keyPEM : string) : result TLSCert :=
  match toyPem certPEM, toyPem keyPEM with
  | Some (_, der), Some (_, kd) =>
      match toyParse der, dec (A := N) kd with
      | Ok c, Some k => if bool_decide (x_PublicKey c = Some k) then Ok (MkTLSCert [der] (ECKey k)) else Err (errorf "tls: private key does not match public key")
      | _, _ => Err (errorf "tls: failed to parse")
      end
  | _, _ => Err (errorf "tls: failed to find PEM")
  end.

#[local] Instance toyX509 : X509Lib := {|
  ParseCertificate := toyParse;
  MarshalECPrivateKey := λ k, Ok (enc (A := N) k);
  ParseECPrivateKey := λ s, match dec (A := N) s with Some k => Ok k | None => Err (errorf "x509: failed to parse EC private key") end;
  pem_Encode := λ type bytes, enc (type, bytes) +:+ ".";
  pem_Decode := toyPem;
  X509KeyPair := toyPair;
  CheckSignature := λ der pub, match ofDER der with Some (_, signer) => (signer =? pub)%N | None => false end
|}.

Lemma toyPem_encode (type bytes rest : string) : toyPem ((enc (type, bytes) +:+ ".") +:+ rest) = Some (type, bytes).
Proof.
  unfold toyPem. replace ((enc (type, bytes) +:+ ".") +:+ rest) with (enc (type, bytes) +:+ String "." rest).
  - by rewrite upToDot_enc, dec_enc.
  - generalize (enc (type, bytes)). intros s. induction s as [|c s IH]; [done|].
    change (String c (s +:+ String "." rest) = String c ((s +:+ ".") +:+ rest)). by rewrite IH.
Qed.

#[local] Instance toyX509Laws : X509Laws.
Proof.
  constructor.
  - intros type bytes rest _. apply toyPem_encode.
  - intros k der [= <-]. cbn. by rewrite dec_enc.
  - intros cert certDER k keyDER t Hc [= <-]. cbn in Hc |- *. unfold toyPair.
    rewrite <- (sapp_nil_r (enc (pemBlockTypeCertificate, certDER) +:+ ".")), toyPem_encode.
    rewrite <- (sapp_nil_r (enc (pemBlockTypeECKey, enc k) +:+ ".")), toyPem_encode, Hc, dec_enc.
    case_bool_decide as Hk; [|done]. by intros [= <-].
  - intros der cert. cbn. unfold toyParse, ofDER. destruct (dec der) as [[[[[[[[[[[[sn sub] iss] nb] na] ca] bc] ku] eku] dns] pk] sg]|]; [|done]. by intros [= <-].
Qed.

(** What it encodes it reads back. *)
Lemma toyParse_derOf c signer : toyParse (derOf c signer) = Ok (MkCertificate (derOf c signer) (x_SerialNumber c) (x_Subject c) (x_Issuer c)
  (x_NotBefore c) (x_NotAfter c) (x_IsCA c) (x_BasicConstraintsValid c) (x_KeyUsage c) (x_ExtKeyUsage c) (x_DNSNames c) (x_PublicKey c)).
Proof.
  unfold toyParse, ofDER, derOf. rewrite dec_enc. destruct c as [raw sn [o1 u1 c1] [o2 u2 c2] nb na ca bc ku eku dns pk]. cbn.
  rewrite !map_map. do 2 f_equal.
  - rewrite <- (map_id ku) at 2. apply map_ext. by intros [].
  - rewrite <- (map_id eku) at 2. apply map_ext. by intros [].
Qed.

(** A machine that signs. *)
Definition toyMachine (X : Type) (e : CertEv X) (t : Z) : X * Z :=
  match e in CertEv X return X * Z with
  | XNow => (t, t)
  | XGenerateKey => (Ok 7%N, t)
  | XRandInt _ => (Ok 1%Z, t)
  | XCreateCertificate template parent pub priv =>
      (if bool_decide (x_PublicKey parent = None ∨ x_PublicKey parent = Some priv)
       then Ok (derOf (issued template parent pub "") priv) else Err (errorf "x509: provided PrivateKey doesn't match parent's PublicKey"), t)
  end.

Lemma toyMachine_spec X (e : CertEv X) t Q : cert_spec X e t Q → Q (toyMachine X e t).1 (toyMachine X e t).2.
Proof.
  destruct e as [| | |template parent pub priv]; cbn.
  - intros HQ. by apply HQ.
  - intros HQ. apply HQ.
  - intros HQ. apply HQ.
  - intros [He Hok]. case_bool_decide as Hk; [|apply He]. apply Hok; [|unfold ofDER, derOf; rewrite dec_enc; apply N.eqb_refl|exact Hk].
    apply (toyParse_derOf (issued template parent pub "") priv).
Qed.

Lemma toyPair_own der c k : toyParse der = Ok c → x_PublicKey c = Some k →
  toyPair (EncodeCertPEM der) (pem_Encode pemBlockTypeECKey (enc (A := N) k)) = Ok (MkTLSCert [der] (ECKey k)).
Proof.
  intros Hc Hk. unfold toyPair, EncodeCertPEM. cbn [pem_Encode toyX509].
  rewrite <- (sapp_nil_r (enc (pemBlockTypeCertificate, der) +:+ ".")), toyPem_encode.
  rewrite <- (sapp_nil_r (enc (pemBlockTypeECKey, enc k) +:+ ".")), toyPem_encode, Hc, dec_enc. by rewrite bool_decide_eq_true_2.
Qed.

(** Generation with a machine that always succeeds. *)
Section machine.
  Context `{L : X509Laws} (h : ∀ X, CertEv X → Z → X * Z) (k : Key) (kd : string).
  Hypothesis Hnow : h _ XNow 0%Z = (0%Z, 0%Z).
  Hypothesis Hkey : h _ XGenerateKey 0%Z = (Ok k, 0%Z).
  Hypothesis Hrand : ∀ n, h _ (XRandInt n) 0%Z = (Ok 1%Z, 0%Z).
  Hypothesis Hmarshal : MarshalECPrivateKey k = Ok kd.
  Hypothesis Hsign : ∀ template parent, x_PublicKey parent = None ∨ x_PublicKey parent = Some (Public k) →
    ∃ der c, h _ (XCreateCertificate template parent (Public k) k) 0%Z = (Ok der, 0%Z) ∧ ParseCertificate der = Ok c ∧ x_PublicKey c = Some (Public k).
  Hypothesis Hpair : ∀ der c, ParseCertificate der = Ok c → x_PublicKey c = Some (Public k) →
    X509KeyPair (EncodeCertPEM der) (pem_Encode pemBlockTypeECKey kd) = Ok (MkTLSCert [der] (ECKey k)).

Lemma machine_GenerateCA subject nb na : ∃ c,
  run h (GenerateCA subject nb na) 0%Z = (Ok (c, k), 0%Z) ∧ x_PublicKey c = Some (Public k) ∧ ParseCertificate (x_Raw c) = Ok c.
Proof.
  unfold GenerateCA, randomSerial, emit. cbn [pbind run]. rewrite Hkey. cbn [pbind run]. rewrite Hrand. cbn [pbind run].
  destruct (Hsign (caTemplate 1 subject nb na) (caTemplate 1 subject nb na) (or_introl eq_refl)) as (der & c & -> & Hp & Hk).
  exists c. cbn [run]. rewrite Hp, (parse_raw der c Hp). done.
Qed.

Lemma machine_IssueLeaf caCert subject dns usage nb na : x_PublicKey caCert = Some (Public k) → ∃ der c,
  run h (IssueLeafCert caCert k subject dns usage nb na) 0%Z = (Ok (MkTLSCert [der] (ECKey k)), 0%Z) ∧
  ParseCertificate der = Ok c ∧ x_PublicKey c = Some (Public k).
Proof.
  intros Hca. unfold IssueLeafCert, randomSerial, emit. cbn [pbind run]. rewrite Hkey. cbn [pbind run]. rewrite Hrand. cbn [pbind run].
  destruct (Hsign (leafTemplate 1 subject dns usage nb na) caCert (or_intror Hca)) as (der & c & -> & Hp & Hk).
  exists der, c. cbn [run]. unfold EncodeECPrivateKeyPEM. rewrite Hmarshal, (Hpair der c Hp Hk). done.
Qed.

Lemma machine_bundle names : ∃ b srv, run h (GenerateMTLSBundle names) 0%Z = (Ok b, 0%Z) ∧
  executorServerTLS (filesOf b) = Ok srv ∧ mb_ExpiresAt b = (24 * Hour)%Z.
Proof.
  unfold GenerateMTLSBundle, generateBundle. unfold emit at 1. cbn [pbind run]. rewrite Hnow. cbv zeta. rewrite run_bind.
  destruct (machine_GenerateCA (MkName ["kubezap.io"] ["executor-ca"] "kubezap-executor-ca") 0 (0 + 24 * Hour)) as (ca & -> & Hpub & Hparse).
  cbv beta iota. rewrite run_bind.
  destruct (machine_IssueLeaf ca (MkName [] [] "kubezap-http-executor") names ExtKeyUsageServerAuth 0 (0 + 24 * Hour) Hpub)
    as (der & c & -> & Hc & Hk). cbv beta iota. rewrite run_bind.
  destruct (machine_IssueLeaf ca (MkName [] [] "kubezap-controller") [] ExtKeyUsageClientAuth 0 (0 + 24 * Hour) Hpub) as (der' & c' & -> & _).
  cbv beta iota. cbn [run]. eexists _, _. split; [reflexivity|]. split; [|reflexivity].
  unfold executorServerTLS, filesOf, ServerCertPEM, ServerKeyPEM, CACertPEM, CertChainPEM, PrivateKeyPEM, EncodeECPrivateKeyPEM.
  cbn [ef_cert ef_key ef_ca mb_ServerCert mb_CACert tls_Certificate tls_PrivateKey fold_left]. rewrite Hmarshal.
  change ("" +:+ EncodeCertPEM der) with (EncodeCertPEM der). rewrite (Hpair der c Hc Hk), ParseCertPEM_one, Hparse. reflexivity.
Qed.

End machine.

(** The bundle is generated at the instant 0, its files load, and it lives for 24
    hours. *)
Lemma toyBundle_ok : ∃ b srv, run toyMachine (GenerateMTLSBundle (executorDNSNames "kubezap-system")) 0%Z = (Ok b, 0%Z) ∧
  executorServerTLS (filesOf b) = Ok srv ∧ mb_ExpiresAt b = (24 * Hour)%Z.
Proof.
  apply (machine_bundle toyMachine 7%N (enc (A := N) 7%N)); [reflexivity..| |].
  - intros template parent Hparent. cbn [toyMachine]. rewrite bool_decide_eq_true_2 by exact Hparent.
    exists (derOf (issued template parent 7%N "") 7%N). eexists. split; [reflexivity|]. split; [apply toyParse_derOf|reflexivity].
  - intros der c Hp Hk. by apply (toyPair_own der c).
Qed.

Lemma plugin_channel_mutual_witness :
  wp cert_spec (storeGetOrGenerate NewPluginMTLSStore "shop" "bus" ["bus.shop.svc"]) 0%Z (λ r t',
    match r.1 with
    | Err _ => r.2 = ∅
    | Ok b => ∀ u, (t' <= u <= t' + Hour - Second)%Z → mutual u ["bus.shop.svc"] b
    end).
Proof.
  eapply wp_mono; [apply _| |apply (plugin_channel_mutual (λ _ _, ["bus.shop.svc"]) 0 NewPluginMTLSStore "shop" "bus")].
  - intros r t' (_ & _ & Hr). destruct r.1; [apply Hr|exact Hr].
  - intros ns name b _ Hb. unfold NewPluginMTLSStore in Hb. by rewrite lookup_empty in Hb.
  - reflexivity.
Defined.

Definition certDirJoin (dir file : string) : string := dir +:+ "/" +:+ file.

Lemma webhook_certificates_consistent_witness :
  let o := webhookCertOptions "kubezap-system" "kubezap-webhook" "/certs" "" "" in
  wp (world_spec (setDefaults o)) (Ensure certDirJoin o) (MkWorld 0 None ∅ None)
    (λ e w', e = None → serving certDirJoin (setDefaults o) 0 w').
Proof.
  cbn zeta. set (o := webhookCertOptions _ _ _ _ _).
  eapply wp_mono; [apply _| |apply (webhook_certificates_consistent certDirJoin (setDefaults o) ltac:(vm_compute; discriminate) o (MkWorld 0 None ∅ None) 3 0)].
  - intros e w' (_ & _ & Hs). exact Hs.
  - reflexivity.
  - intros s Hs. discriminate Hs.
Defined.


(** ** The webhook gateway *)

Definition gateway_config : WebhookGatewayConfig :=
  MkGatewayConfig (MkMeta "default" "shop" "" 0 0 ∅ ∅ [] 0 None)
    (MkGatewayConfigSpec (Some (MkGatewayTLSSpec (Some "gateway-tls") (Some "partners-ca") None)) None None) [].

Lemma webhook_gateway_resources_witness :
  wp (gateway_spec "shop" (Some gateway_config) (λ _, Err (GErr EKNotFound "not found"))) (ensureWebhookGateway (λ _, "") "shop") []
    (λ e l', e = None → gateway_there "shop" (Some gateway_config) l').
Proof.
  apply (webhook_gateway_resources (λ _, "") "shop" (Some gateway_config) (λ _, Err (GErr EKNotFound "not found"))).
  intros c [= <-]. reflexivity.
Defined.
