(* ===== verification/CliWitnesses.v ===== *)
(** * Concrete cases: the command line client

    A sort that satisfies the laws of [Cli], and the history of a cluster with two
    FlowRuns. *)

From stdpp Require Import sorting.
From S2P Require Import Prelude GoStd Runes Api Effects Cli CliProps.

Local Open Scope string_scope.
Local Open Scope list_scope.
Local Open Scope go_scope.

Definition newerFirst (a b : FlowRun) : Prop := (createdAt b <= createdAt a)%Z.

#[export] Instance newerFirst_dec a b : Decision (newerFirst a b).
Proof. unfold newerFirst. apply _. Defined.

#[export] Instance newerFirst_total : Total newerFirst.
Proof. intros a b. unfold newerFirst. lia. Qed.

#[export] Instance newerFirst_trans : Transitive newerFirst.
Proof. intros a b c. unfold newerFirst. lia. Qed.

(** Seconds are shown without decimals. *)
#[export] Instance demoCli : CliLib :=
  {| FormatSeconds := λ _ d, Itoa (d / Second); FormatUTC := λ t, Itoa (t / Second); sortNewest := merge_sort newerFirst |}.

#[export] Instance demoCliLaws : CliLibLaws.
Proof.
  split.
  - intros l. apply merge_sort_Permutation.
  - intros l. apply (StronglySorted_merge_sort newerFirst).
Qed.

Definition demoRun (ns name : string) (created : Z) (phase : FlowRunPhase) : FlowRun :=
  MkFlowRun (MkMeta name ns "" 1 1 {["kubezap.io/trigger" := "orders"]} ∅ [] created None)
    (MkFlowRunSpec "ship" [] (Some (MkTriggerRef "orders" "webhook")) None None)
    (MkFlowRunStatus 1 phase [] (Some created) (Some (created + 90 * Second)%Z) [] "" None).

Definition demoStore : list FlowRun :=
  [demoRun "shop" "orders-1" (10 * Second) FlowRunPhaseSucceeded; demoRun "shop" "orders-2" (20 * Second) FlowRunPhaseFailed;
   demoRun "lab" "orders-3" (30 * Second) FlowRunPhaseFailed].

(** A cluster whose context is in the namespace shop. *)
Definition demoCluster (X : Type) (e : CliEv X) (g : Screen) : X * Screen :=
  match e in CliEv X' return X' * Screen with
  | CNow => (100 * Second, g)%Z
  | CClientConfig => (Ok tt, g)
  | CContextNamespace => (Ok "shop", g)
  | CNewClient => (Ok tt, g)
  | CListFlowRuns ns trigger => (Ok (List.filter (selects ns trigger) demoStore), g)
  | CGetFlowRun _ _ => (Err (errorf "not found"), g)
  | CListTriggers _ => (Ok [], g)
  | CListFlows _ => (Ok [], g)
  | CListIntegrations _ => (Ok [], g)
  | CGetDeployment _ _ => (Err (errorf "not found"), g)
  | CHealthz _ => (None, g)
  | CTick => (true, g)
  | CWatchable => (false, g)
  | CWatch _ _ => (Ok tt, g)
  | CNextEvent => (WDone, g)
  | CPrint p => (tt, MkScreen (p :: sc_printed g))
  end.

(** With [--all-namespaces] the run of the namespace lab is missing. *)
Example all_namespaces_shows_one :
  (run demoCluster (historyCmd 0 [] "" "" "" "" "" "table" false true) (MkScreen [])).2
    = MkScreen [PTable flowRunHeaders
        [["orders-2"; "orders"; "ship"; "Failed"; "90s"; "1m"]; ["orders-1"; "orders"; "ship"; "Succeeded"; "90s"; "1m"]]].
Proof. vm_compute. reflexivity. Qed.

Lemma history_command_exact_witness :
  wp (cluster_spec demoStore (λ t, t = 100 * Second)%Z) (historyCmd 0 [] "shop" "orders" "" "failed" "1h" "table" false false) (MkScreen [])
    (λ e g, e = None → ∃ l p, l ≡ₚ [demoRun "shop" "orders-2" (20 * Second) FlowRunPhaseFailed] ∧ sc_printed g = [p] ∧ shows FormatTable l p).
Proof.
  eapply wp_mono; [apply _| |apply (history_command_exact demoStore (λ t, t = 100 * Second)%Z 0 [] "shop" "orders" "" "failed" "1h" "table"); discriminate].
  intros e g Hg ->. destruct Hg as (ns & d & format & _ & Hns & Hd & Hf & cutoff & l & p & Hcut & Hperm & _ & Hp & Hs).
  specialize (Hns ltac:(discriminate)). subst ns. vm_compute in Hd. injection Hd as <-. cbn in Hf. injection Hf as <-.
  destruct (proj2 Hcut ltac:(cbn; lia)) as (now & -> & ->).
  exists l, p. split; [|by split]. exact Hperm.
Defined.
