(* ===== verification/StartupWitnesses.v ===== *)
(** * Concrete cases: the processes and the whole way of an event

    As file Witnesses, for the properties of the main programs and of their
    composition. *)

From S2P Require Import Prelude SecretIndex GoStd Runes Api Effects Interp Net Ssrf Kube KObjects FlowCtl IntegrationCtl Steps Publish FlowRun Frames StepOrder Store FlowRunSafety Progress Instances Executor Webhook AccessLog Delivery ResourceWatcher AwsPlugin CertUtil CertProps WebhookCerts WebhookCertsProps ClusterSpec ExecutorCtl ExecutorChannel GatewayDeploy Flags ServeMux Startup StartupProps Telemetry OperatorMain OperatorProps EndToEnd Witnesses GatewayWitnesses OperatorWitnesses.

Local Open Scope string_scope.
Local Open Scope list_scope.
Local Open Scope go_scope.

#[local] Existing Instance toyCrypto.
#[local] Existing Instance toyX509.
#[local] Existing Instance toyX509Laws.
#[local] Existing Instance demoHttp.
#[local] Instance demoLog : LogLib := {| ParseAtomicLevel := λ s, Some s |}.
#[local] Instance demoFloat : FloatLib := {| ParseFloat := λ _, None |}.

(** ** Deployed processes *)

Definition shopEnv (name : string) : string :=
  if (name =? "WATCH_NAMESPACES") then "shop, team-b" else if (name =? "POD_NAMESPACE") then "kubezap-system" else "".

(** Every file can be read; a key pair is named by its certificate. *)
Definition shopFiles : Mounted := MkMounted (λ f, Ok ("PEM of " +:+ f)) (λ c _, Ok ("pair of " +:+ c)).

Definition mtlsExecutor : ExecutorReconciler := MkExecutorReconciler "" 9000 true None false "kubezap-system".
Definition emptyContainer : Container := MkContainer "" "" "" [] [] [] [] (MkSecurity false false false None false false) None None None.
Definition mtlsExecutorContainer : Container := hd emptyContainer (po_Containers (executorPod mtlsExecutor shopEnv)).

Lemma executor_deployed_witness :
  process_starts (containerEnv mtlsExecutorContainer) (httpExecutorMain (ct_Args mtlsExecutorContainer)) (executorTasks mtlsExecutor) ∧
  listens shopFiles (executorTasks mtlsExecutor)
    (executorServer 9000 (MkHandler (Some Executor.defaultSSRFBlockedCIDRs) 4096 false false))
    (ListenPair (MkTLSConf VersionTLS13 (Some "pair of /etc/kubezap/tls/tls.crt") (Some "PEM of /etc/kubezap/tls/ca.crt") false)).
Proof.
  destruct (executor_deployed mtlsExecutor shopEnv mtlsExecutorContainer shopFiles) as (Hs & Hl & _); [cbn; lia|by left|].
  split; [exact Hs|]. apply Hl. right. split; [reflexivity|]. by exists "pair of /etc/kubezap/tls/tls.crt", "PEM of /etc/kubezap/tls/ca.crt".
Defined.

Definition mtlsGateway : WebhookGatewayTLSConfig := MkGatewayTLS "shop-tls" "shop-clients" "shop-crl".
Definition gatewayContainer (t : WebhookGatewayTLSConfig) : Container :=
  hd emptyContainer (po_Containers (d_Pod (o_Body (desiredWebhookGatewayDeployment shopEnv "shop" t)))).

Lemma gateway_deployed_witness :
  process_starts (containerEnv (gatewayContainer mtlsGateway)) (webhookGatewayMain (ct_Args (gatewayContainer mtlsGateway)))
    (gatewayTasks "shop" mtlsGateway) ∧
  ∀ srv, ¬ listens shopFiles (gatewayTasks "shop" mtlsGateway) srv (ListenFiles (MkTLSConf VersionTLS12 None None false) "/etc/webhook-tls/tls.crt" "/etc/webhook-tls/tls.key").
Proof.
  destruct (gateway_deployed "shop" mtlsGateway shopEnv (gatewayContainer mtlsGateway) shopFiles) as (Hs & Hl & _); [done|done|by left|].
  split; [exact Hs|]. intros srv [[_ [=]]|[_ (pem & _ & [=])]]%Hl.
Defined.

Definition gatewayLiveness (t : WebhookGatewayTLSConfig) : Probe := default (MkProbe "" 0 "" 0 0 0) (ct_Liveness (gatewayContainer t)).

Lemma probes_answered_witness :
  ¬ probe_succeeds shopFiles (gatewayTasks "shop" mtlsGateway) (gatewayLiveness mtlsGateway).
Proof.
  destruct (probes_answered mtlsExecutor KafkaWatch GatewayWitnesses.bus "shop" mtlsGateway shopEnv (gatewayContainer mtlsGateway) shopFiles
    (gatewayLiveness mtlsGateway)) as (_ & _ & Hg); [cbn; lia|done|done|by left|].
  intros Hp. by apply Hg in Hp; [|by left].
Defined.

(** ** The operator *)


(** ** The whole way *)

Definition ordersHandler : MessageHandler := MkMessageHandler "orders" "default" "flow" false.
Definition ordersMessage : KafkaMessage := MkKafkaMessage "orders" 0 7 None "{}" [].

Definition ordersRun : FlowRun := kafkaFlowRun ordersHandler ordersMessage "".

